(* ===== verification/_CoqProject ===== *)
-Q . S2P
Prelude.v
RustStr.v
Proto.v
Subnet.v
Store.v
Validate.v
Vm.v
HostCommands.v
Jailer.v
VmLaws.v
VmEnd.v
Firecracker.v
Machine.v
MachineKey.v
MachineLaws.v
Edge.v
Agent.v
AgentSys.v
AgentHost.v
AgentBoot.v
AgentProps.v
AgentServe.v
Image.v
ImageLaws.v
ImageTar.v
RunConfig.v
Trace.v
GuestInit.v
GuestExec.v
Metrics.v
Api.v
ApiLaws.v
Cache.v
CacheLaws.v
Dashboard.v
Screen.v
Cli.v
CliLaws.v
Tls.v
Acme.v
TlsLaws.v
AcmeLaws.v
AgentEdge.v
Rootfs.v
Egress.v
Network.v
AgentRun.v
Release.v
Install.v
InstallLaws.v
Main.v
