(* ===== verification/Prelude.v ===== *)
(** * A verification library for Cirrocumulus

    Cirrocumulus runs applications in Firecracker virtual machines on a
    single Linux host, a _Node_. One binary, [cirro], is the command line,
    the Node's agent and the installer; a second one, [guest-init], is the
    first process of every guest. This library models the program's own logic
    as Rocq functions, one definition per operation of the source, and proves
    what makes it correct. Nothing is assumed: every theorem's hypotheses are
    in its statement.

    ** The program, and where each part is modelled

    Paths are under [src/crates/].

    - _The Node agent_ ([cirro-node/src/agent.rs]) serves an HTTP API on a
      Unix socket and owns the registry of VMs. [Agent] has its state and
      every handler and background task, cut where they hand over (a start,
      a wake and an end are one piece each, see below);
      [AgentSys] runs the pieces in any order with the tasks, park claims and
      leases they leave behind, and [AgentHost] and [AgentBoot] add the host
      and the restarts: [AgentNode] is the Node with its agent up or down, and
      [node_step] everything that can happen to it. [AgentProps] and
      [AgentServe] hold the theorems about every state so reached. [AgentRun]
      is [run] itself: the start in source order, the accept loop and the
      shutdown, on top of [AgentBoot]'s Node. [Api] serves requests, any
      number at a time, from the body to the answer, between the agent's other
      events: what a handler does at once, what it then waits for, and clients
      that go away; [ApiLaws] proves it.
    - _VMs on the host_ ([cirro-node/src/vm.rs]): [Vm] has the state of a
      host (namespaces, links, directories, cgroups, processes, logs) and
      start, wake, park, supervision and teardown over it; [VmLaws] proves
      starts and wakes, [VmEnd] parks and ends. [HostCommands] is how the
      host's tools are run, [Jailer] a jail for those who aren't root
      ([jailer.rs]). [Firecracker] ([firecracker.rs]) is the client of
      Firecracker's API and what a start, park and wake ask of it.
    - _The Node subnet and the network_ ([subnet.rs], [egress.rs]): [Subnet]
      has the addresses and the names made from them, [Egress] the nftables
      policy and [ip_forward], [Network] a packet's way from a guest's tap
      through its namespace and the policy.
    - _The state database_ ([state.rs]): [Store].
    - _Requests_: [Proto] has the API's data ([cirro-proto]), [Validate] the
      agent's checks and console logs.
    - _Machines_ ([agent/machine.rs]), hosts reached over SSH: [Machine],
      [MachineKey], [MachineLaws].
    - _The edge_ ([cirro-edge]), the HTTP and HTTPS reverse proxy: [Edge]
      is proved against the class [Router], and [AgentEdge] makes the agent an
      instance and proves where a client's request ends up; [Tls], [Acme],
      [TlsLaws] and [AcmeLaws] are the certificates.
    - _Images_ ([cirro-image]): [Image], [ImageLaws] and [ImageTar] make
      layers into a root filesystem, [RunConfig] decides what it runs,
      [Cache] and [CacheLaws] are the image cache.
    - _The guest_ ([guest-init]): [GuestInit] is its first process and the
      signal handler that may run at any step, [GuestExec] what it starts,
      from the image and the request to the arguments of [execve].
    - _Opening a rootfs_ as the caller of the API ([rootfs_open.rs],
      [cirro/src/open_rootfs.rs]): [Rootfs].
    - _Metrics_ ([metrics.rs]) and the _dashboard_ ([cirro-tui]): [Metrics],
      [Dashboard], and [Screen] for what is drawn where.
    - _The command line_ ([cirro/src/main.rs], [client.rs]): [Cli] and
      [CliLaws] are the subcommands against any agent, and against the
      modelled one; [Main] is [main] itself.
    - _Installing_ ([install.rs], [release.rs]): [Release], [Install],
      [InstallLaws].

    [Prelude] (this file) has the result type, faults, maps and lists that
    the rest shares, [RustStr] the parts of Rust's [str] the program uses, and
    [Trace] operations that may be killed at any point.

    ** How it is modelled

    A fallible call is a [result]; [fault] is what the system answers a call
    that can fail, and is an argument of the operation that makes the call, so
    that a theorem over all of them covers every failure at every place.
    Where the source writes through a handle (files, nftables, systemd, the
    state database) the state is a record and the operation returns the next
    one. Machine integers are [N] with the wrap, the saturation or the parse
    bound of their type written out where the source can reach it. Maps that
    the source keeps in a [BTreeMap] or [HashMap] are [gmap]s; where the order
    of a [BTreeMap] shows, it is [entries_of]'s.

    Three kinds of interleaving are kept apart. (1) Handlers and tasks of the
    agent interleave where they hand over: a request reserves, a task of its
    own starts or wakes the VM, a supervisor ends it; an event of [AgentSys]
    is one such piece, and theorems hold after any list of them. Inside a
    piece, [Vm::start], [Vm::wake] and a teardown await many times; there the
    model does not interleave them with the rest, and what each leaves when it
    fails at any of its steps is [VmLaws]'. All they make is named after a VM
    address that one entry holds meanwhile. A Node has one agent at a time in
    these histories; [second_agent_while_the_first_drains] is one with two.
    (2) Operations that a kill can cut short are [traceM]s, which list every
    state they show from outside, one per call that changes one: the CA and
    account files, the image cache, [ip_forward], a release, installing and
    uninstalling, and [run]. What holds of all those states holds wherever the
    process dies. (3) ACME orders interleave at every lock of the client's
    mutexes, and guest-init's handler between any two of its steps.

    Recursion is structural wherever the source's loop is over data. Fuel is
    the length of the string or list walked over, which each turn shortens
    ([RustStr]); waits and polls run over the list of what each poll finds,
    whose end is the deadline (a call to Firecracker has none: a supervisor
    behind one that is never answered, [park_hung], has no result; in [Jailer] the clock is there too, and a look
    every 100 ms for ten seconds is at most the 101 of [JAIL_LOOKS]:
    [await_root_ends]); the supervisor, the accept loop and the retry
    loop run over the list of what they are woken for. That the supervisor
    ends is a theorem of its own ([supervisor_ends]), as is that a followed
    log ends ([follow_prints_the_whole_log]).

    ** What is a parameter

    Code that is not the program's: the [tar] and [flate2] crates and
    [mke2fs], [oci-client] and registries, [serde]'s reading of bodies,
    [rcgen] and [rustls] (keys and certificates), [instant-acme] and the CA,
    [x509-parser], SHA-256, [ratatui]'s layouts, [clap]'s matching of words, systemd's reading of a unit, what
    [ip], [nft], [curl], [tar], [ssh], [ssh-keygen], [systemctl] and the host
    firewalls answer, what the kernel answers [open], [bind] and [connect],
    the clock, and what Firecracker makes of a request. A theorem that relies
    on what such code documents names it as a hypothesis ([crypto_ok],
    [json_reads_back], [documented], the class [Ratatui], [splits_words], [matches_flags],
    [ev_ok]'s fresh process identities), and its witness has an instance.

    ** What the theorems show

    - _The registry_: VM addresses are exclusive whatever fails ([evs_fair]:
      the only condition is on process identities); and where undos work
      ([evs_ok]) every VM has one owner, an address nobody holds has nothing
      on the host, VMs outlive the agent, parks and requests keep apart. A
      failed start or wake and a teardown leave the Node as it was but for
      what all VMs share ([prepared]) and an object whose own undo failed
      ([restored]); a park and a wake give back what there was; a supervisor's
      reason is that of the event it ended at ([accounts]), and it ends if
      Firecracker answers it ([AgentProps], [AgentServe], [VmLaws], [VmEnd]).
    - _The API_: every request is answered once or waits for something that
      is under way, an answer that isn't an error is true of the agent it is
      given by, and one refused at once changed nothing of a VM, but for the
      removal of a parked VM that loses its snapshot ([ApiLaws]).
    - _The process_: no agent is up without its policy, its subnet and its
      reconciled registry; a start that isn't this Node's changes nothing that
      matters; a clean start serves ([AgentRun]). The unit [install] leaves
      starts that agent ([Main]).
    - _Firecracker_: the guest that runs is the one asked for, and a park
      reports what the guest does ([Firecracker]).
    - _Isolation_: the rootfs is opened with the caller's rights ([Rootfs]),
      guests open connections to the internet and nothing nearer ([Network]),
      an uninstall whose clean-up works never leaves a VM without the policy
      ([InstallLaws]).
    - _The edge_: a client only talks to the App whose hostname it named, on a
      VM that runs and that nobody parks, or on a Machine that is up
      ([AgentEdge]), with forwarding headers of the edge's own ([Edge]).
    - _The store_ implements three finite maps ([Store]); Machines' registry,
      over restarts that set up what is on record, and their pinned keys
      ([MachineLaws]); CA, account and orders ([TlsLaws],
      [AcmeLaws]); layers, the tar and the cache ([ImageLaws], [ImageTar],
      [CacheLaws]); the guest's first process and the app it starts
      ([GuestInit], [GuestExec]); metrics and the dashboard.

    Where the source does something else than it says, or than it should, a
    theorem shows it on a concrete run, next to the definitions it is about.

    ** What is not modelled

    The cells a widget fills and reading the terminal ([ratatui]); HTTP
    framing and TLS handshakes ([hyper], [rustls]), so the setting up of
    either; [clap]'s own matching and help; logging; the tests, the fuzz
    targets, the build scripts and the shell scripts. *)

From stdpp Require Export base tactics option list strings pretty sorting gmap.
From Stdlib Require Export Ascii.

(** ** Scopes, hint databases *)

Declare Scope cirro_scope.
Delimit Scope cirro_scope with cirro.
Create HintDb cirro discriminated.

(** ** [Result<T, E>]

    Rust's [Result], with the error type first so that [result E] is a
    monad in stdpp's [MBind] sense: [x ← c; k] is Rust's [let x = c?; k]. *)

Inductive result (E T : Type) : Type :=
| Ok (t : T)
| Err (e : E).
Arguments Ok {E T} t.
Arguments Err {E T} e.

#[global] Instance result_ret {E} : MRet (result E) := fun _ t => Ok t.
#[global] Instance result_bind {E} : MBind (result E) :=
  fun _ _ k c => match c with Ok t => k t | Err e => Err e end.
#[global] Instance result_fmap {E} : FMap (result E) :=
  fun _ _ f c => match c with Ok t => Ok (f t) | Err e => Err e end.

#[global] Instance result_eq_dec {E T} `{EqDecision E, EqDecision T} :
  EqDecision (result E T).
Proof. solve_decision. Defined.

(** [Option::ok_or]. *)
Definition ok_or {E T} (o : option T) (e : E) : result E T :=
  match o with Some t => Ok t | None => Err e end.

(** [Result::ok]. *)
Definition ok {E T} (r : result E T) : option T :=
  match r with Ok t => Some t | Err _ => None end.

(** [Result::map_err]. *)
Definition map_err {E E' T} (f : E -> E') (r : result E T) : result E' T :=
  match r with Ok t => Ok t | Err e => Err (f e) end.

Definition is_ok {E T} (r : result E T) : bool :=
  match r with Ok _ => true | Err _ => false end.

(** [if cond { return Err(e) }]. *)
Definition fail_if {E} (cond : bool) (e : E) : result E unit :=
  if cond then Err e else Ok tt.

Section result_lemmas.
Context {E T U : Type}.
Implicit Types (r : result E T) (k : T -> result E U).

Lemma bind_ok r k u :
  (r ≫= k) = Ok u <-> exists t, r = Ok t /\ k t = Ok u.
Proof. destruct r; naive_solver. Qed.

Lemma bind_err r k e :
  (r ≫= k) = Err e <-> r = Err e \/ exists t, r = Ok t /\ k t = Err e.
Proof. destruct r; naive_solver. Qed.

Lemma ok_or_ok (o : option T) (e : E) t : ok_or o e = Ok t <-> o = Some t.
Proof. destruct o; naive_solver. Qed.

Lemma ok_or_err (o : option T) (e e' : E) :
  ok_or o e = Err e' <-> o = None /\ e = e'.
Proof. destruct o; naive_solver. Qed.

Lemma fail_if_ok (b : bool) (e : E) x : fail_if b e = Ok x <-> b = false.
Proof. destruct b, x; naive_solver. Qed.

Lemma fail_if_err (b : bool) (e e' : E) :
  fail_if b e = Err e' <-> b = true /\ e = e'.
Proof. destruct b; naive_solver. Qed.
End result_lemmas.

(** Runs the monad's operations, and nothing else. *)
Ltac rsimpl :=
  cbn [mbind result_bind mret result_ret fmap result_fmap option_bind option_fmap
       option_map ok_or ok map_err fail_if is_ok].

(** [inv_ok H] opens a successful chain of [←]s. *)
Ltac inv_ok_step :=
  match goal with
  | H : (_ ≫= _) = Ok _ |- _ => apply bind_ok in H as (?&?&H)
  | H : ok_or _ _ = Ok _ |- _ => apply ok_or_ok in H
  | H : fail_if _ _ = Ok _ |- _ => apply fail_if_ok in H
  | H : (_ <$> _) = Ok _ |- _ => unfold fmap, result_fmap in H
  | H : Ok _ = Ok _ |- _ => injection H as H
  | H : Err _ = Ok _ |- _ => discriminate H
  | H : Ok _ = Err _ |- _ => discriminate H
  | u : unit |- _ => destruct u
  end.
Ltac inv_ok := repeat inv_ok_step; simplify_eq.

(** Case split on the innermost [match] scrutinee of the goal or of a
    hypothesis, keeping its equation. *)
Ltac split_match :=
  match goal with
  | |- context [match ?x with _ => _ end] =>
      lazymatch x with
      | context [match _ with _ => _ end] => fail
      | _ => destruct x eqn:?
      end
  end.
Ltac split_match_in H :=
  match type of H with
  | context [match ?x with _ => _ end] =>
      lazymatch x with
      | context [match _ with _ => _ end] => fail
      | _ => destruct x eqn:?
      end
  end.

(** What something outside the program answered: nothing, or its error. *)
Definition fault : Type := option string.
Definition fault_result (f : fault) : result string unit :=
  match f with Some e => Err e | None => Ok tt end.

(** ** Machine integers

    Unsigned Rust integers are [N] with their bound written out. *)

Definition u8_max : N := 255.
Definition u16_max : N := 65535.
Definition u32_max : N := 4294967295.
Definition u64_max : N := 18446744073709551615.
Definition i64_max : Z := 9223372036854775807.

(** [wrapping] arithmetic of an atomic [u32] or [u64]. *)
Definition wrap32 (n : N) : N := (n mod 4294967296)%N.
Definition wrap64 (n : N) : N := (n mod 18446744073709551616)%N.

(** [checked_mul] on [u32]. *)
Definition checked_mul_u32 (a b : N) : option N :=
  let p := (a * b)%N in if (p <=? u32_max)%N then Some p else None.

(** ** Lists *)

(** [Iterator::find_map]. *)
Fixpoint find_map {A B} (f : A -> option B) (l : list A) : option B :=
  match l with
  | [] => None
  | x :: l => match f x with Some y => Some y | None => find_map f l end
  end.

(** [Iterator::find]. *)
Fixpoint find_first {A} (p : A -> bool) (l : list A) : option A :=
  match l with
  | [] => None
  | x :: l => if p x then Some x else find_first p l
  end.

(** [Iterator::take_while] and [Iterator::skip_while]. *)
Fixpoint take_while {A} (p : A -> bool) (l : list A) : list A :=
  match l with [] => [] | x :: l => if p x then x :: take_while p l else [] end.
Fixpoint skip_while {A} (p : A -> bool) (l : list A) : list A :=
  match l with [] => [] | x :: l' => if p x then skip_while p l' else l end.

Definition contains `{EqDecision A} (l : list A) (x : A) : bool :=
  bool_decide (x ∈ l).

Section list_lemmas.
Context {A B : Type}.

Lemma find_map_some (f : A -> option B) l y :
  find_map f l = Some y ->
  exists l1 x l2, l = l1 ++ x :: l2 /\ f x = Some y /\ Forall (fun z => f z = None) l1.
Proof.
  induction l as [|x l IH]; simpl; [done|]. destruct (f x) eqn:Hx.
  - intros ?; simplify_eq. exists [], x, l. naive_solver.
  - intros (l1 & z & l2 & -> & ? & ?)%IH. exists (x :: l1), z, l2. naive_solver.
Qed.

Lemma find_map_none (f : A -> option B) l :
  find_map f l = None <-> Forall (fun x => f x = None) l.
Proof.
  induction l as [|x l IH]; simpl; [by split|].
  rewrite Forall_cons. destruct (f x) eqn:Hx; naive_solver.
Qed.

Lemma find_first_some (p : A -> bool) l x :
  find_first p l = Some x ->
  exists l1 l2, l = l1 ++ x :: l2 /\ p x = true /\ Forall (fun z => p z = false) l1.
Proof.
  induction l as [|y l IH]; simpl; [done|]. destruct (p y) eqn:Hy.
  - intros ?; simplify_eq. exists [], l. naive_solver.
  - intros (l1 & l2 & -> & ? & ?)%IH. exists (y :: l1), l2. naive_solver.
Qed.

Lemma find_first_none (p : A -> bool) l :
  find_first p l = None <-> Forall (fun x => p x = false) l.
Proof.
  induction l as [|y l IH]; simpl; [by split|].
  rewrite Forall_cons. destruct (p y) eqn:Hy; naive_solver.
Qed.

Lemma find_first_elem (p : A -> bool) l x :
  find_first p l = Some x -> x ∈ l /\ p x = true.
Proof.
  intros (l1 & l2 & -> & ? & _)%find_first_some. split; [|done]. set_solver.
Qed.

Lemma find_map_elem (f : A -> option B) l y :
  find_map f l = Some y -> exists x, x ∈ l /\ f x = Some y.
Proof.
  intros (l1 & x & l2 & -> & ? & _)%find_map_some. exists x. set_solver.
Qed.
End list_lemmas.

Lemma contains_spec `{EqDecision A} (l : list A) x :
  contains l x = true <-> x ∈ l.
Proof. apply bool_decide_eq_true. Qed.

(** ** [BTreeMap<String, V>]

    A [gmap] for its contents; iteration is in key order, which is byte
    order on strings. *)

Definition key_le {V} (a b : string * V) : Prop := String.le a.1 b.1.
#[global] Instance key_le_dec {V} : RelDecision (@key_le V).
Proof. intros a b. unfold key_le. apply _. Defined.
#[global] Instance key_le_trans {V} : Transitive (@key_le V).
Proof. intros a b c. unfold key_le. apply transitivity. Qed.
#[global] Instance key_le_total {V} : Total (@key_le V).
Proof. intros a b. unfold key_le. apply total, _. Qed.

(** [BTreeMap::iter]. *)
Definition entries_of {V} (m : gmap string V) : list (string * V) :=
  merge_sort key_le (map_to_list m).
(** [BTreeMap::values] and [BTreeMap::keys]. *)
Definition values_of {V} (m : gmap string V) : list V := (entries_of m).*2.
Definition keys_of {V} (m : gmap string V) : list string := (entries_of m).*1.

Section btree_lemmas.
Context {V : Type}.
Implicit Types m : gmap string V.

Lemma entries_of_perm m : entries_of m ≡ₚ map_to_list m.
Proof. apply merge_sort_Permutation. Qed.

Lemma elem_of_entries m k v : (k, v) ∈ entries_of m <-> m !! k = Some v.
Proof. by rewrite entries_of_perm, elem_of_map_to_list. Qed.

Lemma elem_of_values m v : v ∈ values_of m <-> exists k, m !! k = Some v.
Proof.
  unfold values_of. rewrite list_elem_of_fmap. split.
  - intros ([k v'] & -> & ?%elem_of_entries). by exists k.
  - intros [k ?%elem_of_entries]. by exists (k, v).
Qed.

Lemma elem_of_keys m k : k ∈ keys_of m <-> is_Some (m !! k).
Proof.
  unfold keys_of. rewrite list_elem_of_fmap. split.
  - intros ([k' v] & -> & ?%elem_of_entries). by exists v.
  - intros [v ?%elem_of_entries]. by exists (k, v).
Qed.

Lemma entries_of_sorted m : StronglySorted key_le (entries_of m).
Proof. apply (StronglySorted_merge_sort _). Qed.

Lemma NoDup_keys_of m : NoDup (keys_of m).
Proof.
  unfold keys_of. rewrite (fmap_Permutation fst _ _ (entries_of_perm m)).
  apply NoDup_fst_map_to_list.
Qed.

(** Entries in key order, each key once, are the map's iteration. *)
Lemma entries_of_unique m (l : list (string * V)) :
  StronglySorted key_le l -> l ≡ₚ map_to_list m -> l = entries_of m.
Proof.
  intros Hs Hp. apply (StronglySorted_unique_strong key_le); [|done|apply entries_of_sorted|].
  - intros [k1 v1] [k2 v2] H1 H2 H12 H21. unfold key_le in *; simpl in *.
    assert (k1 = k2) as -> by by apply (anti_symm String.le).
    rewrite Hp, elem_of_map_to_list in H1. apply elem_of_entries in H2. congruence.
  - by rewrite entries_of_perm.
Qed.
End btree_lemmas.

(** Iterating a map whose entries were converted one by one. *)
Definition convert {V W} (f : string -> V -> option W) (e : string * V) : option (string * W) :=
  (e.1,.) <$> f e.1 e.2.

Lemma convert_sorted {V W} (f : string -> V -> option W) l :
  StronglySorted key_le l -> StronglySorted key_le (omap (convert f) l).
Proof.
  induction 1 as [|[k v] l Hs IH Hall]; [constructor|]. simpl. unfold convert at 1; simpl.
  destruct (f k v) as [w|]; [|done]. simpl. constructor; [done|].
  apply Forall_forall. intros [k' w'] ([k'' v'] & Hin & Heq)%list_elem_of_omap.
  unfold convert in Heq; simpl in Heq. destruct (f k'' v'); simplify_eq/=.
  rewrite Forall_forall in Hall. apply (Hall _ Hin).
Qed.

Lemma convert_NoDup {V W} (f : string -> V -> option W) l :
  NoDup l.*1 -> NoDup (omap (convert f) l).*1.
Proof.
  induction l as [|[k v] l IH]; [done|]. simpl. rewrite NoDup_cons. intros [Hk Hl].
  unfold convert at 1; simpl. destruct (f k v) as [w|]; simpl; [|by apply IH].
  constructor; [|by apply IH]. contradict Hk.
  apply list_elem_of_fmap in Hk as ([k' w'] & -> & ([k2 v2] & Hin & Heq)%list_elem_of_omap).
  unfold convert in Heq; simpl in *. destruct (f k2 v2); simplify_eq/=.
  apply list_elem_of_fmap. by eexists (_, v2).
Qed.

Lemma convert_perm {V W} (f : string -> V -> option W) (m : gmap string V) :
  omap (convert f) (map_to_list m) ≡ₚ map_to_list (map_imap f m).
Proof.
  apply NoDup_Permutation.
  - apply (NoDup_fmap_1 fst), convert_NoDup, NoDup_fst_map_to_list.
  - apply NoDup_map_to_list.
  - intros [k w]. rewrite elem_of_map_to_list, map_lookup_imap, list_elem_of_omap. split.
    + intros ([k' v] & Hin%elem_of_map_to_list & Heq). unfold convert in Heq; simpl in Heq.
      destruct (f k' v) eqn:?; simplify_eq/=. by rewrite Hin.
    + intros (v & Hv & Hf)%bind_Some. exists (k, v). split; [by apply elem_of_map_to_list|].
      unfold convert; simpl. by rewrite Hf.
Qed.

Lemma entries_of_imap {V W} (f : string -> V -> option W) (m : gmap string V) :
  omap (convert f) (entries_of m) = entries_of (map_imap f m).
Proof.
  apply entries_of_unique; [apply convert_sorted, entries_of_sorted|].
  by rewrite entries_of_perm, convert_perm.
Qed.

(** Quotes around [s], as Rust's [{:?}] shows an ASCII string without
    quotes, backslashes or control characters in it: every name and
    hostname that has passed validation is one. Others are escaped as
    [str]'s [Debug] does for ASCII; bytes above it are shown as they are. *)
Definition dquote : ascii := ascii_of_nat 34.
Definition hex_digit (n : N) : ascii :=
  match n with
  | 0 => "0" | 1 => "1" | 2 => "2" | 3 => "3" | 4 => "4" | 5 => "5" | 6 => "6"
  | 7 => "7" | 8 => "8" | 9 => "9" | 10 => "a" | 11 => "b" | 12 => "c"
  | 13 => "d" | 14 => "e" | _ => "f"
  end%N%char.
Definition debug_char (c : ascii) : string :=
  let n := N_of_ascii c in
  if (n =? 34)%N then String "\" (String c "")
  else if (n =? 92)%N then "\\"
  else if (n =? 9)%N then "\t"
  else if (n =? 10)%N then "\n"
  else if (n =? 13)%N then "\r"
  else if (n =? 0)%N then "\0"
  else if (n <? 32)%N || (n =? 127)%N then
    let lo := String (hex_digit (n mod 16)%N) "}" in
    "\u{" +:+ (if (n <? 16)%N then lo else String (hex_digit (n / 16)%N) lo)
  else String c "".
Fixpoint debug_chars (s : string) : string :=
  match s with
  | EmptyString => EmptyString
  | String c s => debug_char c +:+ debug_chars s
  end.
Definition debug_str (s : string) : string :=
  String dquote (debug_chars s +:+ String dquote "").
