(* ===== verification/RustStr.v ===== *)
(** * Rust's [str]

    A [str] is its UTF-8 bytes, a [string] of [ascii]. This file has the
    methods the sources call on strings, byte for byte, the printing and
    parsing of integers, and the lemmas on them the components share. *)

From S2P Require Import Prelude.

(** ** Searching and stripping *)

(** [str::is_empty]. *)
Definition is_empty (s : string) : bool :=
  match s with EmptyString => true | _ => false end.

(** [str::len], in bytes. *)
Definition str_len (s : string) : N := N.of_nat (String.length s).

(** [str::contains] of an ASCII character. *)
Fixpoint str_contains (c : ascii) (s : string) : bool :=
  match s with
  | EmptyString => false
  | String d s => if decide (c = d) then true else str_contains c s
  end.

(** [str::bytes().all]. *)
Fixpoint str_all (p : ascii -> bool) (s : string) : bool :=
  match s with EmptyString => true | String c s => p c && str_all p s end.

(** [str::strip_prefix] and [str::starts_with]. *)
Fixpoint strip_prefix (p s : string) : option string :=
  match p, s with
  | EmptyString, _ => Some s
  | String _ _, EmptyString => None
  | String a p, String b s => if decide (a = b) then strip_prefix p s else None
  end.
Definition starts_with (p s : string) : bool :=
  match strip_prefix p s with Some _ => true | None => false end.

(** [str::strip_suffix] and [str::ends_with]. *)
Fixpoint strip_suffix (p s : string) : option string :=
  if decide (s = p) then Some EmptyString
  else match s with
       | EmptyString => None
       | String c s => String c <$> strip_suffix p s
       end.
Definition ends_with (p s : string) : bool :=
  match strip_suffix p s with Some _ => true | None => false end.

(** [str::contains] of a string. *)
Fixpoint str_contains_str (p s : string) : bool :=
  starts_with p s ||
  match s with EmptyString => false | String _ s => str_contains_str p s end.

(** [str::split_once] and [str::rsplit_once] at an ASCII character. *)
Fixpoint split_once (c : ascii) (s : string) : option (string * string) :=
  match s with
  | EmptyString => None
  | String d s =>
      if decide (c = d) then Some (EmptyString, s)
      else match split_once c s with
           | Some (a, b) => Some (String d a, b)
           | None => None
           end
  end.
Fixpoint rsplit_once (c : ascii) (s : string) : option (string * string) :=
  match s with
  | EmptyString => None
  | String d s =>
      match rsplit_once c s with
      | Some (a, b) => Some (String d a, b)
      | None => if decide (c = d) then Some (EmptyString, s) else None
      end
  end.

(** [str::split] at an ASCII character: never empty. *)
Fixpoint str_split (c : ascii) (s : string) : list string :=
  match s with
  | EmptyString => [EmptyString]
  | String d s =>
      if decide (c = d) then EmptyString :: str_split c s
      else match str_split c s with
           | [] => [String d EmptyString]
           | w :: ws => String d w :: ws
           end
  end.

(** [[String]::join]. *)
Fixpoint str_join (sep : string) (l : list string) : string :=
  match l with
  | [] => EmptyString
  | [w] => w
  | w :: l => w +:+ sep +:+ str_join sep l
  end.

(** [str::trim_start_matches] and [str::trim_end_matches] of a character,
    and [str::trim_matches]. *)
Fixpoint trim_start_matches (c : ascii) (s : string) : string :=
  match s with
  | EmptyString => EmptyString
  | String d s' => if decide (c = d) then trim_start_matches c s' else s
  end.
Fixpoint trim_end_matches (c : ascii) (s : string) : string :=
  match s with
  | EmptyString => EmptyString
  | String d s =>
      match trim_end_matches c s with
      | EmptyString => if decide (c = d) then EmptyString else String d EmptyString
      | r => String d r
      end
  end.
Definition trim_matches (c : ascii) (s : string) : string :=
  trim_end_matches c (trim_start_matches c s).

(** ** ASCII classes *)

Definition is_lower (c : ascii) : bool :=
  let n := N_of_ascii c in (97 <=? n)%N && (n <=? 122)%N.
Definition is_upper (c : ascii) : bool :=
  let n := N_of_ascii c in (65 <=? n)%N && (n <=? 90)%N.
Definition is_digit (c : ascii) : bool :=
  let n := N_of_ascii c in (48 <=? n)%N && (n <=? 57)%N.
Definition is_alphanumeric (c : ascii) : bool := is_lower c || is_upper c || is_digit c.
Definition is_hexdigit (c : ascii) : bool :=
  let n := N_of_ascii c in
  is_digit c || ((97 <=? n)%N && (n <=? 102)%N) || ((65 <=? n)%N && (n <=? 70)%N).

(** [str::to_ascii_lowercase]. *)
Definition lower_char (c : ascii) : ascii :=
  if is_upper c then ascii_of_N (N_of_ascii c + 32) else c.
Fixpoint to_lower (s : string) : string :=
  match s with EmptyString => EmptyString | String c s => String (lower_char c) (to_lower s) end.

(** ** White space

    [char::is_whitespace] is Unicode's [White_Space]; [ws_head s] drops one
    such character from the front of [s], given as its UTF-8 bytes. *)

Definition ws_head (s : string) : option string :=
  match s with
  | EmptyString => None
  | String a s1 =>
      let na := N_of_ascii a in
      if ((9 <=? na)%N && (na <=? 13)%N) || (na =? 32)%N then Some s1
      else match s1 with
      | EmptyString => None
      | String b s2 =>
          let nb := N_of_ascii b in
          if (na =? 194)%N && ((nb =? 133)%N || (nb =? 160)%N) then Some s2
          else match s2 with
          | EmptyString => None
          | String c s3 =>
              let nc := N_of_ascii c in
              if ((na =? 225)%N && (nb =? 154)%N && (nc =? 128)%N)
                 || ((na =? 226)%N && (nb =? 128)%N
                     && (((128 <=? nc)%N && (nc <=? 138)%N)
                         || (nc =? 168)%N || (nc =? 169)%N || (nc =? 175)%N))
                 || ((na =? 226)%N && (nb =? 129)%N && (nc =? 159)%N)
                 || ((na =? 227)%N && (nb =? 128)%N && (nc =? 128)%N)
              then Some s3 else None
          end
      end
  end.

(** The first word of [s] up to white space, and what follows it. The
    fuel is [s]'s length, which every step shortens. *)
Fixpoint next_word (fuel : nat) (s : string) : string * string :=
  match fuel with
  | O => (EmptyString, s)
  | S fuel =>
      match ws_head s, s with
      | Some _, _ => (EmptyString, s)
      | None, EmptyString => (EmptyString, EmptyString)
      | None, String c s => let '(w, r) := next_word fuel s in (String c w, r)
      end
  end.
(** [str::trim_start]. *)
Fixpoint trim_start_fuel (fuel : nat) (s : string) : string :=
  match fuel with
  | O => s
  | S fuel => match ws_head s with Some r => trim_start_fuel fuel r | None => s end
  end.
Definition trim_start (s : string) : string := trim_start_fuel (String.length s) s.
(** [str::trim_end]: the longest suffix of white space goes. *)
Fixpoint trim_end (s : string) : string :=
  if is_empty (trim_start s) then EmptyString
  else match s with EmptyString => EmptyString | String c s => String c (trim_end s) end.
(** [str::trim]. *)
Definition trim (s : string) : string := trim_end (trim_start s).
(** [str::split_whitespace]. *)
Fixpoint words_fuel (fuel : nat) (s : string) : list string :=
  match fuel with
  | O => []
  | S fuel =>
      let s := trim_start s in
      if is_empty s then []
      else let '(w, r) := next_word (String.length s) s in w :: words_fuel fuel r
  end.
Definition split_whitespace (s : string) : list string := words_fuel (S (String.length s)) s.

(** [str::lines]: a line ends at [\n] or [\r\n], and a last line without
    one keeps its [\r]. *)
Definition newline : ascii := ascii_of_nat 10.
Definition carriage_return : ascii := ascii_of_nat 13.
Definition nl : string := String newline EmptyString.
Definition chomp (s : string) : string :=
  match strip_suffix (String carriage_return EmptyString) s with Some r => r | None => s end.
Fixpoint lines_of (ws : list string) : list string :=
  match ws with
  | [] => []
  | [w] => if is_empty w then [] else [w]
  | w :: ws => chomp w :: lines_of ws
  end.
Definition str_lines (s : string) : list string := lines_of (str_split newline s).

(** ** Integers *)

Definition digit_value (c : ascii) : option N :=
  let n := N_of_ascii c in
  if (48 <=? n)%N && (n <=? 57)%N then Some (n - 48)%N
  else if (97 <=? n)%N && (n <=? 122)%N then Some (n - 87)%N
  else if (65 <=? n)%N && (n <=? 90)%N then Some (n - 55)%N
  else None.

(** The digits of [s] in [radix], accumulated on [acc], as long as the
    value is at most [max]: the loop of [from_str_radix]. *)
Fixpoint parse_digits (radix max acc : N) (s : string) : option N :=
  match s with
  | EmptyString => Some acc
  | String c s =>
      match digit_value c with
      | Some d =>
          if (d <? radix)%N then
            let acc := (acc * radix + d)%N in
            if (acc <=? max)%N then parse_digits radix max acc s else None
          else None
      | None => None
      end
  end.
(** [from_str_radix] of an unsigned type whose greatest value is [max]:
    one leading [+] is accepted, an empty string or a lone sign isn't. *)
Definition from_str_radix (radix max : N) (s : string) : option N :=
  match s with
  | EmptyString => None
  | String "+" EmptyString => None
  | String "+" s => parse_digits radix max 0 s
  | _ => parse_digits radix max 0 s
  end.
(** [str::parse] to an unsigned type. *)
Definition parse_uint (max : N) (s : string) : option N := from_str_radix 10 max s.

(** [{:02x}] of a byte. *)
Definition hex2 (n : N) : string :=
  String (hex_digit (n / 16)) (String (hex_digit (n mod 16)) EmptyString).

(** [{}] of an unsigned integer is stdpp's [pretty]. *)
Definition dec (n : N) : string := pretty n.

(** ** Lemmas *)

Lemma str_app_nil_r s : s +:+ EmptyString = s.
Proof. induction s as [|c s IH]; [done|]. unfold String.append; fold String.append. by f_equal. Qed.
Lemma str_app_assoc s t u : (s +:+ t) +:+ u = s +:+ (t +:+ u).
Proof. induction s as [|c s IH]; [done|]. unfold String.append; fold String.append. by f_equal. Qed.
Lemma str_app_cons c s t : String c s +:+ t = String c (s +:+ t).
Proof. done. Qed.
Lemma str_app_nil_l t : EmptyString +:+ t = t.
Proof. done. Qed.
Lemma str_length_app s t : String.length (s +:+ t) = String.length s + String.length t.
Proof.
  induction s as [|c s IH]; [done|]. rewrite str_app_cons. simpl. by rewrite IH.
Qed.
Lemma str_app_inj_l s t u : s +:+ t = s +:+ u -> t = u.
Proof.
  induction s as [|c s IH]; [done|]. rewrite !str_app_cons. intros [=]. auto.
Qed.

Create Rewrite HintDb cirro_str.
#[export] Hint Rewrite str_app_cons str_app_nil_l str_app_nil_r : cirro_str.

Lemma str_all_app p s t : str_all p (s +:+ t) = str_all p s && str_all p t.
Proof.
  induction s as [|c s IH]; [done|]. rewrite str_app_cons. simpl. rewrite IH.
  by destruct (p c), (str_all p s).
Qed.

Lemma str_all_impl (p q : ascii -> bool) s :
  (forall c, p c = true -> q c = true) -> str_all p s = true -> str_all q s = true.
Proof.
  intros Hpq. induction s as [|c s IH]; [done|]. simpl.
  rewrite !andb_true_iff. naive_solver.
Qed.

Lemma str_contains_all c s :
  str_contains c s = false <-> str_all (fun d => negb (bool_decide (c = d))) s = true.
Proof.
  induction s as [|d s IH]; [done|]. simpl.
  rewrite andb_true_iff, negb_true_iff, bool_decide_eq_false.
  case_decide; naive_solver.
Qed.

Lemma str_all_not_contains p c s :
  str_all p s = true -> p c = false -> str_contains c s = false.
Proof.
  induction s as [|d s IH]; [done|]. simpl. rewrite andb_true_iff.
  intros [Hd Hs] Hc. case_decide; [congruence|auto].
Qed.

Lemma strip_prefix_app p s : strip_prefix p (p +:+ s) = Some s.
Proof.
  induction p as [|a p IH]; [done|]. rewrite str_app_cons. simpl.
  by rewrite decide_True.
Qed.
Lemma strip_prefix_some p s r : strip_prefix p s = Some r <-> s = p +:+ r.
Proof.
  split; [|intros ->; apply strip_prefix_app].
  revert s. induction p as [|a p IH]; intros [|b s]; simpl; try naive_solver.
  case_decide; [|done]. intros ->%IH. by subst.
Qed.
Lemma starts_with_true p s : starts_with p s = true <-> exists r, s = p +:+ r.
Proof.
  unfold starts_with. destruct (strip_prefix p s) as [r|] eqn:H.
  - apply strip_prefix_some in H. naive_solver.
  - split; [done|]. intros [r Hr%strip_prefix_some]. congruence.
Qed.

Lemma strip_suffix_app p s : strip_suffix p (s +:+ p) = Some s.
Proof.
  induction s as [|a s IH].
  - rewrite ?str_app_nil_l. destruct p; simpl; [done|]. by rewrite decide_True.
  - rewrite ?str_app_cons. simpl. rewrite decide_False.
    + by rewrite IH.
    + intros H. apply (f_equal String.length) in H. simpl in H.
      rewrite str_length_app in H. lia.
Qed.
Lemma strip_suffix_some p s r : strip_suffix p s = Some r <-> s = r +:+ p.
Proof.
  split; [|intros ->; apply strip_suffix_app].
  revert r. induction s as [|c s IH]; intros r; simpl; case_decide; try naive_solver.
  rewrite fmap_Some. intros (r' & Hr & ->). rewrite ?str_app_cons. f_equal. auto.
Qed.

Lemma split_once_app c s t :
  str_contains c s = false -> split_once c (s +:+ String c t) = Some (s, t).
Proof.
  induction s as [|d s IH]; simpl.
  - intros _. rewrite ?str_app_nil_l. simpl. by rewrite ?decide_True.
  - case_decide; [done|]. intros Hs. rewrite ?str_app_cons. simpl.
    rewrite ?decide_False by done. by rewrite IH.
Qed.
Lemma split_once_some c s a b :
  split_once c s = Some (a, b) <-> s = a +:+ String c b /\ str_contains c a = false.
Proof.
  split; [|intros [-> ?]; by apply split_once_app].
  revert a b. induction s as [|d s IH]; intros a b; simpl; [done|].
  case_decide as Hd.
  - intros ?; simplify_eq. by rewrite ?str_app_nil_l.
  - destruct (split_once c s) as [[a' b']|]; [|done]. intros ?; simplify_eq.
    destruct (IH a' b) as [-> ?]; [done|]. rewrite ?str_app_cons. simpl.
    by rewrite ?decide_False.
Qed.
Lemma split_once_none c s : split_once c s = None <-> str_contains c s = false.
Proof.
  induction s as [|d s IH]; simpl; [done|]. case_decide; [done|].
  destruct (split_once c s) as [[]|]; naive_solver.
Qed.

Lemma rsplit_once_none c s : rsplit_once c s = None <-> str_contains c s = false.
Proof.
  induction s as [|d s IH]; simpl; [done|].
  destruct (rsplit_once c s) as [[a b]|]; case_decide; naive_solver.
Qed.
Lemma rsplit_once_app c s t :
  str_contains c t = false -> rsplit_once c (s +:+ String c t) = Some (s, t).
Proof.
  intros Ht. induction s as [|d s IH].
  - rewrite ?str_app_nil_l. simpl. apply rsplit_once_none in Ht. rewrite Ht.
    by rewrite decide_True.
  - rewrite ?str_app_cons. simpl. by rewrite IH.
Qed.
Lemma rsplit_once_some c s a b :
  rsplit_once c s = Some (a, b) <-> s = a +:+ String c b /\ str_contains c b = false.
Proof.
  split; [|intros [-> ?]; by apply rsplit_once_app].
  revert a b. induction s as [|d s IH]; intros a b; simpl; [done|].
  destruct (rsplit_once c s) as [[a' b']|] eqn:Hs.
  - intros ?; simplify_eq. destruct (IH a' b) as [-> ?]; done.
  - case_decide; [|done]. intros ?; simplify_eq. split; [done|].
    by apply rsplit_once_none.
Qed.

Lemma str_split_nonempty c s : str_split c s <> [].
Proof.
  destruct s as [|d s]; simpl; [done|]. case_decide; [done|].
  by destruct (str_split c s).
Qed.
Lemma str_split_app c s t :
  str_contains c s = false -> str_split c (s +:+ String c t) = s :: str_split c t.
Proof.
  induction s as [|d s IH]; simpl.
  - intros _. rewrite ?str_app_nil_l. simpl. by rewrite ?decide_True.
  - case_decide; [done|]. intros Hs. rewrite ?str_app_cons. simpl.
    rewrite ?decide_False by done. by rewrite IH.
Qed.
Lemma str_split_single c s : str_contains c s = false -> str_split c s = [s].
Proof.
  induction s as [|d s IH]; simpl; [done|]. case_decide; [done|].
  intros Hs. by rewrite IH.
Qed.
(** [split] then [join] at the same character is the identity. *)
Lemma str_join_split c s : str_join (String c EmptyString) (str_split c s) = s.
Proof.
  induction s as [|d s IH]; simpl; [done|]. case_decide as Hd.
  - subst. pose proof (str_split_nonempty d s).
    destruct (str_split d s) as [|w ws] eqn:Hs; [done|].
    change (String d (str_join (String d EmptyString) (w :: ws)) = String d s).
    by rewrite IH.
  - pose proof (str_split_nonempty c s).
    destruct (str_split c s) as [|w ws] eqn:Hs; [done|].
    destruct ws; simpl in *; by rewrite <- IH.
Qed.
Lemma str_split_pieces c s : Forall (fun w => str_contains c w = false) (str_split c s).
Proof.
  induction s as [|d s IH]; simpl; [by constructor|]. case_decide as Hd.
  - by constructor.
  - destruct (str_split c s) as [|w ws]; constructor; simpl;
      rewrite ?decide_False by done; decompose_Forall; auto.
Qed.

(** *** Printing and parsing integers *)

Lemma digit_value_char n : (n < 10)%N -> digit_value (pretty_N_char n) = Some n.
Proof.
  intros. assert (n = 0 ∨ n = 1 ∨ n = 2 ∨ n = 3 ∨ n = 4 ∨ n = 5 ∨ n = 6 ∨ n = 7
    ∨ n = 8 ∨ n = 9)%N by lia. naive_solver.
Qed.
Lemma is_digit_char n : is_digit (pretty_N_char n) = true.
Proof. unfold pretty_N_char. repeat case_match; done. Qed.

Lemma parse_digits_pretty_go max n s :
  (0 < n)%N ->
  parse_digits 10 max 0 (pretty_N_go n s) =
  if (n <=? max)%N then parse_digits 10 max n s else None.
Proof.
  revert s. induction (N.lt_wf_0 n) as [n _ IH]; intros s Hn.
  rewrite pretty_N_go_step by done.
  assert (n mod 10 < 10)%N by (apply N.mod_lt; lia).
  pose proof (N.div_mod n 10 ltac:(lia)) as Hdm.
  assert (parse_digits 10 max (n `div` 10) (String (pretty_N_char (n `mod` 10)) s) =
    if (n <=? max)%N then parse_digits 10 max n s else None) as Hstep.
  { simpl. rewrite digit_value_char by done.
    destruct (N.ltb_spec (n `mod` 10) 10); [|lia].
    replace (n `div` 10 * 10 + n `mod` 10)%N with n by lia. done. }
  destruct (decide (n `div` 10 = 0)%N) as [H0|H0].
  - rewrite H0, pretty_N_go_0. by rewrite H0 in Hstep.
  - assert (n `div` 10 < n)%N by (apply N.div_lt; lia).
    rewrite IH by lia. rewrite Hstep.
    destruct (N.leb_spec (n `div` 10) max), (N.leb_spec n max); try done. lia.
Qed.

Lemma pretty_go_all n s :
  str_all is_digit s = true -> str_all is_digit (pretty_N_go n s) = true.
Proof.
  revert s. induction (N.lt_wf_0 n) as [n _ IH]; intros s Hs.
  destruct (decide (n = 0)%N) as [->|]; [by rewrite pretty_N_go_0|].
  rewrite pretty_N_go_step by lia. apply IH; [apply N.div_lt; lia|].
  simpl. by rewrite is_digit_char.
Qed.
Lemma dec_all_digits n : str_all is_digit (dec n) = true.
Proof.
  unfold dec, pretty, pretty_N. case_decide; [done|]. by apply pretty_go_all.
Qed.
Lemma pretty_go_nonempty n s : (0 < n)%N \/ s <> EmptyString -> pretty_N_go n s <> EmptyString.
Proof.
  revert s. induction (N.lt_wf_0 n) as [n _ IH]; intros s Hs.
  destruct (decide (n = 0)%N) as [->|].
  { rewrite pretty_N_go_0. destruct Hs; [lia|done]. }
  rewrite pretty_N_go_step by lia. apply IH; [apply N.div_lt; lia|by right].
Qed.
Lemma dec_nonempty n : dec n <> EmptyString.
Proof.
  unfold dec, pretty, pretty_N. case_decide; [done|].
  apply pretty_go_nonempty. left. lia.
Qed.

(** A character that is no digit is nowhere in a printed number. *)
Lemma dec_not_contains c n : is_digit c = false -> str_contains c (dec n) = false.
Proof. intros. eapply str_all_not_contains; [apply dec_all_digits|done]. Qed.

Lemma parse_digits_dec max n :
  parse_digits 10 max 0 (dec n) = if (n <=? max)%N then Some n else None.
Proof.
  unfold dec, pretty, pretty_N. case_decide as Hn.
  - subst. done.
  - rewrite parse_digits_pretty_go by lia. done.
Qed.
Lemma from_str_radix_digits radix max s :
  s <> EmptyString -> str_all is_digit s = true ->
  from_str_radix radix max s = parse_digits radix max 0 s.
Proof.
  intros Hne Hs. destruct s as [|c s]; [done|]. simpl in Hs.
  apply andb_true_iff in Hs as [Hc _].
  destruct c as [[] [] [] [] [] [] [] []]; done.
Qed.
(** Printing then parsing an unsigned integer gives it back, and one above
    the type's greatest value is refused. *)
Lemma parse_uint_dec max n :
  parse_uint max (dec n) = if (n <=? max)%N then Some n else None.
Proof.
  unfold parse_uint.
  rewrite from_str_radix_digits by auto using dec_nonempty, dec_all_digits.
  apply parse_digits_dec.
Qed.

Lemma parse_digits_le radix max acc s n :
  parse_digits radix max acc s = Some n -> (acc <= max -> n <= max)%N.
Proof.
  revert acc. induction s as [|c s IH]; intros acc; simpl; [intros [=]; lia|].
  destruct (digit_value c) as [d|]; [|done].
  destruct (N.ltb_spec d radix); [|done].
  destruct (N.leb_spec (acc * radix + d) max); [|done].
  intros Hn _. by apply (IH _ Hn).
Qed.
Lemma from_str_radix_le radix max s n : from_str_radix radix max s = Some n -> (n <= max)%N.
Proof.
  unfold from_str_radix. intros H.
  assert (exists s', parse_digits radix max 0 s' = Some n) as [s' Hs'].
  { repeat case_match; try done; eexists; done. }
  eapply parse_digits_le; [done|lia].
Qed.
Lemma parse_uint_le max s n : parse_uint max s = Some n -> (n <= max)%N.
Proof. apply from_str_radix_le. Qed.

Lemma digit_value_hex n : (n < 16)%N -> digit_value (hex_digit n) = Some n.
Proof.
  intros. assert (n = 0 ∨ n = 1 ∨ n = 2 ∨ n = 3 ∨ n = 4 ∨ n = 5 ∨ n = 6 ∨ n = 7
    ∨ n = 8 ∨ n = 9 ∨ n = 10 ∨ n = 11 ∨ n = 12 ∨ n = 13 ∨ n = 14 ∨ n = 15)%N by lia.
  naive_solver.
Qed.
Lemma hex_digit_not_plus n : hex_digit n <> "+"%char.
Proof. unfold hex_digit. repeat case_match; done. Qed.
Lemma from_str_radix_not_plus radix max c s :
  c <> "+"%char -> from_str_radix radix max (String c s) = parse_digits radix max 0 (String c s).
Proof. intros H. destruct c as [[] [] [] [] [] [] [] []]; done. Qed.

(** Four lower-case hexadecimal digits parse back to the 16-bit number. *)
Lemma from_str_radix_hex2 c d :
  (c < 256)%N -> (d < 256)%N ->
  from_str_radix 16 u16_max (hex2 c +:+ hex2 d) = Some (c * 256 + d)%N.
Proof.
  intros Hc Hd. unfold hex2.
  rewrite !str_app_cons, str_app_nil_l.
  rewrite from_str_radix_not_plus by apply hex_digit_not_plus.
  assert (c / 16 < 16)%N by (apply N.Div0.div_lt_upper_bound; lia).
  assert (d / 16 < 16)%N by (apply N.Div0.div_lt_upper_bound; lia).
  assert (c mod 16 < 16)%N by (apply N.mod_lt; lia).
  assert (d mod 16 < 16)%N by (apply N.mod_lt; lia).
  pose proof (N.div_mod c 16 ltac:(lia)). pose proof (N.div_mod d 16 ltac:(lia)).
  unfold parse_digits, u16_max. rewrite !digit_value_hex by lia.
  repeat match goal with
  | |- context [(?a <? ?b)%N] => destruct (N.ltb_spec a b); [|exfalso; lia]
  | |- context [(?a <=? ?b)%N] => destruct (N.leb_spec a b); [|exfalso; lia]
  end. f_equal. lia.
Qed.

(** ** Words *)

(** Printable ASCII but the space. *)
Definition is_graphic (c : ascii) : bool :=
  let n := N_of_ascii c in ((33 <=? n) && (n <=? 126))%N.
Definition word (w : string) : Prop := w <> EmptyString /\ str_all is_graphic w = true.

(** Each word after a space, and the end of the text, a newline or nothing. *)
Fixpoint spaced (ws : list string) (e : string) : string :=
  match ws with [] => e | w :: ws => " " +:+ w +:+ spaced ws e end.
Definition text_end (e : string) : Prop := e = EmptyString \/ e = nl.

Lemma ws_head_graphic c s : is_graphic c = true -> ws_head (String c s) = None.
Proof.
  unfold is_graphic. cbn [ws_head]. set (n := N_of_ascii c). intros [Hl Hh]%andb_prop.
  apply N.leb_le in Hl, Hh.
  repeat match goal with
  | |- context [(n =? ?k)%N] => destruct (N.eqb_spec n k); [lia|]
  | |- context [(n <=? 13)%N] => destruct (N.leb_spec n 13); [lia|]
  end.
  rewrite andb_false_r. cbn [orb andb]. destruct s as [|b [|d s]]; done.
Qed.

Lemma spaced_head ws e :
  text_end e -> spaced ws e = EmptyString \/ is_Some (ws_head (spaced ws e)).
Proof. intros [-> | ->]; destruct ws; simpl; eauto. Qed.

Lemma next_word_spaced fuel w ws e :
  text_end e ->
  String.length (w +:+ spaced ws e) <= fuel -> str_all is_graphic w = true ->
  next_word fuel (w +:+ spaced ws e) = (w, spaced ws e).
Proof.
  intros He. revert fuel. induction w as [|c w IH]; intros fuel Hf Hw.
  - rewrite str_app_nil_l in *. destruct fuel as [|fuel]; [done|]. cbn [next_word].
    destruct (spaced_head ws e He) as [-> | [r ->]]; done.
  - rewrite str_app_cons in *. cbn [String.length str_all] in *.
    apply andb_prop in Hw as [Hc Hw]. destruct fuel as [|fuel]; [lia|]. cbn [next_word].
    rewrite (ws_head_graphic _ _ Hc), IH by (done || lia). done.
Qed.

Lemma words_fuel_spaced fuel ws e :
  text_end e ->
  String.length (spaced ws e) < fuel -> Forall word ws -> words_fuel fuel (spaced ws e) = ws.
Proof.
  intros He Hf Hws. revert fuel Hf. induction Hws as [|w ws [Hne Hw] Hws IH]; intros fuel Hf.
  - destruct fuel; [simpl in Hf; lia|]. by destruct He as [-> | ->].
  - destruct fuel as [|fuel]; [lia|]. cbn [words_fuel spaced] in *.
    change (" " +:+ w +:+ spaced ws e) with (String " " (w +:+ spaced ws e)) in *.
    destruct w as [|c w]; [done|]. rewrite str_app_cons in *. cbn [String.length] in Hf.
    cbn [str_all] in Hw. apply andb_prop in Hw as [Hc Hw].
    assert (trim_start (String " " (String c (w +:+ spaced ws e))) = String c (w +:+ spaced ws e)) as ->.
    { unfold trim_start. cbn [String.length trim_start_fuel ws_head].
      replace (_ || _) with true by done. by rewrite ws_head_graphic. }
    cbn [is_empty]. rewrite <- str_app_cons.
    rewrite next_word_spaced; [|done|by rewrite str_app_cons|cbn [str_all]; by rewrite Hc].
    f_equal. apply IH. rewrite str_length_app in Hf. lia.
Qed.

Lemma split_whitespace_spaced ws e :
  text_end e -> Forall word ws -> split_whitespace (spaced ws e) = ws.
Proof. intros. apply words_fuel_spaced; [done|lia|done]. Qed.

Lemma word_dec n : word (dec n).
Proof.
  split; [apply dec_nonempty|]. apply (str_all_impl is_digit); [|apply dec_all_digits].
  intros c. unfold is_digit, is_graphic. rewrite !andb_true_iff, !N.leb_le. lia.
Qed.

Lemma str_contains_app c s t : str_contains c (s +:+ t) = str_contains c s || str_contains c t.
Proof.
  induction s as [|d s IH]; [done|]. rewrite str_app_cons. cbn [str_contains].
  by destruct (decide (c = d)).
Qed.

Lemma spaced_not_contains c ws e :
  c <> " "%char -> str_contains c e = false -> Forall (fun w => str_contains c w = false) ws -> str_contains c (spaced ws e) = false.
Proof.
  intros Hc He. induction 1 as [|w ws Hw _ IH]; [done|]. cbn [spaced].
  rewrite !str_contains_app, Hw, IH. simpl. by rewrite decide_False.
Qed.
