(* ===== verification/Proto.v ===== *)
(** * [cirro-proto]: the API's data

    The request and response bodies of [crates/cirro-proto/src/lib.rs]. A
    field [f] of a struct keeps its name behind a prefix of the struct's;
    unsigned integers are [N], an [Ipv4Addr] is its 32-bit value, an [f64]
    is the Standard Library's [spec_float] (binary64). *)

From S2P Require Import Prelude.
From Corelib Require Import SpecFloat.

(** ** Constants *)

Definition VM_STATE_HEADER : string := "cirro-vm-state".
Definition LOG_CHUNK : N := 1048576.
Definition MIN_MEM_MIB : N := 128.
Definition MAX_MEM_MIB : N := 65536.
Definition MIN_VCPUS : N := 1.
Definition MAX_VCPUS : N := 32.

(** ** VMs *)

Definition Ipv4Addr : Type := N.

Record Route := mkRoute {
  rt_host : string;
  rt_port : N;
  rt_idle_park_secs : option N;
}.

Record User := mkUser { us_uid : N; us_gid : N }.

Record RunRequest := mkRunRequest {
  rq_name : string;
  rq_rootfs : string;
  rq_mem_mib : N;
  rq_vcpus : N;
  rq_command : list string;
  rq_env : list string;
  rq_workdir : option string;
  rq_user : option User;
  rq_route : option Route;
}.

Inductive EndReason :=
| Graceful
| Forced
| Exited
| Crashed
| Parked
| AgentDown.

(** [EndReason::as_str]. *)
Definition reason_as_str (r : EndReason) : string :=
  match r with
  | Graceful => "graceful"
  | Forced => "forced"
  | Exited => "exited"
  | Crashed => "crashed"
  | Parked => "parked"
  | AgentDown => "died while the agent was down"
  end.

(** The serialised spelling: [rename_all = "lowercase"], with [AgentDown]
    renamed. *)
Definition reason_wire (r : EndReason) : string :=
  match r with
  | Graceful => "graceful"
  | Forced => "forced"
  | Exited => "exited"
  | Crashed => "crashed"
  | Parked => "parked"
  | AgentDown => "agent_down"
  end.

Record Ended := mkEnded { en_at : N; en_reason : EndReason }.

Record VmInfo := mkVmInfo {
  vi_name : string;
  vi_vm_address : option Ipv4Addr;
  vi_mem_mib : N;
  vi_vcpus : N;
  vi_started_at : N;
  vi_ended : option Ended;
  vi_route : option Route;
}.

(** [is_parked] and [ended_info] of the Node agent (agent.rs). *)
Definition is_parked (info : VmInfo) : bool :=
  match vi_ended info with
  | Some e => match en_reason e with Parked => true | _ => false end
  | None => false
  end.
Definition ended_info (info : VmInfo) (ended : Ended) : VmInfo := {|
  vi_name := vi_name info;
  vi_vm_address := None;
  vi_mem_mib := vi_mem_mib info;
  vi_vcpus := vi_vcpus info;
  vi_started_at := vi_started_at info;
  vi_ended := Some ended;
  vi_route := vi_route info;
|}.

Record StopRequest := mkStopRequest { st_force : bool; st_timeout_secs : option N }.

(** ** Machines *)

Inductive MachineStatus := Up | Unreachable.

(** [MachineStatus::as_str]. *)
Definition status_as_str (s : MachineStatus) : string :=
  match s with Up => "up" | Unreachable => "unreachable" end.

Record AddMachine := mkAddMachine {
  am_name : string;
  am_ssh : string;
  am_host_key : string;
}.

Record MachineInfo := mkMachineInfo {
  mi_name : string;
  mi_ssh : string;
  mi_host_key : string;
  mi_status : MachineStatus;
  mi_last_error : option string;
}.

Record MachineAppRequest := mkMachineAppRequest {
  mar_name : string;
  mar_machine : string;
  mar_route : Route;
}.

Record MachineAppInfo := mkMachineAppInfo {
  mai_name : string;
  mai_machine : string;
  mai_route : Route;
  mai_status : MachineStatus;
}.

(** ** Metrics *)

Definition f64 : Type := spec_float.

Record NodeRates := mkNodeRates {
  nr_cpu_percent : f64;
  nr_memory_used_bytes : N;
  nr_memory_total_bytes : N;
  nr_rx_per_sec : N;
  nr_tx_per_sec : N;
}.

Record VmRates := mkVmRates {
  vr_cpu_percent : f64;
  vr_memory_bytes : N;
  vr_io_read_per_sec : N;
  vr_io_write_per_sec : N;
  vr_rx_per_sec : N;
  vr_tx_per_sec : N;
}.

Record VmStats := mkVmStats { vs_info : VmInfo; vs_history : list VmRates }.

Record Stats := mkStats {
  ss_now : N;
  ss_node : list NodeRates;
  ss_vms : list VmStats;
}.

(** ** Decidable equality *)

#[global] Instance route_eq_dec : EqDecision Route.
Proof. solve_decision. Defined.
#[global] Instance user_eq_dec : EqDecision User.
Proof. solve_decision. Defined.
#[global] Instance end_reason_eq_dec : EqDecision EndReason.
Proof. solve_decision. Defined.
#[global] Instance ended_eq_dec : EqDecision Ended.
Proof. solve_decision. Defined.
#[global] Instance vm_info_eq_dec : EqDecision VmInfo.
Proof. solve_decision. Defined.
#[global] Instance machine_status_eq_dec : EqDecision MachineStatus.
Proof. solve_decision. Defined.

(** The machine-integer fields of a value that came off the wire. *)
Definition route_wf (r : Route) : Prop :=
  (rt_port r <= u16_max)%N /\
  (forall n, rt_idle_park_secs r = Some n -> (n <= u32_max)%N).

Definition vm_info_wf (i : VmInfo) : Prop :=
  (forall a, vi_vm_address i = Some a -> (a <= u32_max)%N) /\
  (vi_mem_mib i <= u32_max)%N /\ (vi_vcpus i <= u8_max)%N /\
  (vi_started_at i <= u64_max)%N /\
  (forall e, vi_ended i = Some e -> (en_at e <= u64_max)%N) /\
  (forall r, vi_route i = Some r -> route_wf r).

Lemma reason_wire_inj r r' : reason_wire r = reason_wire r' -> r = r'.
Proof. destruct r, r'; done. Qed.
