(* ===== verification/Subnet.v ===== *)
(** * IPv4 addresses, the Node subnet and host ids

    [std::net::Ipv4Addr]'s printing and parsing, [crates/cirro-node/src/
    subnet.rs], and the names of a VM's host objects ([host_id],
    [parse_host_id], [VM_UID_BASE] of [crates/cirro-node/src/vm.rs]). *)

From S2P Require Import Prelude RustStr Proto.
Local Open Scope N_scope.

(** ** [Ipv4Addr] *)

(** [Ipv4Addr::octets]. *)
Definition octets (a : Ipv4Addr) : N * N * N * N :=
  (N.shiftr a 24 mod 256, N.shiftr a 16 mod 256, N.shiftr a 8 mod 256, a mod 256).
(** [Ipv4Addr::new]. *)
Definition ipv4_new (a b c d : N) : Ipv4Addr :=
  N.lor (N.lor (N.shiftl a 24) (N.shiftl b 16)) (N.lor (N.shiftl c 8) d).

(** [Display for Ipv4Addr]. *)
Definition ipv4_display (a : Ipv4Addr) : string :=
  let '(w, x, y, z) := octets a in
  dec w +:+ "." +:+ dec x +:+ "." +:+ dec y +:+ "." +:+ dec z.

(** One octet of [FromStr for Ipv4Addr]: one to three digits, no leading
    zero unless it is the only digit, at most 255. *)
Definition parse_octet (s : string) : option N :=
  if str_all is_digit s && negb (is_empty s) && (str_len s <=? 3)
     && ((str_len s =? 1) || negb (starts_with "0" s))
  then parse_digits 10 255 0 s
  else None.
(** [FromStr for Ipv4Addr]: four octets between dots, and nothing else. *)
Definition ipv4_parse (s : string) : option Ipv4Addr :=
  match str_split "." s with
  | [a; b; c; d] =>
      a ← parse_octet a; b ← parse_octet b; c ← parse_octet c; d ← parse_octet d;
      Some (ipv4_new a b c d)
  | _ => None
  end.

(** ** [Subnet] *)

Record Subnet := mkSubnet { network : N; prefix_len : N }.

(** [u32::MAX << n], shifted left and cut to 32 bits, and [u32::MAX >> n]. *)
Definition shl32 (a n : N) : N := N.land (N.shiftl a n) u32_max.
Definition netmask (prefix : N) : N := shl32 u32_max (32 - prefix).
Definition hostmask (prefix : N) : N := N.shiftr u32_max prefix.

Inductive SubnetError :=
| NotACidr (s : string)
| BadAddress (s : string)
| BadPrefix (s : string)
| PrefixOutOfRange (s : string).

(** [FromStr for Subnet]. The two parse errors' own words are left out. *)
Definition subnet_from_str (s : string) : result SubnetError Subnet :=
  '(addr, len) ← ok_or (split_once "/" s) (NotACidr s);
  addr ← ok_or (ipv4_parse addr) (BadAddress s);
  prefix ← ok_or (parse_uint u8_max len) (BadPrefix s);
  if negb ((16 <=? prefix) && (prefix <=? 30)) then Err (PrefixOutOfRange s)
  else Ok {| network := N.land addr (netmask prefix); prefix_len := prefix |}.

(** [Display for Subnet]. *)
Definition subnet_display (s : Subnet) : string :=
  ipv4_display (network s) +:+ "/" +:+ dec (prefix_len s).

(** [Subnet::node_address]. *)
Definition node_address (s : Subnet) : Ipv4Addr := network s + 1.

Definition broadcast (s : Subnet) : N := N.lor (network s) (hostmask (prefix_len s)).

(** [Subnet::vm_address_with_low16]. *)
Definition vm_address_with_low16 (s : Subnet) (low : N) : option Ipv4Addr :=
  let address := N.lor (N.land (network s) 4294901760) low in
  if (network s + 2 <=? address) && (address <? broadcast s) then Some address else None.

(** [Subnet::vm_addresses]: the range [network + 2 .. broadcast]. *)
Definition vm_addresses (s : Subnet) : list Ipv4Addr :=
  (fun i => network s + 2 + N.of_nat i)
    <$> seq 0 (N.to_nat (broadcast s - (network s + 2))).

(** ** Host ids *)

Definition VM_UID_BASE : N := 900000.

(** [host_id] of vm.rs. *)
Definition host_id (vm_address : Ipv4Addr) : string :=
  let '(_, _, c, d) := octets vm_address in
  "cirro-" +:+ hex2 c +:+ hex2 d.

(** [parse_host_id] of vm.rs. *)
Definition parse_host_id (name : string) : option N :=
  hex ← strip_prefix "cirro-" name;
  if negb (str_len hex =? 4) then None else from_str_radix 16 u16_max hex.

(** The uid [host_steps] of vm.rs runs Firecracker as. *)
Definition vm_uid (vm_address : Ipv4Addr) : N :=
  let '(_, _, c, d) := octets vm_address in
  VM_UID_BASE + N.lor (N.shiftl c 8) d.

(** ** Well-formed subnets: what [subnet_from_str] makes *)

Record subnet_wf (s : Subnet) : Prop := {
  wf_prefix : 16 <= prefix_len s <= 30;
  wf_network : network s < 2 ^ 32;
  wf_aligned : N.land (network s) (netmask (prefix_len s)) = network s;
}.

(** ** Lemmas on bits *)

Lemma byte_bits a k i :
  N.testbit (N.shiftr a k mod 256) i = (i <? 8) && N.testbit a (i + k).
Proof.
  change 256 with (2 ^ 8). destruct (N.ltb_spec i 8).
  - by rewrite N.mod_pow2_bits_low, N.shiftr_spec'.
  - by rewrite N.mod_pow2_bits_high.
Qed.
Lemma shiftl_bits a k i :
  N.testbit (N.shiftl a k) i = (k <=? i) && N.testbit a (i - k).
Proof.
  destruct (N.leb_spec k i).
  - by rewrite N.shiftl_spec_high'.
  - by rewrite N.shiftl_spec_low.
Qed.
Lemma bits_above a k i : a < 2 ^ k -> k <= i -> N.testbit a i = false.
Proof.
  intros Ha Hi. rewrite <- (N.mod_small a (2 ^ k)) by done.
  by apply N.mod_pow2_bits_high.
Qed.

Ltac split_ltb :=
  repeat match goal with
  | |- context [(?a <? ?b)%N] => destruct (N.ltb_spec a b); try lia
  | |- context [(?a <=? ?b)%N] => destruct (N.leb_spec a b); try lia
  end.

Lemma ipv4_new_octets a :
  a < 2 ^ 32 -> let '(w, x, y, z) := octets a in ipv4_new w x y z = a.
Proof.
  intros Ha. unfold octets, ipv4_new. apply N.bits_inj. intros i.
  rewrite <- (N.shiftr_0_r a) at 4.
  rewrite !N.lor_spec, !shiftl_bits, !byte_bits.
  split_ltb; rewrite ?andb_false_r, ?andb_true_r, ?orb_false_r; simpl;
    rewrite ?N.sub_add by lia; rewrite ?N.add_0_r, ?orb_false_r; try done.
  symmetry. apply (bits_above a 32); [done|lia].
Qed.

Lemma octet_bound a k : N.shiftr a k mod 256 < 256.
Proof. by apply N.mod_lt. Qed.

(** ** Printing and parsing addresses *)

(** A boolean property of every byte, checked by running it on all 256. *)
Lemma all_bytes (p : N -> bool) :
  forallb p (N.of_nat <$> seq 0 256) = true -> forall n, n < 256 -> p n = true.
Proof.
  rewrite forallb_forall. intros Hb n Hn.
  apply Hb, list_elem_of_In, list_elem_of_fmap.
  exists (N.to_nat n). split; [lia|]. apply elem_of_seq. lia.
Qed.

Lemma parse_octet_dec n : n < 256 -> parse_octet (dec n) = Some n.
Proof.
  intros Hn. apply (bool_decide_eq_true_1 (parse_octet (dec n) = Some n)).
  revert n Hn. apply all_bytes. vm_compute. done.
Qed.

Lemma dec_no_dot n : str_contains "." (dec n) = false.
Proof. by apply dec_not_contains. Qed.
Lemma dec_no_slash n : str_contains "/" (dec n) = false.
Proof. by apply dec_not_contains. Qed.

Lemma ipv4_parse_display a : a < 2 ^ 32 -> ipv4_parse (ipv4_display a) = Some a.
Proof.
  intros Ha. pose proof (ipv4_new_octets a Ha) as Hnew.
  unfold ipv4_display, ipv4_parse. destruct (octets a) as [[[w x] y] z] eqn:Ho.
  unfold octets in Ho. injection Ho as <- <- <- <-.
  rewrite !(str_app_cons "."), !str_app_nil_l.
  rewrite !str_split_app by apply dec_no_dot.
  rewrite str_split_single by apply dec_no_dot.
  assert (a mod 256 < 256) by by apply N.mod_lt.
  rewrite !parse_octet_dec by auto using octet_bound.
  simpl. by f_equal.
Qed.

(** ** Subnets *)

Lemma netmask_bits p i :
  p <= 32 -> N.testbit (netmask p) i = (32 - p <=? i) && (i <? 32).
Proof.
  intros. unfold netmask, shl32. rewrite N.land_spec, shiftl_bits.
  change u32_max with (N.ones 32).
  destruct (N.ltb_spec i 32).
  - rewrite (N.ones_spec_low 32 i) by done. rewrite !andb_true_r.
    destruct (N.leb_spec (32 - p) i); [|done]. rewrite N.ones_spec_low by lia. done.
  - rewrite (N.ones_spec_high 32 i) by done. by rewrite !andb_false_r.
Qed.
Lemma hostmask_ones p : p <= 32 -> hostmask p = N.ones (32 - p).
Proof.
  intros. unfold hostmask. change u32_max with (N.ones 32).
  by rewrite N.shiftr_div_pow2, N.ones_div_pow2.
Qed.
Lemma hostmask_bits p i : p <= 32 -> N.testbit (hostmask p) i = (i <? 32 - p).
Proof.
  intros. rewrite hostmask_ones by done. destruct (N.ltb_spec i (32 - p)).
  - by apply N.ones_spec_low.
  - by apply N.ones_spec_high.
Qed.

Lemma land_lt_pow2 a b k : a < 2 ^ k -> N.land a b < 2 ^ k.
Proof.
  intros Ha. destruct (decide (N.land a b = 0)) as [->|Hne].
  { apply N.neq_0_lt_0, N.pow_nonzero. lia. }
  apply N.log2_lt_pow2; [lia|]. apply N.nle_gt. intros Hk.
  pose proof (N.bit_log2 (N.land a b) Hne) as Hb.
  rewrite N.land_spec, (bits_above a k) in Hb by done. done.
Qed.

Lemma ipv4_new_bound a b c d :
  a < 256 -> b < 256 -> c < 256 -> d < 256 -> ipv4_new a b c d < 2 ^ 32.
Proof.
  intros. unfold ipv4_new.
  destruct (decide (N.lor (N.lor (N.shiftl a 24) (N.shiftl b 16)) (N.lor (N.shiftl c 8) d) = 0))
    as [->|Hne]; [done|].
  apply N.log2_lt_pow2; [lia|]. apply N.nle_gt. intros Hk.
  pose proof (N.bit_log2 _ Hne) as Hb. revert Hb Hk.
  generalize (N.log2 (N.lor (N.lor (N.shiftl a 24) (N.shiftl b 16)) (N.lor (N.shiftl c 8) d))).
  intros i Hb Hi. rewrite !N.lor_spec, !shiftl_bits in Hb.
  rewrite (bits_above a 8), (bits_above b 8), (bits_above c 8), (bits_above d 8) in Hb
    by (done || lia).
  by rewrite !andb_false_r in Hb.
Qed.

Lemma parse_octet_bound s n : parse_octet s = Some n -> n < 256.
Proof.
  unfold parse_octet. case_match; [|done]. intros Hp.
  apply parse_digits_le in Hp; lia.
Qed.
Lemma ipv4_parse_bound s a : ipv4_parse s = Some a -> a < 2 ^ 32.
Proof.
  unfold ipv4_parse. repeat (case_match; try done).
  intros Hs. repeat (apply bind_Some in Hs as (?&?%parse_octet_bound&Hs)).
  simplify_eq. by apply ipv4_new_bound.
Qed.

(** Every subnet the agent can be given is well-formed. *)
Lemma subnet_from_str_wf s n : subnet_from_str s = Ok n -> subnet_wf n.
Proof.
  unfold subnet_from_str. intros H. apply bind_ok in H as ([addr len]&_&H).
  apply bind_ok in H as (a&Ha%ok_or_ok%ipv4_parse_bound&H).
  apply bind_ok in H as (p&_&H). case_match eqn:Hp; [done|].
  apply negb_false_iff, andb_true_iff in Hp as [?%N.leb_le ?%N.leb_le].
  simplify_eq. split; simpl; [lia| |].
  - by apply land_lt_pow2.
  - by rewrite <- N.land_assoc, N.land_diag.
Qed.

Lemma subnet_from_str_display s :
  subnet_wf s -> subnet_from_str (subnet_display s) = Ok s.
Proof.
  intros [Hp Hn Ha]. unfold subnet_from_str, subnet_display.
  rewrite (str_app_cons "/"), str_app_nil_l.
  rewrite split_once_app; rsimpl.
  - rewrite ipv4_parse_display by done. rsimpl. rewrite parse_uint_dec.
    unfold u8_max. destruct (N.leb_spec (prefix_len s) 255); [|lia]. rsimpl.
    destruct (N.leb_spec 16 (prefix_len s)); [|lia].
    destruct (N.leb_spec (prefix_len s) 30); [|lia]. cbn [andb negb].
    rewrite Ha. by destruct s.
  - unfold ipv4_display, octets. 
    assert (forall x y, str_contains "/" x = false -> str_contains "/" y = false ->
              str_contains "/" (x +:+ y) = false) as Happ.
    { intros x y ?%str_contains_all ?%str_contains_all. apply str_contains_all.
      rewrite str_all_app. by apply andb_true_iff. }
    repeat (apply Happ; auto using dec_no_slash).
Qed.

(** The network address has no host bits. *)
Lemma wf_low_bits s i : subnet_wf s -> i < 32 - prefix_len s -> N.testbit (network s) i = false.
Proof.
  intros [Hp _ Ha] Hi. rewrite <- Ha, N.land_spec, netmask_bits by lia.
  destruct (N.leb_spec (32 - prefix_len s) i); [lia|]. apply andb_false_r.
Qed.
Lemma broadcast_eq s :
  subnet_wf s -> broadcast s = network s + (2 ^ (32 - prefix_len s) - 1).
Proof.
  intros Hwf. destruct (Hwf) as [Hp _ _]. unfold broadcast.
  rewrite hostmask_ones by lia. rewrite N.ones_equiv, <- N.sub_1_r.
  rewrite N.add_nocarry_lxor, N.lxor_lor; try done.
  all: apply N.bits_inj; intros i; rewrite N.land_spec, N.bits_0, N.sub_1_r, <- N.ones_equiv.
  all: destruct (N.lt_ge_cases i (32 - prefix_len s));
    [by rewrite wf_low_bits|rewrite N.ones_spec_high by done; apply andb_false_r].
Qed.
Lemma network_multiple s :
  subnet_wf s -> network s mod 2 ^ (32 - prefix_len s) = 0.
Proof.
  intros Hwf. apply N.bits_inj. intros i. rewrite N.bits_0.
  destruct (N.lt_ge_cases i (32 - prefix_len s)).
  - rewrite N.mod_pow2_bits_low by done. by apply wf_low_bits.
  - by apply N.mod_pow2_bits_high.
Qed.

Lemma elem_of_vm_addresses s a :
  a ∈ vm_addresses s <-> network s + 2 <= a < broadcast s.
Proof.
  unfold vm_addresses. rewrite list_elem_of_fmap. split.
  - intros (i & -> & Hi%elem_of_seq). lia.
  - intros [Hlo Hhi]. exists (N.to_nat (a - (network s + 2))). split; [lia|].
    apply elem_of_seq. lia.
Qed.
Lemma NoDup_vm_addresses s : NoDup (vm_addresses s).
Proof. apply NoDup_fmap_2, NoDup_seq. intros x y ?. lia. Qed.
(** [vm_addresses] is in ascending order. *)
Lemma vm_addresses_sorted s i j a b :
  vm_addresses s !! i = Some a -> vm_addresses s !! j = Some b -> (i < j)%nat -> a < b.
Proof.
  unfold vm_addresses. rewrite !list_lookup_fmap_Some.
  intros (x & -> & [-> ?]%lookup_seq) (y & -> & [-> ?]%lookup_seq) ?. lia.
Qed.

Section in_subnet.
Context (s : Subnet) (Hwf : subnet_wf s).
#[local] Abbreviation hosts := (2 ^ (32 - prefix_len s)).

Lemma hosts_bounds : 4 <= hosts <= 65536.
Proof.
  destruct Hwf as [Hp _ _]. split.
  - change 4 with (2 ^ 2). apply N.pow_le_mono_r; lia.
  - change 65536 with (2 ^ 16). apply N.pow_le_mono_r; lia.
Qed.
Lemma network_bound : network s + hosts <= 2 ^ 32.
Proof.
  pose proof hosts_bounds. pose proof (network_multiple s Hwf) as Hm.
  destruct Hwf as [Hp Hn _].
  apply N.Div0.mod_divides in Hm as [q Hq].
  assert (2 ^ 32 = hosts * 2 ^ prefix_len s) as H32.
  { rewrite <- N.pow_add_r. f_equal. lia. }
  assert (q < 2 ^ prefix_len s) by nia. nia.
Qed.
Lemma broadcast_bounds : network s + 3 <= broadcast s < 2 ^ 32.
Proof.
  pose proof hosts_bounds. pose proof network_bound.
  rewrite broadcast_eq by done. lia.
Qed.

Lemma vm_address_bound a : a ∈ vm_addresses s -> a < 2 ^ 32.
Proof. rewrite elem_of_vm_addresses. pose proof broadcast_bounds. lia. Qed.

Lemma vm_addresses_length : N.of_nat (length (vm_addresses s)) = hosts - 3.
Proof.
  pose proof hosts_bounds. unfold vm_addresses. rewrite length_fmap, length_seq.
  rewrite broadcast_eq by done. lia.
Qed.

(** What [/prefix] means: the upper bits of an address are the network's. *)
Lemma in_subnet_land a :
  network s <= a <= broadcast s -> N.land a (netmask (prefix_len s)) = network s.
Proof.
  intros Ha. destruct (Hwf) as [Hp Hn Hal].
  pose proof hosts_bounds. pose proof (network_multiple s Hwf) as Hm.
  pose proof broadcast_bounds. rewrite broadcast_eq in Ha by done.
  assert (a / hosts = network s / hosts) as Hdiv.
  { apply N.Div0.mod_divides in Hm as [q Hq].
    replace (network s / hosts) with q
      by (rewrite Hq, (N.mul_comm hosts q), N.div_mul; lia).
    symmetry. apply (N.div_unique _ _ _ (a - network s)); lia. }
  apply N.bits_inj. intros i. rewrite N.land_spec, netmask_bits by lia.
  destruct (N.leb_spec (32 - prefix_len s) i); simpl.
  - replace i with ((i - (32 - prefix_len s)) + (32 - prefix_len s)) at 1 3 by lia.
    rewrite <- !N.div_pow2_bits, Hdiv.
    destruct (N.ltb_spec i 32); simpl; [apply andb_true_r|].
    rewrite andb_false_r, N.div_pow2_bits. symmetry.
    apply (bits_above _ 32); lia || done.
  - rewrite andb_false_r. symmetry. by apply wf_low_bits.
Qed.
End in_subnet.

(** ** The low 16 bits of a VM address *)

Definition low16 (a : N) : N := a mod 2 ^ 16.

Lemma octets_low16 a :
  let '(_, _, c, d) := octets a in c * 256 + d = low16 a /\ c < 256 /\ d < 256.
Proof.
  unfold octets, low16. split_and!; [|by apply N.mod_lt..].
  rewrite N.shiftr_div_pow2. change (2 ^ 16) with (256 * 256). change (2 ^ 8) with 256.
  rewrite N.Div0.mod_mul_r. lia.
Qed.

Lemma parse_host_id_host_id a : parse_host_id (host_id a) = Some (low16 a).
Proof.
  unfold parse_host_id, host_id. pose proof (octets_low16 a) as Hl.
  destruct (octets a) as [[[w x] c] d]. destruct Hl as (<- & Hc & Hd).
  rewrite strip_prefix_app. rsimpl. by rewrite from_str_radix_hex2.
Qed.

Lemma vm_uid_eq a : vm_uid a = VM_UID_BASE + low16 a.
Proof.
  unfold vm_uid. pose proof (octets_low16 a) as Hl.
  destruct (octets a) as [[[w x] c] d]. destruct Hl as (<- & Hc & Hd).
  f_equal. rewrite N.shiftl_mul_pow2. change (2 ^ 8) with 256.
  rewrite <- N.lxor_lor, <- N.add_nocarry_lxor; [done| |];
    apply N.bits_inj; intros i; rewrite N.land_spec, N.bits_0;
    (destruct (N.lt_ge_cases i 8);
      [change 256 with (2 ^ 8); by rewrite N.mul_pow2_bits_low
      |rewrite (bits_above d 8) by done; apply andb_false_r]).
Qed.

Lemma high16_low16 (n low : N) :
  n < 2 ^ 32 -> low < 2 ^ 16 ->
  N.lor (N.land n 4294901760) low = n / 2 ^ 16 * 2 ^ 16 + low.
Proof.
  intros Hn Hl.
  assert (N.land n 4294901760 = n / 2 ^ 16 * 2 ^ 16) as ->.
  { apply N.bits_inj. intros i. change 4294901760 with (netmask 16).
    rewrite N.land_spec, netmask_bits by lia.
    destruct (N.leb_spec (32 - 16) i); simpl.
    - rewrite N.mul_pow2_bits_high by lia. rewrite N.div_pow2_bits, N.sub_add by lia.
      destruct (N.ltb_spec i 32); [apply andb_true_r|].
      rewrite andb_false_r. symmetry. apply (bits_above _ 32); done.
    - rewrite andb_false_r. by rewrite N.mul_pow2_bits_low by lia. }
  rewrite N.add_nocarry_lxor, N.lxor_lor; [done| |];
    apply N.bits_inj; intros i; rewrite N.land_spec, N.bits_0;
    (destruct (N.lt_ge_cases i 16);
      [by rewrite N.mul_pow2_bits_low
      |rewrite (bits_above low 16) by done; apply andb_false_r]).
Qed.

Lemma vm_address_with_low16_spec s low a :
  subnet_wf s -> low < 2 ^ 16 ->
  vm_address_with_low16 s low = Some a <-> a ∈ vm_addresses s /\ low16 a = low.
Proof.
  intros Hwf Hl. unfold vm_address_with_low16. rewrite elem_of_vm_addresses.
  pose proof (network_bound s Hwf) as Hb. pose proof (hosts_bounds s Hwf) as Hh.
  pose proof (network_multiple s Hwf) as Hm. destruct (Hwf) as [Hp Hn _].
  rewrite high16_low16 by done. unfold low16.
  assert (forall x, network s <= x < network s + 2 ^ (32 - prefix_len s) ->
            x / 2 ^ 16 = network s / 2 ^ 16) as Hsame.
  { intros x Hx. assert (exists k, 2 ^ 16 = 2 ^ (32 - prefix_len s) * k) as [k Hk].
    { exists (2 ^ (prefix_len s - 16)). rewrite <- N.pow_add_r. f_equal. lia. }
    rewrite Hk, <- !N.Div0.div_div. f_equal.
    apply N.Div0.mod_divides in Hm as [q Hq].
    replace (network s / _) with q by (rewrite Hq, N.mul_comm, N.div_mul; lia).
    symmetry. apply (N.div_unique _ _ _ (x - network s)); lia. }
  pose proof (broadcast_eq s Hwf) as Hbc. split.
  - case_match eqn:Hc; [|done]. apply andb_true_iff in Hc as [?%N.leb_le ?%N.ltb_lt].
    intros [= <-]. split; [lia|].
    rewrite N.add_comm, N.Div0.mod_add. by apply N.mod_small.
  - intros [Ha Hla]. rewrite <- (Hsame a) by lia.
    pose proof (N.div_mod a (2 ^ 16) ltac:(done)) as Hdm.
    replace (a / 2 ^ 16 * 2 ^ 16 + low) with a by lia.
    destruct (N.leb_spec (network s + 2) a); [|lia].
    by destruct (N.ltb_spec a (broadcast s)); [|lia].
Qed.

Lemma low16_inj s a b :
  subnet_wf s -> a ∈ vm_addresses s -> b ∈ vm_addresses s -> low16 a = low16 b -> a = b.
Proof.
  intros Hwf Ha Hb Hab.
  assert (vm_address_with_low16 s (low16 a) = Some a) as H1.
  { apply vm_address_with_low16_spec; [done| |done]. by apply N.mod_lt. }
  assert (vm_address_with_low16 s (low16 a) = Some b) as H2.
  { apply vm_address_with_low16_spec; [done| |done]. by apply N.mod_lt. }
  congruence.
Qed.

(** ** Properties *)

(** a subnet the agent accepts is well-formed (prefix 16 to 30, no host
    bits in its network address), and printing it, as the state database
    stores it, gives text that parses back to the same subnet. *)
Theorem subnet_roundtrip str s :
  subnet_from_str str = Ok s ->
  subnet_wf s /\ subnet_from_str (subnet_display s) = Ok s.
Proof.
  intros Hs%subnet_from_str_wf. split; [done|]. by apply subnet_from_str_display.
Qed.
Lemma subnet_roundtrip_witness :
  subnet_from_str "10.77.9.3/24" = Ok (mkSubnet 172820736 24) /\
  subnet_from_str (subnet_display (mkSubnet 172820736 24)) = Ok (mkSubnet 172820736 24).
Proof.
  assert (subnet_from_str "10.77.9.3/24" = Ok (mkSubnet 172820736 24)) as H
    by (vm_compute; reflexivity).
  split; [exact H|]. exact (proj2 (subnet_roundtrip _ _ H)).
Defined.

(** C6: The addresses a VM may hold are exactly the subnet's addresses but
    its network, Node and broadcast ones: every one is in the subnet and is
    none of the three, none comes twice, and there are [2^(32-prefix) - 3]. *)
Theorem vm_addresses_usable s :
  subnet_wf s ->
  NoDup (vm_addresses s) /\
  N.of_nat (length (vm_addresses s)) = 2 ^ (32 - prefix_len s) - 3 /\
  forall a, a ∈ vm_addresses s <->
    N.land a (netmask (prefix_len s)) = network s /\ a < 2 ^ 32 /\
    a <> network s /\ a <> node_address s /\ a <> broadcast s.
Proof.
  intros Hwf. split_and!; [apply NoDup_vm_addresses|by apply vm_addresses_length|].
  pose proof (broadcast_bounds s Hwf) as Hb. pose proof (broadcast_eq s Hwf) as He.
  pose proof (hosts_bounds s Hwf). unfold node_address.
  intros a. rewrite elem_of_vm_addresses. split.
  - intros Ha. rewrite in_subnet_land by (done || lia). lia.
  - intros (Hland & Ha & Hne). destruct (Hwf) as [Hp _ _].
    assert (network s <= a <= broadcast s); [|lia].
    rewrite He, <- Hland. split.
    + apply N.ldiff_le, N.bits_inj. intros i.
      rewrite N.ldiff_spec, N.land_spec, N.bits_0.
      by destruct (N.testbit a i), (N.testbit (netmask (prefix_len s)) i).
    + rewrite N.sub_1_r, <- N.ones_equiv.
      rewrite N.add_nocarry_lxor, N.lxor_lor;
        [|apply N.bits_inj; intros i; rewrite N.land_spec, N.land_spec, N.bits_0,
            netmask_bits by lia; destruct (N.lt_ge_cases i (32 - prefix_len s));
            [destruct (N.leb_spec (32 - prefix_len s) i); [lia|by rewrite andb_false_r]
            |rewrite N.ones_spec_high by done; apply andb_false_r]..].
      apply N.ldiff_le, N.bits_inj. intros i.
      rewrite N.ldiff_spec, N.lor_spec, N.land_spec, N.bits_0, netmask_bits by lia.
      destruct (N.lt_ge_cases i (32 - prefix_len s)).
      * rewrite (N.ones_spec_low _ i) by done. by rewrite orb_true_r, andb_false_r.
      * destruct (N.leb_spec (32 - prefix_len s) i); [|lia].
        destruct (N.ltb_spec i 32); [by destruct (N.testbit a i)|].
        by rewrite (bits_above a 32).
Qed.
Lemma vm_addresses_usable_witness :
  subnet_wf (mkSubnet 172820736 24) /\ 172820738 ∈ vm_addresses (mkSubnet 172820736 24).
Proof.
  assert (subnet_wf (mkSubnet 172820736 24)) as H by (split; vm_compute; done).
  split; [exact H|].
  apply (proj2 (proj2 (vm_addresses_usable _ H)) 172820738).
  split_and!; vm_compute; (reflexivity || discriminate).
Defined.

(** the Node finds a VM's address again from any of its host objects'
    names: [parse_host_id] of [host_id a] gives the low bits from which
    [vm_address_with_low16] gives back [a], for every VM address of the
    subnet, and gives nothing for bits that belong to no VM address. *)
Theorem host_id_names_owner s low a :
  subnet_wf s -> low < 2 ^ 16 ->
  (a ∈ vm_addresses s /\ parse_host_id (host_id a) = Some low) <->
  vm_address_with_low16 s low = Some a.
Proof.
  intros. rewrite vm_address_with_low16_spec, parse_host_id_host_id by done. naive_solver.
Qed.
Lemma host_id_names_owner_witness :
  vm_address_with_low16 (mkSubnet 172820736 24) 2306 = Some 172820738.
Proof.
  apply (host_id_names_owner (mkSubnet 172820736 24) 2306 172820738).
  - split; vm_compute; done.
  - vm_compute; reflexivity.
  - split; [apply elem_of_vm_addresses; vm_compute; split; [discriminate|reflexivity]
           |vm_compute; reflexivity].
Defined.

(** no two VMs on a Node share a host object's name or a uid: on the VM
    addresses of one subnet, [host_id] and Firecracker's uid are injective. *)
Theorem vm_identities_distinct s a b :
  subnet_wf s -> a ∈ vm_addresses s -> b ∈ vm_addresses s -> a <> b ->
  host_id a <> host_id b /\ vm_uid a <> vm_uid b.
Proof.
  intros Hwf Ha Hb Hne. split.
  - intros Heq%(f_equal parse_host_id). rewrite !parse_host_id_host_id in Heq.
    injection Heq. intros ?. apply Hne. by eapply low16_inj.
  - rewrite !vm_uid_eq. intros ?. apply Hne. eapply low16_inj; [done..|]. lia.
Qed.
Lemma vm_identities_distinct_witness :
  host_id 172820738 <> host_id 172820739 /\ vm_uid 172820738 <> vm_uid 172820739.
Proof.
  apply (vm_identities_distinct (mkSubnet 172820736 24)).
  - split; vm_compute; done.
  - apply elem_of_vm_addresses; vm_compute; split; [discriminate|reflexivity].
  - apply elem_of_vm_addresses; vm_compute; split; [discriminate|reflexivity].
  - discriminate.
Defined.

(** [parse_host_id] is not only the inverse of [host_id] its comment
    says: it also takes names no VM address has, since [from_str_radix]
    accepts a sign and capital digits. *)
Theorem parse_host_id_accepts_more :
  (parse_host_id "cirro-+0ab" = Some 171 /\ forall a, host_id a <> "cirro-+0ab") /\
  (parse_host_id "cirro-FA02" = Some 64002 /\ forall a, host_id a <> "cirro-FA02").
Proof.
  assert (forall n, hex_digit n <> "F"%char) as HF
    by (intros n; unfold hex_digit; repeat case_match; done).
  split; (split; [vm_compute; reflexivity|]); intros a; unfold host_id;
    destruct (octets a) as [[[w x] c] d]; unfold hex2;
    intros Heq%(f_equal (strip_prefix "cirro-")); rewrite strip_prefix_app in Heq;
    change (strip_prefix "cirro-" ?t) with (Some (String.substring 6 4 t)) in Heq;
    injection Heq; intros; [by eapply hex_digit_not_plus|by eapply HF].
Qed.
