(* ===== verification/Store.v ===== *)
(** * The state database ([crates/cirro-node/src/state.rs])

    The SQLite tables are finite maps from their primary keys to rows whose
    columns are what SQL stores: signed 64-bit integers, text, or [NULL].
    Each operation takes a [fault], the error SQLite answers it with, if
    any; an operation that fails leaves the tables as they were. Paths are
    their text. *)

From S2P Require Import Prelude RustStr Proto Subnet.

(** ** Data *)

(** [ProcessId] of vm.rs. *)
Record ProcessId := mkProcessId { pr_pid : N; pr_start_time : N }.
#[global] Instance process_id_eq_dec : EqDecision ProcessId.
Proof. solve_decision. Defined.

Record VmRecord := mkRecord {
  rec_info : VmInfo;
  rec_log : string;
  rec_process : option ProcessId;
}.
#[global] Instance record_eq_dec : EqDecision VmRecord.
Proof. solve_decision. Defined.

Record MachineRecord := mkMachineRecord {
  mr_name : string;
  mr_ssh : string;
  mr_pinned_key : string;
  mr_fingerprint : string;
}.

Record MachineAppRecord := mkMachineAppRecord {
  ma_name : string;
  ma_machine : string;
  ma_host : string;
  ma_port : N;
}.

(** A row of [vms], without its key, the name. *)
Record VmRow := mkVmRow {
  row_vm_address : option string;
  row_pid : option Z;
  row_pid_start : option Z;
  row_mem_mib : Z;
  row_vcpus : Z;
  row_started_at : Z;
  row_ended_at : option Z;
  row_end_reason : option string;
  row_log : string;
  row_route_host : option string;
  row_route_port : option Z;
  row_route_idle_park : option Z;
}.

(** A row of [machines] and of [machine_apps], without its key. *)
Record MachineRow := mkMachineRow {
  mrow_ssh : string;
  mrow_pinned_key : string;
  mrow_fingerprint : string;
}.
Record MachineAppRow := mkMachineAppRow {
  marow_machine : string;
  marow_host : string;
  marow_port : Z;
}.

(** The database file. [db_columns] are the columns its [vms] table was
    made with, [None] before the table exists. *)
Record Db := mkDb {
  db_columns : option (list string);
  db_node : option string;
  db_vms : gmap string VmRow;
  db_machines : gmap string MachineRow;
  db_machine_apps : gmap string MachineAppRow;
}.

(** [io_error]. *)
Definition io_error (e : string) : string := "state database: " +:+ e.

(** ** Stored numbers and reasons *)

Definition to_sql (n : N) : Z :=
  if (Z.of_N n <=? i64_max)%Z then Z.of_N n else i64_max.
Definition from_sql (n : Z) : N := if (0 <=? n)%Z then Z.to_N n else 0%N.

(** [row.get] of an unsigned column: rusqlite refuses a value out of the
    type's range. *)
Definition get_uint (max : N) (n : Z) : option N :=
  if ((0 <=? n) && (n <=? Z.of_N max))%Z then Some (Z.to_N n) else None.
Definition get_uint_opt (max : N) (n : option Z) : option (option N) :=
  match n with
  | None => Some None
  | Some n => Some <$> get_uint max n
  end.

Definition reason_text (r : EndReason) : string := reason_wire r.
Definition parse_reason (text : string) : option EndReason :=
  find_first (fun r => bool_decide (reason_wire r = text))
    [Graceful; Forced; Exited; Crashed; Parked; AgentDown].

Definition opt_zip {A B} (a : option A) (b : option B) : option (A * B) :=
  match a, b with Some a, Some b => Some (a, b) | _, _ => None end.

(** ** Opening *)

Definition VMS_COLUMNS : list string :=
  ["name"; "vm_address"; "pid"; "pid_start"; "mem_mib"; "vcpus"; "started_at";
   "ended_at"; "end_reason"; "log"; "route_host"; "route_port"; "route_idle_park"].
Definition ADDED : list (string * string) :=
  [("route_host", "TEXT"); ("route_port", "INTEGER"); ("route_idle_park", "INTEGER")].

Definition set_columns (cols : list string) (db : Db) : Db :=
  {| db_columns := Some cols; db_node := db_node db; db_vms := db_vms db;
     db_machines := db_machines db; db_machine_apps := db_machine_apps db |}.
Definition set_vms (vms : gmap string VmRow) (db : Db) : Db :=
  {| db_columns := db_columns db; db_node := db_node db; db_vms := vms;
     db_machines := db_machines db; db_machine_apps := db_machine_apps db |}.
Definition set_machines (ms : gmap string MachineRow) (db : Db) : Db :=
  {| db_columns := db_columns db; db_node := db_node db; db_vms := db_vms db;
     db_machines := ms; db_machine_apps := db_machine_apps db |}.
Definition set_machine_apps (apps : gmap string MachineAppRow) (db : Db) : Db :=
  {| db_columns := db_columns db; db_node := db_node db; db_vms := db_vms db;
     db_machines := db_machines db; db_machine_apps := apps |}.
Definition set_node (subnet : string) (db : Db) : Db :=
  {| db_columns := db_columns db; db_node := Some subnet; db_vms := db_vms db;
     db_machines := db_machines db; db_machine_apps := db_machine_apps db |}.

(** The columns [add_missing_columns] adds to a table that has [present]. *)
Definition missing_columns (present : list string) : list (string * string) :=
  filter (fun c => c.1 ∉ present) ADDED.
(** [add_missing_columns], on a database whose [vms] table exists: a row
    made before them reads [NULL] there. *)
Definition add_missing_columns (db : Db) : Db :=
  match db_columns db with
  | Some present =>
      match missing_columns present with
      | [] => db
      | alters => set_columns (present ++ alters.*1) db
      end
  | None => db
  end.

(** [CREATE TABLE IF NOT EXISTS]. *)
Definition create_tables (db : Db) : Db :=
  match db_columns db with None => set_columns VMS_COLUMNS db | Some _ => db end.

Inductive OpenError :=
| Sqlite (e : string)
| OtherSubnet (stored subnet : string).

(** How [OpenError] is shown. *)
Definition open_error (e : OpenError) : string :=
  match e with
  | Sqlite e => e
  | OtherSubnet stored subnet => "the state dir belongs to the Node subnet " +:+ stored
      +:+ ", but this agent was started with " +:+ subnet
  end.
(** [Store::open]. SQLite can fail opening and creating the tables
    ([f_create]), altering [vms], a transaction of its own ([f_alter]), or
    on the [node] table ([f_node]); what was done before stays in the file. *)
Definition store_open (f_create f_alter f_node : fault) (subnet : string) (db : Db)
    : Db * result OpenError unit :=
  match f_create with
  | Some e => (db, Err (Sqlite (io_error e)))
  | None =>
      let db := create_tables db in
      match f_alter with
      | Some e => (db, Err (Sqlite (io_error e)))
      | None =>
          let db := add_missing_columns db in
          match f_node, db_node db with
          | Some e, _ => (db, Err (Sqlite (io_error e)))
          | None, None => (set_node subnet db, Ok tt)
          | None, Some stored =>
              if decide (stored = subnet) then (db, Ok tt)
              else (db, Err (OtherSubnet stored subnet))
          end
      end
  end.

(** ** VM records *)

(** One row of [Store::load]; [None] when a column doesn't convert. *)
Definition row_record (name : string) (row : VmRow) : option VmRecord :=
  pid ← get_uint_opt u32_max (row_pid row);
  route_port ← get_uint_opt u16_max (row_route_port row);
  idle_park_secs ← get_uint_opt u32_max (row_route_idle_park row);
  mem_mib ← get_uint u32_max (row_mem_mib row);
  vcpus ← get_uint u8_max (row_vcpus row);
  Some {|
    rec_info := {|
      vi_name := name;
      vi_vm_address := row_vm_address row ≫= ipv4_parse;
      vi_mem_mib := mem_mib;
      vi_vcpus := vcpus;
      vi_started_at := from_sql (row_started_at row);
      vi_ended :=
        '(at_, reason) ← opt_zip (row_ended_at row) (row_end_reason row);
        reason ← parse_reason reason;
        Some {| en_at := from_sql at_; en_reason := reason |};
      vi_route :=
        '(host, port) ← opt_zip (row_route_host row) route_port;
        Some {| rt_host := host; rt_port := port; rt_idle_park_secs := idle_park_secs |};
    |};
    rec_log := row_log row;
    rec_process :=
      '(pid, start_time) ← opt_zip pid (row_pid_start row);
      Some {| pr_pid := pid; pr_start_time := from_sql start_time |};
  |}.

(** [rows.collect::<Result<_, _>>()]. *)
Fixpoint collect_rows (rows : list (string * VmRow)) : option (list VmRecord) :=
  match rows with
  | [] => Some []
  | (name, row) :: rows =>
      r ← row_record name row; rs ← collect_rows rows; Some (r :: rs)
  end.

(** [Store::load]: ordered by name. *)
Definition store_load (f : fault) (db : Db) : result string (list VmRecord) :=
  match f with
  | Some e => Err (io_error e)
  | None => ok_or (collect_rows (entries_of (db_vms db))) (io_error "Conversion error")
  end.

(** The row [Store::insert_running] writes. *)
Definition running_row (info : VmInfo) (log : string) (process : ProcessId) : VmRow := {|
  row_vm_address := ipv4_display <$> vi_vm_address info;
  row_pid := Some (Z.of_N (pr_pid process));
  row_pid_start := Some (to_sql (pr_start_time process));
  row_mem_mib := Z.of_N (vi_mem_mib info);
  row_vcpus := Z.of_N (vi_vcpus info);
  row_started_at := to_sql (vi_started_at info);
  row_ended_at := None;
  row_end_reason := None;
  row_log := log;
  row_route_host := rt_host <$> vi_route info;
  row_route_port := (fun r => Z.of_N (rt_port r)) <$> vi_route info;
  row_route_idle_park := r ← vi_route info; Z.of_N <$> rt_idle_park_secs r;
|}.

(** [Store::insert_running]: [INSERT OR REPLACE]. *)
Definition insert_running (f : fault) (info : VmInfo) (log : string) (process : ProcessId)
    (db : Db) : Db * result string unit :=
  match f with
  | Some e => (db, Err (io_error e))
  | None => (set_vms (<[vi_name info := running_row info log process]> (db_vms db)) db, Ok tt)
  end.

Definition ended_row (ended : Ended) (row : VmRow) : VmRow := {|
  row_vm_address := None;
  row_pid := None;
  row_pid_start := None;
  row_mem_mib := row_mem_mib row;
  row_vcpus := row_vcpus row;
  row_started_at := row_started_at row;
  row_ended_at := Some (to_sql (en_at ended));
  row_end_reason := Some (reason_text (en_reason ended));
  row_log := row_log row;
  row_route_host := row_route_host row;
  row_route_port := row_route_port row;
  row_route_idle_park := row_route_idle_park row;
|}.

(** [Store::mark_ended]: an [UPDATE] of a name without a row changes none. *)
Definition mark_ended (f : fault) (name : string) (ended : Ended) (db : Db)
    : Db * result string unit :=
  match f with
  | Some e => (db, Err (io_error e))
  | None => (set_vms (alter (ended_row ended) name (db_vms db)) db, Ok tt)
  end.

(** [Store::delete]. *)
Definition store_delete (f : fault) (name : string) (db : Db) : Db * result string unit :=
  match f with
  | Some e => (db, Err (io_error e))
  | None => (set_vms (delete name (db_vms db)) db, Ok tt)
  end.

(** ** Machines and Machine-backed Apps *)

(** [Store::load_machines]. *)
Definition load_machines (f : fault) (db : Db) : result string (list MachineRecord) :=
  match f with
  | Some e => Err (io_error e)
  | None =>
      Ok ((fun '(name, row) => {|
        mr_name := name; mr_ssh := mrow_ssh row;
        mr_pinned_key := mrow_pinned_key row; mr_fingerprint := mrow_fingerprint row |})
        <$> entries_of (db_machines db))
  end.

(** [Store::insert_machine]: a name that has a row is refused. *)
Definition insert_machine (f : fault) (m : MachineRecord) (db : Db) : Db * result string unit :=
  match f, db_machines db !! mr_name m with
  | Some e, _ => (db, Err (io_error e))
  | None, Some _ => (db, Err (io_error "UNIQUE constraint failed: machines.name"))
  | None, None =>
      (set_machines (<[mr_name m := {| mrow_ssh := mr_ssh m;
                                       mrow_pinned_key := mr_pinned_key m;
                                       mrow_fingerprint := mr_fingerprint m |}]>
                       (db_machines db)) db, Ok tt)
  end.

(** [rows.collect] of [Store::load_machine_apps]. *)
Fixpoint collect_app_rows (rows : list (string * MachineAppRow))
    : option (list MachineAppRecord) :=
  match rows with
  | [] => Some []
  | (name, row) :: rows =>
      port ← get_uint u16_max (marow_port row); rs ← collect_app_rows rows;
      Some ({| ma_name := name; ma_machine := marow_machine row;
               ma_host := marow_host row; ma_port := port |} :: rs)
  end.
(** [Store::load_machine_apps]. *)
Definition load_machine_apps (f : fault) (db : Db) : result string (list MachineAppRecord) :=
  match f with
  | Some e => Err (io_error e)
  | None =>
      ok_or (collect_app_rows (entries_of (db_machine_apps db))) (io_error "Conversion error")
  end.

(** [Store::insert_machine_app]. *)
Definition insert_machine_app (f : fault) (app : MachineAppRecord) (db : Db)
    : Db * result string unit :=
  match f, db_machine_apps db !! ma_name app with
  | Some e, _ => (db, Err (io_error e))
  | None, Some _ => (db, Err (io_error "UNIQUE constraint failed: machine_apps.name"))
  | None, None =>
      (set_machine_apps (<[ma_name app := {| marow_machine := ma_machine app;
                                             marow_host := ma_host app;
                                             marow_port := Z.of_N (ma_port app) |}]>
                           (db_machine_apps db)) db, Ok tt)
  end.

(** [Store::delete_machine_app]. *)
Definition delete_machine_app (f : fault) (name : string) (db : Db) : Db * result string unit :=
  match f with
  | Some e => (db, Err (io_error e))
  | None => (set_machine_apps (delete name (db_machine_apps db)) db, Ok tt)
  end.

(** [Store::delete_machine]. *)
Definition delete_machine (f : fault) (name : string) (db : Db) : Db * result string unit :=
  match f with
  | Some e => (db, Err (io_error e))
  | None => (set_machines (delete name (db_machines db)) db, Ok tt)
  end.

(** ** What the store promises

    The abstract store is a finite map from names to records; [db_records]
    reads it off the tables. *)

Definition db_records (db : Db) : gmap string VmRecord := map_imap row_record (db_vms db).
Definition rows_ok (db : Db) : Prop :=
  map_Forall (fun name row => is_Some (row_record name row)) (db_vms db).

(** A value a column of 64 bits holds as it is. *)
Definition sql_time (n : N) : Prop := (Z.of_N n <= i64_max)%Z.

Record running_wf (info : VmInfo) (process : ProcessId) : Prop := {
  rw_info : vm_info_wf info;
  rw_not_ended : vi_ended info = None;
  rw_started : sql_time (vi_started_at info);
  rw_pid : (pr_pid process <= u32_max)%N;
  rw_start : sql_time (pr_start_time process);
}.

Definition end_record (ended : Ended) (r : VmRecord) : VmRecord := {|
  rec_info := ended_info (rec_info r) ended;
  rec_log := rec_log r;
  rec_process := None;
|}.

Lemma get_uint_of_N max n : (n <= max)%N -> get_uint max (Z.of_N n) = Some n.
Proof.
  intros. unfold get_uint.
  destruct (Z.leb_spec 0 (Z.of_N n)), (Z.leb_spec (Z.of_N n) (Z.of_N max)); try lia.
  simpl. by rewrite N2Z.id.
Qed.
Lemma from_to_sql n : sql_time n -> from_sql (to_sql n) = n.
Proof.
  unfold sql_time, to_sql, from_sql. intros.
  destruct (Z.leb_spec (Z.of_N n) i64_max); [|lia].
  destruct (Z.leb_spec 0 (Z.of_N n)); lia.
Qed.
Lemma parse_reason_text r : parse_reason (reason_text r) = Some r.
Proof. by destruct r. Qed.

Lemma row_record_running info log process :
  running_wf info process ->
  row_record (vi_name info) (running_row info log process) =
    Some {| rec_info := info; rec_log := log; rec_process := Some process |}.
Proof.
  intros [(Haddr & Hmem & Hcpu & _ & _ & Hroute) Hended Hst Hpid Hps].
  destruct info as [name addr mem cpu started ended route]; simpl in *. subst ended.
  unfold row_record, running_row; cbn [row_pid row_route_port row_route_idle_park row_mem_mib
    row_vcpus row_vm_address row_started_at row_ended_at row_end_reason row_route_host
    row_pid_start row_log vi_name vi_vm_address vi_mem_mib vi_vcpus vi_started_at vi_ended
    vi_route opt_zip get_uint_opt].
  rewrite !(get_uint_of_N _ _ Hpid), !(get_uint_of_N _ _ Hmem), !(get_uint_of_N _ _ Hcpu).
  rewrite !from_to_sql by done.
  assert ((ipv4_display <$> addr) ≫= ipv4_parse = addr) as ->.
  { destruct addr as [a|]; [|done]. rsimpl. apply ipv4_parse_display.
    specialize (Haddr a eq_refl). unfold u32_max in Haddr. lia. }
  destruct process as [pid start]. rsimpl. simpl in Hpid.
  cbn [opt_zip pr_pid pr_start_time] in *. rsimpl. rewrite from_to_sql by done.
  destruct route as [[host port idle]|]; [|done].
  destruct (Hroute _ eq_refl) as [Hport Hidle]. cbn [rt_port rt_idle_park_secs] in *.
  rsimpl. cbn [get_uint_opt rt_port]. rewrite (get_uint_of_N _ _ Hport). rsimpl.
  destruct idle as [n|]; [|done]. cbn [rt_idle_park_secs]. rsimpl. cbn [get_uint_opt].
  by rewrite (get_uint_of_N _ _ (Hidle n eq_refl)).
Qed.

Lemma row_record_ended name ended row r :
  sql_time (en_at ended) ->
  row_record name row = Some r -> row_record name (ended_row ended row) = Some (end_record ended r).
Proof.
  intros Hat Hr. unfold row_record in Hr.
  apply bind_Some in Hr as (pid & Hpid & Hr).
  apply bind_Some in Hr as (port & Hport & Hr).
  apply bind_Some in Hr as (idle & Hidle & Hr).
  apply bind_Some in Hr as (mem & Hmem & Hr).
  apply bind_Some in Hr as (cpu & Hcpu & [= <-]).
  unfold row_record, ended_row; cbn [row_pid row_route_port row_route_idle_park row_mem_mib
    row_vcpus row_vm_address row_started_at row_ended_at row_end_reason row_route_host
    row_pid_start row_log get_uint_opt opt_zip].
  rsimpl. rewrite Hport, Hidle, Hmem, Hcpu. rsimpl.
  rewrite parse_reason_text, from_to_sql by done. by destruct ended.
Qed.

Lemma collect_rows_some rows :
  Forall (fun '(name, row) => is_Some (row_record name row)) rows ->
  collect_rows rows = Some (omap (convert row_record) rows).*2.
Proof.
  induction 1 as [|[name row] rows [r Hr] _ IH]; [done|].
  simpl. unfold convert at 1; simpl. by rewrite Hr, IH.
Qed.

(** What loading answers: the records, in the order of their names. *)
Lemma store_load_records db :
  rows_ok db -> store_load None db = Ok (values_of (db_records db)).
Proof.
  intros Hok. unfold store_load, values_of, db_records. rewrite collect_rows_some.
  - by rewrite entries_of_imap.
  - apply Forall_forall. intros [name row] Hin%elem_of_entries. by apply (Hok name row).
Qed.

(** The abstract store. *)
Record Spec := mkSpec {
  sp_vms : gmap string VmRecord;
  sp_machines : gmap string MachineRecord;
  sp_apps : gmap string MachineAppRecord;
}.
Definition spec_empty : Spec := {| sp_vms := ∅; sp_machines := ∅; sp_apps := ∅ |}.

(** A call of one of the store's operations, with SQLite's answer to it. *)
Inductive StoreOp :=
| OpRunning (f : fault) (info : VmInfo) (log : string) (process : ProcessId)
| OpEnded (f : fault) (name : string) (ended : Ended)
| OpDelete (f : fault) (name : string)
| OpMachine (f : fault) (m : MachineRecord)
| OpDeleteMachine (f : fault) (name : string)
| OpApp (f : fault) (app : MachineAppRecord)
| OpDeleteApp (f : fault) (name : string).

Definition op_wf (op : StoreOp) : Prop :=
  match op with
  | OpRunning _ info _ process => running_wf info process
  | OpEnded _ _ ended => sql_time (en_at ended)
  | OpApp _ app => (ma_port app <= u16_max)%N
  | _ => True
  end.

Definition exec_op (op : StoreOp) (db : Db) : Db * result string unit :=
  match op with
  | OpRunning f info log process => insert_running f info log process db
  | OpEnded f name ended => mark_ended f name ended db
  | OpDelete f name => store_delete f name db
  | OpMachine f m => insert_machine f m db
  | OpDeleteMachine f name => delete_machine f name db
  | OpApp f app => insert_machine_app f app db
  | OpDeleteApp f name => delete_machine_app f name db
  end.

(** What the operation means for the abstract store; [None] when it is refused. *)
Definition spec_op (op : StoreOp) (s : Spec) : option Spec :=
  match op with
  | OpRunning None info log process =>
      Some {| sp_vms := <[vi_name info := {| rec_info := info; rec_log := log;
                                             rec_process := Some process |}]> (sp_vms s);
              sp_machines := sp_machines s; sp_apps := sp_apps s |}
  | OpEnded None name ended =>
      Some {| sp_vms := alter (end_record ended) name (sp_vms s);
              sp_machines := sp_machines s; sp_apps := sp_apps s |}
  | OpDelete None name =>
      Some {| sp_vms := delete name (sp_vms s);
              sp_machines := sp_machines s; sp_apps := sp_apps s |}
  | OpMachine None m =>
      if sp_machines s !! mr_name m is Some _ then None
      else Some {| sp_vms := sp_vms s; sp_machines := <[mr_name m := m]> (sp_machines s);
                   sp_apps := sp_apps s |}
  | OpDeleteMachine None name =>
      Some {| sp_vms := sp_vms s; sp_machines := delete name (sp_machines s);
              sp_apps := sp_apps s |}
  | OpApp None app =>
      if sp_apps s !! ma_name app is Some _ then None
      else Some {| sp_vms := sp_vms s; sp_machines := sp_machines s;
                   sp_apps := <[ma_name app := app]> (sp_apps s) |}
  | OpDeleteApp None name =>
      Some {| sp_vms := sp_vms s; sp_machines := sp_machines s;
              sp_apps := delete name (sp_apps s) |}
  | _ => None
  end.

Definition machine_of_row (name : string) (row : MachineRow) : MachineRecord :=
  {| mr_name := name; mr_ssh := mrow_ssh row; mr_pinned_key := mrow_pinned_key row;
     mr_fingerprint := mrow_fingerprint row |}.
Definition app_of_row (name : string) (row : MachineAppRow) : option MachineAppRecord :=
  port ← get_uint u16_max (marow_port row);
  Some {| ma_name := name; ma_machine := marow_machine row;
          ma_host := marow_host row; ma_port := port |}.

(** The tables hold the abstract store, and every row of them converts. *)
Record refines (db : Db) (s : Spec) : Prop := {
  rf_vms : db_records db = sp_vms s;
  rf_rows : rows_ok db;
  rf_machines : map_imap (fun n r => Some (machine_of_row n r)) (db_machines db) = sp_machines s;
  rf_apps : map_imap app_of_row (db_machine_apps db) = sp_apps s;
  rf_app_rows : map_Forall (fun n r => is_Some (app_of_row n r)) (db_machine_apps db);
}.

Lemma imap_insert_some {V W} (f : string -> V -> option W) m k v w :
  f k v = Some w -> map_imap f (<[k := v]> m) = <[k := w]> (map_imap f m).
Proof. intros. by apply map_imap_insert_Some. Qed.

Lemma imap_delete {V W} (f : string -> V -> option W) (m : gmap string V) k :
  map_imap f (delete k m) = delete k (map_imap f m).
Proof. apply map_imap_delete. Qed.

Lemma imap_alter {V W} (f : string -> V -> option W) (g : V -> V) (h : W -> W) m k :
  (forall v w, f k v = Some w -> f k (g v) = Some (h w)) ->
  (forall v, m !! k = Some v -> is_Some (f k v)) ->
  map_imap f (alter g k m) = alter h k (map_imap f m).
Proof.
  intros Hgh Hok. apply map_eq. intros i. rewrite map_lookup_imap.
  destruct (decide (i = k)) as [->|].
  - rewrite !lookup_alter_eq, map_lookup_imap. destruct (m !! k) as [v|] eqn:Hv; [|done].
    simpl. destruct (Hok v eq_refl) as [w Hw]. by rewrite Hw, (Hgh _ _ Hw).
  - by rewrite !lookup_alter_ne, map_lookup_imap by done.
Qed.

Lemma lookup_imap_total {V W} (f : string -> V -> option W) (m : gmap string V) k :
  map_Forall (fun n r => is_Some (f n r)) m ->
  (map_imap f m !! k = None <-> m !! k = None).
Proof.
  intros Hall. rewrite map_lookup_imap. destruct (m !! k) as [v|] eqn:Hv; [|done].
  destruct (Hall k v Hv) as [w Hw]. simpl. rewrite Hw. naive_solver.
Qed.

(** One operation: it succeeds exactly when the abstract store takes it, and a
    refused one changes nothing. *)
Lemma exec_op_refines op db s :
  op_wf op -> refines db s ->
  match spec_op op s with
  | Some s' => (exec_op op db).2 = Ok tt /\ refines (exec_op op db).1 s'
  | None => is_ok (exec_op op db).2 = false /\ (exec_op op db).1 = db
  end.
Proof.
  intros Hwf [Hv Hr Hm Ha Har].
  destruct op as [[?|]|[?|]|[?|]|[?|] m|[?|]|[?|] a|[?|]]; simpl in *; try by split.
  - split; [done|]. pose proof (row_record_running _ log _ Hwf) as Hrow.
    split; simpl; try done; unfold db_records, rows_ok; simpl.
    + rewrite (imap_insert_some _ _ _ _ _ Hrow). by rewrite <- Hv.
    + apply map_Forall_insert_2; [by rewrite Hrow|done].
  - split; [done|]. split; simpl; try done; unfold db_records, rows_ok; simpl.
    + rewrite (imap_alter _ _ (end_record ended)); [by rewrite <- Hv| |].
      * intros. by apply row_record_ended.
      * intros v ?. by apply (Hr name v).
    + intros n row. destruct (decide (n = name)) as [->|].
      * rewrite lookup_alter_eq. intros (row' & Hrow' & ->)%fmap_Some.
        destruct (Hr _ _ Hrow') as [r Hrec]. exists (end_record ended r).
        by apply row_record_ended.
      * rewrite lookup_alter_ne by done. apply Hr.
  - split; [done|]. split; simpl; try done; unfold db_records, rows_ok; simpl.
    + rewrite imap_delete. by rewrite <- Hv.
    + by apply map_Forall_delete.
  - rewrite <- Hm, map_lookup_imap.
    destruct (db_machines db !! mr_name m) eqn:Hl; simpl; [done|]. split; [done|].
    split; simpl; try done. by rewrite (imap_insert_some _ _ _ _ m) by (by destruct m).
  - split; [done|]. split; simpl; try done. by rewrite imap_delete, Hm.
  - assert (app_of_row (ma_name a) {| marow_machine := ma_machine a; marow_host := ma_host a;
              marow_port := Z.of_N (ma_port a) |} = Some a) as Hrow.
    { unfold app_of_row; cbn [marow_port]. rewrite get_uint_of_N by done. by destruct a. }
    destruct (sp_apps s !! ma_name a) eqn:Hs.
    + destruct (db_machine_apps db !! ma_name a) eqn:Hl; [done|].
      apply (lookup_imap_total app_of_row) in Hl; [congruence|done].
    + rewrite <- Ha, lookup_imap_total in Hs by done. rewrite Hs. split; [done|].
      split; simpl; try done.
      * by rewrite (imap_insert_some _ _ _ _ _ Hrow), Ha.
      * apply map_Forall_insert_2; [by rewrite Hrow|done].
  - split; [done|]. split; simpl; try done.
    + by rewrite imap_delete, Ha.
    + by apply map_Forall_delete.
Qed.

(** A run of operations. *)
Definition exec_ops (ops : list StoreOp) (db : Db) : Db :=
  foldl (fun db op => (exec_op op db).1) db ops.
Definition spec_ops (ops : list StoreOp) (s : Spec) : Spec :=
  foldl (fun s op => default s (spec_op op s)) s ops.

Lemma exec_ops_refines ops db s :
  Forall op_wf ops -> refines db s -> refines (exec_ops ops db) (spec_ops ops s).
Proof.
  intros Hwf. revert db s. induction Hwf as [|op ops Hop _ IH]; intros db s Hrf; [done|].
  simpl. apply IH. pose proof (exec_op_refines op db s Hop Hrf) as H.
  destruct (spec_op op s); simpl; [by apply H|]. by destruct H as [_ ->].
Qed.

(** Opening a new database, or one of the same subnet, works. *)
Lemma store_open_clean subnet db :
  db_node db = None \/ db_node db = Some subnet ->
  exists db', store_open None None None subnet db = (db', Ok tt) /\ db_vms db' = db_vms db /\
    db_machine_apps db' = db_machine_apps db.
Proof.
  intros Hn. unfold store_open.
  assert (Hs : db_node (add_missing_columns (create_tables db)) = db_node db /\
    db_vms (add_missing_columns (create_tables db)) = db_vms db /\
    db_machine_apps (add_missing_columns (create_tables db)) = db_machine_apps db).
  { unfold add_missing_columns, create_tables. destruct (db_columns db) as [l|] eqn:E; simpl; rewrite ?E.
    - by destruct (missing_columns l).
    - by destruct (missing_columns VMS_COLUMNS). }
  destruct Hs as (-> & Hv & Ha). destruct Hn as [-> | ->]; [|rewrite decide_True by done]; eexists; (split; [reflexivity|]); by split.
Qed.
(** A database that has been opened names its subnet. *)
Lemma store_open_node subnet db db' :
  store_open None None None subnet db = (db', Ok tt) -> db_node db' = Some subnet.
Proof.
  unfold store_open. destruct (db_node _) as [stored|] eqn:E; [|by intros [= <-]].
  destruct (decide (stored = subnet)) as [->|]; [|done]. by intros [= <-].
Qed.
(** Opening keeps the VMs' rows. *)
Lemma store_open_vms f1 f2 f3 subnet db : db_vms (store_open f1 f2 f3 subnet db).1 = db_vms db.
Proof.
  assert (Hc : forall db, db_vms (create_tables db) = db_vms db) by (intros d; unfold create_tables; by destruct (db_columns d)).
  assert (Hm : forall db, db_vms (add_missing_columns db) = db_vms db).
  { intros d. unfold add_missing_columns. destruct (db_columns d); [|done]. by destruct (missing_columns _). }
  unfold store_open. destruct f1; [done|]. destruct f2; [apply Hc|]. destruct f3; [simpl; by rewrite Hm|].
  destruct (db_node _); [|simpl; by rewrite Hm]. destruct (decide _); simpl; by rewrite Hm.
Qed.

Lemma refines_open f1 f2 f3 subnet db s :
  refines db s -> refines (store_open f1 f2 f3 subnet db).1 s.
Proof.
  intros [Hv Hr Hm Ha Har]. unfold store_open, create_tables, add_missing_columns.
  repeat (split_match; simpl); by split.
Qed.

Lemma load_apps_refines db s :
  refines db s -> load_machine_apps None db = Ok (values_of (sp_apps s)).
Proof.
  intros Hrf. unfold load_machine_apps, values_of.
  rewrite <- (rf_apps _ _ Hrf), <- entries_of_imap.
  assert (Forall (fun e => is_Some (app_of_row e.1 e.2)) (entries_of (db_machine_apps db))) as H.
  { apply Forall_forall. intros [k r] Hin%elem_of_entries. by apply (rf_app_rows _ _ Hrf). }
  induction H as [|[k r] l [a Ha] _ IH]; [done|]. simpl in *. unfold convert at 1; simpl.
  rewrite Ha. unfold app_of_row in Ha. destruct (get_uint _ _); [|done]. simplify_eq/=.
  destruct (collect_app_rows l); simplify_eq/=. done.
Qed.

Lemma load_machines_refines db s :
  refines db s -> load_machines None db = Ok (values_of (sp_machines s)).
Proof.
  intros Hrf. unfold load_machines, values_of.
  rewrite <- (rf_machines _ _ Hrf), <- entries_of_imap. f_equal.
  induction (entries_of (db_machines db)) as [|[k r] l IH]; [done|]. csimpl. by rewrite IH.
Qed.

(** C1: The store refines three finite maps. After any sequence of operations
    on a new database, with SQLite failing any of them and the database
    closed and opened again at the end, loading answers exactly what the
    successful operations left, ordered by name: a [mark_ended] VM without
    its address and process, a deleted one not at all, a failed operation
    without effect. *)
Theorem store_refines_maps ops subnet f1 f2 f3 :
  Forall op_wf ops ->
  let db0 := (store_open None None None subnet (mkDb None None ∅ ∅ ∅)).1 in
  let db := (store_open f1 f2 f3 subnet (exec_ops ops db0)).1 in
  store_load None db = Ok (values_of (sp_vms (spec_ops ops spec_empty))) /\
  load_machines None db = Ok (values_of (sp_machines (spec_ops ops spec_empty))) /\
  load_machine_apps None db = Ok (values_of (sp_apps (spec_ops ops spec_empty))).
Proof.
  intros Hwf db0 db.
  assert (refines db0 spec_empty) as H0 by by apply refines_open.
  assert (refines db (spec_ops ops spec_empty)) as H
    by by apply refines_open, exec_ops_refines.
  split_and!; [|by apply load_machines_refines|by apply load_apps_refines].
  rewrite (store_load_records _ (rf_rows _ _ H)). by rewrite (rf_vms _ _ H).
Qed.

Definition example_info (name : string) : VmInfo := {|
  vi_name := name; vi_vm_address := Some 2887450626%N; vi_mem_mib := 512; vi_vcpus := 2;
  vi_started_at := 1000; vi_ended := None;
  vi_route := Some {| rt_host := "app.example.com"; rt_port := 8080;
                      rt_idle_park_secs := Some 300%N |} |}.

Lemma example_running_wf name pid start :
  (pid <=? u32_max)%N = true -> (Z.of_N start <=? i64_max)%Z = true ->
  running_wf (example_info name) (mkProcessId pid start).
Proof.
  intros ?%N.leb_le ?%Z.leb_le. split; [|done..|done|done].
  split_and!; try done; intros ? [= <-]; [done|]. split; [done|]. by intros ? [= <-].
Qed.

Lemma store_refines_maps_witness :
  store_load None
    (store_open None None None "172.27.0.0/16"
      (exec_ops [OpRunning None (example_info "web") "/log/1" (mkProcessId 77 123);
                 OpRunning (Some "disk full") (example_info "lost") "/log/2" (mkProcessId 78 124);
                 OpEnded None "web" (mkEnded 2000 Parked)]
        (store_open None None None "172.27.0.0/16" (mkDb None None ∅ ∅ ∅)).1)).1 =
  Ok [end_record (mkEnded 2000 Parked)
        {| rec_info := example_info "web"; rec_log := "/log/1";
           rec_process := Some (mkProcessId 77 123) |}].
Proof.
  refine (proj1 (store_refines_maps
    [OpRunning None (example_info "web") "/log/1" (mkProcessId 77 123);
     OpRunning (Some "disk full") (example_info "lost") "/log/2" (mkProcessId 78 124);
     OpEnded None "web" (mkEnded 2000 Parked)] "172.27.0.0/16" None None None _)).
  apply Forall_cons_2; [by apply example_running_wf|].
  apply Forall_cons_2; [by apply example_running_wf|].
  by apply Forall_cons_2; [|apply Forall_nil_2].
Defined.

(** A Node keeps its subnet. Once a database was opened for one subnet,
    opening it for another is refused with both named and changes no
    record, whatever was stored in between; opening it for the same one
    succeeds and alters nothing more. *)
Theorem store_keeps_subnet ops subnet subnet' :
  let db := exec_ops ops (store_open None None None subnet (mkDb None None ∅ ∅ ∅)).1 in
  store_open None None None subnet' db =
    (db, if decide (subnet = subnet') then Ok tt else Err (OtherSubnet subnet subnet')).
Proof.
  simpl. set (db0 := set_node _ _).
  assert (forall db, db_columns db = Some VMS_COLUMNS -> db_node db = Some subnet ->
    let db' := exec_ops ops db in
    db_columns db' = Some VMS_COLUMNS /\ db_node db' = Some subnet) as Hkeep.
  { clear db0. induction ops as [|op ops IH]; [done|]. intros db Hc Hn. apply IH;
      destruct op as [[]|[]|[]|[]|[]|[]|[]]; simpl; try done; by case_match. }
  destruct (Hkeep db0 eq_refl eq_refl) as [Hc Hn]. set (db := exec_ops ops db0) in *.
  unfold store_open, create_tables. rewrite Hc. unfold add_missing_columns. rewrite Hc. simpl.
  rewrite Hn. by destruct (decide _).
Qed.

Lemma elem_of_missing cols c :
  c ∈ (missing_columns cols).*1 <-> c ∈ ADDED.*1 /\ c ∉ cols.
Proof.
  unfold missing_columns. rewrite !list_elem_of_fmap. split.
  - intros (x & -> & [??]%list_elem_of_filter). eauto.
  - intros [(x & -> & ?) ?]. exists x. split; [done|]. by apply list_elem_of_filter.
Qed.
Lemma missing_columns_none cols :
  (forall c, c ∈ ADDED.*1 -> c ∈ cols) -> missing_columns cols = [].
Proof.
  intros Hall. destruct (missing_columns cols) as [|x l] eqn:Hm; [done|].
  assert (x.1 ∈ (missing_columns cols).*1) as [??]%elem_of_missing
    by (rewrite Hm; apply list_elem_of_here).
  naive_solver.
Qed.

(** A database from an older release gains the route columns once: after
    one opening its table has every column of before and every added one,
    and altering it again finds none missing. *)
Theorem add_missing_columns_idempotent db cols :
  db_columns db = Some cols ->
  let db' := add_missing_columns db in
  add_missing_columns db' = db' /\
  db_vms db' = db_vms db /\
  exists cols', db_columns db' = Some cols' /\
    (forall c, c ∈ cols' <-> c ∈ cols \/ c ∈ ADDED.*1).
Proof.
  intros Hc db'.
  assert (forall c, c ∈ cols ++ (missing_columns cols).*1 <-> c ∈ cols \/ c ∈ ADDED.*1) as Hnew.
  { intros c. rewrite elem_of_app, elem_of_missing.
    destruct (decide (c ∈ cols)); naive_solver. }
  pose proof (missing_columns_none _ (fun c H => proj2 (Hnew c) (or_intror H))) as Hnone.
  unfold db', add_missing_columns. rewrite Hc.
  destruct (missing_columns cols) as [|x l] eqn:Hm.
  - rewrite Hc, Hm. split_and!; [done..|]. exists cols. split; [done|].
    intros c. rewrite <- (Hnew c). simpl. by rewrite app_nil_r.
  - simpl. simpl in Hnone. rewrite Hnone. split_and!; [done..|]. eauto.
Qed.

Lemma add_missing_columns_idempotent_witness :
  add_missing_columns (add_missing_columns (mkDb (Some ["name"; "log"]) None ∅ ∅ ∅)) =
  add_missing_columns (mkDb (Some ["name"; "log"]) None ∅ ∅ ∅).
Proof.
  exact (proj1 (add_missing_columns_idempotent
    (mkDb (Some ["name"; "log"]) None ∅ ∅ ∅) ["name"; "log"] eq_refl)).
Defined.
