(* ===== verification/Validate.v ===== *)
(** * Checks on what a request brings ([crates/cirro-node/src/agent.rs])

    The Node agent's free functions: its errors, the validation of names,
    routes, bounds and the guest's command, console log numbers, and reading
    a console log a chunk at a time. *)

From S2P Require Import Prelude RustStr Proto.

(** ** Errors *)

Record ApiError := mkApiError { ae_status : N; ae_error : string }.
#[global] Instance api_error_eq_dec : EqDecision ApiError.
Proof. solve_decision. Defined.

Definition OK : N := 200.
Definition CREATED : N := 201.
Definition NO_CONTENT : N := 204.
Definition BAD_REQUEST : N := 400.
Definition FORBIDDEN : N := 403.
Definition NOT_FOUND : N := 404.
Definition CONFLICT : N := 409.
Definition UNPROCESSABLE_ENTITY : N := 422.
Definition INTERNAL_SERVER_ERROR : N := 500.
Definition BAD_GATEWAY : N := 502.
Definition SERVICE_UNAVAILABLE : N := 503.

Definition bad_request (message : string) : ApiError := mkApiError BAD_REQUEST message.
Definition internal (message : string) : ApiError := mkApiError INTERNAL_SERVER_ERROR message.

Definition snapshot_gone (name : string) : string :=
  "VM " +:+ debug_str name +:+ " is parked, but its snapshot is gone, so it can't be woken; `cirro rm "
    +:+ name +:+ "` removes it".

Definition no_such_vm (name : string) : ApiError :=
  mkApiError NOT_FOUND
    ("no VM named " +:+ debug_str name +:+ "; `cirro ps -a` lists them all").

Definition hostname_taken (host owner : string) (vm_backed : bool) : ApiError :=
  let stop := if vm_backed then "stop and " else "" in
  mkApiError CONFLICT
    ("the hostname " +:+ debug_str host +:+ " belongs to App " +:+ debug_str owner +:+ "; "
      +:+ stop +:+ "rm it to free the hostname").

(** ** Names, routes and bounds *)

Definition name_char (b : ascii) : bool :=
  is_lower b || is_digit b || bool_decide (b = "-"%char).

Definition name_ok (name : string) : bool :=
  ((1 <=? str_len name) && (str_len name <=? 32))%N && str_all name_char name.

Definition validate_name (kind name : string) : result ApiError unit :=
  if name_ok name then Ok tt
  else Err (bad_request ("invalid " +:+ kind +:+ " name " +:+ debug_str name
    +:+ ": a name is 1-32 characters of lowercase letters, digits and hyphens")).

Definition label_ok (label : string) : bool :=
  ((1 <=? str_len label) && (str_len label <=? 63))%N && str_all name_char label
    && negb (starts_with "-" label) && negb (ends_with "-" label).

Definition validate_route (route : Route) : result ApiError unit :=
  let host := rt_host route in
  if (253 <? str_len host)%N || negb (forallb label_ok (str_split "." host)) then
    Err (bad_request (debug_str host
      +:+ " isn't a hostname: use lowercase letters, digits, hyphens and dots, like web.example.com"))
  else if (rt_port route =? 0)%N then Err (bad_request "the route's port must be 1-65535")
  else Ok tt.

Definition in_bounds (field : string) (value min max : N) : result ApiError unit :=
  if ((min <=? value) && (value <=? max))%N then Ok tt
  else Err (bad_request (field +:+ " must be between " +:+ dec min +:+ " and " +:+ dec max
    +:+ ", got " +:+ dec value)).

(** ** The guest's command *)

(** [GuestConfig] of vm.rs. *)
Record GuestConfig := mkGuestConfig {
  gc_exec : string;
  gc_args : list string;
  gc_env : list string;
  gc_workdir : option string;
  gc_user : option User;
}.

Definition nul : ascii := ascii_of_nat 0.

Definition env_ok (entry : string) : bool :=
  match split_once "=" entry with
  | Some (key, _) => negb (is_empty key)
  | None => false
  end && negb (str_contains nul entry).

Definition workdir_ok (dir : string) : bool :=
  starts_with "/" dir && negb (str_contains nul dir).

(** The first entry the loop over [run.env] refuses. *)
Definition check_env (env : list string) : result ApiError unit :=
  match find_first (fun e => negb (env_ok e)) env with
  | Some entry =>
      Err (bad_request ("env entry " +:+ debug_str entry
        +:+ " must be KEY=VALUE with a non-empty KEY and no NUL bytes"))
  | None => Ok tt
  end.

Definition guest_config (run : RunRequest) : result ApiError GuestConfig :=
  '(exec, args) ← ok_or
    match rq_command run with exec :: args => Some (exec, args) | [] => None end
    (bad_request "no command given to run in the VM");
  _ ← fail_if (is_empty exec || existsb (str_contains nul) (rq_command run))
    (bad_request "the command must be non-empty and can't contain NUL bytes");
  _ ← check_env (rq_env run);
  _ ← match rq_workdir run with
      | Some dir => fail_if (negb (workdir_ok dir))
          (bad_request ("workdir " +:+ debug_str dir
            +:+ " must be an absolute path with no NUL bytes"))
      | None => Ok tt
      end;
  Ok {| gc_exec := exec; gc_args := args; gc_env := rq_env run;
        gc_workdir := rq_workdir run; gc_user := rq_user run |}.

(** ** Queries and groups *)

Definition query_param (query key : string) : option string :=
  snd <$> find_first (fun kv => bool_decide (kv.1 = key))
    (omap (split_once "=") (str_split "&" query)).

(** [resolve_group]; [from_name] is [nix]'s [Group::from_name]. *)
Definition resolve_group (from_name : string -> result string (option N)) (group : string)
    : result string N :=
  match parse_uint u32_max group with
  | Some gid => Ok gid
  | None =>
      g ← from_name group;
      ok_or g ("no group named " +:+ debug_str group +:+ " for the agent socket")
  end.

(** ** Console logs *)

(** The number in a console log's file name, [NAME.N.log]. *)
Definition log_number (file : string) : option N :=
  stem ← strip_suffix ".log" file;
  '(_, number) ← rsplit_once "." stem;
  parse_uint u64_max number.

(** [next_log_number], over the file names in the logs directory that are
    text; [highest + 1] wraps in a release build. *)
Definition next_log_number (files : list string) : N :=
  match omap log_number files with
  | [] => 0
  | n :: ns => wrap64 (foldl N.max n ns + 1)
  end.

(** The file name [new_log_path] makes in the logs directory. *)
Definition log_file_name (name : string) (n : N) : string :=
  name +:+ "." +:+ dec n +:+ ".log".

Fixpoint str_drop (n : N) (s : string) : string :=
  match s with
  | EmptyString => EmptyString
  | String _ s' => if (n =? 0)%N then s else str_drop (N.pred n) s'
  end.
Fixpoint str_take (n : N) (s : string) : string :=
  match s with
  | EmptyString => EmptyString
  | String c s => if (n =? 0)%N then EmptyString else String c (str_take (N.pred n) s)
  end.

(** [read_log] of a file with these contents ([None] when it can't be
    opened), when reading it doesn't fail ([f]); the kernel refuses to seek
    past the signed 64-bit range. *)
Definition read_log (f : option string) (file : option string) (offset : N)
    : result string string :=
  match file with
  | None => Ok EmptyString
  | Some bytes =>
      if (i64_max <? Z.of_N offset)%Z then Err "Invalid argument (os error 22)"
      else match f with
           | Some e => Err e
           | None => Ok (str_take LOG_CHUNK (str_drop offset bytes))
           end
  end.

(** ** What a valid name is *)

Lemma name_ok_chars name : name_ok name = true -> str_all name_char name = true.
Proof. unfold name_ok. by intros [_ ?]%andb_prop. Qed.
Lemma name_ok_not_contains c name :
  name_char c = false -> name_ok name = true -> str_contains c name = false.
Proof. intros Hc Hn%name_ok_chars. by apply (str_all_not_contains name_char). Qed.
Lemma validate_name_ok kind name : validate_name kind name = Ok tt <-> name_ok name = true.
Proof. unfold validate_name. by destruct (name_ok name). Qed.

Lemma log_number_file name n :
  name_ok name = true -> (n <= u64_max)%N -> log_number (log_file_name name n) = Some n.
Proof.
  intros Hname Hn. unfold log_number, log_file_name.
  rewrite <- !str_app_assoc, strip_suffix_app. rsimpl.
  rewrite !str_app_assoc. change ("." +:+ dec n) with (String "." (dec n)).
  rewrite rsplit_once_app by (by apply dec_not_contains). rsimpl.
  rewrite parse_uint_dec. by destruct (N.leb_spec n u64_max); [|lia].
Qed.

Lemma log_number_le file n : log_number file = Some n -> (n <= u64_max)%N.
Proof.
  unfold log_number. intros (stem & _ & ([a b] & _ & ?)%bind_Some)%bind_Some.
  by eapply parse_uint_le.
Qed.

Lemma log_file_name_inj name1 name2 n1 n2 :
  name_ok name1 = true -> name_ok name2 = true ->
  log_file_name name1 n1 = log_file_name name2 n2 -> name1 = name2 /\ n1 = n2.
Proof.
  intros H1 H2 Heq. unfold log_file_name in Heq.
  assert (forall name n, name_ok name = true ->
    split_once "." (name +:+ "." +:+ dec n +:+ ".log") = Some (name, dec n +:+ ".log")) as Hs.
  { intros name n Hok. apply split_once_app. by apply name_ok_not_contains. }
  pose proof (Hs name1 n1 H1) as Hs1. rewrite Heq, Hs in Hs1 by done. simplify_eq.
  match goal with H : _ +:+ _ = _ +:+ _ |- _ => rename H into Hd end. split; [done|].
  apply (f_equal (strip_suffix ".log")) in Hd. rewrite !strip_suffix_app in Hd.
  injection Hd as Hd. by apply (inj pretty).
Qed.

Lemma foldl_max_ge (ns : list N) n m : m ∈ n :: ns -> (m <= foldl N.max n ns)%N.
Proof.
  revert n m. induction ns as [|k ns IH]; intros n m; simpl.
  - rewrite list_elem_of_singleton. intros ->. lia.
  - rewrite !elem_of_cons. intros [->|[->|Hin]].
    + transitivity (N.max n k); [lia|]. apply IH, elem_of_cons. by left.
    + transitivity (N.max n k); [lia|]. apply IH, elem_of_cons. by left.
    + apply IH, elem_of_cons. by right.
Qed.

Lemma foldl_max_in (ns : list N) n : foldl N.max n ns ∈ n :: ns.
Proof.
  revert n. induction ns as [|k ns IH]; intros n; simpl; [apply list_elem_of_here|].
  specialize (IH (N.max n k)). rewrite !elem_of_cons in *. destruct IH as [->|]; [|by right; right].
  destruct (N.max_spec n k) as [[_ ->]|[_ ->]]; auto.
Qed.

Lemma next_log_number_gt files file n :
  Forall (fun f => log_number f <> Some u64_max) files ->
  file ∈ files -> log_number file = Some n -> (n < next_log_number files)%N.
Proof.
  intros Hmax Hin Hn. unfold next_log_number.
  assert (n ∈ omap log_number files) as Hm by (apply list_elem_of_omap; eauto).
  assert (forall m, m ∈ omap log_number files -> exists f, f ∈ files /\ log_number f = Some m)
    as Hkeys by (intros m (f & ? & ?)%list_elem_of_omap; eauto).
  destruct (omap log_number files) as [|k ks]; [by apply elem_of_nil in Hm|].
  apply foldl_max_ge in Hm. rewrite Forall_forall in Hmax.
  pose proof (foldl_max_in ks k) as (f & Hf & Hfn)%Hkeys.
  unfold wrap64. rewrite N.mod_small; [lia|].
  specialize (Hmax f Hf). apply log_number_le in Hfn as ?. unfold u64_max in *.
  assert (foldl N.max k ks <> 18446744073709551615)%N by congruence. lia.
Qed.

(** A start never writes into an existing console log: whatever is in the
    logs directory when the agent starts, no log path it then makes, from
    [next_log_number] up, names one of those files, and two starts with
    different numbers or of different VMs never share a path. (No file may
    carry the highest 64-bit number: the next one wraps.) *)
Theorem new_logs_fresh files name name' n n' :
  name_ok name = true -> name_ok name' = true ->
  Forall (fun f => log_number f <> Some u64_max) files ->
  (next_log_number files <= n <= u64_max)%N ->
  (log_file_name name n ∉ files) /\
  (log_file_name name n = log_file_name name' n' -> name = name' /\ n = n').
Proof.
  intros Hname Hname' Hmax [Hlo Hhi]. split; [|by apply log_file_name_inj].
  intros Hin. pose proof (next_log_number_gt _ _ _ Hmax Hin (log_number_file _ _ Hname Hhi)). lia.
Qed.

Lemma new_logs_fresh_witness :
  (log_file_name "web" 8 ∉ ["web.7.log"; "db.3.log"; "notes.txt"]) /\
  (log_file_name "web" 8 = log_file_name "db" 8 -> "web" = "db" /\ 8%N = 8%N).
Proof.
  apply (new_logs_fresh ["web.7.log"; "db.3.log"; "notes.txt"] "web" "db" 8 8);
    [done|done| |by vm_compute].
  by apply (bool_decide_unpack _); vm_compute.
Defined.

(** ** Reading a log *)

Lemma str_take_drop n s : str_take n s +:+ str_drop n s = s.
Proof.
  revert n. induction s as [|c s IH]; intros n; [done|]. cbn [str_take str_drop].
  destruct (N.eqb_spec n 0); [done|]. by rewrite str_app_cons, IH.
Qed.
Lemma str_drop_drop a b s : str_drop b (str_drop a s) = str_drop (a + b) s.
Proof.
  revert a. induction s as [|c s IH]; intros a; [done|]. cbn [str_drop].
  destruct (N.eqb_spec a 0) as [->|Ha].
  - rewrite N.add_0_l. done.
  - destruct (N.eqb_spec (a + b) 0); [lia|]. rewrite IH. f_equal. lia.
Qed.
Lemma str_take_length n s : str_len (str_take n s) = N.min n (str_len s).
Proof.
  unfold str_len. revert n. induction s as [|c s IH]; intros n; cbn [str_take String.length].
  - lia.
  - destruct (N.eqb_spec n 0) as [->|]; [done|]. cbn [String.length].
    specialize (IH (N.pred n)). lia.
Qed.
Lemma str_drop_length n s : str_len (str_drop n s) = (str_len s - n)%N.
Proof.
  unfold str_len. revert n. induction s as [|c s IH]; intros n; cbn [str_drop String.length].
  - lia.
  - destruct (N.eqb_spec n 0) as [->|]; [cbn [String.length]; lia|].
    specialize (IH (N.pred n)). lia.
Qed.
