(* ===== verification/Vm.v ===== *)
(** * One VM's life on the Node ([crates/cirro-node/src/vm.rs])

    [Vm::start] and [Vm::wake] as computations over the [Vm] being built and
    the host's objects: namespaces, links, directories, cgroups, processes
    and console logs. What the kernel, jailer and Firecracker answer is an
    argument of each step, so every failure point is covered; time-outs are
    the end of a list of polls. *)

From S2P Require Import Prelude RustStr Proto Subnet Store Validate.

(** ** Constants *)

Definition GUEST_ADDRESS : Ipv4Addr := ipv4_new 172 16 0 2.
Definition GUEST_GATEWAY : Ipv4Addr := ipv4_new 172 16 0 1.
Definition TAP_MAC : string := "06:00:ac:10:00:01".
Definition SNAPSHOT_FILES : list string := ["vmstate"; "mem"; "rootfs.ext4"].
Definition PARK_FILES : list string := ["park.vmstate"; "park.mem"; "rootfs.ext4"].
Definition WAKE_FILES : list string := ["wake.vmstate"; "wake.mem"; "rootfs.ext4"].
Definition VSOCK_CONFIG_PORT : N := 52.
Definition CGROUP_POLL_ATTEMPTS : nat := 100.
Definition CONSOLE_TAIL_LINES : nat := 10.
Definition VMM_OVERHEAD_MIB : N := 32.
Definition PARENT_CGROUP : string := "cirro".

Definition err (what e : string) : string := what +:+ ": " +:+ e.

(** [Path::join] with a relative path. *)
Definition path_join (a b : string) : string := if is_empty a then b else a +:+ "/" +:+ b.

(** ** Types *)

Record NodeConfig := mkNodeConfig {
  nc_firecracker : string;
  nc_jailer : string;
  nc_kernel : string;
  nc_jail_base : string;
  nc_node_address : Ipv4Addr;
  nc_cirro_gid : N;
}.

(** [VmSpec]; the opened rootfs is its contents. *)
Record VmSpec := mkVmSpec {
  sp_vm_address : Ipv4Addr;
  sp_rootfs : string;
  sp_rootfs_file : string;
  sp_mem_mib : N;
  sp_vcpus : N;
  sp_guest : GuestConfig;
  sp_console_log : string;
}.

Record WakeSpec := mkWakeSpec {
  ws_vm_address : Ipv4Addr;
  ws_mem_mib : N;
  ws_vcpus : N;
  ws_snapshot : string;
  ws_console_log : string;
}.

(** A process's exit status: whether it is a success, and how it prints. *)
Record ExitStatus := mkExitStatus { xs_success : bool; xs_display : string }.

Inductive Vmm :=
| Child (pid : N)
| Adopted (process : ProcessId) (cgroup : string).

Inductive Undo :=
| DeleteNetns (id : string)
| DeleteLink (id : string)
| RemoveDir (path : string)
| RemoveCgroup (path : string).
#[global] Instance undo_eq_dec : EqDecision Undo.
Proof. solve_decision. Defined.

Record Vm := mkVm {
  vm_vmm : option Vmm;
  vm_undo : list Undo;
  vm_api_socket : string;
  vm_jail_root : string;
  vm_console_log : string;
  vm_process : option ProcessId;
}.

(** The host's objects a VM owns. A namespace holds the commands run in it;
    a directory, by its path, the files in it; a cgroup, by its path, its
    processes; a running process has its start time. The agent's working
    directory is the one whose path is empty. [ho_io] is whether the io
    controller is on under the cgroup all VMs share. *)
Record Host := mkHost {
  ho_netns : gmap string (list string);
  ho_links : gset string;
  ho_dirs : gmap string (gmap string string);
  ho_cgroups : gmap string (gset N);
  ho_procs : gmap N N;
  ho_logs : gmap string string;
  ho_io : bool;
}.

Definition set_netns (x : gmap string (list string)) (h : Host) : Host :=
  mkHost x (ho_links h) (ho_dirs h) (ho_cgroups h) (ho_procs h) (ho_logs h) (ho_io h).
Definition set_links (x : gset string) (h : Host) : Host :=
  mkHost (ho_netns h) x (ho_dirs h) (ho_cgroups h) (ho_procs h) (ho_logs h) (ho_io h).
Definition set_dirs (x : gmap string (gmap string string)) (h : Host) : Host :=
  mkHost (ho_netns h) (ho_links h) x (ho_cgroups h) (ho_procs h) (ho_logs h) (ho_io h).
Definition set_cgroups (x : gmap string (gset N)) (h : Host) : Host :=
  mkHost (ho_netns h) (ho_links h) (ho_dirs h) x (ho_procs h) (ho_logs h) (ho_io h).
Definition set_procs (x : gmap N N) (h : Host) : Host :=
  mkHost (ho_netns h) (ho_links h) (ho_dirs h) (ho_cgroups h) x (ho_logs h) (ho_io h).
Definition set_logs (x : gmap string string) (h : Host) : Host :=
  mkHost (ho_netns h) (ho_links h) (ho_dirs h) (ho_cgroups h) (ho_procs h) x (ho_io h).
Definition set_io (x : bool) (h : Host) : Host :=
  mkHost (ho_netns h) (ho_links h) (ho_dirs h) (ho_cgroups h) (ho_procs h) (ho_logs h) x.

Definition set_vmm (x : option Vmm) (v : Vm) : Vm :=
  mkVm x (vm_undo v) (vm_api_socket v) (vm_jail_root v) (vm_console_log v) (vm_process v).
Definition set_undo (x : list Undo) (v : Vm) : Vm :=
  mkVm (vm_vmm v) x (vm_api_socket v) (vm_jail_root v) (vm_console_log v) (vm_process v).
Definition set_api_socket (x : string) (v : Vm) : Vm :=
  mkVm (vm_vmm v) (vm_undo v) x (vm_jail_root v) (vm_console_log v) (vm_process v).
Definition set_jail_root (x : string) (v : Vm) : Vm :=
  mkVm (vm_vmm v) (vm_undo v) (vm_api_socket v) x (vm_console_log v) (vm_process v).
Definition set_process (x : option ProcessId) (v : Vm) : Vm :=
  mkVm (vm_vmm v) (vm_undo v) (vm_api_socket v) (vm_jail_root v) (vm_console_log v) x.

(** ** Names *)

Definition jail_base (state_dir : string) : string := path_join state_dir "jail".
(** [parent_cgroup_under] and [parent_cgroup]. *)
Definition parent_cgroup_under (root : string) : string :=
  root +:+ "sys/fs/cgroup/" +:+ PARENT_CGROUP.
Definition parent_cgroup : string := parent_cgroup_under "/".
(** The directory all jails are in, and one VM's. *)
Definition jails (node : NodeConfig) : string := path_join (nc_jail_base node) "firecracker".
Definition jail_dir (node : NodeConfig) (id : string) : string := path_join (jails node) id.
Definition cgroup_of (id : string) : string := path_join parent_cgroup id.

(** [Undo::netns], [Undo::link], [Undo::jail_dir] and [Undo::cgroup]. *)
Definition undo_netns (id : string) : Undo := DeleteNetns id.
Definition undo_link (id : string) : Undo := DeleteLink id.
Definition undo_jail_dir (node : NodeConfig) (id : string) : Undo := RemoveDir (jail_dir node id).
Definition undo_cgroup (id : string) : Undo := RemoveCgroup (cgroup_of id).

Definition undo_steps (node : NodeConfig) (id : string) : list Undo :=
  [undo_netns id; undo_jail_dir node id; undo_cgroup id; undo_link id].

(** [Vm::empty] and [Vm::adopt]. *)
Definition vm_empty (console_log : string) : Vm := mkVm None [] "" "" console_log None.
Definition adopt (node : NodeConfig) (vm_address : Ipv4Addr) (process : ProcessId)
    (console_log : string) : Vm :=
  let id := host_id vm_address in
  let root := path_join (jail_dir node id) "root" in
  mkVm (Some (Adopted process (cgroup_of id))) (undo_steps node id)
    (path_join root "run/firecracker.socket") root console_log (Some process).

(** ** Processes *)

(** [proc_stat], of the text of [/proc/<pid>/stat] if it could be read. *)
Definition proc_stat (stat : option string) : option (ascii * N) :=
  stat ← stat;
  '(_, rest) ← rsplit_once ")" stat;
  let fields := split_whitespace rest in
  state ← (f ← fields !! 0%nat; match f with String c _ => Some c | EmptyString => None end);
  start_time ← (f ← fields !! 19%nat; parse_uint u64_max f);
  Some (state, start_time).

(** [ProcessId::of] and [ProcessId::is_running]. *)
Definition process_of (pid : N) (stat : option string) : option ProcessId :=
  '(_, start_time) ← proc_stat stat; Some (mkProcessId pid start_time).
Definition stat_is_running (p : ProcessId) (stat : option string) : bool :=
  match proc_stat stat with
  | Some (state, start) => negb (bool_decide (state = "Z"%char)) && (start =? pr_start_time p)%N
  | None => false
  end.

(** The same on the host's table of running processes, which has no zombies. *)
Definition is_running (h : Host) (p : ProcessId) : bool :=
  bool_decide (ho_procs h !! pr_pid p = Some (pr_start_time p)).

(** Processes gone, from the table and from every cgroup. *)
Definition kill_pids (pids : gset N) (h : Host) : Host :=
  set_procs (filter (fun p => p.1 ∉ pids) (ho_procs h))
    (set_cgroups ((fun procs => procs ∖ pids) <$> ho_cgroups h) h).

(** [Vmm::kill], once its wait is over: a child is killed by pid, an adopted
    VMM through its cgroup. *)
Definition vmm_kill (v : Vmm) (h : Host) : Host :=
  match v with
  | Child pid => kill_pids {[pid]} h
  | Adopted p cgroup => kill_pids ({[pr_pid p]} ∪ default ∅ (ho_cgroups h !! cgroup)) h
  end.

(** [Vmm::oom_killed], of the text of the cgroup's [memory.events]. *)
Definition oom_killed (v : Vmm) (events : option string) : bool :=
  match v with
  | Child _ => false
  | Adopted _ _ =>
      match events with
      | None => false
      | Some events =>
          existsb (fun count => negb (bool_decide (trim count = "0")))
            (omap (strip_prefix "oom_kill ") (str_lines events))
      end
  end.

(** ** The console *)

(** [console_tail_bytes]: the last 16 KiB, of the file's contents if it could
    be opened; the replacement of bytes that aren't UTF-8 is left out, and
    changes no ASCII text looked for in it. *)
Definition TAIL_BYTES : N := 16384.
Definition console_tail_bytes (console : option string) : string :=
  match console with
  | None => ""
  | Some bytes => str_drop (str_len bytes - TAIL_BYTES) bytes
  end.

(** [console_tail]. *)
Definition console_tail (console : option string) : string :=
  let lines := str_lines (console_tail_bytes console) in
  match drop (length lines - CONSOLE_TAIL_LINES) lines with
  | [] => "  (no console output)"
  | tail => str_join nl ((fun l => "  " +:+ l) <$> tail)
  end.

Definition natural_end (status : option ExitStatus) (console : option string) : EndReason :=
  let panicked := str_contains_str "Kernel panic" (console_tail_bytes console) in
  match status with
  | Some s =>
      if negb (xs_success s) then Crashed else if panicked then Crashed else Exited
  | None => if panicked then Crashed else Exited
  end.
Definition graceful_end (status : option ExitStatus) (console : option string) : EndReason :=
  match natural_end status console with Crashed => Crashed | _ => Graceful end.
Definition vmm_natural_end (v : Vmm) (events : option string) (status : option ExitStatus)
    (console : option string) : EndReason :=
  if oom_killed v events then Crashed else natural_end status console.

Definition ended_during_start (status : option ExitStatus) (console : option string) : string :=
  let how := match natural_end status console with Crashed => "crashed" | _ => "exited on its own" end in
  let panic :=
    match find_first (str_contains_str "Kernel panic")
            (reverse (str_lines (console_tail_bytes console))) with
    | Some l => " (" +:+ trim l +:+ ")"
    | None => ""
    end in
  "the VM " +:+ how +:+ " while starting" +:+ panic +:+ "; last console lines:" +:+ nl
    +:+ console_tail console.

(** ** Undoing *)

(** [path] and everything below it. *)
Definition under (path p : string) : bool :=
  bool_decide (p = path) || starts_with (path +:+ "/") p.
Definition remove_tree (path : string) (dirs : gmap string (gmap string string))
    : gmap string (gmap string string) :=
  filter (fun d => under path d.1 = false) dirs.

(** How the host answers teardown: the error of each undo, if any, for how
    many tries the kernel still holds a cgroup whose processes were killed,
    and for [clean_up] the error of asking the kernel to kill them. *)
Record UndoOutcome := mkUndoOutcome {
  uo_fault : Undo -> fault;
  uo_busy : nat;
  uo_kill : fault;
}.
Definition undo_ok (busy : nat) : UndoOutcome := mkUndoOutcome (fun _ => None) busy None.

(** [remove_dir] of a cgroup, tried again while it is busy. *)
Fixpoint remove_polled (attempts busy : nat) : bool :=
  match busy, attempts with
  | O, _ => true
  | S busy, S attempts => remove_polled attempts busy
  | S _, O => false
  end.

(** [Undo::run]. *)
Definition undo_run (o : UndoOutcome) (u : Undo) (h : Host) : Host * result string unit :=
  match u with
  | DeleteNetns id =>
      match ho_netns h !! id, uo_fault o u with
      | None, _ => (h, Ok tt)
      | Some _, Some e => (h, Err e)
      | Some _, None => (set_netns (delete id (ho_netns h)) h, Ok tt)
      end
  | DeleteLink id =>
      if bool_decide (id ∈ ho_links h) then
        match uo_fault o u with
        | Some e => (h, Err e)
        | None => (set_links (ho_links h ∖ {[id]}) h, Ok tt)
        end
      else (h, Ok tt)
  | RemoveDir path =>
      match uo_fault o u with
      | Some e => (h, Err (err ("remove " +:+ path) e))
      | None => (set_dirs (remove_tree path (ho_dirs h)) h, Ok tt)
      end
  | RemoveCgroup path =>
      match ho_cgroups h !! path, uo_fault o u with
      | None, _ => (h, Ok tt)
      | Some _, Some e => (h, Err (err ("remove " +:+ path) e))
      | Some procs, None =>
          if bool_decide (procs = ∅) && remove_polled CGROUP_POLL_ATTEMPTS (uo_busy o) then
            (set_cgroups (delete path (ho_cgroups h)) h, Ok tt)
          else (h, Err (err ("remove " +:+ path) "Device or resource busy (os error 16)"))
      end
  end.

(** [while let Some(step) = undo.pop()]: every step runs, whatever the ones
    before it answered. *)
Definition run_undos (o : UndoOutcome) (undo : list Undo) (h : Host) : Host :=
  foldr (fun u h => (undo_run o u h).1) h undo.

(** [Vm::teardown]. *)
Definition teardown (o : UndoOutcome) (v : Vm) (h : Host) : Host :=
  run_undos o (vm_undo v) (match vm_vmm v with Some vmm => vmm_kill vmm h | None => h end).

(** [kill_cgroup] and [clean_up]. *)
Definition kill_cgroup (f : fault) (cgroup : string) (h : Host) : Host :=
  match ho_cgroups h !! cgroup, f with
  | Some procs, None => kill_pids procs h
  | _, _ => h
  end.
Definition clean_up (o : UndoOutcome) (node : NodeConfig) (vm_address : Ipv4Addr) (h : Host)
    : Host :=
  let id := host_id vm_address in
  run_undos o (undo_steps node id) (kill_cgroup (uo_kill o) (cgroup_of id) h).

(** The last part of a path. *)
Definition file_name (path : string) : option string :=
  match rsplit_once "/" path with Some (_, f) => Some f | None => Some path end.
(** The names in a directory: the first part below it of every path below it. *)
Definition child_of (dir path : string) : option string :=
  rest ← strip_prefix (dir +:+ "/") path;
  match split_once "/" rest with Some (c, _) => Some c | None => Some rest end.

(** [host_state_owners]. *)
Definition host_state_owners (node : NodeConfig) (h : Host) : gset N :=
  list_to_set (omap parse_host_id
    ((map_to_list (ho_netns h)).*1 ++ elements (ho_links h)
      ++ omap (child_of (jails node)) (map_to_list (ho_dirs h)).*1
      ++ omap (child_of parent_cgroup) (map_to_list (ho_cgroups h)).*1)).

(** ** Building a VM *)

(** [&mut self] methods that may fail: they thread the VM and the host. *)
Definition vmM (A : Type) : Type := Vm * Host -> (Vm * Host) * result string A.
#[global] Instance vmM_ret : MRet vmM := fun _ a s => (s, Ok a).
#[global] Instance vmM_bind : MBind vmM := fun _ _ k m s =>
  match m s with (s', Ok a) => k a s' | (s', Err e) => (s', Err e) end.

Definition vm_throw {A} (e : string) : vmM A := fun s => (s, Err e).
(** A step without effect on the host that may fail: [...?] and
    [...map_err(|e| err(what, e))?]. *)
Definition vm_try (f : fault) : vmM unit := fun s =>
  match f with Some e => (s, Err e) | None => (s, Ok tt) end.
Definition vm_step (what : string) (f : fault) : vmM unit := vm_try (err what <$> f).
Definition on_vm (g : Vm -> Vm) : vmM unit := fun s => ((g s.1, s.2), Ok tt).
Definition on_host (g : Host -> Host) : vmM unit := fun s => ((s.1, g s.2), Ok tt).
Definition push_undo (u : Undo) : vmM unit := on_vm (fun v => set_undo (vm_undo v ++ [u]) v).
Definition get_vm {A} (g : Vm -> A) : vmM A := fun s => (s, Ok (g s.1)).

(** An [ip -batch]: how many of its commands ran, and the error that stopped
    it, if one did. *)
Record BatchOutcome := mkBatch { bo_done : nat; bo_fault : fault }.
Definition batch_done (b : BatchOutcome) (commands : list string) : list string :=
  match bo_fault b with None => commands | Some _ => take (bo_done b) commands end.

(** [name_failed_batch_command]. *)
Fixpoint after_last (p s : string) : option string :=
  match s with
  | EmptyString => strip_prefix p EmptyString
  | String _ s' =>
      match after_last p s' with
      | Some r => Some r
      | None => strip_prefix p s
      end
  end.
Definition name_failed_batch_command (e : string) (commands : list string) : string :=
  let command :=
    line ← after_last "Command failed -:" e;
    n ← parse_uint u64_max (trim line);
    if (n =? 0)%N then None else commands !! N.to_nat (n - 1)%N in
  match command with
  | Some command => e +:+ " (`" +:+ command +:+ "`)"
  | None => e
  end.

Definition link_commands (id vm_addr node_addr : string) : list string :=
  ["link add " +:+ id +:+ " type veth peer name veth0 netns " +:+ id;
   "addr add " +:+ node_addr +:+ "/32 dev " +:+ id;
   "link set " +:+ id +:+ " up";
   "route add " +:+ vm_addr +:+ "/32 dev " +:+ id +:+ " src " +:+ node_addr].
Definition netns_commands (uid_s vm_addr node_addr : string) : list string :=
  ["link set lo up";
   "tuntap add dev tap0 mode tap user " +:+ uid_s +:+ " group " +:+ uid_s;
   "addr add " +:+ ipv4_display GUEST_GATEWAY +:+ "/30 dev tap0";
   "link set tap0 address " +:+ TAP_MAC;
   "link set tap0 up";
   "addr add " +:+ vm_addr +:+ "/32 dev veth0";
   "link set veth0 up";
   "route add " +:+ node_addr +:+ "/32 dev veth0";
   "route add default via " +:+ node_addr +:+ " dev veth0"].

Definition tab : string := String (ascii_of_nat 9) "".
Definition namespace_ruleset (vm_address : Ipv4Addr) : string :=
  let vm := ipv4_display vm_address in
  let guest := ipv4_display GUEST_ADDRESS in
  let tap := String dquote ("tap0" +:+ String dquote "") in
  "table ip cirro {" +:+ nl
    +:+ tab +:+ "chain prerouting { type nat hook prerouting priority dstnat; ip daddr " +:+ vm
    +:+ " dnat to " +:+ guest +:+ "; }" +:+ nl
    +:+ tab +:+ "chain forward { type filter hook forward priority filter; iifname " +:+ tap
    +:+ " ip saddr != " +:+ guest +:+ " drop; }" +:+ nl
    +:+ tab +:+ "chain postrouting { type nat hook postrouting priority srcnat; ip saddr " +:+ guest
    +:+ " snat to " +:+ vm +:+ "; }" +:+ nl
    +:+ "}" +:+ nl.

(** Waiting for the API socket: each poll sees whether it exists and, when
    it doesn't, whether the VMM has exited. The end of the polls is the
    deadline. *)
Record SocketPoll := mkSocketPoll { po_exists : bool; po_exited : option ExitStatus }.
Inductive SocketWait := Appeared | ExitedFirst (status : ExitStatus) | NeverAppeared.
Fixpoint wait_socket (polls : list SocketPoll) : SocketWait :=
  match polls with
  | [] => NeverAppeared
  | p :: polls =>
      if po_exists p then Appeared
      else match po_exited p with
           | Some status => ExitedFirst status
           | None => wait_socket polls
           end
  end.

(** What the host answers steps 1-4. *)
Record HostOutcome := mkHostOutcome {
  hf_netns : fault;
  (** making the VMs' parent cgroup, and turning its io controller on *)
  hf_io : fault * fault;
  hf_jail_base : fault;
  hf_console : fault;
  hf_console_chown : fault;
  hf_console_clone : fault;
  (** for jailer's arguments, the child's pid, and its start time when [/proc] still has it *)
  hf_spawn : list string -> result string (N * option N);
  (** how far jailer got by itself: its chroot, its cgroup *)
  hf_jailer : bool * bool;
  hf_link : BatchOutcome;
  hf_netns_batch : BatchOutcome;
  hf_sysctl : fault;
  hf_nft : fault;
  hf_socket : list SocketPoll;
  (** the console when an error quotes it *)
  hf_console_text : option string;
}.

Definition in_ns (id : string) (commands : list string) (h : Host) : Host :=
  set_netns (alter (fun l => l ++ commands) id (ho_netns h)) h.
Definition with_dir (path : string) (h : Host) : Host :=
  match ho_dirs h !! path with
  | Some _ => h
  | None => set_dirs (<[path := ∅]> (ho_dirs h)) h
  end.
Definition with_cgroup (path : string) (pid : N) (h : Host) : Host :=
  set_cgroups (<[path := {[pid]} ∪ default ∅ (ho_cgroups h !! path)]> (ho_cgroups h)) h.

(** [enable_io_accounting], of the answers to its two steps: a failure is
    only warned of. No undo takes either back. *)
Definition with_parent_cgroup (h : Host) : Host :=
  match ho_cgroups h !! parent_cgroup with
  | Some _ => h
  | None => set_cgroups (<[parent_cgroup := ∅]> (ho_cgroups h)) h
  end.
Definition enable_io_accounting (f : fault * fault) (h : Host) : Host :=
  match f with
  | (Some _, _) => h
  | (None, Some _) => with_parent_cgroup h
  | (None, None) => set_io true (with_parent_cgroup h)
  end.
(** The chroot and the cgroup jailer makes, in the directory and the cgroup
    all VMs share, which it makes on first use. *)
Definition with_jail (node : NodeConfig) (root : string) (h : Host) : Host :=
  with_dir root (with_dir (jails node) h).
Definition with_vm_cgroup (id : string) (pid : N) (h : Host) : Host :=
  with_cgroup (cgroup_of id) pid (with_parent_cgroup h).

(** Opening the console log: truncated, or appended to. *)
Definition open_console (append_console : bool) (log : string) (h : Host) : Host :=
  set_logs (<[log := if append_console then default "" (ho_logs h !! log) else ""]> (ho_logs h)) h.

(** The arguments [host_steps] runs jailer with. *)
Definition jailer_args (node : NodeConfig) (id : string) (uid mem_mib vcpus : N) : list string :=
  let memory_max := ((mem_mib + VMM_OVERHEAD_MIB) * 1024 * 1024)%N in
  ["--id"; id; "--exec-file"; nc_firecracker node; "--uid"; dec uid; "--gid"; dec uid;
   "--chroot-base-dir"; nc_jail_base node; "--netns"; path_join "/run/netns" id;
   "--cgroup-version"; "2"; "--parent-cgroup"; PARENT_CGROUP;
   "--cgroup"; "memory.max=" +:+ dec memory_max;
   "--cgroup"; "cpu.max=" +:+ dec (vcpus * 100000) +:+ " 100000"].

(** [Vm::host_steps]. *)
Definition host_steps (o : HostOutcome) (node : NodeConfig) (vm_address : Ipv4Addr)
    (mem_mib vcpus : N) (append_console : bool) : vmM N :=
  let id := host_id vm_address in
  let uid := vm_uid vm_address in
  let vm_addr := ipv4_display vm_address in
  let node_addr := ipv4_display (nc_node_address node) in
  let root := path_join (jail_dir node id) "root" in
  (* 1 *)
  _ ← vm_try (hf_netns o);
  _ ← on_host (fun h => set_netns (<[id := []]> (ho_netns h)) h);
  _ ← push_undo (undo_netns id);
  (* 2 *)
  _ ← on_host (enable_io_accounting (hf_io o));
  _ ← on_vm (set_jail_root root);
  _ ← push_undo (undo_jail_dir node id);
  _ ← push_undo (undo_cgroup id);
  _ ← vm_step "create jail base dir" (hf_jail_base o);
  _ ← on_host (with_dir (nc_jail_base node));
  log ← get_vm vm_console_log;
  _ ← vm_step "create console log" (hf_console o);
  _ ← on_host (open_console append_console log);
  _ ← vm_step "chown console log" (hf_console_chown o);
  _ ← vm_step "clone console fd" (hf_console_clone o);
  '(pid, start_time) ←
    match hf_spawn o (jailer_args node id uid mem_mib vcpus) with
    | Err e => vm_throw (err "spawn jailer" e)
    | Ok child => mret child
    end;
  _ ← on_vm (set_process (mkProcessId pid <$> start_time));
  _ ← on_vm (set_vmm (Some (Child pid)));
  _ ← on_host (fun h =>
        let h := if (hf_jailer o).1 then with_jail node root h else h in
        match start_time with
        | None => h
        | Some st =>
            let h := set_procs (<[pid := st]> (ho_procs h)) h in
            if (hf_jailer o).2 then with_vm_cgroup id pid h else h
        end);
  _ ← match start_time with
      | None => vm_throw "jailer exited before its process could be identified"
      | Some _ => mret tt
      end;
  (* 3 *)
  _ ← push_undo (undo_link id);
  let commands := link_commands id vm_addr node_addr in
  _ ← on_host (fun h =>
        if batch_done (hf_link o) commands is _ :: _
        then set_links ({[id]} ∪ ho_links h) h else h);
  _ ← vm_try ((fun e => name_failed_batch_command e commands) <$> bo_fault (hf_link o));
  let commands := netns_commands (dec uid) vm_addr node_addr in
  _ ← on_host (in_ns id (batch_done (hf_netns_batch o) commands));
  _ ← vm_try ((fun e => name_failed_batch_command e commands) <$> bo_fault (hf_netns_batch o));
  _ ← vm_try (hf_sysctl o);
  _ ← on_host (in_ns id ["sysctl -qw net.ipv4.ip_forward=1"]);
  _ ← vm_try (hf_nft o);
  _ ← on_host (in_ns id [namespace_ruleset vm_address]);
  (* 4 *)
  let api_socket := path_join root "run/firecracker.socket" in
  _ ← on_vm (set_api_socket api_socket);
  match wait_socket (hf_socket o) with
  | Appeared =>
      _ ← on_host (fun h => with_vm_cgroup id pid (with_jail node root h));
      mret uid
  | ExitedFirst status =>
      _ ← on_host (kill_pids {[pid]});
      vm_throw ("jailer exited (" +:+ xs_display status
        +:+ ") before Firecracker was up; last console lines:" +:+ nl
        +:+ console_tail (hf_console_text o))
  | NeverAppeared =>
      vm_throw ("Firecracker's API socket never appeared at " +:+ api_socket)
  end.

(** [try_deliver_config]: the handshake with Firecracker's vsock socket. *)
Record Handshake := mkHandshake {
  hs_connect : fault;
  hs_send_connect : fault;
  (** the line answered; [None] when none came within a second *)
  hs_ack : option (result string string);
  hs_send_config : fault;
  hs_shutdown : fault;
}.
Definition try_deliver_config (hs : Handshake) : result string unit :=
  _ ← fault_result (hs_connect hs);
  _ ← fault_result (hs_send_connect hs);
  ack ← match hs_ack hs with None => Err "no vsock ack" | Some r => r end;
  _ ← fail_if (negb (starts_with "OK" ack)) ("vsock handshake answered " +:+ debug_str ack);
  _ ← fault_result (hs_send_config hs);
  fault_result (hs_shutdown hs).

(** [Vm::deliver_config]: each try first looks whether the VMM has exited;
    the end of the tries is [CONFIG_TIMEOUT]. [Err (Some status)] is a VMM
    that ended first. *)
Inductive Delivery := Delivered | EndedFirst (status : ExitStatus) | NeverAccepted (last : string).
Fixpoint deliver_config (last_error : string) (tries : list (option ExitStatus * Handshake))
    : Delivery :=
  match tries with
  | [] => NeverAccepted last_error
  | (Some status, _) :: _ => EndedFirst status
  | (None, hs) :: tries =>
      match try_deliver_config hs with
      | Ok _ => Delivered
      | Err e => deliver_config e tries
      end
  end.

(** What the host and Firecracker answer the rest of a start. *)
Record StartOutcome := mkStartOutcome {
  sf_host : HostOutcome;
  sf_kernel_link : fault;
  sf_kernel_copy : fault;
  sf_rootfs_create : fault;
  sf_rootfs_copy : fault;
  sf_rootfs_chown : fault;
  sf_tap : fault;
  sf_vsock : fault;
  sf_boot : fault;
  sf_config : list (option ExitStatus * Handshake);
  (** how the VMM ended within the grace period, if it did *)
  sf_grace : option (option ExitStatus);
  sf_console_text : option string;
}.

Definition put_file (dir file contents : string) (h : Host) : Host :=
  set_dirs (alter (<[file := contents]>) dir (ho_dirs h)) h.
Definition vmm_exited (h : Host) (v : Vm) : Host :=
  match vm_vmm v with Some vmm => vmm_kill vmm h | None => h end.

(** [Vm::start_steps]. *)
Definition start_steps (o : StartOutcome) (node : NodeConfig) (spec : VmSpec) : vmM unit :=
  _ ← host_steps (sf_host o) node (sp_vm_address spec) (sp_mem_mib spec) (sp_vcpus spec) false;
  root ← get_vm vm_jail_root;
  (* 5 *)
  _ ← vm_step "copy kernel into jail" (_ ← sf_kernel_link o; sf_kernel_copy o);
  _ ← on_host (put_file root "vmlinux" ("the kernel " +:+ nc_kernel node));
  _ ← vm_step "create rootfs in jail" (sf_rootfs_create o);
  _ ← on_host (put_file root "rootfs.ext4" "");
  _ ← vm_step ("copy rootfs " +:+ sp_rootfs spec +:+ " into jail") (sf_rootfs_copy o);
  _ ← on_host (put_file root "rootfs.ext4" (sp_rootfs_file spec));
  _ ← vm_step "chown rootfs in jail" (sf_rootfs_chown o);
  _ ← vm_step "attach tap" (sf_tap o);
  _ ← vm_step "attach vsock" (sf_vsock o);
  _ ← vm_step "boot" (sf_boot o);
  (* 6 *)
  match deliver_config "never tried" (sf_config o) with
  | EndedFirst status =>
      v ← get_vm id;
      _ ← on_host (fun h => vmm_exited h v);
      vm_throw (ended_during_start (Some status) (sf_console_text o))
  | NeverAccepted last_error =>
      vm_throw ("guest-init never accepted its config within 10s (" +:+ last_error
        +:+ "), so the VM was forced to stop; does the rootfs have guest-init as /init? Last console lines:"
        +:+ nl +:+ console_tail (sf_console_text o))
  | Delivered =>
      match sf_grace o with
      | None => mret tt
      | Some status =>
          v ← get_vm id;
          _ ← on_host (fun h => vmm_exited h v);
          vm_throw (ended_during_start status (sf_console_text o))
      end
  end.

(** [Vm::start]. *)
Definition vm_start (o : StartOutcome) (u : UndoOutcome) (node : NodeConfig) (spec : VmSpec)
    (h : Host) : Host * result string Vm :=
  match start_steps o node spec (vm_empty (sp_console_log spec), h) with
  | ((v, h), Ok _) => (h, Ok v)
  | ((v, h), Err e) => (teardown u v h, Err e)
  end.

(** ** Snapshots *)

(** [std::fs::rename] of a file from one directory to another. *)
Definition rename (f : fault) (from source to dest : string) (h : Host)
    : Host * result string unit :=
  match f with
  | Some e => (h, Err e)
  | None =>
      match ho_dirs h !! from ≫= (fun d => d !! source), ho_dirs h !! to with
      | Some contents, Some _ =>
          (put_file to dest contents (set_dirs (alter (delete source) from (ho_dirs h)) h), Ok tt)
      | _, _ => (h, Err "No such file or directory (os error 2)")
      end
  end.

(** [move_files]: every file is tried, and the first error kept. *)
Fixpoint move_each (f : string -> fault) (from to : string) (names : list (string * string))
    (result_ : result string unit) (h : Host) : Host * result string unit :=
  match names with
  | [] => (h, result_)
  | (source, dest) :: names =>
      let '(h, r) := rename (f source) from source to dest h in
      move_each f from to names
        (match r, result_ with
         | Err e, Ok _ => Err (source +:+ ": " +:+ e)
         | _, _ => result_
         end) h
  end.
Definition move_files (f : string -> fault) (from : string) (from_names : list string)
    (to : string) (to_names : list string) (h : Host) : Host * result string unit :=
  move_each f from to (zip from_names to_names) (Ok tt) h.

Record WakeOutcome := mkWakeOutcome {
  wf_host : HostOutcome;
  wf_move : string -> fault;
  wf_chown : string -> fault;
  wf_load : fault;
  wf_back : string -> fault;
  wf_console_text : option string;
}.

Fixpoint chown_each (f : string -> fault) (files : list string) : vmM unit :=
  match files with
  | [] => mret tt
  | file :: files =>
      _ ← vm_step ("chown " +:+ file +:+ " in jail") (f file); chown_each f files
  end.

(** [Vm::wake_steps]. *)
Definition wake_steps (o : WakeOutcome) (node : NodeConfig) (spec : WakeSpec) : vmM unit :=
  _ ← host_steps (wf_host o) node (ws_vm_address spec) (ws_mem_mib spec) (ws_vcpus spec) true;
  (* 5 *)
  root ← get_vm vm_jail_root;
  _ ← (fun s =>
         let '(h, r) := move_files (wf_move o) (ws_snapshot spec) SNAPSHOT_FILES root WAKE_FILES s.2 in
         ((s.1, h), map_err (err "move the snapshot into the jail") r));
  _ ← chown_each (wf_chown o) WAKE_FILES;
  (* 6 *)
  vm_try ((fun e => "load the snapshot: " +:+ e +:+ "; last console lines:" +:+ nl
                      +:+ console_tail (wf_console_text o)) <$> wf_load o).

(** [Vm::wake]. *)
Definition vm_wake (o : WakeOutcome) (u : UndoOutcome) (node : NodeConfig) (spec : WakeSpec)
    (h : Host) : Host * result string Vm :=
  match wake_steps o node spec (vm_empty (ws_console_log spec), h) with
  | ((v, h), Ok _) => (h, Ok v)
  | ((v, h), Err e) =>
      let h := (move_files (wf_back o) (vm_jail_root v) WAKE_FILES
                  (ws_snapshot spec) SNAPSHOT_FILES h).1 in
      (teardown u v h, Err e)
  end.

(** [Vm::destroy]. *)
Definition vm_destroy (u : UndoOutcome) (v : Vm) (h : Host) : Host := teardown u v h.

(** How a park failed. *)
Inductive Parking := Resumed (e : string) | Lost (e : string).

Inductive ParkCall := CallPause | CallSnapshot | CallResume.
Record ParkOutcome := mkParkOutcome {
  pf_mkdir : fault;
  pf_pause : fault;
  (** the device state and the memory Firecracker writes, or its error *)
  pf_snapshot : result string (string * string);
  pf_resume : fault;
  pf_move : string -> fault;
  (** the call Firecracker never answers, if there is one: [Client::send] has
      no time limit. One whose VMM dies meanwhile is answered with an error *)
  pf_hang : option ParkCall;
}.

(** [park_steps], of a park all of whose calls are answered. *)
Definition park_steps (o : ParkOutcome) (vmm : Vmm) (jail_root into : string) (h : Host)
    : Host * result Parking unit :=
  match pf_mkdir o with
  | Some e => (h, Err (Resumed (err "create the snapshot directory" e)))
  | None =>
      let h := with_dir into h in
      match pf_pause o with
      | Some e => (h, Err (Resumed (err "pause the VM" e)))
      | None =>
          match pf_snapshot o with
          | Err e =>
              let h := set_dirs (alter (fun d => delete "park.vmstate" (delete "park.mem" d))
                                   jail_root (ho_dirs h)) h in
              match pf_resume o with
              | None => (h, Err (Resumed (err "snapshot the VM" e)))
              | Some r => (h, Err (Lost ("snapshot the VM: " +:+ e
                  +:+ "; then resuming it failed too (" +:+ r +:+ "), so it was stopped")))
              end
          | Ok (vmstate, mem) =>
              let h := put_file jail_root "park.mem" mem
                         (put_file jail_root "park.vmstate" vmstate h) in
              let h := vmm_kill vmm h in
              let '(h, r) := move_files (pf_move o) jail_root PARK_FILES into SNAPSHOT_FILES h in
              (h, map_err (fun e => Lost
                (err "move the snapshot out of the jail, so the VM was stopped" e)) r)
          end
      end
  end.

(** [park], likewise; and the host a park leaves that waits for an answer
    forever, if it does. *)
Definition park (o : ParkOutcome) (vmm : Vmm) (jail_root into : string) (h : Host)
    : Host * result Parking unit :=
  let '(h, r) := park_steps o vmm jail_root into h in
  if is_ok r then (h, r) else (set_dirs (remove_tree into (ho_dirs h)) h, r).
Definition park_hung (o : ParkOutcome) (jail_root into : string) (h : Host) : option Host :=
  match pf_hang o, pf_mkdir o, pf_pause o, pf_snapshot o with
  | Some CallPause, None, _, _ | Some CallSnapshot, None, None, _ => Some (with_dir into h)
  | Some CallResume, None, None, Err _ =>
      Some (set_dirs (alter (fun d => delete "park.vmstate" (delete "park.mem" d)) jail_root
                        (ho_dirs (with_dir into h))) (with_dir into h))
  | _, _, _, _ => None
  end.

(** ** Supervising *)

(** [Stop]; a park carries what it will meet. *)
Inductive Stop :=
| StopGraceful (timeout_secs : N)
| StopForce
| StopPark (into : string) (o : ParkOutcome).

(** What a supervisor's [select!] wakes up for: the VMM ended, a stop came or
    their channel closed, or the graceful stop's time ran out. *)
Inductive Event :=
| EvEnded (status : option ExitStatus)
| EvStop (stop : Stop)
| EvClosed
| EvDeadline.

(** What it reads meanwhile: the answer to Ctrl-Alt-Del and, when that
    failed, whether the VMM had ended; the cgroup's [memory.events]; the
    console at the end. [se_hang] is whether Ctrl-Alt-Del is never
    answered. *)
Record SupEnv := mkSupEnv {
  se_hang : bool;
  se_ctrl_alt_del : fault;
  se_ended : option (option ExitStatus);
  se_events : option string;
  se_console : option string;
}.

Section supervise.
Context (env : SupEnv) (vmm : Vmm) (jail_root : string).

(** [done.send] of each park, in order. *)
Definition Replies : Type := list (result string unit).

(** The loop of [graceful_stop]; no reason while it still waits. The stop
    channel and the VMM's end are looked at only between the calls to
    Firecracker: behind one that is never answered the wait has no end. *)
Fixpoint graceful_loop (evs : list Event) (h : Host) : Host * Replies * option EndReason :=
  match evs with
  | [] => (h, [], None)
  | EvEnded status :: _ => (vmm_kill vmm h, [], Some (graceful_end status (se_console env)))
  | EvDeadline :: _ => (vmm_kill vmm h, [], Some Forced)
  | EvStop (StopGraceful _) :: evs => graceful_loop evs h
  | EvStop (StopPark _ _) :: evs =>
      let '(h, rs, r) := graceful_loop evs h in (h, Err "the VM is stopping" :: rs, r)
  | EvStop StopForce :: _ | EvClosed :: _ => (vmm_kill vmm h, [], Some Forced)
  end.

Definition graceful_stop (evs : list Event) (h : Host) : Host * Replies * option EndReason :=
  if se_hang env then (h, [], None) else
  match se_ctrl_alt_del env with
  | Some _ =>
      match se_ended env with
      | Some status =>
          (vmm_kill vmm h, [],
           Some (vmm_natural_end vmm (se_events env) status (se_console env)))
      | None => (vmm_kill vmm h, [], Some Forced)
      end
  | None => graceful_loop evs h
  end.

(** [Vm::run_until_ended]. *)
Fixpoint run_until_ended (evs : list Event) (h : Host) : Host * Replies * option EndReason :=
  match evs with
  | [] => (h, [], None)
  | EvEnded status :: _ =>
      (vmm_kill vmm h, [], Some (vmm_natural_end vmm (se_events env) status (se_console env)))
  | EvStop (StopPark into o) :: evs =>
      match park_hung o jail_root into h, park o vmm jail_root into h with
      | Some h, _ => (h, [], None)
      | None, (h, Ok _) => (h, [Ok tt], Some Parked)
      | None, (h, Err (Resumed e)) =>
          let '(h, rs, r) := run_until_ended evs h in (h, Err e :: rs, r)
      | None, (h, Err (Lost e)) => (vmm_kill vmm h, [Err e], Some Forced)
      end
  | EvStop (StopGraceful _) :: evs => graceful_stop evs h
  | EvStop StopForce :: _ | EvClosed :: _ => (vmm_kill vmm h, [], Some Forced)
  | EvDeadline :: evs => run_until_ended evs h
  end.
End supervise.

(** [Vm::supervise]. *)
Definition supervise (env : SupEnv) (u : UndoOutcome) (v : Vm) (evs : list Event) (h : Host)
    : Host * Replies * option EndReason :=
  match vm_vmm v with
  | None => (h, [], None)
  | Some vmm =>
      let '(h, rs, r) := run_until_ended env vmm (vm_jail_root v) evs h in
      match r with
      | Some reason => (teardown u v h, rs, Some reason)
      | None => (h, rs, None)
      end
  end.
