(* ===== verification/HostCommands.v ===== *)
(** * The host's tools, as [crates/cirro-node/src/vm.rs] runs them

    [run] and what [ip], [ip_batch], [in_netns] and [nft_in] ask of it: the
    argument vector and the input each tool gets, and the text of every error.
    What a tool does is its own; [Vm] says what the steps make of it. *)

From S2P Require Import Prelude RustStr Proto Subnet Store Validate Vm.

(** How a tool's run goes: it can't be started, its input can't be written,
    it can't be waited for, or it ends with a status and what it wrote to its
    standard error. *)
Record ToolOutcome := mkToolOutcome {
  tl_spawn : fault;
  tl_write : fault;
  tl_wait : result string (ExitStatus * string);
}.
(** A tool's run: its name and arguments, and its standard input. *)
Record ToolRun := mkToolRun { tr_argv : list string; tr_stdin : option string }.
(** [{:?}] of a [Command]. *)
Definition described (argv : list string) : string := str_join " " (debug_str <$> argv).

Section tools.
Context (tool : ToolRun -> ToolOutcome).

Definition run (argv : list string) (stdin : option string) : result string unit :=
  let o := tool (mkToolRun argv stdin) in
  _ ← map_err (err (described argv)) (fault_result (tl_spawn o));
  _ ← match stdin with
      | Some _ => map_err (err (described argv)) (fault_result (tl_write o))
      | None => Ok tt
      end;
  '(status, stderr) ← map_err (err (described argv)) (tl_wait o);
  if xs_success status then Ok tt
  else Err (described argv +:+ " failed: " +:+ xs_display status +:+ ": " +:+ trim stderr).
Definition ip (args : list string) : result string unit := run ("ip" :: args) None.
Definition ip_batch (netns : option string) (commands : list string) : result string unit :=
  map_err (fun e => name_failed_batch_command e commands)
    (run (["ip"] ++ match netns with Some n => ["-n"; n] | None => [] end ++ ["-batch"; "-"])
       (Some (str_join nl commands +:+ nl))).
Definition in_netns (netns : string) (argv : list string) : result string unit :=
  run (["ip"; "netns"; "exec"; netns] ++ argv) None.
Definition nft_in (netns ruleset : string) : result string unit :=
  run ["ip"; "netns"; "exec"; netns; "nft"; "-f"; "-"] (Some ruleset).
End tools.

(** [Vmm::ended]: [try_wait] is what the kernel says of a child, with its
    status once it has exited. *)
Definition vmm_ended (vmm : Vmm) (try_wait : result string (option ExitStatus)) (h : Host) : option (option ExitStatus) :=
  match vmm with
  | Child _ => match try_wait with Ok (Some status) => Some (Some status) | _ => None end
  | Adopted process _ => if is_running h process then None else Some None
  end.
(** [Vmm::wait]: [wait] is what the kernel says once a child has exited;
    [looks], the host each time an adopted VMM is looked for. [None] while it
    waits. *)
Fixpoint poll_ended (process : ProcessId) (looks : list Host) : option (option ExitStatus) :=
  match looks with
  | [] => None
  | h :: looks => if is_running h process then poll_ended process looks else Some None
  end.
Definition vmm_wait (vmm : Vmm) (wait : result string ExitStatus) (looks : list Host) : option (option ExitStatus) :=
  match vmm with
  | Child _ => Some (match wait with Ok status => Some status | Err _ => None end)
  | Adopted process _ => poll_ended process looks
  end.
(** [remove_if_present]. *)
Inductive RemoveError := AbsentFile | OtherError (e : string).
Definition remove_if_present (r : result RemoveError unit) (path : string) : result string unit :=
  match r with
  | Err (OtherError e) => Err (err ("remove " +:+ path) e)
  | Err AbsentFile | Ok _ => Ok tt
  end.

(** ** Guarantees *)

(** Waiting for an adopted VMM is over at the first look that finds it ended,
    and says what [ended] does there; for as long as none does, it waits. *)
Lemma vmm_wait_adopted process cgroup wait try_wait looks :
  match vmm_wait (Adopted process cgroup) wait looks with
  | Some status => exists before h after, looks = before ++ h :: after /\
      vmm_ended (Adopted process cgroup) try_wait h = Some status /\
      Forall (fun h => vmm_ended (Adopted process cgroup) try_wait h = None) before
  | None => Forall (fun h => vmm_ended (Adopted process cgroup) try_wait h = None) looks
  end.
Proof.
  simpl. induction looks as [|h looks IH]; simpl; [constructor|]. destruct (is_running h process) eqn:Hr.
  - destruct (poll_ended process looks) as [status|].
    + destruct IH as (before & h' & after & -> & He & Hb). exists (h :: before), h', after.
      split_and!; [done|done|]. constructor; [by rewrite Hr|done].
    + constructor; [by rewrite Hr|done].
  - exists [], h, looks. split_and!; [done|by rewrite Hr|constructor].
Qed.

Lemma after_last_app p s t r : after_last p t = Some r -> after_last p (s +:+ t) = Some r.
Proof. intros H. induction s as [|c s IH]; [done|]. simpl. by rewrite IH. Qed.
Lemma after_last_none p s r : after_last p s = Some r -> exists q, s = q +:+ p +:+ r.
Proof.
  revert r. induction s as [|c s IH]; intros r; simpl.
  - intros H%strip_prefix_some. exists "". exact H.
  - destruct (after_last p s) as [r'|] eqn:E.
    + intros [= <-]. destruct (IH _ eq_refl) as [q ->]. by exists (String c q).
    + intros H. change (strip_prefix p (String c s) = Some r) in H. apply strip_prefix_some in H. exists "". exact H.
Qed.
(** The marker starts with a letter that isn't in the rest of it. *)
Lemma after_last_marker t : str_contains "C" t = false -> after_last "Command failed -:" ("Command failed -:" +:+ t) = Some t.
Proof.
  intros Ht. set (rest := "ommand failed -:" +:+ t).
  assert (Hn : after_last "Command failed -:" rest = None).
  { destruct (after_last _ rest) as [r|] eqn:E; [|done]. apply after_last_none in E as [q E].
    apply (f_equal (str_contains "C")) in E. unfold rest in E. rewrite !str_contains_app, Ht in E.
    change (str_contains "C" "Command failed -:") with true in E. by rewrite orb_true_r in E. }
  change ("Command failed -:" +:+ t) with (String "C" rest). cbn [after_last]. rewrite Hn. exact (strip_prefix_app "Command failed -:" t).
Qed.
Lemma trim_digits s : str_all is_digit s = true -> trim s = s.
Proof.
  assert (Hh : forall c s, is_digit c = true -> ws_head (String c s) = None).
  { intros c t Hc. destruct c as [[] [] [] [] [] [] [] []]; try discriminate Hc; destruct t as [|b [|d t]]; reflexivity. }
  assert (Hstart : forall s, str_all is_digit s = true -> trim_start s = s).
  { intros [|c t] Ht; [done|]. apply andb_prop in Ht as [Hc _]. unfold trim_start. cbn [String.length trim_start_fuel].
    by rewrite Hh. }
  intros Hs. unfold trim. rewrite Hstart by done. induction s as [|c s IH]; [done|].
  cbn [trim_end]. rewrite Hstart by done. cbn [is_empty]. apply andb_prop in Hs as [_ Hs]. by rewrite IH.
Qed.
Lemma trim_dec n : trim (dec n) = dec n.
Proof. apply trim_digits, dec_all_digits. Qed.

(** A batch that fails says which command did: when [ip] ends its complaint
    with the number of the line it stopped at, as it does, the error has that
    command in it, whatever [ip] wrote before; and a batch whose tool can't be
    run, or that says nothing of the kind, fails with the tool's own text. *)
Theorem failed_batch_names_the_command (tool : ToolRun -> ToolOutcome) netns commands status before line c :
  let argv := ["ip"] ++ match netns with Some n => ["-n"; n] | None => [] end ++ ["-batch"; "-"] in
  tool (mkToolRun argv (Some (str_join nl commands +:+ nl))) =
    mkToolOutcome None None (Ok (status, before +:+ "Command failed -:" +:+ dec line)) ->
  xs_success status = false -> trim (before +:+ "Command failed -:" +:+ dec line) = before +:+ "Command failed -:" +:+ dec line ->
  (line <= u64_max)%N -> (0 < line)%N -> commands !! N.to_nat (line - 1) = Some c ->
  ip_batch tool netns commands =
    Err (described argv +:+ " failed: " +:+ xs_display status +:+ ": " +:+ before +:+ "Command failed -:" +:+ dec line
      +:+ " (`" +:+ c +:+ "`)").
Proof.
  intros argv Ho Hs Ht Hmax Hpos Hc. unfold ip_batch, run. fold argv. rewrite Ho. cbn [tl_spawn tl_write tl_wait fault_result map_err mbind result_bind].
  rewrite Hs, Ht. cbn [map_err]. f_equal. unfold name_failed_batch_command.
  assert (Ha : after_last "Command failed -:" (described argv +:+ " failed: " +:+ xs_display status +:+ ": " +:+ before
    +:+ "Command failed -:" +:+ dec line) = Some (dec line)).
  { assert (Hm : after_last "Command failed -:" ("Command failed -:" +:+ dec line) = Some (dec line)).
    { apply after_last_marker. by apply dec_not_contains. }
    do 5 apply after_last_app. exact Hm. }
  rewrite Ha. cbn [mbind option_bind]. rewrite trim_dec, parse_uint_dec, (proj2 (N.leb_le _ _) Hmax). cbn [mbind option_bind].
  destruct (N.eqb_spec line 0) as [->|_]; [lia|]. rewrite Hc. by rewrite !str_app_assoc.
Qed.
