(* ===== verification/Jailer.v ===== *)
(** * A jailed Firecracker of one's own ([crates/cirro-node/src/jailer.rs])

    [Jail::spawn] through [sudo], and what a dropped [Jail] ends. The agent
    runs jailer itself; this one is for those who are not root, so whose
    processes may be signalled is part of the host here: [kill(2)]'s groups
    and permissions, and children that stay until they are waited for. *)

From S2P Require Import Prelude RustStr Proto Subnet Vm.

(** ** The host *)

(** A process: [jp_runs] is the one it only waits for, as [sudo] does for the
    command it runs. *)
Record JailProc := mkJailProc {
  jp_uid : N;
  jp_group : Z;
  jp_argv : list string;
  jp_runs : option Z;
  jp_ended : bool;
}.
(** What the caller of [Jail] sees, and its own pid, group and uid. *)
Record JailHost := mkJailHost {
  jh_self : Z;
  jh_group : Z;
  jh_uid : N;
  jh_dirs : gset string;
  jh_files : gmap string string;
  jh_procs : gmap Z JailProc;
}.
Definition set_jh_procs (procs : gmap Z JailProc) (h : JailHost) : JailHost :=
  mkJailHost (jh_self h) (jh_group h) (jh_uid h) (jh_dirs h) (jh_files h) procs.
Definition jh_with_dir (dir : string) (h : JailHost) : JailHost :=
  mkJailHost (jh_self h) (jh_group h) (jh_uid h) ({[dir]} ∪ jh_dirs h) (jh_files h) (jh_procs h).
Definition end_proc (p : JailProc) : JailProc :=
  mkJailProc (jp_uid p) (jp_group p) (jp_argv p) (jp_runs p) true.

(** [kill(2)] with [SIGKILL]: whom a pid, 0, -1 or a group addresses, and
    whom of them the caller may signal. *)
Definition addressed (h : JailHost) (target pid : Z) (p : JailProc) : bool :=
  if (0 <? target)%Z then (pid =? target)%Z
  else if (target =? 0)%Z then (jp_group p =? jh_group h)%Z
  else if (target =? -1)%Z then negb (pid =? 1)%Z && negb (pid =? jh_self h)%Z
  else (jp_group p =? - target)%Z.
Definition may_signal (h : JailHost) (p : JailProc) : bool :=
  (jh_uid h =? 0)%N || (jh_uid h =? jp_uid p)%N.
Definition sigkill (target : Z) (h : JailHost) : JailHost :=
  set_jh_procs (map_imap (fun pid p =>
    Some (if addressed h target pid p && may_signal h p then end_proc p else p)) (jh_procs h)) h.

(** ** Text *)

(** [Path::file_name]. *)
Definition path_file_name (path : string) : option string :=
  name ← last (filter (fun part => part <> "" /\ part <> ".") (str_split "/" path));
  if bool_decide (name = "..") then None else Some name.
(** [str::parse] to an [i32]. *)
Definition parse_i32 (s : string) : option Z :=
  match s with
  | String "-" (String "+" _) | String "-" EmptyString => None
  | String "-" digits => (fun n => - Z.of_N n)%Z <$> parse_uint 2147483648 digits
  | _ => Z.of_N <$> parse_uint 2147483647 s
  end.

(** ** [Jail] *)

Definition JAIL_ROOT_TIMEOUT : N := 10000.
Definition JAIL_ROOT_POLL : N := 100.

Record JailerConfig := mkJailerConfig {
  jc_id : string;
  jc_exec_file : string;
  jc_uid : N;
  jc_gid : N;
  jc_chroot_base_dir : string;
}.
Record Jail := mkJail { jl_child : Z; jl_root : string }.

(** [jail_root]; without a file name, [expect] panics. *)
Definition jail_root (chroot_base_dir exec_file id : string) : option string :=
  name ← path_file_name exec_file;
  Some (path_join (path_join (path_join chroot_base_dir name) id) "root").

Definition spawn_args (jailer_bin : string) (config : JailerConfig) : list string :=
  ["sudo"; jailer_bin; "--id"; jc_id config; "--exec-file"; jc_exec_file config;
   "--uid"; pretty (jc_uid config); "--gid"; pretty (jc_gid config);
   "--chroot-base-dir"; jc_chroot_base_dir config; "--cgroup-version"; "2"].

(** What [spawn] meets: the file system, the console's two clones, the
    child's pid; whether the root is there at each look; and the clock in
    milliseconds, as the deadline is set and after each look. *)
Record JailOutcome := mkJailOutcome {
  jo_create : fault;
  jo_clone : fault;
  jo_clone' : fault;
  jo_spawn : result string Z;
  jo_exists : nat -> bool;
  jo_set : N;
  jo_clock : nat -> N;
}.
Inductive Spawned := Jailed (jail : Jail) | SpawnFailed (e : string) | SpawnPanicked.

(** The wait for the root: whether it came, if the looks are enough to tell. *)
Fixpoint await_root (looks i : nat) (o : JailOutcome) : option bool :=
  match looks with
  | O => None
  | S looks =>
      if jo_exists o i then Some true
      else if (jo_set o + JAIL_ROOT_TIMEOUT <=? jo_clock o i)%N then Some false
      else await_root looks (S i) o
  end.
(** The looks there can be: one every [JAIL_ROOT_POLL] up to the deadline,
    and the one that finds it has passed. *)
Definition JAIL_LOOKS : nat := 101.

Definition jail_spawn (o : JailOutcome) (jailer_bin : string) (config : JailerConfig) (h : JailHost)
    : JailHost * Spawned :=
  match fault_result (jo_create o) with
  | Err e => (h, SpawnFailed e)
  | Ok _ =>
      let h := jh_with_dir (jc_chroot_base_dir config) h in
      match _ ← fault_result (jo_clone o); _ ← fault_result (jo_clone' o); jo_spawn o with
      | Err e => (h, SpawnFailed e)
      | Ok child =>
          let h := set_jh_procs (<[child := mkJailProc 0 (jh_group h) (spawn_args jailer_bin config) None false]>
                     (jh_procs h)) h in
          match jail_root (jc_chroot_base_dir config) (jc_exec_file config) (jc_id config) with
          | None => (h, SpawnPanicked)
          | Some root =>
              match await_root JAIL_LOOKS 0 o with
              | Some true => (jh_with_dir root h, Jailed (mkJail child root))
              | _ => (h, SpawnFailed ("jailer never created jail root at " +:+ root))
              end
          end
      end
  end.

(** [root] is the field. *)
Definition api_socket_path (jail : Jail) : string := path_join (jl_root jail) "run/firecracker.socket".
Definition pid_file (jail : Jail) : string := path_join (jl_root jail) "firecracker.pid".

(** [Drop]: the kill, and the wait for the child, which is [None] while it
    runs; [sudo] ends once what it runs has. *)
Definition drop_kill (jail : Jail) (h : JailHost) : JailHost :=
  match pid_str ← jh_files h !! pid_file jail; parse_i32 (trim pid_str) with
  | Some raw_pid => sigkill raw_pid h
  | None => h
  end.
Definition child_ends (child : Z) (h : JailHost) : JailHost :=
  match jh_procs h !! child with
  | Some p =>
      match pid ← jp_runs p; jh_procs h !! pid with
      | Some q => if jp_ended q then set_jh_procs (<[child := end_proc p]> (jh_procs h)) h else h
      | None => h
      end
  | None => h
  end.
Definition child_wait (child : Z) (h : JailHost) : option JailHost :=
  match jh_procs h !! child with
  | Some p => if jp_ended p then Some (set_jh_procs (delete child (jh_procs h)) h) else None
  | None => Some h
  end.
Definition jail_drop (jail : Jail) (h : JailHost) : option JailHost :=
  child_wait (jl_child jail) (child_ends (jl_child jail) (drop_kill jail h)).

(** ** Laws *)

(** The wait ends: a sleep takes at least as long as it was asked to. *)
Lemma await_root_ends o looks i :
  (forall i, jo_set o + JAIL_ROOT_POLL * N.of_nat i <= jo_clock o i)%N -> 101 <= looks + i -> i <= 100 ->
  is_Some (await_root looks i o).
Proof.
  intros Hclock. revert i. induction looks as [|looks IH]; intros i Hl Hi; [lia|]. simpl.
  destruct (jo_exists o i); [eauto|]. destruct (N.leb_spec (jo_set o + JAIL_ROOT_TIMEOUT) (jo_clock o i)) as [|Hlt]; [eauto|].
  apply IH; [lia|]. specialize (Hclock i). unfold JAIL_ROOT_TIMEOUT, JAIL_ROOT_POLL in *. lia.
Qed.
(** And says what it saw: the root at the first look it was there, or none at
    any look up to the deadline. *)
Lemma await_root_true looks i o :
  await_root looks i o = Some true -> exists j, i <= j /\ jo_exists o j = true.
Proof.
  revert i. induction looks as [|looks IH]; intros i; simpl; [done|].
  destruct (jo_exists o i) eqn:He; [eauto|]. destruct (_ <=? _)%N; [done|]. intros (j & ? & ?)%IH. exists j. eauto with lia.
Qed.
Lemma await_root_false looks i o :
  await_root looks i o = Some false ->
  exists j, (jo_set o + JAIL_ROOT_TIMEOUT <= jo_clock o j)%N /\ forall k, i <= k <= j -> jo_exists o k = false.
Proof.
  revert i. induction looks as [|looks IH]; intros i; simpl; [done|].
  destruct (jo_exists o i) eqn:He; [done|]. destruct (N.leb_spec (jo_set o + JAIL_ROOT_TIMEOUT) (jo_clock o i)) as [Hd|].
  - intros _. exists i. split; [done|]. intros k Hk. by replace k with i by lia.
  - intros (j & Hj & Hk)%IH. exists j. split; [done|]. intros k Hk'. destruct (decide (k = i)) as [->|]; [done|]. apply Hk. lia.
Qed.

(** A [Jail] is what was asked for: its child runs jailer with the config's
    own id, binary, uid, gid and directory, and its root was seen. *)
Lemma jail_spawned o bin config h h' jail :
  jail_spawn o bin config h = (h', Jailed jail) ->
  jail_root (jc_chroot_base_dir config) (jc_exec_file config) (jc_id config) = Some (jl_root jail) /\
  (exists i, jo_exists o i = true) /\ jl_root jail ∈ jh_dirs h' /\
  jh_procs h' = <[jl_child jail := mkJailProc 0 (jh_group h) (spawn_args bin config) None false]> (jh_procs h).
Proof.
  unfold jail_spawn. destruct (fault_result (jo_create o)); [|done]. destruct (mbind _ _) as [child|e]; [|done].
  destruct (jail_root _ _ _) as [root|]; [|done]. destruct (await_root _ _ _) as [[]|] eqn:Ha; try done.
  intros [= <- <-]. simpl. split_and!; [done| |set_solver|done].
  apply await_root_true in Ha as (j & _ & Hj). eauto.
Qed.
(** It is where the agent has a VM's own jail, for a binary named
    [firecracker] below the agent's jails. *)
Lemma jail_root_is_vms node bin id :
  path_file_name bin = Some "firecracker" ->
  jail_root (nc_jail_base node) bin id = Some (path_join (jail_dir node id) "root").
Proof. intros Hb. unfold jail_root. by rewrite Hb. Qed.

(** A jail that is up: its pid file names the Firecracker that runs as the
    caller, which the child waits for. *)
Record jail_up (jail : Jail) (fc : Z) (vmm child : JailProc) (h : JailHost) : Prop := {
  ju_file : exists text, jh_files h !! pid_file jail = Some text /\ parse_i32 (trim text) = Some fc;
  ju_pid : (0 < fc)%Z;
  ju_vmm : jh_procs h !! fc = Some vmm;
  ju_uid : jp_uid vmm = jh_uid h;
  ju_child : jh_procs h !! jl_child jail = Some child;
  ju_runs : jp_runs child = Some fc;
  ju_apart : jl_child jail <> fc;
}.

Lemma sigkill_lookup target h pid :
  jh_procs (sigkill target h) !! pid
  = (fun p => if addressed h target pid p && may_signal h p then end_proc p else p) <$> jh_procs h !! pid.
Proof. unfold sigkill. simpl. rewrite map_lookup_imap. by destruct (jh_procs h !! pid). Qed.

(** Dropping it ends the guest and reaps the child, and nothing else. *)
Lemma dropped_jail_is_over jail fc vmm child h :
  jail_up jail fc vmm child h ->
  exists h', jail_drop jail h = Some h' /\ jh_procs h' !! fc = Some (end_proc vmm) /\
    jh_procs h' !! jl_child jail = None /\
    forall pid, pid <> fc -> pid <> jl_child jail -> jh_procs h' !! pid = jh_procs h !! pid.
Proof.
  intros [(text & Hf & Hp) Hpos Hv Hu Hc Hr Hne]. unfold jail_drop, drop_kill. rewrite Hf. cbn [mbind option_bind]. rewrite Hp.
  assert (Hk : forall pid, pid <> fc -> jh_procs (sigkill fc h) !! pid = jh_procs h !! pid).
  { intros pid Hpid. rewrite sigkill_lookup. destruct (jh_procs h !! pid) as [p|]; [|done]. simpl. f_equal.
    unfold addressed. destruct (Z.ltb_spec 0 fc); [|lia]. by destruct (Z.eqb_spec pid fc). }
  assert (Hend : jh_procs (sigkill fc h) !! fc = Some (end_proc vmm)).
  { rewrite sigkill_lookup, Hv. simpl. unfold addressed, may_signal. destruct (Z.ltb_spec 0 fc); [|lia].
    by rewrite Z.eqb_refl, Hu, N.eqb_refl, orb_true_r. }
  unfold child_ends, child_wait. rewrite (Hk _ Hne), Hc, Hr. cbn [mbind option_bind]. rewrite Hend. cbn [jp_ended end_proc set_jh_procs jh_procs].
  rewrite lookup_insert_eq. cbn [jp_ended]. eexists. split; [done|]. simpl. split_and!.
  - by rewrite lookup_delete_ne, lookup_insert_ne.
  - apply lookup_delete_eq.
  - intros pid H1 H2. rewrite lookup_delete_ne, lookup_insert_ne by done. by apply Hk.
Qed.

(** ** What it leaves *)

(** A wait that times out leaves the child it started: nothing kills it or
    waits for it, and there is no [Jail] to drop. *)
Lemma timed_out_spawn_leaves_the_jailer o bin config h child root :
  jo_create o = None -> jo_clone o = None -> jo_clone' o = None -> jo_spawn o = Ok child ->
  jail_root (jc_chroot_base_dir config) (jc_exec_file config) (jc_id config) = Some root ->
  await_root JAIL_LOOKS 0 o = Some false ->
  exists h', jail_spawn o bin config h = (h', SpawnFailed ("jailer never created jail root at " +:+ root)) /\
    jh_procs h' !! child = Some (mkJailProc 0 (jh_group h) (spawn_args bin config) None false).
Proof.
  intros H1 H2 H3 H4 H5 H6. unfold jail_spawn. rewrite H1, H2, H3, H4. cbn [fault_result mbind result_bind]. rewrite H5, H6.
  eexists. split; [done|]. apply lookup_insert_eq.
Qed.
(** [spawn] is back once the root is there, and jailer writes the pid file
    later: a [Jail] dropped in between kills nobody, and waits for as long as
    the guest runs. *)
Lemma drop_before_the_pid_file_waits jail fc vmm child h :
  jh_files h !! pid_file jail = None -> jh_procs h !! jl_child jail = Some child -> jp_ended child = false ->
  jp_runs child = Some fc -> jh_procs h !! fc = Some vmm -> jp_ended vmm = false ->
  drop_kill jail h = h /\ jail_drop jail h = None.
Proof.
  intros Hf Hc He Hr Hv Hve. unfold jail_drop, drop_kill. rewrite Hf. simpl. split; [done|].
  unfold child_ends, child_wait. rewrite Hc, Hr. cbn [mbind option_bind]. rewrite Hv, Hve, Hc. by rewrite He.
Qed.

(** ** A jail *)

Definition ex_jailer_config : JailerConfig := mkJailerConfig "run-1" "/opt/fc/firecracker" 1000 1000 "/srv/jail".
Definition ex_jail_host : JailHost := mkJailHost 40 40 1000 ∅ ∅ {[40%Z := mkJailProc 1000 40 ["test"] None false]}.
(** The root is there at the second look. *)
Definition ex_jail_outcome (there : bool) : JailOutcome :=
  mkJailOutcome None None None (Ok 41%Z) (fun i => there && (0 <? i)) 7 (fun i => 7 + 100 * N.of_nat i)%N.
(** jailer has become Firecracker, as the caller, and has said so. *)
Definition ex_exec (h : JailHost) : JailHost :=
  mkJailHost (jh_self h) (jh_group h) (jh_uid h) (jh_dirs h)
    {["/srv/jail/firecracker/run-1/root/firecracker.pid" := "42" +:+ nl]}
    (<[42%Z := mkJailProc 1000 40 ["firecracker"] None false]>
      (<[41%Z := mkJailProc 0 40 (spawn_args "/opt/fc/jailer" ex_jailer_config) (Some 42%Z) false]> (jh_procs h))).

Example ex_jail_lives :
  let '(h, r) := jail_spawn (ex_jail_outcome true) "/opt/fc/jailer" ex_jailer_config ex_jail_host in
  r = Jailed (mkJail 41 "/srv/jail/firecracker/run-1/root") /\
  (h ← jail_drop (mkJail 41 "/srv/jail/firecracker/run-1/root") (ex_exec h); Some (jp_ended <$> jh_procs h))
  = Some {[40%Z := false; 42%Z := true]}.
Proof. split; vm_compute; reflexivity. Qed.
(** Ten seconds of looks, and the child is still there. *)
Example ex_jail_never_comes :
  let '(h, r) := jail_spawn (ex_jail_outcome false) "/opt/fc/jailer" ex_jailer_config ex_jail_host in
  r = SpawnFailed "jailer never created jail root at /srv/jail/firecracker/run-1/root" /\
  (jp_ended <$> jh_procs h) = {[40%Z := false; 41%Z := false]}.
Proof. split; vm_compute; reflexivity. Qed.
Example ex_jail_texts :
  path_file_name "/opt/fc/firecracker/." = Some "firecracker" /\ path_file_name "/opt/.." = None /\
  path_file_name "/" = None /\ parse_i32 "-1" = Some (-1)%Z /\ parse_i32 "+7" = Some 7%Z /\ parse_i32 "-+7" = None /\
  parse_i32 "-2147483648" = Some (-2147483648)%Z /\ parse_i32 "2147483648" = None.
Proof. by vm_compute. Qed.
