(* ===== verification/VmLaws.v ===== *)
(** * What a VM leaves on the Node

    Theorems about the definitions of [Vm]: teardown restores the host from
    any failure point of a start, a failed wake keeps its snapshot, a park
    and a wake carry the same files, an adopted VM is torn down like one the
    agent started, and what a supervisor answers. *)

From S2P Require Import Prelude RustStr Proto Subnet Store Validate Vm.

#[local] Arguments host_id : simpl never.
#[local] Arguments jail_dir : simpl never.
#[local] Arguments cgroup_of : simpl never.
#[local] Arguments path_join : simpl never.
#[local] Arguments remove_tree : simpl never.

(** ** Paths *)

Lemma starts_with_refl p s : starts_with p (p +:+ s) = true.
Proof. apply starts_with_true. eauto. Qed.
Lemma under_refl p : under p p = true.
Proof. unfold under. by rewrite bool_decide_true. Qed.
Lemma is_empty_true s : is_empty s = true <-> s = "".
Proof. by destruct s. Qed.
Lemma path_join_slash a b : a <> "" -> path_join a b = a +:+ "/" +:+ b.
Proof. intros Ha. unfold path_join. destruct a; done. Qed.
Lemma under_child p f : p <> "" -> under p (path_join p f) = true.
Proof.
  intros Hp. unfold under. rewrite path_join_slash, <- str_app_assoc by done.
  by rewrite starts_with_refl, orb_true_r.
Qed.
Lemma path_join_nonempty a b : b <> "" -> path_join a b <> "".
Proof. intros Hb. unfold path_join. by destruct a. Qed.

Lemma under_cwd p : p <> "" -> under p "" = false.
Proof.
  intros Hp. unfold under. rewrite bool_decide_false by done. simpl.
  destruct (starts_with _ _) eqn:E; [|done].
  apply starts_with_true in E as [r Hr]. by destruct p.
Qed.
Lemma jail_dir_nonempty node a : jail_dir node (host_id a) <> "".
Proof. apply path_join_nonempty. unfold host_id. by destruct (octets a) as [[[]]]. Qed.

Lemma under_length p k : under p k = true -> String.length p <= String.length k.
Proof.
  unfold under. intros [->%bool_decide_eq_true|[r ->]%starts_with_true]%orb_true_iff; [done|].
  rewrite !str_length_app. lia.
Qed.
Lemma host_id_nonempty a : host_id a <> "".
Proof. unfold host_id. by destruct (octets a) as [[[]]]. Qed.
Lemma path_join_longer a b : b <> "" -> String.length a < String.length (path_join a b).
Proof.
  intros Hb. unfold path_join. destruct a as [|c a]; [by destruct b; simpl; [|lia]|].
  cbn [is_empty]. rewrite !str_length_app. simpl. lia.
Qed.
(** The directories all VMs share are in none of their jails. *)
Lemma jails_outside node y : under (jail_dir node (host_id y)) (jails node) = false.
Proof.
  apply not_true_is_false. intros H%under_length. unfold jail_dir in H.
  pose proof (path_join_longer (jails node) (host_id y) (host_id_nonempty y)). lia.
Qed.
Lemma jail_base_outside node y : under (jail_dir node (host_id y)) (nc_jail_base node) = false.
Proof.
  apply not_true_is_false. intros H%under_length. unfold jail_dir in H.
  pose proof (path_join_longer (jails node) (host_id y) (host_id_nonempty y)).
  pose proof (path_join_longer (nc_jail_base node) "firecracker" ltac:(done)). unfold jails in *. lia.
Qed.
Lemma parent_cgroup_apart a : cgroup_of (host_id a) <> parent_cgroup.
Proof.
  intros H%(f_equal String.length). unfold cgroup_of in H.
  pose proof (path_join_longer parent_cgroup (host_id a) (host_id_nonempty a)). lia.
Qed.

Lemma remove_tree_insert p k d dirs :
  under p k = true -> remove_tree p (<[k := d]> dirs) = remove_tree p dirs.
Proof.
  intros Hk. unfold remove_tree. rewrite map_filter_insert_False; [|simpl; congruence].
  apply map_filter_delete_not. intros; simpl. congruence.
Qed.
Lemma remove_tree_alter p k g dirs :
  under p k = true -> remove_tree p (alter g k dirs) = remove_tree p dirs.
Proof.
  intros Hk. apply map_eq. intros i. unfold remove_tree. rewrite !map_lookup_filter.
  destruct (decide (i = k)) as [->|Hne]; [|by rewrite lookup_alter_ne].
  rewrite lookup_alter_eq. destruct (dirs !! k); [|done]. simpl.
  by rewrite !option_guard_False by (simpl; congruence).
Qed.
Lemma remove_tree_lookup p k dirs :
  remove_tree p dirs = dirs -> under p k = true -> dirs !! k = None.
Proof.
  intros Hfree Hk. rewrite <- Hfree. apply map_lookup_filter_None. right.
  intros; simpl. congruence.
Qed.
Lemma remove_tree_other p k dirs : under p k = false -> remove_tree p dirs !! k = dirs !! k.
Proof.
  intros Hk. unfold remove_tree. rewrite map_lookup_filter.
  destruct (dirs !! k); [|done]. simpl. by rewrite option_guard_True.
Qed.

Lemma remove_tree_insert_other p k d dirs :
  under p k = false -> remove_tree p (<[k := d]> dirs) = <[k := d]> (remove_tree p dirs).
Proof. intros Hk. unfold remove_tree. by rewrite map_filter_insert_True. Qed.
Lemma remove_tree_idemp p dirs : remove_tree p (remove_tree p dirs) = remove_tree p dirs.
Proof. unfold remove_tree. apply map_filter_id. by intros i x [_ ?]%map_lookup_filter_Some. Qed.

(** ** Undo steps *)

Lemma remove_polled_ok attempts busy : busy <= attempts -> remove_polled attempts busy = true.
Proof. revert busy. induction attempts; destruct busy; simpl; auto with lia. Qed.

(** Whether an undo does its work, on an object that is there. *)
Definition undo_works (o : UndoOutcome) (u : Undo) : bool :=
  match uo_fault o u, u with
  | Some _, _ => false
  | None, RemoveCgroup _ => remove_polled CGROUP_POLL_ATTEMPTS (uo_busy o)
  | None, _ => true
  end.
Lemma undo_ok_works busy u : busy <= CGROUP_POLL_ATTEMPTS -> undo_works (undo_ok busy) u = true.
Proof. intros Hb. destruct u; try done. by apply remove_polled_ok. Qed.

Section undo.
Context (node : NodeConfig) (id : string) (o : UndoOutcome).
Let jd := jail_dir node id.
Let cg := cgroup_of id.

Definition own_undo (u : Undo) : Prop :=
  u = DeleteNetns id \/ u = RemoveDir jd \/ u = RemoveCgroup cg \/ u = DeleteLink id.

Definition has (u : Undo) (us : list Undo) : bool := existsb (fun v => bool_decide (v = u)) us.

(** Each object of the VM's goes exactly when its undo is on the stack and
    works. *)
Definition undone (u : Undo) (us : list Undo) : bool := has u us && undo_works o u.
Lemma run_undos_spec us h :
  Forall own_undo us ->
  (forall ps, ho_cgroups h !! cg = Some ps -> ps = ∅) ->
  run_undos o us h = {|
    ho_netns := if undone (DeleteNetns id) us then delete id (ho_netns h) else ho_netns h;
    ho_links := if undone (DeleteLink id) us then ho_links h ∖ {[id]} else ho_links h;
    ho_dirs := if undone (RemoveDir jd) us then remove_tree jd (ho_dirs h) else ho_dirs h;
    ho_cgroups := if undone (RemoveCgroup cg) us then delete cg (ho_cgroups h) else ho_cgroups h;
    ho_procs := ho_procs h;
    ho_logs := ho_logs h;
    ho_io := ho_io h |}.
Proof.
  intros Hown Hcg. induction Hown as [|u us Hu _ IH]; [by destruct h|].
  cbn [run_undos foldr]. fold (run_undos o us h). rewrite IH. clear IH. unfold undone. cbn [has existsb].
  destruct Hu as [->|[->|[->| ->]]];
    repeat (case_bool_decide; [try discriminate|try done]); cbn [orb undo_run
      ho_netns ho_links ho_dirs ho_cgroups ho_procs ho_logs]; fold (has (DeleteNetns id) us)
      (has (DeleteLink id) us) (has (RemoveDir jd) us) (has (RemoveCgroup cg) us); unfold undo_works;
    destruct (uo_fault o _) eqn:Hf; rewrite ?andb_false_r, ?andb_true_r.
  - by destruct (ho_netns h !! id).
  - destruct (has (DeleteNetns id) us); [by rewrite lookup_delete_eq|].
    destruct (ho_netns h !! id) eqn:E; [done|]. by rewrite (delete_id _ _ E).
  - done.
  - destruct (has (RemoveDir jd) us); [|done].
    unfold set_dirs; simpl. by rewrite remove_tree_idemp.
  - by destruct (ho_cgroups h !! cg).
  - cbn [andb]. destruct (remove_polled _ _) eqn:Hp; rewrite ?andb_false_r, ?andb_true_r; cbn [andb].
    + destruct (has (RemoveCgroup cg) us); [by rewrite lookup_delete_eq|].
      destruct (ho_cgroups h !! cg) as [ps|] eqn:E; [|by rewrite (delete_id _ _ E)].
      by rewrite (Hcg ps eq_refl), bool_decide_true.
    + destruct (ho_cgroups h !! cg) as [ps|] eqn:E; [|done]. by rewrite andb_false_r.
  - by case_bool_decide.
  - destruct (has (DeleteLink id) us).
    + by rewrite bool_decide_false by set_solver.
    + destruct (decide (id ∈ ho_links h)).
      * by rewrite bool_decide_true.
      * rewrite bool_decide_false by done.
        by assert (ho_links h ∖ {[id]} = ho_links h) as -> by set_solver.
Qed.
End undo.

Lemma has_spec u us : has u us = true <-> u ∈ us.
Proof.
  unfold has. rewrite existsb_exists. setoid_rewrite bool_decide_eq_true.
  setoid_rewrite <- list_elem_of_In. naive_solver.
Qed.

(** ** A VM being built *)

(** [m] run from [P] ends in [Q] when it succeeds, and in [E] when it fails. *)
Definition hoare {A} (P : Vm * Host -> Prop) (m : vmM A) (Q : A -> Vm * Host -> Prop)
    (E : Vm * Host -> Prop) : Prop :=
  forall s, P s -> match m s with (s', Ok x) => Q x s' | (s', Err _) => E s' end.

Section hoare_rules.
Context {A B : Type} (P : Vm * Host -> Prop) (E : Vm * Host -> Prop).

Lemma hoare_bind (R : A -> Vm * Host -> Prop) (Q : B -> Vm * Host -> Prop) m k :
  hoare P m R E -> (forall x, hoare (R x) (k x) Q E) -> hoare P (m ≫= k) Q E.
Proof.
  intros Hm Hk s Hs. specialize (Hm s Hs). unfold mbind, vmM_bind.
  destruct (m s) as [s' [x|e]]; [by apply Hk|done].
Qed.
Lemma hoare_ret (x : A) : hoare P (mret x) (fun y s => y = x /\ P s) E.
Proof. by intros s Hs. Qed.
Lemma hoare_throw (e : string) (Q : A -> Vm * Host -> Prop) :
  (forall s, P s -> E s) -> hoare P (vm_throw e) Q E.
Proof. intros HE s Hs. by apply HE. Qed.
Lemma hoare_try f : (forall s, P s -> E s) -> hoare P (vm_try f) (fun _ => P) E.
Proof. intros HE s Hs. unfold vm_try. destruct f; [by apply HE|done]. Qed.
Lemma hoare_vm g (Q : unit -> Vm * Host -> Prop) :
  (forall v h, P (v, h) -> Q tt (g v, h)) -> hoare P (on_vm g) Q E.
Proof. intros HQ [v h] Hs. by apply HQ. Qed.
Lemma hoare_host g (Q : unit -> Vm * Host -> Prop) :
  (forall v h, P (v, h) -> Q tt (v, g h)) -> hoare P (on_host g) Q E.
Proof. intros HQ [v h] Hs. by apply HQ. Qed.
Lemma hoare_get (g : Vm -> A) : hoare P (get_vm g) (fun x s => x = g s.1 /\ P s) E.
Proof. by intros s Hs. Qed.
Lemma hoare_pure (φ : Prop) m (Q : A -> Vm * Host -> Prop) :
  (forall s, P s -> φ) -> (φ -> hoare P m Q E) -> hoare P m Q E.
Proof. intros Hφ Hm s Hs. apply Hm; eauto. Qed.
Lemma hoare_pre (P' : Vm * Host -> Prop) m (Q : A -> Vm * Host -> Prop) :
  (forall s, P s -> P' s) -> hoare P' m Q E -> hoare P m Q E.
Proof. intros HP Hm s Hs. apply Hm; auto. Qed.
End hoare_rules.

Section building.
Context (node : NodeConfig) (a : Ipv4Addr) (log : string) (h0 : Host).
Let id := host_id a.
Let jd := jail_dir node id.
Let root := path_join jd "root".
Let cg := cgroup_of id.

(** The processes of the VM's own VMM. *)
Definition vmm_pids (v : Vm) : gset N :=
  match vm_vmm v with Some (Child p) => {[p]} | _ => ∅ end.

(** Nothing on the host has the VM's name. *)
Record id_free : Prop := {
  if_netns : ho_netns h0 !! id = None;
  if_links : id ∉ ho_links h0;
  if_dirs : remove_tree jd (ho_dirs h0) = ho_dirs h0;
  if_cgroups : ho_cgroups h0 !! cg = None;
}.

(** The kernel gives a new child a pid nothing has. *)
Definition pid_fresh (pid : N) : Prop :=
  ho_procs h0 !! pid = None /\ map_Forall (fun _ ps => pid ∉ ps) (ho_cgroups h0).

(** The host is as it was found but for objects named after the VM, each
    of which has its undo on the stack. *)
Record building (s : Vm * Host) : Prop := {
  b_own : Forall (own_undo node id) (vm_undo s.1);
  b_netns : delete id (ho_netns s.2) = ho_netns h0;
  b_netns_undo : ho_netns s.2 !! id = None \/ has (DeleteNetns id) (vm_undo s.1) = true;
  b_links : ho_links s.2 ∖ {[id]} = ho_links h0;
  b_links_undo : id ∉ ho_links s.2 \/ has (DeleteLink id) (vm_undo s.1) = true;
  b_dirs : remove_tree jd (ho_dirs s.2) = ho_dirs h0;
  b_dirs_undo : remove_tree jd (ho_dirs s.2) = ho_dirs s.2 \/
                has (RemoveDir jd) (vm_undo s.1) = true;
  b_cgroups : delete cg (ho_cgroups s.2) = ho_cgroups h0;
  b_cg_undo : ho_cgroups s.2 !! cg = None \/ has (RemoveCgroup cg) (vm_undo s.1) = true;
  b_cg_procs : forall ps, ho_cgroups s.2 !! cg = Some ps -> ps ⊆ vmm_pids s.1;
  b_procs : filter (fun p => p.1 ∉ vmm_pids s.1) (ho_procs s.2) = ho_procs h0;
  b_pids : map_Forall (fun _ ps => ps ∖ vmm_pids s.1 = ps) (ho_cgroups h0);
  b_vmm : vm_vmm s.1 = None \/ exists pid, vm_vmm s.1 = Some (Child pid);
  b_logs : delete log (ho_logs s.2) = delete log (ho_logs h0);
  b_io : ho_io s.2 = ho_io h0;
  b_log : vm_console_log s.1 = log;
}.

Lemma vmm_kill_pids v h :
  (vm_vmm v = None \/ exists pid, vm_vmm v = Some (Child pid)) ->
  match vm_vmm v with Some vmm => vmm_kill vmm h | None => h end = kill_pids (vmm_pids v) h.
Proof.
  unfold vmm_pids. intros [->|[pid ->]]; [|done]. unfold kill_pids, set_procs, set_cgroups.
  destruct h as [ns ln ds cs ps ls io]; simpl. f_equal.
  - rewrite <- (map_fmap_id cs) at 1. apply map_fmap_ext. intros. set_solver.
  - symmetry. apply map_filter_id. set_solver.
Qed.

(** What is left of a VM torn down: for each of its own objects, it is gone,
    or its own undo didn't work and only it is left; no process of its is,
    and of the logs only its console's may have changed. *)
Record restored (u : UndoOutcome) (h' : Host) : Prop := {
  rs_netns : ho_netns h' = ho_netns h0 \/
    undo_works u (DeleteNetns id) = false /\ delete id (ho_netns h') = ho_netns h0;
  rs_links : ho_links h' = ho_links h0 \/
    undo_works u (DeleteLink id) = false /\ ho_links h' ∖ {[id]} = ho_links h0;
  rs_dirs : ho_dirs h' = ho_dirs h0 \/
    undo_works u (RemoveDir jd) = false /\ remove_tree jd (ho_dirs h') = ho_dirs h0;
  rs_cgroups : ho_cgroups h' = ho_cgroups h0 \/
    undo_works u (RemoveCgroup cg) = false /\ ho_cgroups h' = <[cg := ∅]> (ho_cgroups h0);
  rs_procs : ho_procs h' = ho_procs h0;
  rs_logs : delete log (ho_logs h') = delete log (ho_logs h0);
  rs_io : ho_io h' = ho_io h0;
}.
Lemma restored_all u h' : (forall x, undo_works u x = true) -> restored u h' -> h' = set_logs (ho_logs h') h0.
Proof.
  intros Hu [[Hn|[Hn _]] [Hl|[Hl _]] [Hd|[Hd _]] [Hc|[Hc _]] Hp _ Hi]; try by rewrite Hu in *.
  destruct h', h0. simpl in *. by subst.
Qed.

Lemma teardown_restores u s : building s -> restored u (teardown u s.1 s.2).
Proof.
  intros B. unfold teardown. rewrite vmm_kill_pids by apply (b_vmm _ B).
  rewrite (run_undos_spec node id u); [|apply (b_own _ B)|].
  2: { intros ps. unfold kill_pids; simpl. fold cg. rewrite lookup_fmap.
       destruct (ho_cgroups s.2 !! cg) as [ps'|] eqn:E; [|done]. intros [= <-].
       pose proof (b_cg_procs _ B ps' E). set_solver. }
  assert (Hcg : delete cg ((fun ps => ps ∖ vmm_pids s.1) <$> ho_cgroups s.2) = ho_cgroups h0).
  { rewrite <- fmap_delete, (b_cgroups _ B). rewrite <- (map_fmap_id (ho_cgroups h0)) at 2.
    apply map_fmap_ext. intros i ps Hps. apply (b_pids _ B i ps Hps). }
  fold jd cg. unfold undone, kill_pids, set_procs, set_cgroups. split; simpl.
  - destruct (b_netns_undo _ B) as [Hn| ->].
    + left. rewrite <- (b_netns _ B), (delete_id _ _ Hn). by case_match.
    + cbn [andb]. destruct (undo_works u _); [left; apply (b_netns _ B)|right; split; [done|apply (b_netns _ B)]].
  - destruct (b_links_undo _ B) as [Hn| ->].
    + left. rewrite <- (b_links _ B). case_match; set_solver.
    + cbn [andb]. destruct (undo_works u _); [left; apply (b_links _ B)|right; split; [done|apply (b_links _ B)]].
  - destruct (b_dirs_undo _ B) as [Hn| ->].
    + left. rewrite <- (b_dirs _ B). case_match; [done|by rewrite Hn].
    + cbn [andb]. destruct (undo_works u _); [left; apply (b_dirs _ B)|right; split; [done|apply (b_dirs _ B)]].
  - destruct (ho_cgroups s.2 !! cg) as [ps|] eqn:E.
    + destruct (b_cg_undo _ B) as [|Hu]; [congruence|]. rewrite Hu. cbn [andb].
      destruct (undo_works u _); [by left|right]. split; [done|]. rewrite <- Hcg, insert_delete_eq.
      symmetry. apply insert_id. rewrite lookup_fmap, E. simpl. f_equal. pose proof (b_cg_procs _ B ps E). set_solver.
    + left. rewrite <- Hcg. case_match; [done|]. rewrite delete_id; [done|]. by rewrite lookup_fmap, E.
  - apply (b_procs _ B).
  - apply (b_logs _ B).
  - apply (b_io _ B).
Qed.
Lemma building_empty : id_free -> building (vm_empty log, h0).
Proof.
  intros F. split; unfold vmm_pids; simpl; try done.
  - apply delete_id, (if_netns F).
  - left. apply (if_netns F).
  - pose proof (if_links F). set_solver.
  - left. apply (if_links F).
  - apply (if_dirs F).
  - left. apply (if_dirs F).
  - apply delete_id, (if_cgroups F).
  - left. apply (if_cgroups F).
  - intros ps. by rewrite (if_cgroups F).
  - apply map_filter_id. set_solver.
  - intros i ps _. set_solver.
  - by left.
Qed.

Lemma root_under : under jd root = true.
Proof. apply under_child, jail_dir_nonempty. Qed.

(** Host changes to the VM's own objects keep [building]. *)
Lemma building_netns v h l :
  building (v, h) -> has (DeleteNetns id) (vm_undo v) = true ->
  building (v, set_netns (alter (fun x => x ++ l) id (ho_netns h)) h).
Proof.
  intros [] ?; split; simpl in *; try done; [|by right].
  rewrite <- b_netns0. apply map_eq. intros i. destruct (decide (i = id)) as [->|].
  - by rewrite !lookup_delete_eq.
  - by rewrite !lookup_delete_ne, lookup_alter_ne.
Qed.
Lemma building_link v h :
  building (v, h) -> has (DeleteLink id) (vm_undo v) = true ->
  building (v, set_links ({[id]} ∪ ho_links h) h).
Proof. intros [] ?; split; simpl in *; try done; [set_solver|by right]. Qed.
Lemma building_dirs v h dirs :
  building (v, h) -> has (RemoveDir jd) (vm_undo v) = true ->
  remove_tree jd dirs = remove_tree jd (ho_dirs h) ->
  building (v, set_dirs dirs h).
Proof. intros [] ? Heq; split; simpl in *; try done; [by rewrite Heq|by right]. Qed.
Lemma building_cgroup v h pid :
  building (v, h) -> has (RemoveCgroup cg) (vm_undo v) = true -> vm_vmm v = Some (Child pid) ->
  building (v, with_cgroup cg pid h).
Proof.
  intros [] ? Hv; split; simpl in *; try done; [by rewrite delete_insert_eq|by right|].
  intros ps. rewrite lookup_insert_eq. intros [= <-]. unfold vmm_pids in *; simpl in *.
  rewrite Hv in *. destruct (ho_cgroups h !! cg) as [ps|] eqn:E; simpl; [|set_solver].
  specialize (b_cg_procs0 ps eq_refl). set_solver.
Qed.
Lemma building_console v h append_ :
  building (v, h) -> building (v, open_console append_ log h).
Proof. intros []; split; simpl in *; try done. by rewrite delete_insert_eq. Qed.
Lemma building_proc v h pid st :
  building (v, h) -> vm_vmm v = Some (Child pid) ->
  building (v, set_procs (<[pid := st]> (ho_procs h)) h).
Proof.
  intros [] Hv; split; simpl in *; try done. unfold vmm_pids in *; simpl in *. rewrite Hv in *.
  rewrite <- b_procs0. rewrite map_filter_insert_False by set_solver.
  apply map_filter_delete_not. set_solver.
Qed.
Lemma building_kill v h pid :
  building (v, h) -> vm_vmm v = Some (Child pid) -> building (v, kill_pids {[pid]} h).
Proof.
  intros [] Hv; split; simpl in *; try done; unfold vmm_pids in *; simpl in *; rewrite Hv in *.
  - rewrite <- fmap_delete, b_cgroups0. rewrite <- (map_fmap_id (ho_cgroups h0)) at 2.
    apply map_fmap_ext. intros i ps Hps. apply (b_pids0 i ps Hps).
  - rewrite lookup_fmap. destruct b_cg_undo0 as [->|]; [by left|by right].
  - intros ps. rewrite lookup_fmap. destruct (ho_cgroups h !! cg) as [ps'|] eqn:E; [|done].
    intros [= <-]. specialize (b_cg_procs0 ps' eq_refl). set_solver.
  - rewrite <- b_procs0. rewrite map_filter_filter_l; [done|]. set_solver.
Qed.

(** So do the changes to the VM itself. *)
Lemma has_app_true u us us' : has u us = true -> has u (us ++ us') = true.
Proof. unfold has. rewrite existsb_app. by intros ->. Qed.
Lemma building_push v h u :
  building (v, h) -> own_undo node id u -> building (set_undo (vm_undo v ++ [u]) v, h).
Proof.
  intros [] Hu; split; simpl in *; try done; try (by apply Forall_app_2; [|constructor]);
    match goal with H : ?a \/ _ |- ?a \/ _ => destruct H; [by left|right; by apply has_app_true] end.
Qed.
Lemma building_vmm v h pid :
  building (v, h) -> vm_vmm v = None -> pid_fresh pid ->
  building (set_vmm (Some (Child pid)) v, h).
Proof.
  intros [] Hv [Hp Hc]; split; simpl in *; try done; unfold vmm_pids in *; simpl in *;
    rewrite Hv in *.
  - intros ps Hps. specialize (b_cg_procs0 ps Hps). set_solver.
  - rewrite <- b_procs0 in Hp |- *. rewrite map_filter_id in Hp by set_solver.
    rewrite (map_filter_id (fun p => p.1 ∉ ∅)) by set_solver.
    apply map_filter_id. intros i x Hi. simpl. intros ->%elem_of_singleton. congruence.
  - intros i ps Hps. specialize (Hc i ps Hps). simpl in Hc. set_solver.
  - eauto.
Qed.
Lemma building_other v v' h :
  building (v, h) -> vm_undo v' = vm_undo v -> vm_vmm v' = vm_vmm v ->
  vm_console_log v' = vm_console_log v -> building (v', h).
Proof. intros [] Hu Hv Hl; split; simpl in *; unfold vmm_pids in *; simpl in *;
  by rewrite ?Hu, ?Hv, ?Hl. Qed.
End building.

(** ** What all VMs share

    The directories jails are in and the cgroup VMs' cgroups are in are made
    by the first start that gets there and removed by an agent that shuts
    down, not by any VM's undo. *)
Record prepared (node : NodeConfig) (h h' : Host) : Prop := {
  pr_netns : ho_netns h' = ho_netns h;
  pr_links : ho_links h' = ho_links h;
  pr_dirs : forall d, ho_dirs h' !! d = ho_dirs h !! d \/
    (d = nc_jail_base node \/ d = jails node) /\ ho_dirs h !! d = None /\ ho_dirs h' !! d = Some ∅;
  pr_cgroups : forall c, ho_cgroups h' !! c = ho_cgroups h !! c \/
    c = parent_cgroup /\ ho_cgroups h !! c = None /\ ho_cgroups h' !! c = Some ∅;
  pr_procs : ho_procs h' = ho_procs h;
  pr_logs : ho_logs h' = ho_logs h;
  pr_io : ho_io h = true -> ho_io h' = true;
}.
#[export] Instance prepared_preorder node : PreOrder (prepared node).
Proof.
  split.
  - intros h. split; auto.
  - intros h1 h2 h3 [] []. split; try congruence; [| |auto].
    + intros d. destruct (pr_dirs0 d) as [E|(? & ? & E)], (pr_dirs1 d) as [E'|(? & ? & E')];
        rewrite ?E' in *; rewrite ?E in *; auto; by try congruence.
    + intros c. destruct (pr_cgroups0 c) as [E|(? & ? & E)], (pr_cgroups1 c) as [E'|(? & ? & E')];
        rewrite ?E' in *; rewrite ?E in *; auto; by try congruence.
Qed.
Lemma prepared_dir node d h : d = nc_jail_base node \/ d = jails node -> prepared node h (with_dir d h).
Proof.
  intros Hd. unfold with_dir. destruct (ho_dirs h !! d) eqn:E; [done|]. split; simpl; auto.
  intros k. destruct (decide (k = d)) as [->|]; [|left; by rewrite lookup_insert_ne].
  right. by rewrite lookup_insert_eq.
Qed.
Lemma prepared_parent node h : prepared node h (with_parent_cgroup h).
Proof.
  unfold with_parent_cgroup. destruct (ho_cgroups h !! parent_cgroup) eqn:E; [done|]. split; simpl; auto.
  intros k. destruct (decide (k = parent_cgroup)) as [->|]; [|left; by rewrite lookup_insert_ne].
  right. by rewrite lookup_insert_eq.
Qed.
Lemma prepared_io node f h : prepared node h (enable_io_accounting f h).
Proof.
  destruct f as [[|] [|]]; cbn [enable_io_accounting]; try done; [apply prepared_parent|].
  etrans; [apply prepared_parent|]. split; simpl; auto.
Qed.
Lemma prepared_pid_fresh node h h' pid : prepared node h h' -> pid_fresh h pid -> pid_fresh h' pid.
Proof.
  intros [] [Hp Hc]. split; [by rewrite pr_procs0|]. intros c ps Hps.
  destruct (pr_cgroups0 c) as [E|(_ & _ & E)]; rewrite E in Hps; [by apply (Hc c ps)|].
  injection Hps as <-. set_solver.
Qed.

(** Each adds the same to a host where a VM is being built. *)
Section shared.
Context (node : NodeConfig) (a : Ipv4Addr) (log : string) (h1 : Host).
Lemma building_shared_dir d v h :
  under (jail_dir node (host_id a)) d = false ->
  building node a log h1 (v, h) -> building node a log (with_dir d h1) (v, with_dir d h).
Proof.
  intros Hd B. assert (Hsame : ho_dirs h !! d = ho_dirs h1 !! d).
  { rewrite <- (b_dirs _ _ _ _ _ B). symmetry. by apply remove_tree_other. }
  unfold with_dir. rewrite Hsame. destruct (ho_dirs h1 !! d); [done|].
  destruct B; split; simpl in *; try done.
  - rewrite remove_tree_insert_other by done. by rewrite b_dirs0.
  - destruct b_dirs_undo0 as [E|]; [left|by right]. rewrite remove_tree_insert_other by done. by rewrite E.
Qed.
Lemma building_shared_cgroup v h :
  building node a log h1 (v, h) -> building node a log (with_parent_cgroup h1) (v, with_parent_cgroup h).
Proof.
  intros B. pose proof (parent_cgroup_apart a) as Hne.
  assert (Hsame : ho_cgroups h !! parent_cgroup = ho_cgroups h1 !! parent_cgroup).
  { rewrite <- (b_cgroups _ _ _ _ _ B). simpl. by rewrite lookup_delete_ne. }
  unfold with_parent_cgroup. rewrite Hsame. destruct (ho_cgroups h1 !! parent_cgroup); [done|].
  destruct B; split; simpl in *; try done.
  - by rewrite delete_insert_ne, b_cgroups0.
  - by rewrite lookup_insert_ne.
  - by rewrite lookup_insert_ne.
  - intros c ps [[_ <-]|[_ Hps]]%lookup_insert_Some; [set_solver|by apply (b_pids0 c ps)].
Qed.
Lemma building_shared_io f v h :
  building node a log h1 (v, h) -> building node a log (enable_io_accounting f h1) (v, enable_io_accounting f h).
Proof.
  intros B. destruct f as [[|] [|]]; cbn [enable_io_accounting]; try done; [by apply building_shared_cgroup|].
  apply building_shared_cgroup in B. by destruct B; split.
Qed.
End shared.

(** Being built on a host where only what is shared was made since [h0]. *)
Definition built (node : NodeConfig) (a : Ipv4Addr) (log : string) (h0 : Host) (s : Vm * Host) : Prop :=
  exists h1, prepared node h0 h1 /\ building node a log h1 s.
Section built.
Context (node : NodeConfig) (a : Ipv4Addr) (log : string) (h0 : Host).
Lemma built_dir d v h :
  d = nc_jail_base node \/ d = jails node ->
  built node a log h0 (v, h) -> built node a log h0 (v, with_dir d h).
Proof.
  intros Hd (h1 & Hp & B). exists (with_dir d h1). split; [by etrans; [|apply prepared_dir]|].
  apply building_shared_dir; [|done]. destruct Hd as [->| ->]; [apply jail_base_outside|apply jails_outside].
Qed.
Lemma built_parent v h : built node a log h0 (v, h) -> built node a log h0 (v, with_parent_cgroup h).
Proof.
  intros (h1 & Hp & B). exists (with_parent_cgroup h1). split; [by etrans; [|apply prepared_parent]|].
  by apply building_shared_cgroup.
Qed.
Lemma built_io f v h : built node a log h0 (v, h) -> built node a log h0 (v, enable_io_accounting f h).
Proof.
  intros (h1 & Hp & B). exists (enable_io_accounting f h1). split; [by etrans; [|apply prepared_io]|].
  by apply building_shared_io.
Qed.
End built.

(** Steps 1-4 from a host with nothing of the VM's name. *)
Section host_steps.
Context (node : NodeConfig) (a : Ipv4Addr) (log : string) (h0 : Host) (o : HostOutcome).
Let id := host_id a.
Let jd := jail_dir node id.
Let root := path_join jd "root".
Let cg := cgroup_of id.
Context (Hfree : id_free node a h0).
Context (Hspawn : forall args pid st, hf_spawn o args = Ok (pid, st) -> pid_fresh h0 pid).

Definition clean (s : Vm * Host) : Prop :=
  ho_dirs s.2 !! root = None \/ ho_dirs s.2 !! root = Some ∅.
Definition at_ (us : list Undo) (vmm : option Vmm) (jr : string) (s : Vm * Host) : Prop :=
  built node a log h0 s /\ clean s /\
  vm_undo s.1 = us /\ vm_vmm s.1 = vmm /\ vm_jail_root s.1 = jr.
Definition stuck (s : Vm * Host) : Prop :=
  built node a log h0 s /\ clean s /\ (vm_jail_root s.1 = "" \/ vm_jail_root s.1 = root).

Lemma at_stuck us vmm jr s : jr = "" \/ jr = root -> at_ us vmm jr s -> stuck s.
Proof. intros Hjr (? & ? & _ & _ & Hr). unfold stuck. rewrite Hr. split_and!; auto. Qed.

Lemma step_try us vmm jr f :
  jr = "" \/ jr = root -> hoare (at_ us vmm jr) (vm_try f) (fun _ => at_ us vmm jr) stuck.
Proof. intros. apply hoare_try. intros s. by apply at_stuck. Qed.

Lemma step_throw {A} us vmm jr e (Q : A -> Vm * Host -> Prop) :
  jr = "" \/ jr = root -> hoare (at_ us vmm jr) (vm_throw e) Q stuck.
Proof. intros Hjr s Hs. by apply (at_stuck us vmm jr). Qed.
Lemma step_throw_bind {A B} us vmm jr e (k : A -> vmM B) Q :
  jr = "" \/ jr = root -> hoare (at_ us vmm jr) (vm_throw e ≫= k) Q stuck.
Proof. intros Hjr s Hs. by apply (at_stuck us vmm jr). Qed.

Lemma step_push us vmm jr u :
  own_undo node id u ->
  hoare (at_ us vmm jr) (push_undo u) (fun _ => at_ (us ++ [u]) vmm jr) stuck.
Proof.
  intros Hu. apply hoare_vm. intros v h (B & C & Hus & Hv & Hj). simpl in *.
  split_and!; simpl; [|done|by rewrite Hus|done|done]. destruct B as (h1 & Hp & B). exists h1.
  split; [done|by apply building_push].
Qed.

Lemma step_vm us vmm jr jr' g :
  (forall v, vm_undo (g v) = vm_undo v /\ vm_vmm (g v) = vm_vmm v /\
     vm_console_log (g v) = vm_console_log v) ->
  (forall v, vm_jail_root v = jr -> vm_jail_root (g v) = jr') ->
  hoare (at_ us vmm jr) (on_vm g) (fun _ => at_ us vmm jr') stuck.
Proof.
  intros Hg Hj. apply hoare_vm. intros v h (B & C & Hus & Hv & Hr). simpl in *.
  destruct (Hg v) as (? & ? & ?). split_and!; simpl; try congruence; [|done|by apply Hj].
  destruct B as (h1 & Hp & B). exists h1. split; [done|]. by apply (building_other _ _ _ _ v).
Qed.

Lemma step_host us vmm jr g :
  (forall v h, built node a log h0 (v, h) -> vm_undo v = us -> vm_vmm v = vmm ->
     built node a log h0 (v, g h)) ->
  (forall h, clean (vm_empty log, h) -> clean (vm_empty log, g h)) ->
  hoare (at_ us vmm jr) (on_host g) (fun _ => at_ us vmm jr) stuck.
Proof.
  intros Hg Hc. apply hoare_host. intros v h (B & C & Hus & Hv & Hr). simpl in *.
  split_and!; simpl; auto. by apply Hc.
Qed.

Lemma clean_same h dirs' h' :
  ho_dirs h' = dirs' -> dirs' = ho_dirs h -> clean (vm_empty log, h) -> clean (vm_empty log, h').
Proof. unfold clean; simpl. by intros -> ->. Qed.

Lemma clean_with_dir d h : clean (vm_empty log, h) -> clean (vm_empty log, with_dir d h).
Proof.
  intros C. destruct (decide (d = root)) as [->|Hne].
  2: { unfold clean, with_dir in *; simpl in *. destruct (ho_dirs h !! d); [done|]. simpl. by rewrite lookup_insert_ne. }
  revert C.
  unfold clean, with_dir; simpl. destruct (ho_dirs h !! root) eqn:E; [by rewrite E|].
  simpl. rewrite lookup_insert_eq. by right.
Qed.
Lemma clean_with_parent h : clean (vm_empty log, h) -> clean (vm_empty log, with_parent_cgroup h).
Proof. unfold clean, with_parent_cgroup. by case_match. Qed.
Lemma clean_io f h : clean (vm_empty log, h) -> clean (vm_empty log, enable_io_accounting f h).
Proof. destruct f as [[|] [|]]; try done; apply clean_with_parent. Qed.
Lemma built_with_jail v h :
  built node a log h0 (v, h) -> has (RemoveDir jd) (vm_undo v) = true ->
  built node a log h0 (v, with_jail node root h).
Proof.
  intros B Hu. apply (built_dir _ _ _ _ (jails node)) in B; [|by right]. destruct B as (h1 & Hp & B).
  exists h1. split; [done|]. unfold with_jail, with_dir at 1. destruct (ho_dirs (with_dir _ h) !! root); [done|].
  apply building_dirs; [done|done|]. apply remove_tree_insert, root_under.
Qed.
Lemma built_with_vm_cgroup v h pid :
  built node a log h0 (v, h) -> has (RemoveCgroup cg) (vm_undo v) = true -> vm_vmm v = Some (Child pid) ->
  built node a log h0 (v, with_vm_cgroup id pid h).
Proof.
  intros (h1 & Hp & B)%built_parent Hu Hv. exists h1. split; [done|]. by apply building_cgroup.
Qed.

(** Step 1: the namespace and its undo, as one. *)
Lemma step_netns (k : unit -> vmM N) Q :
  (forall x, hoare (at_ [DeleteNetns id] None "") (k x) Q stuck) ->
  hoare (at_ [] None "")
    (_ ← on_host (fun h => set_netns (<[id := []]> (ho_netns h)) h);
     x ← push_undo (undo_netns id); k x) Q stuck.
Proof.
  intros Hk [v h] (B & C & Hus & Hv & Hr). apply Hk. simpl in *.
  split_and!; simpl; [|done|by rewrite Hus|done|done].
  destruct B as (h1 & Hp & B). exists h1. split; [done|]. destruct B; split; simpl in *; try done.
  - apply Forall_app_2; [done|]. constructor; [by left|constructor].
  - by rewrite delete_insert_eq.
  - right. rewrite Hus. apply has_spec, list_elem_of_here.
  - destruct b_links_undo0 as [|Hh]; [by left|]. by rewrite Hus in Hh.
  - destruct b_dirs_undo0 as [|Hh]; [by left|]. by rewrite Hus in Hh.
  - destruct b_cg_undo0 as [|Hh]; [by left|]. by rewrite Hus in Hh.
Qed.

(** Step 2's spawn. *)
Lemma step_vmm us jr pid :
  pid_fresh h0 pid ->
  hoare (at_ us None jr) (on_vm (set_vmm (Some (Child pid))))
    (fun _ => at_ us (Some (Child pid)) jr) stuck.
Proof.
  intros Hp. apply hoare_vm. intros v h (B & C & Hus & Hv & Hr). simpl in *.
  split_and!; simpl; try done. destruct B as (h1 & Hpr & B). exists h1. split; [done|].
  apply building_vmm; [done..|]. by eapply prepared_pid_fresh.
Qed.
Lemma step_spawned us pid st :
  has (RemoveDir jd) us = true -> has (RemoveCgroup cg) us = true ->
  hoare (at_ us (Some (Child pid)) root)
    (on_host (fun h =>
      let h := if (hf_jailer o).1 then with_jail node root h else h in
      match st with
      | None => h
      | Some st =>
          let h := set_procs (<[pid := st]> (ho_procs h)) h in
          if (hf_jailer o).2 then with_vm_cgroup id pid h else h
      end)) (fun _ => at_ us (Some (Child pid)) root) stuck.
Proof.
  intros Hd Hc. apply step_host.
  - intros v h B Hus Hv. cbn zeta.
    assert (built node a log h0
      (v, if (hf_jailer o).1 then with_jail node root h else h)) as B1.
    { destruct (hf_jailer o).1; [|done]. apply built_with_jail; [done|by rewrite Hus]. }
    destruct st as [st|]; [|done].
    destruct B1 as (h1 & Hp & B1). apply (building_proc _ _ _ _ _ _ pid st) in B1; [|done].
    pose proof (ex_intro _ h1 (conj Hp B1) : built _ _ _ _ _) as B2.
    destruct (hf_jailer o).2; [apply built_with_vm_cgroup; [|by rewrite Hus|done]|]; done.
  - intros h C.
    assert (clean (vm_empty log, if (hf_jailer o).1 then with_jail node root h else h)) as C1
      by (destruct (hf_jailer o).1; [by apply clean_with_dir, clean_with_dir|done]).
    cbn zeta. destruct st; [|done]. destruct (hf_jailer o).2; [by apply clean_with_parent|done].
Qed.

Lemma step_in_ns us vmm jr l :
  has (DeleteNetns id) us = true ->
  hoare (at_ us vmm jr) (on_host (in_ns id l)) (fun _ => at_ us vmm jr) stuck.
Proof.
  intros Hu. apply step_host; [|done]. intros v h (h1 & Hp & B) Hus _. exists h1. split; [done|].
  apply building_netns; [done|by rewrite Hus].
Qed.

Lemma step_link us vmm jr (l : list string) :
  has (DeleteLink id) us = true ->
  hoare (at_ us vmm jr)
    (on_host (fun h => if l is _ :: _ then set_links ({[id]} ∪ ho_links h) h else h))
    (fun _ => at_ us vmm jr) stuck.
Proof.
  intros Hu. apply step_host; [|by destruct l]. intros v h (h1 & Hp & B) Hus _. exists h1. split; [done|].
  destruct l; [done|]. apply building_link; [done|by rewrite Hus].
Qed.
Lemma step_appeared us pid :
  has (RemoveDir jd) us = true -> has (RemoveCgroup cg) us = true ->
  hoare (at_ us (Some (Child pid)) root)
    (on_host (fun h => with_vm_cgroup id pid (with_jail node root h)))
    (fun _ s => at_ us (Some (Child pid)) root s /\ ho_dirs s.2 !! root = Some ∅) stuck.
Proof.
  intros Hd Hc. apply hoare_host. intros v h (B & C & Hus & Hv & Hr). simpl in *.
  assert (ho_dirs (with_vm_cgroup id pid (with_jail node root h)) !! root = Some ∅) as Hroot.
  { apply (clean_with_dir (jails node)) in C. unfold with_vm_cgroup, with_parent_cgroup.
    assert (ho_dirs (with_jail node root h) !! root = Some ∅) as E.
    { unfold with_jail, with_dir at 1. destruct C as [C|C]; simpl in C; rewrite C; [|done]. simpl.
      by rewrite lookup_insert_eq. }
    by case_match. }
  split; [|done]. split_and!; simpl; [|by right|done..].
  apply built_with_vm_cgroup; [|by rewrite Hus|done].
  apply built_with_jail; [done|by rewrite Hus].
Qed.

(** What steps 1-4 end with: a VM with every undo on its stack and an empty
    jail, or a state [teardown_restores] applies to. *)
Lemma host_steps_hoare mem_mib vcpus append_console :
  hoare (fun s => s = (vm_empty log, h0)) (host_steps o node a mem_mib vcpus append_console)
    (fun uid s => uid = vm_uid a /\ ho_dirs s.2 !! root = Some ∅ /\
       exists pid, at_ (undo_steps node id) (Some (Child pid)) root s) stuck.
Proof.
  apply (hoare_pre _ _ (at_ [] None "")).
  { intros s ->. split_and!; simpl; [exists h0; split; [done|by apply building_empty]| |done..]. left.
      apply (remove_tree_lookup jd); [apply (if_dirs _ _ _ Hfree)|apply root_under]. }
  unfold host_steps. fold id jd root cg.
  eapply hoare_bind; [apply step_try; by left|intros ?]. apply step_netns. intros ?.
  eapply hoare_bind; [apply step_host; [intros; by apply built_io|apply clean_io]|intros ?].
  eapply hoare_bind; [by apply (step_vm _ _ _ root)|intros ?].
  eapply hoare_bind; [apply step_push; right; by left|intros ?].
  eapply hoare_bind; [apply step_push; right; right; by left|intros ?].
  set (us := ([_] ++ [_]) ++ [_]).
  assert (has (DeleteNetns id) us = true /\ has (RemoveDir jd) us = true /\
          has (RemoveCgroup cg) us = true) as (Hn & Hd & Hc)
    by (rewrite !has_spec; unfold us; rewrite !elem_of_app, !list_elem_of_singleton; auto).
  eapply hoare_bind; [apply step_try; by right|intros ?].
  eapply hoare_bind; [apply step_host; [intros; apply built_dir; [by left|done]|apply clean_with_dir]|intros ?].
  eapply hoare_bind; [apply hoare_get|intros lg].
  apply (hoare_pure _ _ (lg = log)); [intros s [-> [(h1 & _ & B) _]]; apply (b_log _ _ _ _ _ B)|intros ->].
  apply (hoare_pre _ _ (at_ us None root)); [by intros s [_ ?]|].
  eapply hoare_bind; [apply step_try; by right|intros ?].
  eapply hoare_bind; [apply step_host; [|done]|intros ?].
  { intros v h (h1 & Hp & B) _ _. exists h1. split; [done|by apply building_console]. }
  eapply hoare_bind; [apply step_try; by right|intros ?].
  eapply hoare_bind; [apply step_try; by right|intros ?].
  destruct (hf_spawn o _) as [[pid st]|e] eqn:Hsp;
    [|by apply step_throw_bind; right].
  eapply hoare_bind; [apply hoare_ret|intros [pid' st']].
  apply (hoare_pure _ _ ((pid', st') = (pid, st))); [by intros s [? _]|intros [= -> ->]].
  apply (hoare_pre _ _ (at_ us None root)); [by intros s [_ ?]|].
  eapply hoare_bind; [by apply (step_vm _ _ _ root)|intros ?].
  eapply hoare_bind; [apply step_vmm, (Hspawn _ _ _ Hsp)|intros ?].
  eapply hoare_bind; [exact (step_spawned us pid st Hd Hc)|intros ?].
  destruct st as [st|];
    [|by apply step_throw_bind; right].
  eapply hoare_bind; [apply hoare_ret|intros ?].
  apply (hoare_pre _ _ (at_ us (Some (Child pid)) root)); [by intros s [_ ?]|].
  eapply hoare_bind; [apply step_push; by do 3 right|intros ?].
  assert (has (DeleteLink id) (us ++ [undo_link id]) = true) as Hl
    by apply has_spec, elem_of_app, or_intror, list_elem_of_here.
  apply (has_app_true _ _ [undo_link id]) in Hn, Hd, Hc.
  eapply hoare_bind; [by apply step_link|intros ?].
  eapply hoare_bind; [apply step_try; by right|intros ?].
  eapply hoare_bind; [by apply step_in_ns|intros ?].
  eapply hoare_bind; [apply step_try; by right|intros ?].
  eapply hoare_bind; [apply step_try; by right|intros ?].
  eapply hoare_bind; [by apply step_in_ns|intros ?].
  eapply hoare_bind; [apply step_try; by right|intros ?].
  eapply hoare_bind; [by apply step_in_ns|intros ?].
  eapply hoare_bind; [by apply (step_vm _ _ _ root)|intros ?].
  destruct (wait_socket (hf_socket o)).
  - eapply hoare_bind; [by apply step_appeared|intros ?].
    intros s [Hs Hroot]. split_and!; [done..|]. by exists pid.
  - eapply hoare_bind; [|by intros ?; apply step_throw; right].
    apply step_host; [|done]. intros v h (h1 & Hp & B) _ Hv. exists h1. split; [done|by apply building_kill].
  - by apply step_throw; right.
Qed.
End host_steps.

(** ** Starting *)

Section start.
Context (node : NodeConfig) (spec : VmSpec) (h0 : Host) (o : StartOutcome).
Let a := sp_vm_address spec.
Let log := sp_console_log spec.
Let id := host_id a.
Let jd := jail_dir node id.
Let root := path_join jd "root".
Context (Hfree : id_free node a h0).
Context (Hspawn : forall args pid st, hf_spawn (sf_host o) args = Ok (pid, st) -> pid_fresh h0 pid).

(** From the jail on, with every undo on the stack. *)
Definition jailed (s : Vm * Host) : Prop :=
  built node a log h0 s /\ vm_undo s.1 = undo_steps node id /\ vm_jail_root s.1 = root /\
  exists pid, vm_vmm s.1 = Some (Child pid).

Lemma jailed_put file contents :
  hoare jailed (on_host (put_file root file contents)) (fun _ => jailed) (built node a log h0).
Proof.
  apply hoare_host. intros v h ((h1 & Hp & B) & Hu & Hr & Hv). split_and!; try done. exists h1. split; [done|].
  apply building_dirs; [done| |apply remove_tree_alter, root_under].
  simpl in Hu. rewrite Hu. apply has_spec. unfold undo_steps, undo_jail_dir.
  rewrite !elem_of_cons. auto.
Qed.
Lemma jailed_try f : hoare jailed (vm_try f) (fun _ => jailed) (built node a log h0).
Proof. apply hoare_try. by intros s [? _]. Qed.
Lemma jailed_exited e :
  hoare jailed (v ← get_vm Datatypes.id; _ ← on_host (fun h => vmm_exited h v); vm_throw e)
    (fun _ : unit => jailed) (built node a log h0).
Proof.
  intros [v h] ((h1 & Hp & B) & Hu & Hr & pid & Hv). simpl in *. unfold vmm_exited. rewrite Hv. simpl.
  exists h1. split; [done|]. by apply building_kill.
Qed.

Lemma start_steps_hoare :
  hoare (fun s => s = (vm_empty log, h0)) (start_steps o node spec)
    (fun _ => jailed) (built node a log h0).
Proof.
  unfold start_steps. eapply hoare_bind.
  { intros s Hs. pose proof (host_steps_hoare node a log h0 (sf_host o) Hfree Hspawn
      (sp_mem_mib spec) (sp_vcpus spec) false s Hs) as H.
    destruct (host_steps _ _ _ _ _ _ s) as [s' [uid|e]]; [|by destruct H].
    destruct H as (_ & _ & pid & B & _ & Hu & Hv & Hr).
    instantiate (1 := fun _ => jailed). split_and!; eauto. }
  intros ?. eapply hoare_bind; [apply hoare_get|intros r].
  apply (hoare_pure _ _ (r = root)); [by intros s [-> (_ & _ & -> & _)]|intros ->].
  apply (hoare_pre _ _ jailed); [by intros s [_ ?]|].
  do 2 (eapply hoare_bind; [apply jailed_try|intros ?]; eapply hoare_bind; [apply jailed_put|intros ?]).
  eapply hoare_bind; [apply jailed_try|intros ?]; eapply hoare_bind; [apply jailed_put|intros ?].
  do 4 (eapply hoare_bind; [apply jailed_try|intros ?]).
  destruct (deliver_config _ _).
  - destruct (sf_grace o); [apply jailed_exited|]. by intros s Hs.
  - apply jailed_exited.
  - apply hoare_throw. by intros s [? _].
Qed.
End start.

(** A pid the kernel can give a new child. *)
Definition spawn_fresh (h : Host) (o : HostOutcome) : Prop :=
  forall args pid st, hf_spawn o args = Ok (pid, st) -> pid_fresh h pid.

(** [id_free] by computation. *)
Lemma id_free_check node a h :
  bool_decide (ho_netns h !! host_id a = None) && bool_decide (host_id a ∉ ho_links h)
    && forallb (fun k => negb (under (jail_dir node (host_id a)) k)) (map_to_list (ho_dirs h)).*1
    && bool_decide (ho_cgroups h !! cgroup_of (host_id a) = None) = true ->
  id_free node a h.
Proof.
  rewrite !andb_true_iff, !bool_decide_eq_true, forallb_forall. intros [[[? ?] Hd] ?].
  split; try done. apply map_filter_id. intros k d Hk. simpl.
  apply negb_true_iff, Hd, list_elem_of_In, list_elem_of_fmap.
  exists (k, d). split; [done|]. by apply elem_of_map_to_list.
Qed.

(** C12: A start that fails leaves the Node as it found it, wherever it
    failed, apart from the console log it opened and what all VMs share: the
    jails' two directories and the VMs' parent cgroup, with its io
    controller, which the first start makes and an agent that shuts down
    removes ([h1]). Whatever the clean-up's own commands answer: each of the
    VM's namespace, link, jail directory and cgroup is gone unless its own
    undo failed, and then only it is left, the cgroup empty; no process of
    the VM's is left; and nothing of any other VM changed. When every undo
    works the Node is [h1] but for that log. The address's host objects must
    be free before, and the kernel gives the VMM a process id nothing has. *)
Theorem failed_start_restores_node node spec h o u h' e :
  id_free node (sp_vm_address spec) h -> spawn_fresh h (sf_host o) ->
  vm_start o u node spec h = (h', Err e) ->
  exists h1, prepared node h h1 /\ restored node (sp_vm_address spec) (sp_console_log spec) h1 u h' /\
    ((forall x, undo_works u x = true) -> h' = set_logs (ho_logs h') h1).
Proof.
  intros Hfree Hspawn. unfold vm_start.
  pose proof (start_steps_hoare node spec h o Hfree Hspawn _ eq_refl) as H.
  destruct (start_steps o node spec _) as [[v h2] [x|e']]; [done|]. intros [= <- <-].
  destruct H as (h1 & Hp & B). pose proof (teardown_restores _ _ _ _ u _ B) as Ht.
  exists h1. split_and!; [done..|]. intros Hu. by eapply restored_all.
Qed.

Definition example_node : NodeConfig :=
  mkNodeConfig "/fc" "/jailer" "/vmlinux" "/var/lib/cirro/jail" (ipv4_new 10 77 0 1) 990.
Definition example_guest : GuestConfig := mkGuestConfig "/bin/app" [] [] None None.
Definition example_spec : VmSpec :=
  mkVmSpec (ipv4_new 10 77 0 2) "/home/u/rootfs.ext4" "rootfs bytes" 512 2 example_guest
    "/var/lib/cirro/logs/web.0.log".
Definition example_host : Host :=
  mkHost {[ "cirro-0003" := [] ]} {[ "cirro-0003" ]} ∅ ∅ {[ 7%N := 70%N ]} ∅ false.
(** Every step up to the API socket works, but for the ruleset when [nft] says so. *)
Definition example_steps (nft : fault) : HostOutcome :=
  mkHostOutcome None (None, None) None None None None (fun _ => Ok (4242%N, Some 99%N)) (true, true)
    (mkBatch 0 None) (mkBatch 0 None) None nft [mkSocketPoll true None] None.
Definition example_start (nft : fault) : StartOutcome :=
  mkStartOutcome (example_steps nft) None None None None None None None None
    [(None, mkHandshake None None (Some (Ok "OK 52")) None None)] None None.

Lemma example_free : id_free example_node (ipv4_new 10 77 0 2) example_host.
Proof. apply id_free_check. by vm_compute. Qed.
Lemma example_fresh nft : spawn_fresh example_host (example_steps nft).
Proof. intros args pid st [= <- <-]. split; [by vm_compute|apply map_Forall_empty]. Qed.

(** The namespace can't be deleted. *)
Definition netns_stays : UndoOutcome :=
  mkUndoOutcome (fun u => match u with DeleteNetns _ => Some "ip netns delete failed" | _ => None end) 3 None.
Lemma failed_start_restores_node_witness :
  exists h' h1, (vm_start (example_start (Some "nft: no such file")) netns_stays example_node
                example_spec example_host).1 = h' /\
    ho_netns h' <> ho_netns h1 /\ ho_links h' = ho_links example_host /\ ho_procs h' = ho_procs example_host.
Proof.
  destruct (failed_start_restores_node example_node example_spec example_host
    (example_start (Some "nft: no such file")) netns_stays _ "nft: no such file"
    example_free (example_fresh _) ltac:(vm_compute; reflexivity)) as (h1 & Hp & Hr & _).
  eexists _, h1. split; [reflexivity|]. split_and!.
  - rewrite (pr_netns _ _ _ Hp). intros H. apply (f_equal (lookup "cirro-0002")) in H. by vm_compute in H.
  - vm_compute. reflexivity.
  - etrans; [apply (rs_procs _ _ _ _ _ _ Hr)|apply (pr_procs _ _ _ Hp)].
Defined.

(** ** Moving files *)

(** A rename between two directories, on their contents alone. *)
Definition mv (f : fault) (source dest : string) (d : gmap string string * gmap string string)
    : gmap string string * gmap string string :=
  match f, d.1 !! source with
  | None, Some c => (delete source d.1, <[dest := c]> d.2)
  | _, _ => d
  end.
Definition with_two (from to : string) (d : gmap string string * gmap string string)
    (h : Host) : Host :=
  set_dirs (<[from := d.1]> (<[to := d.2]> (ho_dirs h))) h.

Lemma rename_mv f from source to dest d h :
  from <> to ->
  (rename f from source to dest (with_two from to d h)).1 =
    with_two from to (mv f source dest d) h.
Proof.
  intros Hne. destruct d as [S T]. unfold rename, mv, with_two. destruct f; [done|].
  simpl. rewrite lookup_insert_eq. simpl.
  rewrite lookup_insert_ne, lookup_insert_eq by done.
  destruct (S !! source) as [c|]; [|done].
  unfold put_file, set_dirs; simpl. f_equal. apply map_eq. intros k.
  destruct (decide (k = from)) as [->|]; [|destruct (decide (k = to)) as [->|]];
    repeat (rewrite ?lookup_insert_eq, ?lookup_alter_eq; rewrite ?lookup_insert_ne,
      ?lookup_alter_ne by done); done.
Qed.

Lemma move_each_mv f from to names r d h :
  from <> to ->
  (move_each f from to names r (with_two from to d h)).1 =
    with_two from to (foldl (fun d n => mv (f n.1) n.1 n.2 d) d names) h.
Proof.
  intros Hne. revert r d. induction names as [|[s t] names IH]; intros r d; [done|].
  cbn [move_each foldl fst snd]. pose proof (rename_mv (f s) from s to t d h Hne) as Hr.
  destruct (rename _ _ _ _ _ _) as [h' r']. simpl in Hr. subst h'. apply IH.
Qed.

Lemma with_two_swap from to S T h :
  from <> to -> with_two from to (S, T) h = with_two to from (T, S) h.
Proof. intros. unfold with_two; simpl. by rewrite insert_insert_ne. Qed.

Lemma with_two_id from to S T h :
  ho_dirs h !! from = Some S -> ho_dirs h !! to = Some T -> with_two from to (S, T) h = h.
Proof.
  intros HS HT. unfold with_two, set_dirs; simpl.
  rewrite (insert_id _ _ _ HT), (insert_id _ _ _ HS). by destruct h.
Qed.

(** Files a directory hasn't, moved out of it or out of a directory that
    isn't there: nothing happens. *)
Lemma move_each_none f from to names r h :
  (forall n, n ∈ names -> ho_dirs h !! from ≫= (fun d => d !! n.1) = None) ->
  (move_each f from to names r h).1 = h.
Proof.
  revert r. induction names as [|[s t] names IH]; intros r Hn; [done|].
  cbn [move_each]. pose proof (Hn (s, t) (list_elem_of_here _ _)) as H. simpl in H.
  unfold rename. rewrite H.
  destruct (f s); apply IH; intros n ?; apply Hn; by right.
Qed.

Lemma mv_cases f source dest d :
  mv f source dest d = d \/
  exists c, d.1 !! source = Some c /\ mv f source dest d = (delete source d.1, <[dest := c]> d.2).
Proof.
  unfold mv. destruct f; [by left|]. destruct (d.1 !! source) as [c|] eqn:E; [|by left].
  right. eauto.
Qed.
Lemma mv_some source dest S T c :
  S !! source = Some c -> mv None source dest (S, T) = (delete source S, <[dest := c]> T).
Proof. unfold mv; simpl. by intros ->. Qed.
Lemma mv_none source dest S T : S !! source = None -> mv None source dest (S, T) = (S, T).
Proof. unfold mv; simpl. by intros ->. Qed.

(** Decides lookups in maps built by [insert] and [delete] at literal keys. *)
Ltac lookups :=
  repeat first [rewrite lookup_insert_eq | rewrite lookup_insert_ne by done
    | rewrite lookup_delete_eq | rewrite lookup_delete_ne by done].
Ltac solve_mv := first [rewrite mv_none by (lookups; done) |
  erewrite mv_some by (lookups; done)].

(** What was moved over comes back, whatever of it could be moved. *)
Lemma mv_roundtrip f (S T : gmap string string) :
  T !! "wake.vmstate" = None -> T !! "wake.mem" = None -> T !! "rootfs.ext4" = None ->
  let d := foldl (fun d n => mv (f n.1) n.1 n.2 d) (S, T) (zip SNAPSHOT_FILES WAKE_FILES) in
  foldl (fun d n => mv None n.1 n.2 d) (d.2, d.1) (zip WAKE_FILES SNAPSHOT_FILES) = (T, S).
Proof.
  intros H1 H2 H3. cbn [zip zip_with SNAPSHOT_FILES WAKE_FILES foldl fst snd].
  destruct (mv_cases (f "vmstate") "vmstate" "wake.vmstate" (S, T)) as [->|(c1 & E1 & ->)];
    cbn [fst snd] in *;
  match goal with |- context [mv (f "mem") _ _ ?d] =>
    destruct (mv_cases (f "mem") "mem" "wake.mem" d) as [->|(c2 & E2 & ->)] end;
    cbn [fst snd] in *;
  match goal with |- context [mv (f "rootfs.ext4") _ _ ?d] =>
    destruct (mv_cases (f "rootfs.ext4") "rootfs.ext4" "rootfs.ext4" d) as [->|(c3 & E3 & ->)] end;
    cbn [fst snd] in *; do 3 solve_mv; f_equal; apply map_eq; intros k;
  (destruct (decide (k = "wake.vmstate")) as [->|];
    [|destruct (decide (k = "wake.mem")) as [->|];
      [|destruct (decide (k = "rootfs.ext4")) as [->|];
        [|destruct (decide (k = "vmstate")) as [->|];
          [|destruct (decide (k = "mem")) as [->|]]]]]);
  repeat first [rewrite lookup_delete_ne in E2 by done|rewrite lookup_delete_ne in E3 by done];
  lookups; congruence.
Qed.

Lemma chown_each_state f files s s' r : chown_each f files s = (s', r) -> s' = s.
Proof.
  revert s. induction files as [|file files IH]; intros s; [by intros [= <- _]|].
  simpl. unfold mbind, vmM_bind, vm_step, vm_try. destruct (err _ <$> f file); simpl.
  - by intros [= <- _].
  - apply IH.
Qed.

Definition no_fault (f : string -> fault) : Prop := forall n, f n = None.

Lemma fold_mv_no_fault g d names :
  no_fault g ->
  foldl (fun d n => mv (g n.1) n.1 n.2 d) d names = foldl (fun d n => mv None n.1 n.2 d) d names.
Proof. intros Hg. revert d. induction names as [|n names IH]; intros d; [done|]. simpl. by rewrite Hg. Qed.

(** There and back again, from a jail without the files a wake brings. *)
Lemma move_files_back f g snapshot root h :
  no_fault g -> snapshot <> root -> ho_dirs h !! root = Some ∅ ->
  (move_files g root WAKE_FILES snapshot SNAPSHOT_FILES
     (move_files f snapshot SNAPSHOT_FILES root WAKE_FILES h).1).1 = h.
Proof.
  intros Hg Hne Hroot. unfold move_files. destruct (ho_dirs h !! snapshot) as [S|] eqn:HS.
  - rewrite <- (with_two_id snapshot root S ∅ h HS Hroot) at 1.
    rewrite move_each_mv by done.
    set (d := foldl _ _ _). rewrite (surjective_pairing d), with_two_swap by done.
    rewrite move_each_mv by done.
    rewrite fold_mv_no_fault by done.
    unfold d. rewrite (mv_roundtrip f S ∅ (lookup_empty _) (lookup_empty _) (lookup_empty _)).
    rewrite <- with_two_swap by done. by apply with_two_id.
  - rewrite !move_each_none; [done|..].
    + intros n _. by rewrite HS.
    + intros n _. rewrite move_each_none; [by rewrite Hroot|]. intros m _. by rewrite HS.
Qed.

Section wake.
Context (node : NodeConfig) (spec : WakeSpec) (h : Host) (o : WakeOutcome).
Let jd := jail_dir node (host_id (ws_vm_address spec)).
Context (Hfree : id_free node (ws_vm_address spec) h) (Hspawn : spawn_fresh h (wf_host o)).
Context (Hback : no_fault (wf_back o)) (Hsnap : under jd (ws_snapshot spec) = false).

(** The agent's working directory has none of the files a wake brings. *)
Definition cwd_clean : Prop :=
  forall f, f ∈ WAKE_FILES -> ho_dirs h !! "" ≫= (fun d => d !! f) = None.

Lemma elem_of_wake_files n : n ∈ zip WAKE_FILES SNAPSHOT_FILES -> n.1 ∈ WAKE_FILES.
Proof. intros Hn%(list_elem_of_fmap_2 fst). by rewrite fst_zip in Hn. Qed.

Lemma wake_put_back v h1 h2 e :
  cwd_clean ->
  wake_steps o node spec (vm_empty (ws_console_log spec), h) = ((v, h1), Err e) ->
  h2 = (move_files (wf_back o) (vm_jail_root v) WAKE_FILES
          (ws_snapshot spec) SNAPSHOT_FILES h1).1 ->
  built node (ws_vm_address spec) (ws_console_log spec) h (v, h2).
Proof.
  intros Hcwd. unfold wake_steps. unfold mbind at 1, vmM_bind at 1.
  pose proof (host_steps_hoare node (ws_vm_address spec) (ws_console_log spec) h (wf_host o)
    Hfree Hspawn (ws_mem_mib spec) (ws_vcpus spec) true _ eq_refl) as H.
  destruct (host_steps _ _ _ _ _ _ _) as [[v1 h3] [uid|e1]].
  - destruct H as (_ & Hroot & pid & B & _ & _ & _ & Hr). simpl in Hroot, Hr.
    set (root := path_join _ _) in *.
    assert (ws_snapshot spec <> root) as Hne.
    { intros Heq. rewrite Heq in Hsnap. pose proof (root_under node (ws_vm_address spec)) as Hu.
      fold jd in Hu. unfold root in Hsnap. fold jd in Hsnap. congruence. }
    intros Hw Hh2.
    assert (v = v1 /\ h1 = (move_files (wf_move o) (ws_snapshot spec) SNAPSHOT_FILES root
              WAKE_FILES h3).1) as [-> ->].
    { revert Hw. unfold mbind at 1, vmM_bind at 1. cbn [get_vm fst]. rewrite Hr.
      unfold mbind at 1, vmM_bind at 1. cbn [fst snd].
      destruct (move_files (wf_move o) _ _ _ _ h3) as [h4 [[]|r]]; cbn [map_err];
        [|by intros [= <- <- _]].
      unfold mbind, vmM_bind.
      destruct (chown_each (wf_chown o) WAKE_FILES (v1, h4)) as [s' [[]|?]] eqn:Hch;
        apply chown_each_state in Hch as ->; [|by intros; simplify_eq/=].
      unfold vm_try. by destruct (wf_load o); intros; simplify_eq/=. }
    rewrite Hh2, Hr. by rewrite move_files_back.
  - intros [= <- <- <-] Hh2. destruct H as (B & C & Hr).
    assert (h2 = h3) as ->; [|done]. rewrite Hh2. apply move_each_none.
    intros n Hn%elem_of_wake_files. simpl in Hr. destruct Hr as [-> | ->].
    + rewrite <- (Hcwd _ Hn). destruct B as (h4 & Hp & B).
      pose proof (b_dirs _ _ _ _ _ B) as E. apply (f_equal (lookup "")) in E. simpl in E.
      rewrite remove_tree_other in E by apply under_cwd, jail_dir_nonempty. rewrite E.
      destruct (pr_dirs _ _ _ Hp "") as [->|(_ & -> & ->)]; [done|]. apply lookup_empty.
    + destruct C as [C|C]; simpl in C; rewrite C; [done|]. apply lookup_empty.
Qed.
End wake.

(** C13: A wake that fails leaves the snapshot as it was: the device state,
    memory and rootfs are back under their names, whichever had been moved
    into the jail, so the wake can be tried again; and the rest of the Node as
    a failed start leaves it, but for the console log and what all VMs share,
    with only objects of the VM's whose own undo failed. It is so where the
    moves back work, the snapshot is outside the VM's jail, and the agent's
    working directory holds no file named like a wake's (where it does, see
    [early_failed_wake_takes_cwd_rootfs]); and the address's host objects are
    free before and the VMM's process id is new. *)
Theorem failed_wake_keeps_snapshot node spec h o u h' e :
  id_free node (ws_vm_address spec) h -> spawn_fresh h (wf_host o) -> no_fault (wf_back o) ->
  under (jail_dir node (host_id (ws_vm_address spec))) (ws_snapshot spec) = false ->
  cwd_clean h ->
  vm_wake o u node spec h = (h', Err e) ->
  (is_Some (ho_dirs h !! ws_snapshot spec) -> ho_dirs h' !! ws_snapshot spec = ho_dirs h !! ws_snapshot spec) /\
  exists h1, prepared node h h1 /\ restored node (ws_vm_address spec) (ws_console_log spec) h1 u h' /\
    ((forall x, undo_works u x = true) -> h' = set_logs (ho_logs h') h1).
Proof.
  intros Hfree Hspawn Hback Hsnap Hcwd. unfold vm_wake.
  destruct (wake_steps o node spec _) as [[v h2] [x|e']] eqn:Hw; [done|]. intros [= <- <-].
  destruct (wake_put_back node spec h o Hfree Hspawn Hback Hsnap v h2 _ e' Hcwd Hw eq_refl) as (h1 & Hp & B).
  pose proof (teardown_restores _ _ _ _ u _ B) as Ht. cbn [fst snd] in Ht. split.
  - intros [d Hd]. transitivity (ho_dirs h1 !! ws_snapshot spec).
    + destruct (rs_dirs _ _ _ _ _ _ Ht) as [->|[_ <-]]; [done|]. symmetry. by apply remove_tree_other.
    + destruct (pr_dirs _ _ _ Hp (ws_snapshot spec)) as [|(_ & E & _)]; [done|congruence].
  - exists h1. split_and!; [done..|]. intros Hu. by eapply restored_all.
Qed.

Definition example_snapshot : string := "/var/lib/cirro/parked/web".
Definition example_wake : WakeSpec :=
  mkWakeSpec (ipv4_new 10 77 0 2) 512 2 example_snapshot "/var/lib/cirro/logs/web.0.log".
Definition example_parked (cwd : gmap string string) : Host :=
  set_dirs (<[ "" := cwd ]> {[ example_snapshot :=
    {[ "vmstate" := "state"; "mem" := "memory"; "rootfs.ext4" := "the guest's rootfs" ]} ]})
    example_host.
(** [netns]: what [ip netns add] answers; [load]: what Firecracker does. *)
Definition example_waking (netns load : fault) : WakeOutcome :=
  mkWakeOutcome
    (mkHostOutcome netns (None, None) None None None None (fun _ => Ok (4242%N, Some 99%N)) (true, true)
      (mkBatch 0 None) (mkBatch 0 None) None None [mkSocketPoll true None] None)
    (fun _ => None) (fun _ => None) load (fun _ => None) None.

Lemma example_parked_free cwd : id_free example_node (ipv4_new 10 77 0 2) (example_parked cwd).
Proof.
  split; [by vm_compute|by vm_compute| |by vm_compute].
  apply map_filter_id. intros k d. unfold example_parked; simpl.
  rewrite lookup_insert_Some, lookup_singleton_Some. intros [[<- _]|[_ [<- _]]]; by vm_compute.
Qed.

Lemma failed_wake_keeps_snapshot_witness :
  exists h', (vm_wake (example_waking None (Some "bad snapshot")) (undo_ok 3) example_node
                example_wake (example_parked ∅)).1 = h' /\
  ho_dirs h' !! example_snapshot = ho_dirs (example_parked ∅) !! example_snapshot.
Proof.
  eexists. split; [reflexivity|].
  eapply (proj1 (failed_wake_keeps_snapshot example_node example_wake (example_parked ∅)
    (example_waking None (Some "bad snapshot")) (undo_ok 3) _ _ (example_parked_free ∅)
    ltac:(intros args pid st [= <- <-]; split; [by vm_compute|apply map_Forall_empty])
    ltac:(done) ltac:(by vm_compute) ltac:(intros f _; simpl; by rewrite lookup_insert_eq)
    ltac:(vm_compute; reflexivity))).
  by vm_compute; eexists.
Defined.

(** A wake that fails before it has a jail moves files of the agent's own
    working directory: with a [rootfs.ext4] there, a failed [ip netns add]
    puts that file in the snapshot, over the guest's rootfs, and the App
    wakes from it next time. *)
Theorem early_failed_wake_takes_cwd_rootfs :
  let '(h', r) := vm_wake (example_waking (Some "ip netns add failed") None) (undo_ok 0)
                    example_node example_wake
                    (example_parked {[ "rootfs.ext4" := "somebody's rootfs" ]}) in
  is_ok r = false /\
  (ho_dirs h' !! example_snapshot ≫= (fun d => d !! "rootfs.ext4")) = Some "somebody's rootfs" /\
  (ho_dirs h' !! "" ≫= (fun d => d !! "rootfs.ext4")) = None.
Proof. vm_compute. done. Qed.

(** ** Parking and waking *)

Lemma rename_result f from source to dest S T h :
  from <> to ->
  is_ok (rename f from source to dest (with_two from to (S, T) h)).2 = true ->
  f = None /\ exists c, S !! source = Some c.
Proof.
  intros Hne. unfold rename. destruct f; [done|]. unfold with_two; simpl.
  rewrite lookup_insert_eq. simpl. destruct (S !! source); [eauto|done].
Qed.

Lemma move_each_err f from to names e h : is_ok (move_each f from to names (Err e) h).2 = false.
Proof.
  revert h. induction names as [|[s t] names IH]; intros h; [done|].
  simpl. destruct (rename _ _ _ _ _ _) as [h' [|]]; apply IH.
Qed.

(** Moving that worked moved the first file. *)
Lemma move_each_ok f from source to dest names S T h :
  from <> to ->
  is_ok (move_each f from to ((source, dest) :: names) (Ok tt) (with_two from to (S, T) h)).2 = true ->
  exists c, S !! source = Some c /\
    move_each f from to ((source, dest) :: names) (Ok tt) (with_two from to (S, T) h) =
    move_each f from to names (Ok tt) (with_two from to (delete source S, <[dest := c]> T) h).
Proof.
  intros Hne Hok. pose proof (rename_result (f source) from source to dest S T h Hne) as Hres.
  pose proof (rename_mv (f source) from source to dest (S, T) h Hne) as Hmv. revert Hok.
  cbn [move_each]. destruct (rename _ _ _ _ _ _) as [h' [[]|e]].
  - intros _. destruct (Hres eq_refl) as [Hf [c Hc]]. exists c. split; [done|].
    simpl in Hmv. rewrite Hmv. unfold mv; simpl. by rewrite Hf, Hc.
  - by rewrite move_each_err.
Qed.

(** Three files that moved are the three files. *)
Lemma move_three f from to s1 s2 s3 t1 t2 t3 S T h h' :
  from <> to -> NoDup [s1; s2; s3] ->
  move_files f from [s1; s2; s3] to [t1; t2; t3] (with_two from to (S, T) h) = (h', Ok tt) ->
  exists c1 c2 c3, S !! s1 = Some c1 /\ S !! s2 = Some c2 /\ S !! s3 = Some c3 /\
    h' = with_two from to (delete s3 (delete s2 (delete s1 S)),
           <[t3 := c3]> (<[t2 := c2]> (<[t1 := c1]> T))) h.
Proof.
  intros Hne Hnd Hm. unfold move_files in Hm. cbn [zip zip_with] in Hm.
  destruct (move_each_ok f from s1 to t1 [(s2, t2); (s3, t3)] S T h Hne) as (c1 & H1 & E1);
    [by rewrite Hm|]. rewrite E1 in Hm.
  destruct (move_each_ok f from s2 to t2 [(s3, t3)] (delete s1 S) (<[t1 := c1]> T)
    h Hne) as (c2 & H2 & E2); [by rewrite Hm|]. rewrite E2 in Hm.
  destruct (move_each_ok f from s3 to t3 [] (delete s2 (delete s1 S))
    (<[t2 := c2]> (<[t1 := c1]> T)) h Hne) as (c3 & H3 & E3); [by rewrite Hm|]. rewrite E3 in Hm. injection Hm as <-.
  apply NoDup_cons in Hnd as [Hn1 Hnd]. apply NoDup_cons in Hnd as [Hn2 _].
  rewrite !not_elem_of_cons in *. destruct Hn1 as (? & ? & _), Hn2 as (? & _).
  rewrite lookup_delete_ne in H2 by done. rewrite !lookup_delete_ne in H3 by done.
  exists c1, c2, c3. done.
Qed.

(** What a park did. *)
Definition parked_files (vmstate mem rootfs : string) : gmap string string :=
  <[ "rootfs.ext4" := rootfs ]> (<[ "mem" := mem ]> {[ "vmstate" := vmstate ]}).
Definition woken_files (vmstate mem rootfs : string) : gmap string string :=
  <[ "rootfs.ext4" := rootfs ]> (<[ "wake.mem" := mem ]> {[ "wake.vmstate" := vmstate ]}).

Lemma remove_tree_self p dirs : remove_tree p dirs !! p = None.
Proof. apply map_lookup_filter_None. right. intros. simpl. by rewrite under_refl. Qed.

Lemma park_err o vmm root into h h' p :
  park o vmm root into h = (h', Err p) -> ho_dirs h' !! into = None.
Proof.
  unfold park. destruct (park_steps o vmm root into h) as [h1 [[]|p']]; [done|].
  intros [= <- _]. apply remove_tree_self.
Qed.

(** A park that says the VM runs on touched no process and no file but the
    half-made snapshot. *)
Lemma park_resumed o vmm root into h h' e jail :
  into <> root -> under into root = false -> ho_dirs h !! root = Some jail ->
  jail !! "park.vmstate" = None -> jail !! "park.mem" = None ->
  park o vmm root into h = (h', Err (Resumed e)) ->
  ho_procs h' = ho_procs h /\ ho_cgroups h' = ho_cgroups h /\ ho_dirs h' !! root = Some jail.
Proof.
  intros Hne Hun Hj H1 H2. unfold park, park_steps.
  destruct (pf_mkdir o).
  { intros [= <- _]. simpl. by rewrite remove_tree_other. }
  assert (ho_dirs (with_dir into h) !! root = Some jail /\
    ho_procs (with_dir into h) = ho_procs h /\ ho_cgroups (with_dir into h) = ho_cgroups h)
    as (Hd & Hp & Hc).
  { unfold with_dir. destruct (ho_dirs h !! into); [done|]. simpl. by rewrite lookup_insert_ne. }
  destruct (pf_pause o).
  { intros [= <- _]. simpl. by rewrite remove_tree_other. }
  destruct (pf_snapshot o) as [[vs mem]|se].
  - destruct (move_files _ _ _ _ _ _) as [h2 [[]|me]]; done.
  - destruct (pf_resume o); [done|]. intros [= <- _]. simpl. rewrite remove_tree_other by done.
    split_and!; [done..|]. rewrite lookup_alter_eq, Hd. simpl.
    by rewrite (delete_id _ _ H2), (delete_id _ _ H1).
Qed.

Lemma park_ok o vmm root into h h' jail :
  into <> root -> ho_dirs h !! root = Some jail -> ho_dirs h !! into = None ->
  park o vmm root into h = (h', Ok tt) ->
  exists vmstate mem rootfs,
    pf_snapshot o = Ok (vmstate, mem) /\ jail !! "rootfs.ext4" = Some rootfs /\
    ho_dirs h' !! into = Some (parked_files vmstate mem rootfs) /\
    ho_procs h' = ho_procs (vmm_kill vmm h).
Proof.
  intros Hne Hj Hi. unfold park, park_steps.
  destruct (pf_mkdir o); [done|]. destruct (pf_pause o); [done|].
  destruct (pf_snapshot o) as [[vs mem]|se]; [|by destruct (pf_resume o)].
  set (h1 := vmm_kill _ _).
  assert (h1 = with_two root into (<["park.mem" := mem]> (<["park.vmstate" := vs]> jail), ∅) h1)
    as Hh1.
  { symmetry. apply with_two_id; unfold h1, with_dir, put_file, set_dirs, vmm_kill; rewrite Hi;
      destruct vmm; simpl; rewrite ?lookup_alter_eq, ?lookup_alter_ne by done;
      rewrite ?lookup_insert_eq, ?lookup_insert_ne, ?Hj by done; done. }
  assert (ho_procs h1 = ho_procs (vmm_kill vmm h)) as Hp.
  { unfold h1, with_dir, put_file, set_dirs, vmm_kill. rewrite Hi. by destruct vmm. }
  rewrite Hh1. destruct (move_files _ _ _ _ _ _) as [h2 [[]|me]] eqn:Hm; [|done].
  intros [= <-]. apply move_three in Hm as (c1 & c2 & c3 & E1 & E2 & E3 & ->);
    [|done|by apply (bool_decide_unpack _)].
  exists vs, mem, c3.
  rewrite lookup_insert_ne, lookup_insert_eq in E1 by done. rewrite lookup_insert_eq in E2.
  rewrite !lookup_insert_ne in E3 by done. simplify_eq.
  split_and!; [done..| |done]. simpl. rewrite lookup_insert_ne by done.
  rewrite lookup_insert_eq. done.
Qed.

(** A VM steps 1-4 brought up, as a later agent would take it back. *)
Definition like_adopted (node : NodeConfig) (a : Ipv4Addr) (log : string) (v : Vm) : Prop :=
  exists pid st, let p := mkProcessId pid st in
    vm_vmm v = Some (Child pid) /\ vm_process v = Some p /\
    vm_undo v = vm_undo (adopt node a p log) /\
    vm_api_socket v = vm_api_socket (adopt node a p log) /\
    vm_jail_root v = vm_jail_root (adopt node a p log) /\
    vm_console_log v = vm_console_log (adopt node a p log).

Lemma bind_Ok_inv {A B} (m : vmM A) (k : A -> vmM B) s s' b :
  (m ≫= k) s = (s', Ok b) -> exists s1 a, m s = (s1, Ok a) /\ k a s1 = (s', Ok b).
Proof.
  unfold mbind, vmM_bind. destruct (m s) as [s1 [a|e]]; [|done]. eauto.
Qed.

(** The next step of a chain of binds that succeeded. *)
Ltac ok_step H :=
  apply bind_Ok_inv in H as (? & ? & ?H1 & H);
  lazymatch type of H1 with
  | vm_try ?f _ = _ => unfold vm_try in H1; destruct f; [discriminate H1|]; injection H1 as <- _
  | vm_step _ ?f _ = _ =>
      unfold vm_step, vm_try in H1; destruct (err _ <$> f); [discriminate H1|]; injection H1 as <- _
  | on_vm _ _ = _ => injection H1 as <- _
  | on_host _ _ = _ => injection H1 as <- _
  | push_undo _ _ = _ => injection H1 as <- _
  | get_vm _ _ = _ => injection H1 as <- <-
  | mret _ _ = _ => injection H1 as <- <-
  | _ => idtac
  end.

Lemma host_steps_adopted node a o mem_mib vcpus app log h v h' uid :
  host_steps o node a mem_mib vcpus app (vm_empty log, h) = ((v, h'), Ok uid) ->
  like_adopted node a log v.
Proof.
  intros H. unfold host_steps in H. cbv zeta in H. do 14 ok_step H.
  destruct (hf_spawn o _) as [[pid st]|?]; [|by apply bind_Ok_inv in H as (? & ? & ? & _)].
  ok_step H. cbv beta iota in H. do 3 ok_step H.
  destruct st as [st|]; [|by apply bind_Ok_inv in H as (? & ? & ? & _)].
  do 11 ok_step H. destruct (wait_socket _).
  - ok_step H. injection H as <- _ _. exists pid, st. done.
  - by ok_step H.
  - done.
Qed.

Lemma start_steps_adopted o node spec h v h' :
  start_steps o node spec (vm_empty (sp_console_log spec), h) = ((v, h'), Ok tt) ->
  like_adopted node (sp_vm_address spec) (sp_console_log spec) v.
Proof.
  intros H. unfold start_steps in H. apply bind_Ok_inv in H as ([v1 h1] & uid & Hh & H).
  apply host_steps_adopted in Hh. do 11 ok_step H.
  destruct (deliver_config _ _); [destruct (sf_grace o)|..]; try by (do 2 ok_step H).
  - by injection H as <- _.
  - done.
Qed.

(** Whoever kills it, a VMM alone in its cgroup goes the same way. *)
Lemma teardown_adopted u node a log v h :
  like_adopted node a log v ->
  (forall ps, ho_cgroups h !! cgroup_of (host_id a) = Some ps -> ps ⊆ vmm_pids v) ->
  exists p, vm_process v = Some p /\ teardown u (adopt node a p log) h = teardown u v h.
Proof.
  intros (pid & st & Hv & Hp & Hu & _) Hcg. exists (mkProcessId pid st). split; [done|].
  unfold teardown. rewrite Hv, Hu. cbn [adopt vm_vmm vm_undo].
  enough (vmm_kill (Adopted (mkProcessId pid st) (cgroup_of (host_id a))) h =
          vmm_kill (Child pid) h) as -> by done.
  unfold vmm_kill, pr_pid. f_equal.
  destruct (ho_cgroups h !! _) as [ps|] eqn:E; cbn [default from_option]; [|set_solver].
  specialize (Hcg ps eq_refl). unfold vmm_pids in Hcg. rewrite Hv in Hcg. set_solver.
Qed.

(** C19: A VM that started is torn down to the Node as it was found, by the
    agent that started it or by a later one that adopted it knowing only its
    VM address and process: both have the same undo stack, jail and API
    socket, and tearing either down does the same. What that leaves is the
    Node before the start, but for the VM's log and what all VMs share (the
    jails' two directories, the VMs' parent cgroup and its io controller,
    [h1]) and but for an object of the VM's whose own undo failed; no process
    of its is left whatever fails, and when every undo works nothing else is.
    The address's host objects must be free before the start, and the kernel
    gives the VMM a process id nothing has. *)
Theorem started_vm_tears_down node spec h o u0 u h' v :
  id_free node (sp_vm_address spec) h -> spawn_fresh h (sf_host o) ->
  vm_start o u0 node spec h = (h', Ok v) ->
  exists p h1, vm_process v = Some p /\ prepared node h h1 /\
    let v' := adopt node (sp_vm_address spec) p (sp_console_log spec) in
    vm_api_socket v' = vm_api_socket v /\ vm_jail_root v' = vm_jail_root v /\
    vm_undo v' = vm_undo v /\ teardown u v' h' = teardown u v h' /\
    restored node (sp_vm_address spec) (sp_console_log spec) h1 u (teardown u v h') /\
    ((forall x, undo_works u x = true) ->
     teardown u v h' = set_logs (ho_logs (teardown u v h')) h1).
Proof.
  intros Hfree Hspawn. unfold vm_start.
  pose proof (start_steps_hoare node spec h o Hfree Hspawn _ eq_refl) as H.
  destruct (start_steps o node spec _) as [[v1 h2] [[]|e']] eqn:Hs; [|done]. intros [= <- <-].
  apply start_steps_adopted in Hs as Had. destruct H as [(h1 & Hp & B) _].
  pose proof (teardown_restores _ _ _ _ u _ B) as Ht. simpl in Ht.
  destruct (teardown_adopted u _ _ _ _ h2 Had (b_cg_procs _ _ _ _ _ B)) as (p & Hpr & Heq).
  destruct Had as (pid & st & _ & Hp' & Hu & Ha & Hr & _).
  assert (p = mkProcessId pid st) as -> by congruence.
  exists (mkProcessId pid st), h1. split_and!; try done. intros Hall. by eapply restored_all.
Qed.

Lemma started_vm_tears_down_witness :
  exists v h' h1, vm_start (example_start None) (undo_ok 0) example_node example_spec example_host =
      (h', Ok v) /\ prepared example_node example_host h1 /\
    teardown (undo_ok 7) v h' = set_logs (ho_logs (teardown (undo_ok 7) v h')) h1.
Proof.
  destruct (vm_start (example_start None) (undo_ok 0) example_node example_spec example_host)
    as [h' [v|e]] eqn:E; [|by vm_compute in E].
  destruct (started_vm_tears_down example_node example_spec example_host (example_start None)
    (undo_ok 0) (undo_ok 7) h' v example_free (example_fresh None) E) as (p & h1 & _ & Hp & _ & _ & _ & _ & _ & H).
  exists v, h', h1. split_and!; [done|done|]. apply H. intros x. apply undo_ok_works.
  unfold CGROUP_POLL_ATTEMPTS. lia.
Defined.
