(* ===== verification/VmEnd.v ===== *)
(** * How a VM ends

    Theorems about [Vm]'s parks, wakes and supervisor, about what a later
    agent finds and cleans up, and about how a process is identified. *)

From S2P Require Import Prelude RustStr Proto Subnet Store Validate Vm VmLaws.

#[local] Arguments host_id : simpl never.
#[local] Arguments jail_dir : simpl never.
#[local] Arguments cgroup_of : simpl never.
#[local] Arguments path_join : simpl never.
#[local] Arguments remove_tree : simpl never.

(** ** Park, then wake *)

Lemma wake_ok node spec h o u h' v vmstate mem rootfs :
  id_free node (ws_vm_address spec) h -> spawn_fresh h (wf_host o) ->
  under (jail_dir node (host_id (ws_vm_address spec))) (ws_snapshot spec) = false ->
  ho_dirs h !! ws_snapshot spec = Some (parked_files vmstate mem rootfs) ->
  vm_wake o u node spec h = (h', Ok v) ->
  ho_dirs h' !! vm_jail_root v = Some (woken_files vmstate mem rootfs) /\
  ho_dirs h' !! ws_snapshot spec = Some ∅ /\
  like_adopted node (ws_vm_address spec) (ws_console_log spec) v.
Proof.
  intros Hfree Hspawn Hun Hsn. unfold vm_wake.
  destruct (wake_steps _ _ _ _) as [[v1 h1] [[]|e]] eqn:Hw; [|done]. intros [= <- <-].
  unfold wake_steps in Hw. apply bind_Ok_inv in Hw as ([v2 h2] & uid & Hh & Hw).
  pose proof (host_steps_hoare node (ws_vm_address spec) (ws_console_log spec) h (wf_host o)
    Hfree Hspawn (ws_mem_mib spec) (ws_vcpus spec) true _ eq_refl) as H.
  rewrite Hh in H. destruct H as (_ & Hroot & pid & B & _ & _ & _ & Hr). simpl in Hroot, Hr.
  apply host_steps_adopted in Hh.
  set (root := path_join _ _) in *.
  assert (ws_snapshot spec <> root) as Hne.
  { intros Heq. pose proof (root_under node (ws_vm_address spec)). unfold root in Heq. congruence. }
  assert (ho_dirs h2 !! ws_snapshot spec = Some (parked_files vmstate mem rootfs)) as Hsn2.
  { destruct B as (h0 & Hp & B). pose proof (b_dirs _ _ _ _ _ B) as E.
    apply (f_equal (lookup (ws_snapshot spec))) in E. cbn [snd] in E. rewrite remove_tree_other in E by done.
    rewrite E. destruct (pr_dirs _ _ _ Hp (ws_snapshot spec)) as [->|(_ & Hn & _)]; [done|]. by rewrite Hn in Hsn. }
  ok_step Hw. apply bind_Ok_inv in Hw as ([v3 h3] & [] & Hmv & Hw).
  cbn [fst snd] in Hmv. rewrite Hr in Hmv.
  rewrite <- (with_two_id _ _ _ _ h2 Hsn2 Hroot) in Hmv.
  destruct (move_files _ _ _ _ _ _) as [h4 [[]|]] eqn:Hm; [|done]. injection Hmv as <- <-.
  apply move_three in Hm as (c1 & c2 & c3 & E1 & E2 & E3 & ->);
    [|done|by apply (bool_decide_unpack _)].
  unfold parked_files in E1, E2, E3. rewrite !lookup_insert_ne, lookup_singleton_eq in E1 by done.
  rewrite lookup_insert_ne, lookup_insert_eq in E2 by done. rewrite lookup_insert_eq in E3.
  simplify_eq. apply bind_Ok_inv in Hw as (s4 & [] & Hch & Hw).
  apply chown_each_state in Hch as ->. unfold vm_try in Hw.
  destruct (wf_load o); [done|]. injection Hw as <- <-. rewrite Hr. simpl.
  rewrite lookup_insert_ne, !lookup_insert_eq by done. split_and!; done.
Qed.

(** C18: A woken VM runs from what its park saved: the device state and the
    memory Firecracker wrote and the rootfs as the guest left it are, in the
    new jail and under the names the wake loads them by, byte for byte the
    parked ones, and the snapshot directory is left empty, as
    [finish_wake]'s [remove_dir] needs it. *)
Theorem park_wake_roundtrip o1 vmm root h h1 jail node spec o2 u h2 h3 v :
  ws_snapshot spec <> root ->
  ho_dirs h !! root = Some jail -> ho_dirs h !! ws_snapshot spec = None ->
  park o1 vmm root (ws_snapshot spec) h = (h1, Ok tt) ->
  ho_dirs h2 !! ws_snapshot spec = ho_dirs h1 !! ws_snapshot spec ->
  id_free node (ws_vm_address spec) h2 -> spawn_fresh h2 (wf_host o2) ->
  under (jail_dir node (host_id (ws_vm_address spec))) (ws_snapshot spec) = false ->
  vm_wake o2 u node spec h2 = (h3, Ok v) ->
  exists vmstate mem rootfs,
    pf_snapshot o1 = Ok (vmstate, mem) /\ jail !! "rootfs.ext4" = Some rootfs /\
    ho_dirs h3 !! vm_jail_root v = Some (woken_files vmstate mem rootfs) /\
    ho_dirs h3 !! ws_snapshot spec = Some ∅.
Proof.
  intros Hne Hj Hi Hp Hsame Hfree Hspawn Hun Hw.
  destruct (park_ok _ _ _ _ _ _ _ Hne Hj Hi Hp) as (vmstate & mem & rootfs & Hs & Hr & Hd & _).
  rewrite Hd in Hsame.
  destruct (wake_ok _ _ _ _ _ _ _ _ _ _ Hfree Hspawn Hun Hsame Hw) as (? & ? & _).
  by exists vmstate, mem, rootfs.
Qed.

Definition example_running : Host :=
  set_dirs {[ "/j" := {[ "rootfs.ext4" := "as the guest left it" ]} ]} example_host.
Definition example_park : ParkOutcome :=
  mkParkOutcome None None (Ok ("state", "memory")) None (fun _ => None) None.

Definition example_parked_host : Host :=
  (park example_park (Child 7) "/j" example_snapshot example_running).1.

Lemma park_wake_roundtrip_witness :
  exists h3 v,
    vm_wake (example_waking None None) (undo_ok 0) example_node example_wake example_parked_host =
      (h3, Ok v) /\
    ho_dirs h3 !! vm_jail_root v = Some (woken_files "state" "memory" "as the guest left it").
Proof.
  destruct (vm_wake (example_waking None None) (undo_ok 0) example_node example_wake
    example_parked_host) as [h3 [v|]] eqn:E2; [|by vm_compute in E2].
  exists h3, v. split; [done|].
  destruct (park_wake_roundtrip example_park (Child 7) "/j" example_running example_parked_host
    {[ "rootfs.ext4" := "as the guest left it" ]} example_node example_wake
    (example_waking None None) (undo_ok 0) example_parked_host h3 v)
    as (vs & m & r & [= <- <-] & [= <-] & H & _); [..|exact H].
  - done.
  - vm_compute. reflexivity.
  - vm_compute. reflexivity.
  - vm_compute. reflexivity.
  - reflexivity.
  - apply id_free_check. by vm_compute.
  - intros args pid st [= <- <-]. split; [by vm_compute|]. intros i ps Hps. by vm_compute in Hps.
  - by vm_compute.
  - exact E2.
Defined.

(** ** The supervisor *)

Definition vmm_pid (vmm : Vmm) : N := match vmm with Child pid => pid | Adopted p _ => pr_pid p end.

Lemma vmm_kill_dead vmm h : ho_procs (vmm_kill vmm h) !! vmm_pid vmm = None.
Proof.
  destruct vmm as [pid|p cg]; simpl; apply map_lookup_filter_None; right; intros ? _; simpl;
    set_solver.
Qed.

Lemma park_ok_dead o vmm root into h h' :
  park o vmm root into h = (h', Ok tt) -> ho_procs h' !! vmm_pid vmm = None.
Proof.
  unfold park, park_steps. destruct (pf_mkdir o); [done|]. destruct (pf_pause o); [done|].
  destruct (pf_snapshot o) as [[vs mem]|se]; [|by destruct (pf_resume o)].
  set (h1 := vmm_kill _ _). assert (ho_procs h1 !! vmm_pid vmm = None) as Hd by apply vmm_kill_dead.
  clearbody h1. unfold move_files.
  assert (forall f from to names r h2, ho_procs (move_each f from to names r h2).1 = ho_procs h2)
    as Hm.
  { intros f from to names. induction names as [|[s t] names IH]; intros r h2; [done|]. simpl.
    unfold rename. destruct (f s); [apply IH|].
    destruct (_ ≫= _), (ho_dirs h2 !! to); by rewrite IH. }
  destruct (move_each _ _ _ _ _ _) as [h2 [[]|]] eqn:E; [|done]. intros [= <-].
  apply (f_equal (fun x => ho_procs x.1)) in E. rewrite Hm in E. simpl in E. by rewrite <- E.
Qed.

(** The events that can only end a supervisor's wait. *)
Definition decisive (ev : Event) : bool :=
  match ev with EvEnded _ | EvClosed | EvStop StopForce => true | _ => false end.

(** What a graceful stop ends with. *)
Lemma graceful_loop_spec env vmm evs h h' rs r :
  graceful_loop env vmm evs h = (h', rs, Some r) ->
  ho_procs h' !! vmm_pid vmm = None /\ (r = Graceful \/ r = Crashed \/ r = Forced) /\
  Forall (fun x => is_ok x = false) rs.
Proof.
  revert h h' rs. induction evs as [|ev evs IH]; intros h h' rs; [done|].
  destruct ev as [status|[t| |into o]| |]; simpl.
  - intros [= <- <- <-]. split_and!; [apply vmm_kill_dead| |constructor].
    unfold graceful_end. destruct (natural_end _ _); auto.
  - apply IH.
  - intros [= <- <- <-]. split_and!; [apply vmm_kill_dead|auto|constructor].
  - destruct (graceful_loop _ _ evs h) as [[h1 rs1] r1] eqn:E. intros [= <- <- ->].
    destruct (IH _ _ _ E) as (? & ? & ?). split_and!; try done. by constructor.
  - intros [= <- <- <-]. split_and!; [apply vmm_kill_dead|auto|constructor].
  - intros [= <- <- <-]. split_and!; [apply vmm_kill_dead|auto|constructor].
Qed.

Lemma natural_end_cases s c : natural_end s c = Exited \/ natural_end s c = Crashed.
Proof. unfold natural_end. destruct s as [[[] ?]|]; simpl; try case_match; auto. Qed.
Lemma vmm_natural_end_cases v e s c :
  vmm_natural_end v e s c = Exited \/ vmm_natural_end v e s c = Crashed.
Proof. unfold vmm_natural_end. destruct (oom_killed v e); [auto|apply natural_end_cases]. Qed.

(** Only a graceful request leads there. *)
Definition asked_graceful (evs : list Event) : Prop := exists t, EvStop (StopGraceful t) ∈ evs.

Lemma run_until_ended_spec env vmm root evs h h' rs r :
  run_until_ended env vmm root evs h = (h', rs, Some r) ->
  ho_procs h' !! vmm_pid vmm = None /\
  match r with
  | Parked => exists errs, rs = errs ++ [Ok tt] /\ Forall (fun x => is_ok x = false) errs
  | AgentDown => False
  | Graceful => Forall (fun x => is_ok x = false) rs /\ asked_graceful evs
  | _ => Forall (fun x => is_ok x = false) rs
  end.
Proof.
  revert h h' rs. induction evs as [|ev evs IH]; intros h h' rs; [done|].
  destruct ev as [status|[t| |into o]| |]; cbn [run_until_ended].
  - intros [= <- <- <-]. split; [apply vmm_kill_dead|].
    by destruct (vmm_natural_end_cases vmm (se_events env) status (se_console env)) as [-> | ->].
  - assert (asked_graceful (EvStop (StopGraceful t) :: evs)) as Hask
      by (exists t; apply list_elem_of_here).
    unfold graceful_stop. destruct (se_hang env); [done|]. destruct (se_ctrl_alt_del env).
    + destruct (se_ended env) as [status|]; intros [= <- <- <-]; (split; [apply vmm_kill_dead|]);
        [|done].
      by destruct (vmm_natural_end_cases vmm (se_events env) status (se_console env)) as [-> | ->].
    + intros (? & [-> | [-> | ->]] & ?)%graceful_loop_spec; done.
  - intros [= <- <- <-]. split; [apply vmm_kill_dead|done].
  - destruct (park_hung o root into h); [done|]. destruct (park o vmm root into h) as [h1 [[]|[e|e]]] eqn:Hp.
    + intros [= <- <- <-]. split; [by eapply park_ok_dead|]. by exists [].
    + destruct (run_until_ended env vmm root evs h1) as [[h2 rs2] r2] eqn:E.
      intros [= <- <- ->]. destruct (IH _ _ _ E) as [Hd Hr]. split; [done|].
      destruct r; try done; try (by constructor).
      * destruct Hr as [? [t ?]]. split; [by constructor|]. exists t. by right.
      * destruct Hr as (errs & -> & ?). exists (Err e :: errs). split; [done|by constructor].
    + intros [= <- <- <-]. split; [apply vmm_kill_dead|]. by constructor.
  - intros [= <- <- <-]. split; [apply vmm_kill_dead|done].
  - intros H. destruct (IH _ _ _ H) as [Hd Hr]. split; [done|]. destruct r; try done.
    destruct Hr as [? [t ?]]. split; [done|]. exists t. by right.
Qed.

(** How an end looks: a bad exit status, or a panic in what the console
    shows. *)
Definition bad_end (env : SupEnv) (status : option ExitStatus) : Prop :=
  (exists s, status = Some s /\ xs_success s = false) \/
  str_contains_str "Kernel panic" (console_tail_bytes (se_console env)) = true.
Lemma natural_end_bad env status :
  natural_end status (se_console env) = Crashed /\ bad_end env status \/
  natural_end status (se_console env) = Exited /\ ~ bad_end env status.
Proof.
  unfold natural_end, bad_end. destruct status as [s|].
  - destruct (xs_success s) eqn:Hs; cbn [negb]; [|left; eauto].
    destruct (str_contains_str _ _) eqn:Hp; [left; auto|right].
    split; [done|]. intros [(s' & [= <-] & ?)|?]; congruence.
  - destruct (str_contains_str _ _) eqn:Hp; [left; auto|right].
    split; [done|]. intros [(s' & ? & _)|?]; congruence.
Qed.

(** What must have happened for a supervisor to end with [r] at the event
    [ev], after the events [pre]. *)
Definition accounts (env : SupEnv) (vmm : Vmm) (root : string) (pre : list Event) (ev : Event)
    (rs : Replies) (r : EndReason) : Prop :=
  let oom := oom_killed vmm (se_events env) in
  let refused := (exists t, ev = EvStop (StopGraceful t)) /\ is_Some (se_ctrl_alt_del env) in
  let by_itself status := ev = EvEnded status /\ ~ asked_graceful pre \/ refused /\ se_ended env = Some status in
  match r with
  | Exited => exists status, by_itself status /\ ~ bad_end env status /\ oom = false
  | Crashed => exists status, by_itself status /\ (bad_end env status \/ oom = true) \/
                 ev = EvEnded status /\ asked_graceful pre /\ bad_end env status
  | Graceful => exists status, ev = EvEnded status /\ asked_graceful pre /\ ~ bad_end env status
  | Forced =>
      ev = EvStop StopForce \/ ev = EvClosed \/ (ev = EvDeadline /\ asked_graceful pre) \/
      (refused /\ se_ended env = None) \/
      (exists into o h1 e, ev = EvStop (StopPark into o) /\ (park o vmm root into h1).2 = Err (Lost e) /\
         last rs = Some (Err e))
  | Parked => exists into o h1, ev = EvStop (StopPark into o) /\ (park o vmm root into h1).2 = Ok tt /\
                last rs = Some (Ok tt)
  | AgentDown => False
  end.

Lemma asked_graceful_app l l' : asked_graceful l \/ asked_graceful l' -> asked_graceful (l ++ l').
Proof. intros [[t H]|[t H]]; exists t; set_solver. Qed.
Lemma vmm_natural_end_accounts env vmm root pre ev status :
  let refused := (exists t, ev = EvStop (StopGraceful t)) /\ is_Some (se_ctrl_alt_del env) in
  ev = EvEnded status /\ ~ asked_graceful pre \/ refused /\ se_ended env = Some status ->
  accounts env vmm root pre ev [] (vmm_natural_end vmm (se_events env) status (se_console env)).
Proof.
  intros refused Hby. unfold vmm_natural_end. destruct (oom_killed vmm (se_events env)) eqn:Ho.
  { exists status. left. auto. }
  destruct (natural_end_bad env status) as [[-> Hb]|[-> Hb]]; exists status; [left; auto|done].
Qed.
(** Only a graceful request among the earlier events, and the last answer,
    matter. *)
Lemma accounts_more env vmm root pre pre' ev rs rs' r :
  (asked_graceful pre <-> asked_graceful pre') -> (forall x, last rs = Some x -> last rs' = Some x) ->
  accounts env vmm root pre ev rs r -> accounts env vmm root pre' ev rs' r.
Proof.
  intros Hp Hr. unfold accounts. destruct r; try done;
    try (intros [status H]; exists status; by rewrite <- Hp).
  - intros [?|[?|[[? ?]|[?|(into & o & h1 & e & ? & ? & ?)]]]]; auto.
    + do 2 right; left. by rewrite <- Hp.
    + do 4 right. exists into, o, h1, e. auto.
  - intros (into & o & h1 & ? & ? & ?). exists into, o, h1. auto.
Qed.
Lemma last_cons_some {A} (x y : A) l : last l = Some x -> last (y :: l) = Some x.
Proof. intros H. rewrite last_cons. by rewrite H. Qed.
Lemma graceful_loop_accounts env vmm root pre0 evs h h' rs r :
  asked_graceful pre0 -> graceful_loop env vmm evs h = (h', rs, Some r) ->
  exists pre ev post, evs = pre ++ ev :: post /\ existsb decisive pre = false /\
    accounts env vmm root (pre0 ++ pre) ev rs r.
Proof.
  intros Hask. assert (Hpre : forall pre, asked_graceful (pre0 ++ pre)) by (intros; apply asked_graceful_app; auto).
  revert h h' rs. induction evs as [|ev evs IH]; intros h h' rs; [done|].
  destruct ev as [status|[t| |into o]| |]; cbn [graceful_loop].
  - intros [= <- <- <-]. exists [], (EvEnded status), evs. split_and!; try done. unfold graceful_end.
    destruct (natural_end_bad env status) as [[-> Hb]|[-> Hb]]; exists status; auto.
  - intros (pre & ev & post & -> & Hd & Ha)%IH. exists (EvStop (StopGraceful t) :: pre), ev, post.
    split_and!; [done..|]. revert Ha. apply accounts_more; [split; intros _; apply Hpre|done].
  - intros [= <- <- <-]. exists [], (EvStop StopForce), evs. split_and!; try done. by left.
  - destruct (graceful_loop _ _ evs h) as [[h1 rs1] r1] eqn:E. intros [= <- <- ->].
    destruct (IH _ _ _ E) as (pre & ev & post & -> & Hd & Ha).
    exists (EvStop (StopPark into o) :: pre), ev, post. split_and!; [done..|]. revert Ha.
    apply accounts_more; [split; intros _; apply Hpre|intros x; apply last_cons_some].
  - intros [= <- <- <-]. exists [], EvClosed, evs. split_and!; try done. right; by left.
  - intros [= <- <- <-]. exists [], EvDeadline, evs. split_and!; try done. do 2 right; left. auto.
Qed.
Lemma run_until_ended_accounts env vmm root evs h h' rs r :
  run_until_ended env vmm root evs h = (h', rs, Some r) ->
  exists pre ev post, evs = pre ++ ev :: post /\ existsb decisive pre = false /\ accounts env vmm root pre ev rs r.
Proof.
  assert (Hnil : ~ asked_graceful []) by (intros [t H]; by apply elem_of_nil in H).
  assert (Hcons : forall ev pre, (forall t, ev <> EvStop (StopGraceful t)) -> (asked_graceful pre <-> asked_graceful (ev :: pre))).
  { intros ev pre Hne. split; intros [t H]; exists t; [by right|]. apply elem_of_cons in H as [H|H]; [|done].
    by destruct (Hne t). }
  revert h h' rs. induction evs as [|ev evs IH]; intros h h' rs; [done|].
  destruct ev as [status|[t| |into o]| |]; cbn [run_until_ended].
  - intros [= <- <- <-]. exists [], (EvEnded status), evs. split_and!; try done.
    apply vmm_natural_end_accounts. by left.
  - unfold graceful_stop. destruct (se_hang env); [done|]. destruct (se_ctrl_alt_del env) as [c|] eqn:Hc.
    + destruct (se_ended env) as [status|] eqn:He; intros [= <- <- <-]; exists [], (EvStop (StopGraceful t)), evs;
        split_and!; try done.
      * apply vmm_natural_end_accounts. right. rewrite Hc. eauto.
      * do 3 right; left. rewrite Hc. eauto.
    + intros (pre & ev & post & -> & Hd & Ha)%(graceful_loop_accounts _ _ root [EvStop (StopGraceful t)]).
      2: { exists t. left. }
      by exists (EvStop (StopGraceful t) :: pre), ev, post.
  - intros [= <- <- <-]. exists [], (EvStop StopForce), evs. split_and!; try done. by left.
  - destruct (park_hung o root into h); [done|]. destruct (park o vmm root into h) as [h1 [[]|[e|e]]] eqn:Hp.
    + intros [= <- <- <-]. exists [], (EvStop (StopPark into o)), evs. split_and!; try done.
      exists into, o, h. by rewrite Hp.
    + destruct (run_until_ended env vmm root evs h1) as [[h2 rs2] r2] eqn:E. intros [= <- <- ->].
      destruct (IH _ _ _ E) as (pre & ev & post & -> & Hd & Ha).
      exists (EvStop (StopPark into o) :: pre), ev, post. split_and!; [done..|]. revert Ha.
      apply accounts_more; [by apply Hcons|intros x; apply last_cons_some].
    + intros [= <- <- <-]. exists [], (EvStop (StopPark into o)), evs. split_and!; try done.
      do 4 right. exists into, o, h, e. by rewrite Hp.
  - intros [= <- <- <-]. exists [], EvClosed, evs. split_and!; try done. right; by left.
  - intros (pre & ev & post & -> & Hd & Ha)%IH. exists (EvDeadline :: pre), ev, post. split_and!; [done..|].
    revert Ha. apply accounts_more; [by apply Hcons|done].
Qed.

(** C20: What a supervisor reports is true of what happened. When it ends,
    its VMM is not running, and it ended at one event, before which the VMM
    was not seen to end, no forced stop came and the agent's side was there,
    and that event accounts for the reason ([accounts]): [Exited] and
    [Crashed] only where the VMM ended by itself (it was seen to, with no
    graceful stop under way, or had when Ctrl-Alt-Del failed), [Crashed] when
    its exit status was bad, its console's tail shows a kernel panic or the
    kernel killed it for memory, and [Exited] when none of these is so;
    [Graceful] only where it ended, and not badly, after a graceful stop was
    asked for; [Forced] only at a forced stop, the agent's side closing, a
    graceful stop's deadline, a Ctrl-Alt-Del that failed with the VMM still
    there, or a park that lost it; [Parked] exactly when the last park was
    answered [Ok], every other one having been answered its error; and never
    [AgentDown]. *)
Theorem supervisor_reports_truly env u v evs h h' rs r vmm :
  vm_vmm v = Some vmm ->
  run_until_ended env vmm (vm_jail_root v) evs h = (h', rs, Some r) ->
  supervise env u v evs h = (teardown u v h', rs, Some r) /\
  ho_procs h' !! vmm_pid vmm = None /\
  (exists pre ev post, evs = pre ++ ev :: post /\ existsb decisive pre = false /\
     accounts env vmm (vm_jail_root v) pre ev rs r) /\
  (r = Parked <-> exists errs, rs = errs ++ [Ok tt] /\ Forall (fun x => is_ok x = false) errs) /\
  (r <> Parked -> Forall (fun x => is_ok x = false) rs).
Proof.
  intros Hv Hr. pose proof (run_until_ended_spec _ _ _ _ _ _ _ _ Hr) as [Hd Hs].
  assert (forall errs, rs = errs ++ [Ok tt] -> ~ Forall (fun x => is_ok x = false) rs) as Hno.
  { intros errs -> Hall. apply Forall_app in Hall as [_ Hall]. by inversion Hall. }
  split_and!; [|done|by eapply run_until_ended_accounts| |].
  - unfold supervise. by rewrite Hv, Hr.
  - split; [by intros ->|]. intros (errs & Heq & _). destruct r; try done;
      exfalso; eapply Hno; try done. apply Hs.
  - intros Hne. destruct r; try done. apply Hs.
Qed.

Definition example_events : list Event :=
  [EvStop (StopPark example_snapshot
     (mkParkOutcome (Some "no space") None (Ok ("s", "m")) None (fun _ => None) None));
   EvStop (StopPark example_snapshot example_park)].
Definition example_vm : Vm := mkVm (Some (Child 7)) [] "" "/j" "" None.
Definition example_env : SupEnv := mkSupEnv false None None None None.

Lemma supervisor_reports_truly_witness :
  (supervise example_env (undo_ok 0) example_vm example_events example_running).2 = Some Parked.
Proof.
  pose (r := run_until_ended example_env (Child 7) "/j" example_events example_running).
  refine (f_equal snd (proj1 (supervisor_reports_truly example_env (undo_ok 0) example_vm
    example_events example_running r.1.1 r.1.2 Parked (Child 7) eq_refl _))).
  vm_compute. reflexivity.
Defined.

(** Firecracker answers every call a supervisor makes. *)
Definition calls_answered (env : SupEnv) (evs : list Event) : Prop :=
  se_hang env = false /\ forall into o, EvStop (StopPark into o) ∈ evs -> pf_hang o = None.
Lemma park_hung_answered o root into h : pf_hang o = None -> park_hung o root into h = None.
Proof. unfold park_hung. by intros ->. Qed.



(** A forced stop doesn't reach a VM whose Firecracker never answers: while a
    park or a graceful stop waits for it, the supervisor looks at neither the
    stops sent to it nor the VMM, and has no reason to end. *)
Theorem hung_call_blocks_forced_stop env vmm root into o evs h t :
  (pf_hang o = Some CallPause -> pf_mkdir o = None ->
   (run_until_ended env vmm root (EvStop (StopPark into o) :: EvStop StopForce :: evs) h).2 = None) /\
  (se_hang env = true ->
   (run_until_ended env vmm root (EvStop (StopGraceful t) :: EvStop StopForce :: evs) h).2 = None).
Proof.
  split.
  - intros Hh Hm. cbn [run_until_ended]. unfold park_hung. by rewrite Hh, Hm.
  - intros Hh. cbn [run_until_ended]. unfold graceful_stop. by rewrite Hh.
Qed.

(** ** Which process it is *)

(** The text of [/proc/<pid>/stat]: the pid, the command in parentheses, then
    the state and the rest. *)
Definition stat_text (pid : N) (comm : string) (state : ascii) (fields : list string) : string :=
  dec pid +:+ " (" +:+ comm +:+ String ")" (spaced (String state "" :: fields) nl).

Lemma proc_stat_text pid comm state fields start :
  is_graphic state = true -> state <> ")"%char ->
  Forall word fields -> Forall (fun f => str_contains ")" f = false) fields ->
  fields !! 18 = Some (dec start) -> (start <= u64_max)%N ->
  proc_stat (Some (stat_text pid comm state fields)) = Some (state, start).
Proof.
  intros Hg Hne Hw Hp Hf Hs. unfold proc_stat, stat_text. rsimpl.
  rewrite <- !str_app_assoc, rsplit_once_app.
  2:{ apply spaced_not_contains; [done|done|]. constructor; [|done]. cbn [str_contains].
      by rewrite decide_False. }
  rsimpl. rewrite split_whitespace_spaced; [|by right|].
  2:{ constructor; [|done]. split; [done|]. simpl. by rewrite Hg. }
  rewrite !lookup_cons. cbn [lookup list_lookup]. rsimpl. rewrite Hf. rsimpl.
  rewrite parse_uint_dec. by destruct (N.leb_spec start u64_max); [|lia].
Qed.

(** A VMM is never mistaken for another process. Whatever its command is
    called, spaces and parentheses included, the state and start time are
    read from the right fields of [/proc/<pid>/stat]; a recorded process
    counts as running exactly when one with its pid is there with the
    recorded start time and isn't a zombie. *)
Theorem process_identity pid comm state fields start p :
  is_graphic state = true -> state <> ")"%char ->
  Forall word fields -> Forall (fun f => str_contains ")" f = false) fields ->
  fields !! 18 = Some (dec start) -> (start <= u64_max)%N ->
  let stat := Some (stat_text pid comm state fields) in
  process_of pid stat = Some (mkProcessId pid start) /\
  (stat_is_running p stat = true <-> state <> "Z"%char /\ start = pr_start_time p).
Proof.
  intros Hg Hne Hw Hp Hf Hs stat.
  pose proof (proc_stat_text pid comm state fields start Hg Hne Hw Hp Hf Hs) as H.
  unfold process_of, stat_is_running, stat. rewrite H. split; [done|].
  rewrite andb_true_iff, negb_true_iff, bool_decide_eq_false, N.eqb_eq. done.
Qed.

Definition example_fields : list string := (fun n => dec n) <$> [1; 42; 42; 0; 4194304; 1; 2; 3; 4;
  5; 6; 7; 8; 20; 0; 1; 0; 0; 123456; 9]%N.

Lemma process_identity_witness :
  process_of 42 (Some (stat_text 42 "a (b) c) S 1 2" "S" example_fields)) =
  Some (mkProcessId 42 123456).
Proof.
  refine (proj1 (process_identity 42 "a (b) c) S 1 2" "S" example_fields 123456
    (mkProcessId 42 0) _ _ _ _ _ _)); [done|done| | |done|done].
  - apply Forall_fmap, Forall_true. intros n. apply word_dec.
  - apply Forall_fmap, Forall_true. intros n. by apply dec_not_contains.
Defined.

(** ** What a later agent cleans up *)

Lemma undo_steps_own node id : Forall (own_undo node id) (undo_steps node id).
Proof.
  unfold undo_steps, own_undo. rewrite !Forall_cons.
  split_and!; [by left|right; by left|do 2 right; by left|by do 3 right|constructor].
Qed.
Lemma undo_steps_has node id u : own_undo node id u -> has u (undo_steps node id) = true.
Proof.
  intros Hu. apply has_spec. unfold undo_steps. rewrite !elem_of_cons.
  destruct Hu as [->|[->|[->| ->]]]; auto.
Qed.

(** What [clean_up] does: everything named after the VM goes, with whatever
    ran in its cgroup. *)
Lemma clean_up_spec busy node a h :
  busy <= CGROUP_POLL_ATTEMPTS ->
  let id := host_id a in
  let killed := default ∅ (ho_cgroups h !! cgroup_of id) in
  clean_up (undo_ok busy) node a h = {|
    ho_netns := delete id (ho_netns h);
    ho_links := ho_links h ∖ {[id]};
    ho_dirs := remove_tree (jail_dir node id) (ho_dirs h);
    ho_cgroups := delete (cgroup_of id) ((fun ps => ps ∖ killed) <$> ho_cgroups h);
    ho_procs := filter (fun p => p.1 ∉ killed) (ho_procs h);
    ho_logs := ho_logs h;
    ho_io := ho_io h |}.
Proof.
  intros Hbusy id killed. unfold clean_up. fold id.
  assert (kill_cgroup None (cgroup_of id) h = kill_pids killed h) as Hk.
  { unfold kill_cgroup, killed. destruct (ho_cgroups h !! cgroup_of id); simpl; [done|].
    unfold kill_pids, set_procs, set_cgroups. destruct h as [ns ln ds cs ps ls io]; simpl. f_equal.
    - rewrite <- (map_fmap_id cs) at 1. apply map_fmap_ext. intros. set_solver.
    - symmetry. apply map_filter_id. set_solver. }
  cbn [undo_ok uo_kill]. rewrite Hk.
  rewrite (run_undos_spec node id (undo_ok busy) _ _ (undo_steps_own node id)).
  - unfold undone. rewrite !undo_ok_works, !undo_steps_has;
      [done|right; right; by left|right; by left|by do 3 right|by left|done..].
  - intros ps. unfold kill_pids; simpl. rewrite lookup_fmap. unfold killed.
    destruct (ho_cgroups h !! cgroup_of id); [|done]. simpl. intros [= <-]. set_solver.
Qed.

(** Some host object carries the VM's name. *)
Definition has_state (node : NodeConfig) (a : Ipv4Addr) (h : Host) : Prop :=
  is_Some (ho_netns h !! host_id a) \/ host_id a ∈ ho_links h \/
  (exists k, is_Some (ho_dirs h !! k) /\ under (jail_dir node (host_id a)) k = true) \/
  is_Some (ho_cgroups h !! cgroup_of (host_id a)).

Lemma id_free_iff node a h : id_free node a h <-> ~ has_state node a h.
Proof.
  unfold has_state. split.
  - intros [Hn Hl Hd Hc]. rewrite Hn, Hc. intros [[? [=]]|[?|[(k & [d Hk] & Hu)|[? [=]]]]]; [done|].
    by rewrite (remove_tree_lookup _ _ _ Hd Hu) in Hk.
  - intros H. split.
    + apply eq_None_not_Some. tauto.
    + tauto.
    + apply map_filter_id. intros k d Hk. simpl. apply not_true_is_false. intros Hu.
      apply H. right; right; left. eauto.
    + apply eq_None_not_Some. tauto.
Qed.

Lemma hex_digit_not_slash n : hex_digit n <> "/"%char.
Proof. unfold hex_digit. repeat case_match; done. Qed.
Lemma host_id_no_slash a : str_contains "/" (host_id a) = false.
Proof.
  unfold host_id. destruct (octets a) as [[[? ?] c] d]. unfold hex2.
  rewrite !str_contains_app. cbn [str_contains].
  repeat rewrite (decide_False (P := _ = hex_digit _)) by
    (intros Heq; by apply (hex_digit_not_slash _ (eq_sym Heq))).
  done.
Qed.

Lemma child_of_tree base id k :
  base <> "" -> str_contains "/" id = false -> under (path_join base id) k = true ->
  child_of base k = Some id.
Proof.
  intros Hb Hid. unfold under. rewrite path_join_slash by done. unfold child_of.
  intros [Heq|[r ->]%starts_with_true]%orb_true_iff.
  - apply bool_decide_eq_true in Heq as ->.
    rewrite <- str_app_assoc, strip_prefix_app. rsimpl.
    by apply split_once_none in Hid as ->.
  - rewrite !str_app_assoc, <- (str_app_assoc base), strip_prefix_app. rsimpl.
    change ("/" +:+ r) with (String "/" r). by rewrite split_once_app.
Qed.

(** Whatever a VM left, its owner is found. *)
Lemma owners_complete node a h :
  has_state node a h -> low16 a ∈ host_state_owners node h.
Proof.
  intros Hs. unfold host_state_owners. apply elem_of_list_to_set, list_elem_of_omap.
  exists (host_id a). split; [|apply parse_host_id_host_id].
  rewrite !elem_of_app. destruct Hs as [[l Hn]|[Hl|[(k & [d Hk] & Hu)|[ps Hc]]]].
  - left. apply list_elem_of_fmap. exists (host_id a, l). split; [done|]. by apply elem_of_map_to_list.
  - right; left. by apply elem_of_elements.
  - right; right; left. apply list_elem_of_omap. exists k. split.
    + apply list_elem_of_fmap. exists (k, d). split; [done|]. by apply elem_of_map_to_list.
    + apply child_of_tree; [by apply path_join_nonempty|apply host_id_no_slash|done].
  - right; right; right. apply list_elem_of_omap. exists (cgroup_of (host_id a)). split.
    + apply list_elem_of_fmap. exists (cgroup_of (host_id a), ps). split; [done|].
      by apply elem_of_map_to_list.
    + apply child_of_tree; [done|apply host_id_no_slash|]. apply under_refl.
Qed.
