(* ===== verification/Firecracker.v ===== *)
(** * Talking to Firecracker ([crates/cirro-node/src/firecracker.rs])

    The client's requests as data, sent to any API, and what [vm.rs] asks of
    it to start, park, wake and stop a VM. What Firecracker makes of a request
    is its own: [applied] is what its API documentation says a request does
    in each state a VM can be in, and an API that keeps to it is a hypothesis
    of the theorems. *)

From S2P Require Import Prelude RustStr Proto Subnet Store Validate Vm VmLaws VmEnd.

(** ** Requests *)

(** [serde_json::Value], as far as the bodies go. *)
Inductive Json :=
| JString (s : string)
| JNumber (n : N)
| JBool (b : bool)
| JObject (fields : list (string * Json)).
Inductive FcMethod := PUT | PATCH.
Definition fc_method_str (m : FcMethod) : string := match m with PUT => "PUT" | PATCH => "PATCH" end.
Record FcRequest := mkFcRequest { fr_method : FcMethod; fr_path : string; fr_body : Json }.
(** What comes back: nothing, or a status with a body that may not be read. *)
Inductive FcAnswer := Unreached (debug : string) | Responded (status : N) (body : option string).
(** [StatusCode::is_success]. *)
Definition is_success (status : N) : bool := (200 <=? status)%N && (status <? 300)%N.

(** [Error], and how it is shown; [status_text] is how [StatusCode] is. *)
Inductive FcError := Connect (e : string) | Request (path : string) (status : N) (body : string).
Definition fc_error_text (status_text : N -> string) (e : FcError) : string :=
  match e with
  | Connect e => "connect to firecracker API socket: " +:+ e
  | Request path status body => path +:+ " -> " +:+ status_text status +:+ ": " +:+ body
  end.

Record BootConfig := mkBootConfig {
  bc_kernel_image_path : string;
  bc_boot_args : string;
  bc_rootfs_path : string;
  bc_vcpu_count : N;
  bc_mem_size_mib : N;
}.

(** ** The client *)

Section client.
Context {S : Type} (api : S -> FcRequest -> S * FcAnswer).

(** Operations, with the requests they sent. *)
Definition fcM (A : Type) : Type := S -> S * list FcRequest * result FcError A.
#[global] Instance fc_ret : MRet fcM := fun _ a s => (s, [], Ok a).
#[global] Instance fc_bind : MBind fcM := fun _ _ k m s =>
  match m s with
  | (s, l, Ok a) => let '(s, l', r) := k a s in (s, l ++ l', r)
  | (s, l, Err e) => (s, l, Err e)
  end.

(** [Client::send]; a body that can't be read is empty. *)
Definition send (method : FcMethod) (path : string) (body : Json) : fcM unit := fun s =>
  let request := mkFcRequest method path body in
  let '(s, answer) := api s request in
  (s, [request],
   match answer with
   | Unreached debug => Err (Connect debug)
   | Responded status body =>
       if is_success status then Ok tt
       else Err (Request (fc_method_str method +:+ " " +:+ path) status (default "" body))
   end).
Definition put (path : string) (body : Json) : fcM unit := send PUT path body.

Definition attach_tap (iface_id host_dev_name : string) : fcM unit :=
  put ("/network-interfaces/" +:+ iface_id)
    (JObject [("iface_id", JString iface_id); ("host_dev_name", JString host_dev_name)]).
Definition attach_vsock (guest_cid : N) (uds_path : string) : fcM unit :=
  put "/vsock" (JObject [("guest_cid", JNumber guest_cid); ("uds_path", JString uds_path)]).
Definition send_ctrl_alt_del : fcM unit := put "/actions" (JObject [("action_type", JString "SendCtrlAltDel")]).
Definition set_vm_state (state : string) : fcM unit := send PATCH "/vm" (JObject [("state", JString state)]).
Definition pause : fcM unit := set_vm_state "Paused".
Definition resume : fcM unit := set_vm_state "Resumed".
Definition create_snapshot (vmstate mem : string) : fcM unit :=
  put "/snapshot/create"
    (JObject [("snapshot_type", JString "Full"); ("snapshot_path", JString vmstate); ("mem_file_path", JString mem)]).
Definition load_snapshot (vmstate mem : string) : fcM unit :=
  put "/snapshot/load"
    (JObject [("snapshot_path", JString vmstate);
              ("mem_backend", JObject [("backend_type", JString "File"); ("backend_path", JString mem)]);
              ("resume_vm", JBool true)]).
Definition boot (config : BootConfig) : fcM unit :=
  _ ← put "/machine-config"
        (JObject [("vcpu_count", JNumber (bc_vcpu_count config)); ("mem_size_mib", JNumber (bc_mem_size_mib config))]);
  _ ← put "/boot-source"
        (JObject [("kernel_image_path", JString (bc_kernel_image_path config)); ("boot_args", JString (bc_boot_args config))]);
  _ ← put "/drives/rootfs"
        (JObject [("drive_id", JString "rootfs"); ("path_on_host", JString (bc_rootfs_path config));
                  ("is_root_device", JBool true); ("is_read_only", JBool false)]);
  put "/actions" (JObject [("action_type", JString "InstanceStart")]).

(** ** What [vm.rs] asks *)

Definition VSOCK_GUEST_CID : N := 3.
Definition VSOCK_SOCKET_IN_JAIL : string := "v.sock".
Definition boot_config (spec : VmSpec) : BootConfig :=
  mkBootConfig "/vmlinux"
    ("console=ttyS0 reboot=k panic=1 init=/init ip=" +:+ ipv4_display GUEST_ADDRESS +:+ "::"
      +:+ ipv4_display GUEST_GATEWAY +:+ ":255.255.255.252::eth0:off")
    "/rootfs.ext4" (sp_vcpus spec) (sp_mem_mib spec).

Context (status_text : N -> string).
Definition fault_of (r : result FcError unit) : fault :=
  match r with Ok _ => None | Err e => Some (fc_error_text status_text e) end.
(** The three calls of [start_steps], each made when those before it were
    accepted, and what they answer it. *)
Definition start_client (spec : VmSpec) (s : S) : S * list FcRequest * (fault * fault * fault) :=
  let '(s, l, r) := attach_tap "eth0" "tap0" s in
  if negb (is_ok r) then (s, l, (fault_of r, None, None))
  else
    let '(s, l', r) := attach_vsock VSOCK_GUEST_CID ("/" +:+ VSOCK_SOCKET_IN_JAIL) s in
    if negb (is_ok r) then (s, l ++ l', (None, fault_of r, None))
    else
      let '(s, l'', r) := boot (boot_config spec) s in
      (s, l ++ l' ++ l'', (None, None, fault_of r)).
Definition with_calls (calls : fault * fault * fault) (o : StartOutcome) : StartOutcome :=
  mkStartOutcome (sf_host o) (sf_kernel_link o) (sf_kernel_copy o) (sf_rootfs_create o) (sf_rootfs_copy o)
    (sf_rootfs_chown o) calls.1.1 calls.1.2 calls.2 (sf_config o) (sf_grace o) (sf_console_text o).
(** The call of [wake_steps]. *)
Definition wake_client (s : S) : S * list FcRequest * fault :=
  let '(s, l, r) := load_snapshot "/wake.vmstate" "/wake.mem" s in (s, l, fault_of r).
Definition with_load (load : fault) (o : WakeOutcome) : WakeOutcome :=
  mkWakeOutcome (wf_host o) (wf_move o) (wf_chown o) load (wf_back o) (wf_console_text o).
(** The calls of [park_steps]: none when its directory can't be made, the
    snapshot once the guest is paused, and the resume only when the snapshot
    fails. [written] is what Firecracker writes into the jail. *)
Definition park_client (written : string * string) (o : ParkOutcome) (s : S) : S * list FcRequest * ParkOutcome :=
  match pf_mkdir o with
  | Some _ => (s, [], o)
  | None =>
      let '(s, l, r) := pause s in
      if negb (is_ok r) then (s, l, mkParkOutcome None (fault_of r) (pf_snapshot o) (pf_resume o) (pf_move o) None)
      else
        match create_snapshot "/park.vmstate" "/park.mem" s with
        | (s, l', Ok _) => (s, l ++ l', mkParkOutcome None None (Ok written) (pf_resume o) (pf_move o) None)
        | (s, l', Err e) =>
            let '(s, l'', r) := resume s in
            (s, l ++ l' ++ l'',
             mkParkOutcome None None (Err (fc_error_text status_text e)) (fault_of r) (pf_move o) None)
        end
  end.
(** [Vm::resume], of a VM taken back. *)
Definition vm_resume (s : S) : S * list FcRequest * result string unit :=
  let '(s, l, r) := resume s in (s, l, map_err (err "resume the VM") (map_err (fc_error_text status_text) r)).
End client.

(** ** What Firecracker documents *)

(** The resources a VM is configured with before it starts. *)
Record VmResources := mkVmResources {
  vr_machine : option (N * N);
  vr_boot : option (string * string);
  vr_drives : gmap string (string * bool * bool);
  vr_nics : gmap string string;
  vr_vsock : option (N * string);
}.
#[global] Instance vm_resources_eq_dec : EqDecision VmResources.
Proof. solve_decision. Defined.
Definition no_resources : VmResources := mkVmResources None None ∅ ∅ None.
Inductive Guest := Booted (r : VmResources) | Restored (vmstate mem : string).
Inductive FcState := NotStarted (r : VmResources) | GuestRuns (g : Guest) | GuestPaused (g : Guest).

Definition field (name : string) (body : Json) : option Json :=
  match body with JObject fields => snd <$> find_first (fun f => bool_decide (f.1 = name)) fields | _ => None end.
Definition str_field (name : string) (body : Json) : option string :=
  match field name body with Some (JString s) => Some s | _ => None end.
Definition num_field (name : string) (body : Json) : option N :=
  match field name body with Some (JNumber n) => Some n | _ => None end.
Definition bool_field (name : string) (body : Json) : option bool :=
  match field name body with Some (JBool b) => Some b | _ => None end.

(** A resource's request. *)
Definition configure (path : string) (body : Json) (r : VmResources) : option VmResources :=
  if bool_decide (path = "/machine-config") then
    v ← num_field "vcpu_count" body; m ← num_field "mem_size_mib" body;
    Some (mkVmResources (Some (v, m)) (vr_boot r) (vr_drives r) (vr_nics r) (vr_vsock r))
  else if bool_decide (path = "/boot-source") then
    k ← str_field "kernel_image_path" body; args ← str_field "boot_args" body;
    Some (mkVmResources (vr_machine r) (Some (k, args)) (vr_drives r) (vr_nics r) (vr_vsock r))
  else if bool_decide (path = "/vsock") then
    cid ← num_field "guest_cid" body; uds ← str_field "uds_path" body;
    Some (mkVmResources (vr_machine r) (vr_boot r) (vr_drives r) (vr_nics r) (Some (cid, uds)))
  else
    match strip_prefix "/drives/" path, strip_prefix "/network-interfaces/" path with
    | Some id, _ =>
        file ← str_field "path_on_host" body; root ← bool_field "is_root_device" body;
        ro ← bool_field "is_read_only" body;
        if bool_decide (str_field "drive_id" body = Some id) then
          Some (mkVmResources (vr_machine r) (vr_boot r) (<[id := (file, root, ro)]> (vr_drives r)) (vr_nics r) (vr_vsock r))
        else None
    | None, Some id =>
        dev ← str_field "host_dev_name" body;
        if bool_decide (str_field "iface_id" body = Some id) then
          Some (mkVmResources (vr_machine r) (vr_boot r) (vr_drives r) (<[id := dev]> (vr_nics r)) (vr_vsock r))
        else None
    | None, None => None
    end.
(** The state after a request that is accepted; [None] for one that never is
    in this state. Resources and [InstanceStart] come before a boot, a
    snapshot is loaded into a VM with none, and the rest comes after. *)
Definition applied (st : FcState) (request : FcRequest) : option FcState :=
  let path := fr_path request in
  let body := fr_body request in
  match st, fr_method request with
  | NotStarted r, PUT =>
      if bool_decide (path = "/actions") then
        if bool_decide (str_field "action_type" body = Some "InstanceStart") && bool_decide (is_Some (vr_boot r))
        then Some (GuestRuns (Booted r)) else None
      else if bool_decide (path = "/snapshot/load") then
        vmstate ← str_field "snapshot_path" body; backend ← field "mem_backend" body;
        mem ← str_field "backend_path" backend; resumed ← bool_field "resume_vm" body;
        if bool_decide (r = no_resources)
        then Some ((if resumed : bool then GuestRuns else GuestPaused) (Restored vmstate mem)) else None
      else NotStarted <$> configure path body r
  | NotStarted _, PATCH => None
  | GuestRuns g, PATCH | GuestPaused g, PATCH =>
      if bool_decide (path = "/vm") then
        state ← str_field "state" body;
        if bool_decide (state = "Paused") then Some (GuestPaused g)
        else if bool_decide (state = "Resumed") then Some (GuestRuns g) else None
      else None
  | GuestRuns g, PUT =>
      if bool_decide (path = "/actions") && bool_decide (str_field "action_type" body = Some "SendCtrlAltDel")
      then Some st else None
  | GuestPaused g, PUT => if bool_decide (path = "/snapshot/create") then Some st else None
  end.

(** An API whose every answer comes. *)
Definition answers {S} (api : S -> FcRequest -> S * FcAnswer) : Prop :=
  forall s request, match (api s request).2 with Responded _ _ => True | Unreached _ => False end.

(** ** Guarantees *)

(** The guest a VM is started as, and the requests that make it so. *)
Definition spec_resources (spec : VmSpec) : VmResources :=
  let c := boot_config spec in
  mkVmResources (Some (sp_vcpus spec, sp_mem_mib spec)) (Some (bc_kernel_image_path c, bc_boot_args c))
    {["rootfs" := ("/rootfs.ext4", true, false)]} {["eth0" := "tap0"]} (Some (3%N, "/v.sock")).
Definition start_requests (spec : VmSpec) : list FcRequest :=
  let c := boot_config spec in
  [mkFcRequest PUT "/network-interfaces/eth0" (JObject [("iface_id", JString "eth0"); ("host_dev_name", JString "tap0")]);
   mkFcRequest PUT "/vsock" (JObject [("guest_cid", JNumber 3); ("uds_path", JString "/v.sock")]);
   mkFcRequest PUT "/machine-config"
     (JObject [("vcpu_count", JNumber (sp_vcpus spec)); ("mem_size_mib", JNumber (sp_mem_mib spec))]);
   mkFcRequest PUT "/boot-source"
     (JObject [("kernel_image_path", JString "/vmlinux"); ("boot_args", JString (bc_boot_args c))]);
   mkFcRequest PUT "/drives/rootfs"
     (JObject [("drive_id", JString "rootfs"); ("path_on_host", JString "/rootfs.ext4"); ("is_root_device", JBool true);
               ("is_read_only", JBool false)]);
   mkFcRequest PUT "/actions" (JObject [("action_type", JString "InstanceStart")])].

(** The requests of a park, a resume and a wake. *)
Definition other_requests : list FcRequest :=
  [mkFcRequest PATCH "/vm" (JObject [("state", JString "Paused")]);
   mkFcRequest PATCH "/vm" (JObject [("state", JString "Resumed")]);
   mkFcRequest PUT "/snapshot/create" (JObject [("snapshot_type", JString "Full");
     ("snapshot_path", JString "/park.vmstate"); ("mem_file_path", JString "/park.mem")]);
   mkFcRequest PUT "/snapshot/load" (JObject [("snapshot_path", JString "/wake.vmstate");
     ("mem_backend", JObject [("backend_type", JString "File"); ("backend_path", JString "/wake.mem")]);
     ("resume_vm", JBool true)])].
Definition asked (request : FcRequest) : Prop :=
  (exists spec, request ∈ start_requests spec) \/ request ∈ other_requests.
(** An API that keeps to it for the requests the agent makes; of any other it
    says nothing. What it accepts is done, what it refuses isn't, and of a
    request whose answer never came either may be so. *)
Definition documented {S} (api : S -> FcRequest -> S * FcAnswer) (view : S -> FcState) : Prop :=
  forall s request, asked request ->
    let '(s', answer) := api s request in
    match answer with
    | Responded status _ =>
        if is_success status then applied (view s) request = Some (view s') else view s' = view s
    | Unreached _ => view s' = view s \/ applied (view s) request = Some (view s')
    end.

(** The states a sequence of accepted requests goes through. *)
Fixpoint reaches (st : FcState) (requests : list FcRequest) (states : list FcState) : Prop :=
  match requests, states with
  | [], [] => True
  | request :: requests, st' :: states => applied st request = Some st' /\ reaches st' requests states
  | _, _ => False
  end.
Definition start_states (spec : VmSpec) : list FcState :=
  let c := boot_config spec in
  let nics : gmap string string := {["eth0" := "tap0"]} in
  let machine := Some (sp_vcpus spec, sp_mem_mib spec) in
  [NotStarted (mkVmResources None None ∅ nics None);
   NotStarted (mkVmResources None None ∅ nics (Some (3%N, "/v.sock")));
   NotStarted (mkVmResources machine None ∅ nics (Some (3%N, "/v.sock")));
   NotStarted (mkVmResources machine (Some ("/vmlinux", bc_boot_args c)) ∅ nics (Some (3%N, "/v.sock")));
   NotStarted (spec_resources spec);
   GuestRuns (Booted (spec_resources spec))].
Lemma start_reaches spec : reaches (NotStarted no_resources) (start_requests spec) (start_states spec).
Proof.
  unfold start_requests, start_states, spec_resources, boot_config. cbn [bc_boot_args bc_kernel_image_path].
  generalize (ipv4_display GUEST_ADDRESS), (ipv4_display GUEST_GATEWAY). intros a g.
  cbn [reaches].
  repeat (split; [reflexivity|]). exact I.
Qed.

Lemma start_asked spec : Forall asked (start_requests spec).
Proof. apply Forall_forall. intros request H. left. eauto. Qed.

Section laws.
Context {S : Type} (api : S -> FcRequest -> S * FcAnswer) (view : S -> FcState) (status_text : N -> string).
Context (Hdoc : documented api view).

Lemma send_view method path body s :
  let request := mkFcRequest method path body in
  asked request ->
  let '(s', l, r) := send api method path body s in
  l = [request] /\
  match r with
  | Ok _ => applied (view s) request = Some (view s')
  | Err (Request p _ _) => view s' = view s /\ p = fc_method_str method +:+ " " +:+ path
  | Err (Connect _) => view s' = view s \/ applied (view s) request = Some (view s')
  end.
Proof.
  intros request Hask. specialize (Hdoc s request Hask). unfold send. fold request. destruct (api s request) as [s' [debug|status b]].
  - done.
  - split; [done|]. by destruct (is_success status).
Qed.

(** The requests in order, until one fails. *)
Fixpoint send_all (requests : list FcRequest) : fcM (S := S) unit :=
  match requests with
  | [] => mret tt
  | r :: requests => _ ← send api (fr_method r) (fr_path r) (fr_body r); send_all requests
  end.
(** How far they got: all, or up to the one that failed. *)
Lemma send_all_view requests : forall s st states,
  view s = st -> reaches st requests states -> Forall asked requests ->
  let '(s', l, r) := send_all requests s in
  match r with
  | Ok _ => l = requests /\ view s' = default st (last states)
  | Err e => exists k req, requests !! k = Some req /\ l = take (Datatypes.S k) requests /\
      match e with
      | Request p _ _ => (st :: states) !! k = Some (view s') /\ p = fc_method_str (fr_method req) +:+ " " +:+ fr_path req
      | Connect _ => (st :: states) !! k = Some (view s') \/ states !! k = Some (view s')
      end
  end.
Proof.
  induction requests as [|[m p b] requests IH]; intros s st states Hv Hr Hk; destruct states as [|st' states]; try done.
  apply Forall_cons in Hk as [Hask Hk]. destruct Hr as [Ha Hr]. simpl send_all. unfold mbind, fc_bind.
  pose proof (send_view m p b s Hask) as Hs. cbn zeta in Hs.
  destruct (send api m p b s) as [[s1 l1] [[]|e]]; destruct Hs as [-> Hs]; rewrite Hv, Ha in Hs.
  - injection Hs as Hs. specialize (IH s1 st' states (eq_sym Hs) Hr Hk). destruct (send_all requests s1) as [[s2 l2] [[]|e]].
    + destruct IH as [-> Hl]. split; [done|]. rewrite last_cons. by destruct (last states).
    + destruct IH as (k & req & Hreq & -> & He). by exists (Datatypes.S k), req.
  - exists 0, (mkFcRequest m p b). split; [done|]. split; [done|]. destruct e as [e|q st0 bd].
    + destruct Hs as [->|[= ->]]; [by left|by right].
    + destruct Hs as [-> ->]. done.
Qed.

(** With every answer there, nothing fails but by a refusal. *)
Lemma send_all_answers requests s :
  let '(_, _, r) := send_all requests s in answers api -> match r with Err (Connect _) => False | _ => True end.
Proof.
  revert s. induction requests as [|[m p b] requests IH]; intros s; [done|].
  simpl send_all. unfold mbind, fc_bind, send. destruct (api s (mkFcRequest m p b)) as [s1 a] eqn:E.
  destruct a as [debug|status body].
  - intros Ha. specialize (Ha s (mkFcRequest m p b)). by rewrite E in Ha.
  - destruct (is_success status); [|done]. specialize (IH s1). by destruct (send_all requests s1) as [[s2 l2] r].
Qed.

(** [start_client] is its requests in order. *)
Lemma start_client_sends spec s :
  let '(s', l, calls) := start_client api status_text spec s in
  let '(s1, l1, r) := send_all (start_requests spec) s in
  s' = s1 /\ l = l1 /\ (calls = (None, None, None) <-> is_ok r = true).
Proof.
  unfold start_client, attach_tap, attach_vsock, put, boot, start_requests. unfold VSOCK_GUEST_CID, VSOCK_SOCKET_IN_JAIL.
  unfold send_all, mbind, fc_bind, put, mret, fc_ret. cbn [fr_method fr_path fr_body].
  change ("/network-interfaces/" +:+ "eth0") with "/network-interfaces/eth0". change ("/" +:+ "v.sock") with "/v.sock".
  cbn [boot_config bc_vcpu_count bc_mem_size_mib bc_kernel_image_path bc_boot_args bc_rootfs_path].
  repeat (match goal with |- context [send api ?m ?p ?b ?s] => destruct (send api m p b s) as [[? ?] [[]|?]] end; cbn [is_ok negb fault_of]; try by rewrite ?app_nil_r).
  all: by rewrite ?app_nil_r.
Qed.
End laws.

Lemma vm_step_ok what f s s' a : vm_step what f s = (s', Ok a) -> f = None.
Proof. unfold vm_step, vm_try. by destruct f. Qed.
Lemma vm_start_calls o u node spec h h' v :
  vm_start o u node spec h = (h', Ok v) -> (sf_tap o, sf_vsock o, sf_boot o) = (None, None, None).
Proof.
  unfold vm_start. destruct (start_steps _ _ _ _) as [[v1 h1] [[]|e]] eqn:H; [|done]. intros _.
  unfold start_steps in H. do 9 (apply bind_Ok_inv in H as (? & ? & _ & H)).
  do 3 (apply bind_Ok_inv in H as (? & ? & ->%vm_step_ok & H)). done.
Qed.
Lemma vm_wake_load o u node spec h h' v : vm_wake o u node spec h = (h', Ok v) -> wf_load o = None.
Proof.
  unfold vm_wake. destruct (wake_steps _ _ _ _) as [[v1 h1] [[]|e]] eqn:H; [|done]. intros _.
  unfold wake_steps in H. do 4 (apply bind_Ok_inv in H as (? & ? & _ & H)). unfold vm_try in H. by destruct (wf_load o).
Qed.

(** C14: A VM runs the guest it was asked for, or none. Let Firecracker keep
    to its documentation and start fresh. Whatever it refuses, whatever answer
    is lost and whatever else fails in [Vm::start]: if the start succeeds, the
    guest runs with exactly the specified vCPUs and memory, the kernel, the
    writable root drive, the tap and the vsock of its jail; a guest that runs
    at all runs with those; the requests sent are the start's, in order, up to
    the first that failed, and after a refusal the guest doesn't run. *)
Theorem vm_runs_the_guest_asked_for {S} (api : S -> FcRequest -> S * FcAnswer) (view : S -> FcState)
    (status_text : N -> string) (spec : VmSpec) (o : StartOutcome) (u : UndoOutcome) (node : NodeConfig) (h : Host) (s : S) :
  documented api view -> view s = NotStarted no_resources ->
  let '(s', sent, calls) := start_client api status_text spec s in
  let '(h', r) := vm_start (with_calls calls o) u node spec h in
  (is_ok r = true -> view s' = GuestRuns (Booted (spec_resources spec)) /\ sent = start_requests spec) /\
  (exists k, sent = take k (start_requests spec)) /\
  match view s' with
  | NotStarted _ => True
  | GuestRuns g => g = Booted (spec_resources spec) /\ sent = start_requests spec
  | GuestPaused _ => False
  end /\
  (answers api -> calls <> (None, None, None) -> exists res, view s' = NotStarted res).
Proof.
  intros Hdoc Hs. pose proof (start_client_sends api status_text spec s) as Hc.
  pose proof (send_all_view api view Hdoc (start_requests spec) s _ _ Hs (start_reaches spec)
    (start_asked spec)) as Hv.
  pose proof (send_all_answers api (start_requests spec) s) as Han.
  destruct (start_client api status_text spec s) as [[s' sent] calls].
  destruct (send_all api (start_requests spec) s) as [[s1 l1] r1]. destruct Hc as (-> & -> & Hcalls).
  destruct (vm_start _ _ _ _ _) as [h' r] eqn:Hstart. split_and!.
  - intros Hr. destruct r as [v|]; [|done]. apply vm_start_calls in Hstart. cbn in Hstart.
    assert (is_ok r1 = true) as Hok by (apply Hcalls; by destruct calls as [[? ?] ?]). destruct r1; [|done].
    destruct Hv as [-> ->]. done.
  - destruct r1 as [[]|e]; [|destruct Hv as (k & req & _ & -> & _); by eexists]. destruct Hv as [-> _].
    exists 6. reflexivity.
  - destruct r1 as [[]|e]; [by destruct Hv as [-> ->]|]. destruct Hv as (k & req & Hk & -> & Hst).
    assert (Hst' : (NotStarted no_resources :: start_states spec) !! k = Some (view s1) \/
      start_states spec !! k = Some (view s1)) by (destruct e; naive_solver).
    unfold start_states in Hst'. cbv zeta in Hst'.
    destruct Hst' as [Hst'|Hst']; do 7 (destruct k as [|k];
      [simpl in Hst'; first [discriminate Hst'|injection Hst' as Hst'; rewrite <-Hst'; done]|]); discriminate Hst'.
  - intros Ha Hne. destruct r1 as [[]|e]; [destruct (Hne (proj2 Hcalls eq_refl))|].
    destruct e as [e|p st b]; [by specialize (Han Ha)|]. destruct Hv as (k & req & Hk & _ & Hst & _).
    unfold start_states in Hst. cbv zeta in Hst.
    do 6 (destruct k as [|k]; [simpl in Hst; injection Hst as Hst; rewrite <-Hst; by eexists|]). discriminate Hk.
Qed.

(** ** Parking and waking *)

Section parking.
Context {S : Type} (api : S -> FcRequest -> S * FcAnswer) (view : S -> FcState) (status_text : N -> string).
Context (Hdoc : documented api view) (Hans : answers api).

(** With every answer there, a request is done or refused. *)
Lemma send_done method path body s :
  mkFcRequest method path body ∈ other_requests ->
  let '(s', l, r) := send api method path body s in
  l = [mkFcRequest method path body] /\
  if is_ok r then applied (view s) (mkFcRequest method path body) = Some (view s') else view s' = view s.
Proof.
  intros Hin. pose proof (send_view api view Hdoc method path body s (or_intror Hin)) as Hv. cbn zeta in Hv.
  pose proof (Hans s (mkFcRequest method path body)) as Ha. unfold send in *.
  destruct (api s _) as [s' [debug|status b]]; [done|]. destruct (is_success status); naive_solver.
Qed.

Lemma park_client_view written o s g :
  view s = GuestRuns g ->
  let '(s', sent, o') := park_client api status_text written o s in
  pf_mkdir o' = pf_mkdir o /\ pf_move o' = pf_move o /\
  match pf_mkdir o', pf_pause o', pf_snapshot o', pf_resume o' with
  | Some _, _, _, _ => view s' = GuestRuns g /\ sent = []
  | None, Some _, _, _ => view s' = GuestRuns g
  | None, None, Ok w, _ => view s' = GuestPaused g /\ w = written
  | None, None, Err _, None => view s' = GuestRuns g
  | None, None, Err _, Some _ => view s' = GuestPaused g
  end.
Proof.
  intros Hg. unfold park_client. destruct (pf_mkdir o) as [e|] eqn:Hm; [by rewrite Hm|].
  unfold pause, set_vm_state. pose proof (send_done PATCH "/vm" (JObject [("state", JString "Paused")]) s
    ltac:(left)) as H1.
  destruct (send api PATCH "/vm" _ s) as [[s1 l1] [[]|e1]]; destruct H1 as [_ H1]; cbn [is_ok negb fault_of] in *;
    [|by rewrite H1]. rewrite Hg in H1. injection H1 as H1.
  unfold create_snapshot, put.
  pose proof (send_done PUT "/snapshot/create" (JObject [("snapshot_type", JString "Full");
    ("snapshot_path", JString "/park.vmstate"); ("mem_file_path", JString "/park.mem")]) s1
    ltac:(do 2 right; left)) as H2.
  destruct (send api PUT "/snapshot/create" _ s1) as [[s2 l2] [[]|e2]]; destruct H2 as [_ H2]; cbn [is_ok] in H2;
    rewrite <-H1 in H2; [by injection H2 as <-|]. unfold resume, set_vm_state.
  pose proof (send_done PATCH "/vm" (JObject [("state", JString "Resumed")]) s2 ltac:(right; left)) as H3.
  destruct (send api PATCH "/vm" _ s2) as [[s3 l3] [[]|e3]]; destruct H3 as [_ H3]; cbn [is_ok fault_of] in *;
    rewrite H2 in H3; [by injection H3 as <-|done].
Qed.
End parking.

(** What a park reports is what the guest does. With a Firecracker that
    keeps to its documentation and answers, whatever it refuses and whatever
    else fails: a park that succeeds left the guest paused when its snapshot
    was written; one that fails and says the VM runs on left the guest
    running, as the guest it was; and a VM taken back runs again once
    [Vm::resume] succeeds, paused by an interrupted park or not. *)
Theorem park_reports_the_guest {S} (api : S -> FcRequest -> S * FcAnswer) (view : S -> FcState)
    (status_text : N -> string) (written : string * string) (o : ParkOutcome) (vmm : Vmm) (jail_root into : string)
    (h : Host) (g : Guest) (s : S) :
  documented api view -> answers api ->
  (view s = GuestRuns g ->
     let '(s', sent, o') := park_client api status_text written o s in
     match (park o' vmm jail_root into h).2 with
     | Ok _ => view s' = GuestPaused g
     | Err (Resumed _) => view s' = GuestRuns g
     | Err (Lost _) => True
     end) /\
  (view s = GuestRuns g \/ view s = GuestPaused g ->
     let '(s', _, r) := vm_resume api status_text s in is_ok r = true -> view s' = GuestRuns g).
Proof.
  intros Hdoc Hans. split.
  - intros Hg. pose proof (park_client_view api view status_text Hdoc Hans written o s g Hg) as H.
    destruct (park_client _ _ _ _ _) as [[s' sent] o']. destruct H as (_ & _ & H).
    unfold park, park_steps. destruct (pf_mkdir o') as [e|]; [by destruct H|]. destruct (pf_pause o') as [e|]; [done|].
    destruct (pf_snapshot o') as [[vs mem]|e].
    + destruct (move_files _ _ _ _ _ _) as [h1 [[]|e]]; [by destruct H|done].
    + by destruct (pf_resume o') as [r|].
  - intros Hg. unfold vm_resume, resume, set_vm_state.
    pose proof (send_done api view status_text Hdoc Hans PATCH "/vm" (JObject [("state", JString "Resumed")]) s
      ltac:(right; left)) as H.
    destruct (send api PATCH "/vm" _ s) as [[s1 l1] [[]|e]]; destruct H as [_ H]; [intros _|done]. cbn [is_ok] in H.
    destruct Hg as [Hg|Hg]; rewrite Hg in H; by injection H as <-.
Qed.

(** A wake that succeeds runs the snapshot it moved into the jail. *)
Theorem woken_vm_runs_its_snapshot {S} (api : S -> FcRequest -> S * FcAnswer) (view : S -> FcState)
    (status_text : N -> string) (o : WakeOutcome) u node spec h (s : S) :
  documented api view -> view s = NotStarted no_resources ->
  let '(s', sent, load) := wake_client api status_text s in
  is_ok (vm_wake (with_load load o) u node spec h).2 = true ->
  view s' = GuestRuns (Restored "/wake.vmstate" "/wake.mem") /\ length sent = 1.
Proof.
  intros Hdoc Hs. unfold wake_client, load_snapshot, put.
  pose proof (send_view api view Hdoc PUT "/snapshot/load" (JObject [("snapshot_path", JString "/wake.vmstate");
    ("mem_backend", JObject [("backend_type", JString "File"); ("backend_path", JString "/wake.mem")]);
    ("resume_vm", JBool true)]) s ltac:(right; do 3 right; left)) as H. cbn zeta in H.
  destruct (send api PUT "/snapshot/load" _ s) as [[s1 l1] r1]. destruct H as [-> H].
  destruct (vm_wake _ _ _ _ _) as [h' [v|e]] eqn:Hw; [|done]. intros _. apply vm_wake_load in Hw.
  destruct r1 as [[]|e]; [|done]. rewrite Hs in H. by injection H as <-.
Qed.

(** ** A Firecracker that does what it documents *)

(** It refuses what it never accepts and what [refuses] says. *)
Definition reference (refuses : FcRequest -> bool) (st : FcState) (request : FcRequest) : FcState * FcAnswer :=
  match applied st request with
  | Some st' => if refuses request then (st, Responded 400 (Some "{}")) else (st', Responded 204 None)
  | None => (st, Responded 400 (Some "{}"))
  end.
Lemma reference_documented refuses : documented (reference refuses) id /\ answers (reference refuses).
Proof.
  split; [intros st request _|intros st request]; unfold reference; destruct (applied st request) as [st'|] eqn:E;
    try done; by destruct (refuses request).
Qed.
(** It accepts every start. *)
Lemma reference_starts spec st_text :
  start_client (reference (fun _ => false)) st_text spec (NotStarted no_resources) =
  (GuestRuns (Booted (spec_resources spec)), start_requests spec, (None, None, None)).
Proof.
  pose proof (start_client_sends (reference (fun _ => false)) st_text spec (NotStarted no_resources)) as H.
  assert (E : forall requests st states, reaches st requests states ->
    send_all (reference (fun _ => false)) requests st = (default st (last states), requests, Ok tt)).
  { induction requests as [|[m p b] requests IH]; intros st states Hr; destruct states as [|st' states]; try done.
    destruct Hr as [Ha Hr]. simpl send_all. unfold mbind, fc_bind, send. unfold reference at 1. rewrite Ha.
    change (is_success 204) with true. cbn iota. rewrite (IH _ _ Hr), last_cons. by destruct (last states). }
  rewrite (E _ _ _ (start_reaches spec)) in H. destruct (start_client _ _ _ _) as [[s' l] calls].
  destruct H as (-> & -> & [_ Hc]). by rewrite (Hc eq_refl).
Qed.

Definition example_calls (refuses : FcRequest -> bool) : fault * fault * fault :=
  (start_client (reference refuses) dec example_spec (NotStarted no_resources)).2.
Lemma vm_runs_the_guest_asked_for_witness :
  (let '(st, _, calls) := start_client (reference (fun _ => false)) dec example_spec (NotStarted no_resources) in
   is_ok (vm_start (with_calls calls (example_start None)) (undo_ok 0) example_node example_spec example_host).2 = true /\
   st = GuestRuns (Booted (spec_resources example_spec))) /\
  example_calls (fun r => bool_decide (fr_path r = "/vsock")) = (None, Some "PUT /vsock -> 400: {}", None).
Proof.
  split; [|vm_compute; reflexivity].
  pose proof (vm_runs_the_guest_asked_for (reference (fun _ => false)) id dec example_spec (example_start None) (undo_ok 0)
    example_node example_host (NotStarted no_resources) (proj1 (reference_documented _)) eq_refl) as H.
  rewrite reference_starts in *.
  assert (Hr : is_ok (vm_start (with_calls (None, None, None) (example_start None)) (undo_ok 0) example_node example_spec
    example_host).2 = true) by (vm_compute; reflexivity).
  destruct (vm_start _ _ _ _ _) as [h' r]. destruct H as [H _]. split; [exact Hr|]. by apply H.
Defined.

Lemma park_reports_the_guest_witness :
  let g := Booted no_resources in
  let fails := fun r => bool_decide (fr_path r = "/snapshot/create") in
  let '(s', sent, o') := park_client (reference fails) dec ("state", "memory")
    (mkParkOutcome None None (Ok ("", "")) None (fun _ => None) None) (GuestRuns g) in
  s' = GuestRuns g /\ length sent = 3 /\
  (park o' (Child 7) "/jail" "/parked/web" (mkHost ∅ ∅ ∅ ∅ ∅ ∅ false)).2 = Err (Resumed "snapshot the VM: PUT /snapshot/create -> 400: {}").
Proof.
  intros g fails.
  pose proof (proj1 (park_reports_the_guest (reference fails) id dec ("state", "memory")
    (mkParkOutcome None None (Ok ("", "")) None (fun _ => None) None) (Child 7) "/jail" "/parked/web" (mkHost ∅ ∅ ∅ ∅ ∅ ∅ false) g
    (GuestRuns g) (proj1 (reference_documented _)) (proj2 (reference_documented _))) eq_refl) as H.
  assert (Hr : let '(s', sent, o') := park_client (reference fails) dec ("state", "memory")
    (mkParkOutcome None None (Ok ("", "")) None (fun _ => None) None) (GuestRuns g) in length sent = 3 /\
    (park o' (Child 7) "/jail" "/parked/web" (mkHost ∅ ∅ ∅ ∅ ∅ ∅ false)).2
      = Err (Resumed "snapshot the VM: PUT /snapshot/create -> 400: {}")) by (vm_compute; split; reflexivity).
  destruct (park_client _ _ _ _ _) as [[s' sent] o']. destruct Hr as [Hl Hr]. rewrite Hr in H. by split.
Defined.
