(* ===== verification/Machine.v ===== *)
(** * Machines ([crates/cirro-node/src/agent/machine.rs])

    Computers the agent reaches over SSH: where they are ([Target]), their
    registry with the Apps they back, and the task that keeps each one's
    [ssh] running. A Machine's [link] is shared with that task, so links
    live in a heap and a Machine and a task each name theirs; the tasks that
    have not ended are a table of their own. What [ssh] and its tools answer
    are arguments. *)

From S2P Require Import Prelude RustStr Proto Subnet Store Validate.

(** ** Targets *)

Record Target := mkTarget { tg_user : string; tg_host : string; tg_port : N }.

Definition word_ok (extra : ascii -> bool) (s : string) : bool :=
  negb (is_empty s) && negb (starts_with "-" s) &&
  str_all (fun b => is_alphanumeric b || bool_decide (b = "-"%char) || bool_decide (b = "."%char)
                    || extra b) s.
Definition user_ok (s : string) : bool := word_ok (fun b => bool_decide (b = "_"%char)) s.
Definition host_ok (s : string) : bool := word_ok (fun _ => false) s.

(** [Target::parse]. *)
Definition target_parse (ssh : string) : result ApiError Target :=
  let invalid := bad_request ("invalid SSH target " +:+ debug_str ssh
    +:+ ": expected user@host or user@host:port") in
  '(user, rest) ← ok_or (split_once "@" ssh) invalid;
  '(host, port) ← match split_once ":" rest with
    | Some (host, port) => p ← ok_or (parse_uint u16_max port) invalid; Ok (host, p)
    | None => Ok (rest, 22%N)
    end;
  _ ← fail_if (negb (user_ok user) || negb (host_ok host) || (port =? 0)%N) invalid;
  Ok (mkTarget user host port).

(** [Target]'s [Display]. *)
Definition target_display (t : Target) : string :=
  tg_user t +:+ "@" +:+ tg_host t +:+ (if (tg_port t =? 22)%N then "" else ":" +:+ dec (tg_port t)).

Record target_wf (t : Target) : Prop := {
  tw_user : user_ok (tg_user t) = true;
  tw_host : host_ok (tg_host t) = true;
  tw_port : (1 <= tg_port t <= u16_max)%N;
}.

(** The arguments of [ssh_command]. *)
Definition ssh_args (key known_hosts name : string) (target : Target) (options command : list string)
    : list string :=
  ["-F"; "/dev/null"; "-T"; "-o"; "BatchMode=yes"; "-o"; "StrictHostKeyChecking=yes";
   "-o"; "GlobalKnownHostsFile=/dev/null"; "-o"; "UserKnownHostsFile=" +:+ known_hosts;
   "-o"; "HostKeyAlias=" +:+ name; "-o"; "IdentitiesOnly=yes"; "-i"; key;
   "-o"; "ConnectTimeout=10"; "-o"; "ServerAliveInterval=5"; "-o"; "ServerAliveCountMax=3";
   "-o"; "LogLevel=VERBOSE"] ++ options ++
  ["-p"; dec (tg_port target); "-l"; tg_user target; "--"; tg_host target] ++ command.

(** ** What the SSH tools say *)

(** The keys in [ssh-keyscan]'s output. *)
Definition scanned_key (l : string) : option string :=
  if starts_with "#" l then None
  else match drop 1 (split_whitespace l) with
       | type :: key :: _ => Some (type +:+ " " +:+ key)
       | _ => None
       end.
Definition scanned_keys (stdout : string) : list string := omap scanned_key (str_lines stdout).

(** [keyscan], of whether [ssh-keyscan] ran and what it printed. *)
Definition keyscan (out : result string string) : result ApiError (list string) :=
  match out with
  | Err e => Err (internal ("run ssh-keyscan: " +:+ e))
  | Ok stdout => Ok (scanned_keys stdout)
  end.

(** [host_keys]: Ed25519 first ([scan true]), then every type. *)
Definition host_keys (scan : bool -> result string string) (target : Target)
    : result ApiError (list string) :=
  ed ← keyscan (scan true);
  keys ← match ed with [] => keyscan (scan false) | _ => Ok ed end;
  match keys with
  | [] => Err (mkApiError BAD_GATEWAY ("no SSH server answered at " +:+ target_display target))
  | _ => Ok keys
  end.

(** [fingerprint], of what [ssh-keygen -l] answers. *)
Definition fingerprint (keygen : string -> result string string) (key : string)
    : result ApiError string :=
  match keygen key with
  | Err e => Err (internal ("run ssh-keygen: " +:+ e))
  | Ok stdout =>
      ok_or (split_whitespace stdout !! 1)
        (internal ("ssh-keygen couldn't read the host key " +:+ debug_str key))
  end.

Definition is_chatter (line : string) : bool :=
  is_empty (trim line) ||
  existsb (fun p => starts_with p line) ["Authenticated to "; "Transferred: "; "Bytes per second: "].

Definition last_line (stderr : string) : string :=
  default "ssh failed" (find_first (fun l => negb (is_chatter l)) (reverse (str_lines stderr))).

(** ** One [ssh] *)

Record Link := mkLink {
  lk_status : MachineStatus;
  lk_last_error : option string;
  lk_host_key_changed : bool;
}.
Definition new_link : Link := mkLink Unreachable None false.

Definition HOST_KEY_FAILED : string := "Host key verification failed.".

(** [Ended] of machine.rs. *)
Record SshEnded := mkSshEnded { sd_logged_in : bool; sd_host_key_changed : bool; sd_last : string }.

(** One line of [ssh]'s stderr: what it tells, and the link it leaves. *)
Definition ssh_line (s : SshEnded * Link) (line : string) : SshEnded * Link :=
  let '(ended, link) := s in
  if starts_with "Authenticated to " line then
    (mkSshEnded true (sd_host_key_changed ended) (sd_last ended), mkLink Up None false)
  else if bool_decide (line = HOST_KEY_FAILED) then
    (mkSshEnded (sd_logged_in ended) true (sd_last ended), link)
  else if negb (is_chatter line) then
    (mkSshEnded (sd_logged_in ended) (sd_host_key_changed ended) line, link)
  else s.

(** [run_ssh], of the lines of the [ssh] that was run, or why none was. *)
Definition run_ssh (out : result string (list string)) (link : Link) : SshEnded * Link :=
  match out with
  | Err e => (mkSshEnded false false ("run ssh: " +:+ e), link)
  | Ok lines => foldl ssh_line (mkSshEnded false false "ssh exited", link) lines
  end.

Definition RETRY_FIRST : N := 1.
Definition RETRY_MAX : N := 30.
Definition KEY_CHANGED : string :=
  "host key changed: it isn't the one pinned when the Machine was added; if that's expected, `cirro machine rm` it and add it again".

(** One turn of [run_tunnel]'s loop: the link, how long it sleeps, and how
    long the next turn's wait is; no sleep when it is over for good. *)
Definition tunnel_turn (wait : N) (out : result string (list string)) (link : Link)
    : Link * option (N * N) :=
  let '(ended, _) := run_ssh out link in
  let why := if sd_host_key_changed ended then KEY_CHANGED else sd_last ended in
  let link := mkLink Unreachable (Some why) (sd_host_key_changed ended) in
  if sd_host_key_changed ended then (link, None)
  else
    let wait := if sd_logged_in ended then RETRY_FIRST else wait in
    (link, Some (wait, N.min (wait * 2) RETRY_MAX)).

(** [run_tunnel], over the [ssh]s it runs: the sleeps it makes, the link it
    leaves, and whether it has ended. *)
Fixpoint run_tunnel (wait : N) (outs : list (result string (list string))) (link : Link)
    : list N * Link * bool :=
  match outs with
  | [] => ([], link, false)
  | out :: outs =>
      match tunnel_turn wait out link with
      | (link, None) => ([], link, true)
      | (link, Some (sleep, wait)) =>
          let '(sleeps, link, over) := run_tunnel wait outs link in (sleep :: sleeps, link, over)
      end
  end.

(** ** The registry *)

Record MachineApp := mkMachineApp { app_route : Route; app_local_port : N }.

(** [mc_link] names the Machine's link in the heap and the [ssh] task that
    shares it, which [start_tunnel] replaces together; [mc_options] are the
    options that [ssh] was run with. *)
Record Machine := mkMachine {
  mc_record : MachineRecord;
  mc_apps : gmap string MachineApp;
  mc_link : nat;
  mc_options : list string;
}.

(** A [run_tunnel] that hasn't returned: the [wait] of its next turn, and
    whether it was aborted, which ends it at its next [await]. *)
Record Tunnel := mkTunnel { tk_wait : N; tk_aborted : bool }.

(** [ms_tasks]: the tasks still there, each under the link it holds. *)
Record Machines := mkMachines {
  ms_entries : gmap string Machine;
  ms_links : gmap nat Link;
  ms_tasks : gmap nat Tunnel;
  ms_next : nat;
  ms_known_hosts : string;
}.
Definition machines_new : Machines := mkMachines ∅ ∅ ∅ 0 "".

Definition set_entries (e : gmap string Machine) (ms : Machines) : Machines :=
  mkMachines e (ms_links ms) (ms_tasks ms) (ms_next ms) (ms_known_hosts ms).
Definition set_links (links : gmap nat Link) (ms : Machines) : Machines :=
  mkMachines (ms_entries ms) links (ms_tasks ms) (ms_next ms) (ms_known_hosts ms).
Definition set_tasks (tasks : gmap nat Tunnel) (ms : Machines) : Machines :=
  mkMachines (ms_entries ms) (ms_links ms) tasks (ms_next ms) (ms_known_hosts ms).
Definition set_known_hosts (k : string) (ms : Machines) : Machines :=
  mkMachines (ms_entries ms) (ms_links ms) (ms_tasks ms) (ms_next ms) k.
(** A link nobody has yet, blank. *)
Definition alloc_link (ms : Machines) : Machines :=
  mkMachines (ms_entries ms) (<[ms_next ms := new_link]> (ms_links ms)) (ms_tasks ms)
    (S (ms_next ms)) (ms_known_hosts ms).
(** [tunnel.abort()]. *)
Definition abort_task (l : nat) (ms : Machines) : Machines :=
  set_tasks (alter (fun t => mkTunnel (tk_wait t) true) l (ms_tasks ms)) ms.
(** [tokio::spawn(run_tunnel(..))]. *)
Definition spawn_task (l : nat) (ms : Machines) : Machines :=
  set_tasks (<[l := mkTunnel RETRY_FIRST false]> (ms_tasks ms)) ms.
Definition set_apps (apps : gmap string MachineApp) (m : Machine) : Machine :=
  mkMachine (mc_record m) apps (mc_link m) (mc_options m).

Definition link_of (ms : Machines) (m : Machine) : Link := default new_link (ms_links ms !! mc_link m).

(** [has_app] and [app_with_host]. *)
Definition has_app (entries : gmap string Machine) (name : string) : bool :=
  existsb (fun m => bool_decide (is_Some (mc_apps m !! name))) (values_of entries).
Definition machine_app_with_host (entries : gmap string Machine) (host : string) : option string :=
  find_map (fun m =>
    fst <$> find_first (fun e => bool_decide (rt_host (app_route e.2) = host))
              (entries_of (mc_apps m)))
    (values_of entries).

(** [Machine::info], [Machines::list] and [Machines::apps]. *)
Definition machine_info (ms : Machines) (m : Machine) : MachineInfo :=
  let link := link_of ms m in
  mkMachineInfo (mr_name (mc_record m)) (mr_ssh (mc_record m)) (mr_fingerprint (mc_record m))
    (lk_status link) (lk_last_error link).
Definition machines_list (ms : Machines) : list MachineInfo :=
  machine_info ms <$> values_of (ms_entries ms).
Definition machines_apps (ms : Machines) : list MachineAppInfo :=
  mjoin ((fun m =>
    (fun e => mkMachineAppInfo e.1 (mr_name (mc_record m)) (app_route e.2) (lk_status (link_of ms m)))
      <$> entries_of (mc_apps m)) <$> values_of (ms_entries ms)).

(** [Machines::resolve]. *)
Inductive MachineAnswer := ToPort (local_port : N) | MachineDown (why : string).
Definition machines_resolve (ms : Machines) (host : string) : option MachineAnswer :=
  find_map (fun m =>
    app ← find_first (fun app => bool_decide (rt_host (app_route app) = host)) (values_of (mc_apps m));
    let link := link_of ms m in
    Some match lk_status link with
         | Up => ToPort (app_local_port app)
         | Unreachable =>
             MachineDown ("Machine " +:+ debug_str (mr_name (mc_record m)) +:+ " is unreachable"
               +:+ match lk_last_error link with Some e => ": " +:+ e | None => "" end)
         end) (values_of (ms_entries ms)).

(** ** Operations *)

(** [app.local_port = port], for the Apps in name order and as many ports. *)
Fixpoint assign_ports (names : list string) (ports : list N) (apps : gmap string MachineApp)
    : gmap string MachineApp :=
  match names, ports with
  | name :: names, port :: ports =>
      assign_ports names ports
        (alter (fun app => mkMachineApp (app_route app) port) name apps)
  | _, _ => apps
  end.

Definition forward (app : MachineApp) : list string :=
  ["-L"; "127.0.0.1:" +:+ dec (app_local_port app) +:+ ":localhost:"
           +:+ dec (rt_port (app_route app))].
Definition tunnel_options (apps : gmap string MachineApp) : list string :=
  ["-N"; "-o"; "ExitOnForwardFailure=yes"] ++ mjoin (forward <$> values_of apps).

(** [Machines::start_tunnel] of a Machine of [ms]; [ports] is what
    [free_local_ports] answers when asked for that many. A Machine whose
    host key changed gets no [ssh]. *)
Definition start_tunnel (ports : nat -> result string (list N)) (machine : Machine) (ms : Machines)
    : Machines * result string Machine :=
  match target_parse (mr_ssh (mc_record machine)) with
  | Err e => (ms, Err (ae_error e))
  | Ok _ =>
      match ports (size (mc_apps machine)) with
      | Err e => (ms, Err e)
      | Ok ports =>
          let apps := assign_ports (keys_of (mc_apps machine)) ports (mc_apps machine) in
          let machine := set_apps apps machine in
          if lk_host_key_changed (link_of ms machine) then (ms, Ok machine)
          else
            let l := ms_next ms in
            (spawn_task l (alloc_link (abort_task (mc_link machine) ms)),
             Ok (mkMachine (mc_record machine) apps l (tunnel_options apps)))
      end
  end.

Definition put_machine (m : Machine) (ms : Machines) : Machines :=
  set_entries (<[mr_name (mc_record m) := m]> (ms_entries ms)) ms.

(** How a write of the pins fails: the error, and what the file holds then,
    which may be neither the old text nor the new. *)
Definition write_fault : Type := option (string * string).
(** [Machines::write_known_hosts]. *)
Definition known_hosts_text (records : list MachineRecord) : string :=
  str_join "" ((fun r => mr_name r +:+ " " +:+ mr_pinned_key r +:+ nl) <$> records).
Definition write_known_hosts (f : write_fault) (pending : option MachineRecord) (ms : Machines)
    : Machines * result string unit :=
  match f with
  | Some (e, held) => (set_known_hosts held ms, Err e)
  | None =>
      (set_known_hosts (known_hosts_text
         ((mc_record <$> values_of (ms_entries ms)) ++ option_list pending)) ms, Ok tt)
  end.

(** [Machines::connect]; the [tunnel] a Machine is made with does nothing and
    is no task of the table. *)
Definition connect (f_known : write_fault) (ports : nat -> result string (list N)) (record : MachineRecord)
    (apps : gmap string Route) (ms : Machines) : Machines * result string unit :=
  match write_known_hosts f_known (Some record) ms with
  | (ms, Err e) => (ms, Err e)
  | (ms, Ok _) =>
      let machine := mkMachine record ((fun r => mkMachineApp r 0) <$> apps) (ms_next ms) [] in
      match start_tunnel ports machine (alloc_link ms) with
      | (ms, Err e) => (ms, Err e)
      | (ms, Ok machine) => (put_machine machine ms, Ok tt)
      end
  end.

(** [Machines::restore], for the records of the database; a Machine that
    can't be set up is left out. *)
Definition restored_apps (records : list MachineAppRecord) (machine : string) : gmap string Route :=
  list_to_map ((fun app => (ma_name app, mkRoute (ma_host app) (ma_port app) None))
    <$> filter (fun app => ma_machine app = machine) records).
Definition restore (f_known : string -> write_fault) (ports : string -> nat -> result string (list N))
    (records : list MachineRecord) (apps : list MachineAppRecord) (ms : Machines) : Machines :=
  foldl (fun ms r =>
    (connect (f_known (mr_name r)) (ports (mr_name r)) r (restored_apps apps (mr_name r)) ms).1)
    ms records.

(** [Machines::add_app]. *)
Definition add_app (ports ports' : nat -> result string (list N)) (f_store : fault)
    (request : MachineAppRequest) (ms : Machines) (db : Db)
    : Machines * Db * result ApiError MachineAppInfo :=
  let name := mar_name request in
  if has_app (ms_entries ms) name then
    (ms, db, Err (mkApiError CONFLICT ("an App named " +:+ debug_str name +:+ " already exists")))
  else
    match machine_app_with_host (ms_entries ms) (rt_host (mar_route request)) with
    | Some owner => (ms, db, Err (hostname_taken (rt_host (mar_route request)) owner false))
    | None =>
        match ms_entries ms !! mar_machine request with
        | None =>
            (ms, db, Err (mkApiError NOT_FOUND
              ("no Machine named " +:+ debug_str (mar_machine request))))
        | Some machine =>
            let with_app :=
              set_apps (<[name := mkMachineApp (mar_route request) 0]> (mc_apps machine)) machine in
            match start_tunnel ports with_app ms with
            | (ms, Err e) =>
                (ms, db, Err (internal ("reconnect Machine " +:+ debug_str (mar_machine request)
                  +:+ ": " +:+ e)))
            | (ms, Ok tunnelled) =>
                match insert_machine_app f_store
                        (mkMachineAppRecord name (mar_machine request)
                           (rt_host (mar_route request)) (rt_port (mar_route request))) db with
                | (db, Err e) =>
                    let without := set_apps (delete name (mc_apps tunnelled)) tunnelled in
                    let '(ms, r) := start_tunnel ports' without ms in
                    (put_machine (match r with Ok m => m | Err _ => without end) ms, db,
                     Err (internal ("record App " +:+ debug_str name +:+ ": " +:+ e)))
                | (db, Ok _) =>
                    let ms := put_machine tunnelled ms in
                    (ms, db, Ok (mkMachineAppInfo name (mar_machine request) (mar_route request)
                                   (lk_status (link_of ms tunnelled))))
                end
            end
        end
    end.

(** [Machines::remove_app]. *)
Definition remove_app (ports : nat -> result string (list N)) (f_store : fault) (name : string)
    (ms : Machines) (db : Db) : Machines * Db * result ApiError bool :=
  match find_first (fun m => bool_decide (is_Some (mc_apps m !! name))) (values_of (ms_entries ms)) with
  | None => (ms, db, Ok false)
  | Some machine =>
      match delete_machine_app f_store name db with
      | (db, Err e) =>
          (ms, db, Err (internal ("remove the record of App " +:+ debug_str name +:+ ": " +:+ e)))
      | (db, Ok _) =>
          let without := set_apps (delete name (mc_apps machine)) machine in
          let '(ms, r) := start_tunnel ports without ms in
          (put_machine (match r with Ok m => m | Err _ => without end) ms, db, Ok true)
      end
  end.

(** What the tools answer [Machines::add]. *)
Record AddOutcome := mkAddOutcome {
  ao_scan : bool -> result string string;
  ao_keygen : string -> result string string;
  ao_public_key : result ApiError string;
  ao_known : write_fault;
  (** logging in: [None] when it worked, or why not *)
  ao_login : option string;
  ao_unpin : write_fault;
  ao_store : fault;
  ao_connect_known : write_fault;
  ao_ports : nat -> result string (list N);
}.

(** The loop over the keys offered: the pinned one, or the fingerprints. *)
Fixpoint pick_key (keygen : string -> result string string) (host_key : string)
    (keys offered : list string) : result ApiError (string + list string) :=
  match keys with
  | [] => Ok (inr offered)
  | key :: keys =>
      f ← fingerprint keygen key;
      if bool_decide (f = host_key) then Ok (inl key)
      else pick_key keygen host_key keys (offered ++ [f])
  end.

Definition login_refused (target : Target) (why public_key : string) : ApiError :=
  mkApiError BAD_GATEWAY
    ("the Node agent couldn't log in to " +:+ target_display target +:+ " (" +:+ why
      +:+ "); let its key in there, as " +:+ tg_user target
      +:+ " (best a dedicated, non-root user), with:" +:+ nl +:+ "  echo '" +:+ trim public_key
      +:+ "' >> ~/.ssh/authorized_keys").

(** What [Machines::add] decides before it changes anything. *)
Definition add_checks (o : AddOutcome) (add : AddMachine) (ms : Machines)
    : result ApiError (Target * MachineRecord * string) :=
  _ ← validate_name "Machine" (am_name add);
  target ← target_parse (am_ssh add);
  _ ← fail_if (bool_decide (is_Some (ms_entries ms !! am_name add)))
        (mkApiError CONFLICT
           ("a Machine named " +:+ debug_str (am_name add) +:+ " already exists"));
  keys ← host_keys (ao_scan o) target;
  picked ← pick_key (ao_keygen o) (am_host_key add) keys [];
  pinned_key ← match picked with
    | inl key => Ok key
    | inr offered =>
        Err (mkApiError CONFLICT
          (target_display target +:+ " presented no host key with fingerprint "
            +:+ am_host_key add +:+ "; it offered " +:+ str_join ", " offered
            +:+ " (only its Ed25519 key is checked when it has one)"))
    end;
  public_key ← ao_public_key o;
  Ok (target, mkMachineRecord (am_name add) (target_display target) pinned_key (am_host_key add),
      public_key).

(** [Machines::add]. *)
Definition machines_add (o : AddOutcome) (add : AddMachine) (ms : Machines) (db : Db)
    : Machines * Db * result ApiError MachineInfo :=
  match add_checks o add ms with
  | Err e => (ms, db, Err e)
  | Ok (target, record, public_key) =>
      match write_known_hosts (ao_known o) (Some record) ms with
      | (ms, Err e) =>
          (ms, db, Err (internal ("pin the host key of " +:+ mr_name record +:+ ": " +:+ e)))
      | (ms, Ok _) =>
          match ao_login o with
          | Some why =>
              ((write_known_hosts (ao_unpin o) None ms).1, db,
               Err (login_refused target why public_key))
          | None =>
              match insert_machine (ao_store o) record db with
              | (db, Err e) =>
                  (ms, db, Err (internal ("record Machine " +:+ debug_str (mr_name record)
                    +:+ ": " +:+ e)))
              | (db, Ok _) =>
                  match connect (ao_connect_known o) (ao_ports o) record ∅ ms with
                  | (ms, Err e) =>
                      (ms, db, Err (internal ("connect to Machine "
                        +:+ debug_str (mr_name record) +:+ ": " +:+ e)))
                  | (ms, Ok _) =>
                      (ms, db, ok_or (machine_info ms <$> ms_entries ms !! mr_name record)
                                 (internal ""))
                  end
              end
          end
      end
  end.

(** [Machines::remove]; a Machine that is dropped aborts its [ssh]. *)
Definition machines_remove (f_store : fault) (f_known : write_fault) (name : string)
    (ms : Machines) (db : Db) : Machines * Db * result ApiError unit :=
  match ms_entries ms !! name with
  | None => (ms, db, Err (mkApiError NOT_FOUND ("no Machine named " +:+ debug_str name)))
  | Some machine =>
      if bool_decide (mc_apps machine = ∅) then
        match delete_machine f_store name db with
        | (db, Err e) =>
            (ms, db, Err (internal ("remove the record of Machine " +:+ debug_str name
              +:+ ": " +:+ e)))
        | (db, Ok _) =>
            let ms := set_entries (delete name (ms_entries ms)) (abort_task (mc_link machine) ms) in
            ((write_known_hosts f_known None ms).1, db, Ok tt)
        end
      else
        (ms, db, Err (mkApiError CONFLICT
          ("Machine " +:+ debug_str name +:+ " still has Apps ("
            +:+ str_join ", " (keys_of (mc_apps machine)) +:+ "); rm them first")))
  end.

(** [Machines::disconnect_all]. *)
Definition disconnect_all (ms : Machines) : Machines :=
  set_entries ∅ (foldr (fun m ms => abort_task (mc_link m) ms) ms (values_of (ms_entries ms))).

(** What a task writes to the link it holds. *)
Definition set_link (l : nat) (link : Link) (ms : Machines) : Machines :=
  set_links (alter (fun _ => link) l (ms_links ms)) ms.
(** The task of link [l] goes on with [next], the wait of its next turn, or
    ends: when it has returned, or comes to an [await] after it was aborted. *)
Definition go_on (l : nat) (t : Tunnel) (next : option N) (ms : Machines) : Machines :=
  match next with
  | Some wait => if tk_aborted t then set_tasks (delete l (ms_tasks ms)) ms
                 else set_tasks (<[l := mkTunnel wait false]> (ms_tasks ms)) ms
  | None => set_tasks (delete l (ms_tasks ms)) ms
  end.
(** The [ssh] of link [l]'s task logs in ([run_ssh], at "Authenticated to"). *)
Definition task_up (l : nat) (ms : Machines) : Machines :=
  match ms_tasks ms !! l with
  | None => ms
  | Some t => go_on l t (Some (tk_wait t)) (set_link l (mkLink Up None false) ms)
  end.
(** The [ssh] of link [l]'s task ends, having said [out]: the rest of the turn
    of [run_tunnel]. *)
Definition task_turn (l : nat) (out : result string (list string)) (ms : Machines) : Machines :=
  match ms_tasks ms !! l with
  | None => ms
  | Some t =>
      let '(link, next) := tunnel_turn (tk_wait t) out (default new_link (ms_links ms !! l)) in
      go_on l t (snd <$> next) (set_link l link ms)
  end.
