(* ===== verification/MachineKey.v ===== *)
(** * The agent's own SSH key and ports ([crates/cirro-node/src/agent/machine.rs])

    What the rest of [Machines] takes as given: the key pair [public_key]
    makes on first use, the host key [scan] shows, and the local ports
    [free_local_ports] hands out for a Machine's Apps. *)

From S2P Require Import Prelude RustStr Proto Subnet Store Validate Vm Machine.

(** ** Scanning *)

(** [Machines::scan]. *)
Definition machines_scan (scan : bool -> result string string) (keygen : string -> result string string) (ssh : string)
    : result ApiError string :=
  target ← target_parse ssh;
  keys ← host_keys scan target;
  key ← ok_or (head keys) (internal "");
  fingerprint keygen key.

(** ** The key *)

(** The key's files: whether the private one is there, and the public one. *)
Record KeyFiles := mkKeyFiles { kf_private : bool; kf_public : option string }.
(** How [ssh-keygen] goes, and the files it leaves. *)
Inductive KeygenRun := KeygenNotRun (e : string) | KeygenRan (success : bool) (stderr : string) (files : KeyFiles).
Definition read_public (f_read : fault) (k : KeyFiles) : result ApiError string :=
  map_err (fun e => internal ("read the Node agent's SSH public key: " +:+ e))
    (_ ← fault_result f_read; ok_or (kf_public k) "No such file or directory (os error 2)").
(** [Machines::public_key]. *)
Definition public_key (keygen : KeygenRun) (f_read : fault) (k : KeyFiles) : KeyFiles * result ApiError string :=
  if kf_private k then (k, read_public f_read k)
  else
    match keygen with
    | KeygenNotRun e => (k, Err (internal ("run ssh-keygen: " +:+ e)))
    | KeygenRan false stderr files => (files, Err (internal ("make the Node agent's SSH key: " +:+ trim stderr)))
    | KeygenRan true _ files => (files, read_public f_read files)
    end.

(** ** Ports *)

Section ports.
(** What the kernel binds port 0 to, with the ports in [held] taken, and
    whether a listener's address can be read. *)
Context (bind_any : gset N -> result string N) (local_addr : N -> fault).
Fixpoint hold_ports (n : nat) (held : gset N) : result string (list N) :=
  match n with
  | O => Ok []
  | S n => p ← bind_any held; rest ← hold_ports n ({[p]} ∪ held); Ok (p :: rest)
  end.
Fixpoint read_ports (held : list N) : result string (list N) :=
  match held with
  | [] => Ok []
  | p :: held => _ ← fault_result (local_addr p); rest ← read_ports held; Ok (p :: rest)
  end.
(** [free_local_ports]: all are held while they are chosen. *)
Definition free_local_ports (n : nat) (used : gset N) : result string (list N) :=
  held ← hold_ports n used; read_ports held.
End ports.

(** ** Guarantees *)

Lemma read_ports_same local_addr held ports : read_ports local_addr held = Ok ports -> ports = held.
Proof.
  revert ports. induction held as [|p held IH]; intros ports; simpl; [by intros [= <-]|].
  intros H. apply bind_ok in H as ([] & _ & H). apply bind_ok in H as (rest & Hr & [= <-]). by rewrite (IH _ Hr).
Qed.
(** No port is handed out twice or to two: with a kernel that never binds a
    port that is taken, the ports are as many as were asked for, all
    different, and none was in use. *)
Theorem free_ports_are_free bind_any local_addr n used ports :
  (forall held p, bind_any held = Ok p -> p ∉ held) ->
  free_local_ports bind_any local_addr n used = Ok ports ->
  length ports = n /\ NoDup ports /\ forall p, p ∈ ports -> p ∉ used.
Proof.
  intros Hk H. apply bind_ok in H as (held & Hh & H). apply read_ports_same in H as ->.
  revert used held Hh. induction n as [|n IH]; intros used held; simpl.
  - intros [= <-]. split_and!; [done|constructor|]. intros p Hp. by apply not_elem_of_nil in Hp.
  - intros H. apply bind_ok in H as (p & Hp & H). apply bind_ok in H as (rest & Hr & [= <-]).
    destruct (IH _ _ Hr) as (Hl & Hn & Hd). apply Hk in Hp. split_and!.
    + simpl. by rewrite Hl.
    + constructor; [|done]. intros Hin. apply Hd in Hin. set_solver.
    + intros q [->|Hq]%elem_of_cons; [done|]. apply Hd in Hq. set_solver.
Qed.

(** The key is made once: once its private half is there, no call changes
    it, and every call that can read the public half answers the same. *)
Theorem key_is_made_once keygen keygen' f f' k k' key key' :
  public_key keygen f k = (k', Ok key) ->
  (forall s files, keygen = KeygenRan true s files -> kf_private files = true) ->
  (public_key keygen' f' k').1 = k' /\ ((public_key keygen' f' k').2 = Ok key' -> key' = key).
Proof.
  intros H Hkg. assert (Hp : kf_private k' = true /\ kf_public k' = Some key).
  { unfold public_key, read_public in H. destruct (kf_private k) eqn:E; [|destruct keygen as [e|[] s files]; try done];
      injection H as <- H; destruct f; try done; (split; [by eauto|]); by destruct (kf_public _) as [x|]; [injection H as ->|]. }
  destruct Hp as [Hp Hq]. unfold public_key, read_public. rewrite Hp, Hq. split; [done|]. destruct f'; [done|]. by intros [= <-].
Qed.
(** A key half made stays so: [public_key] looks for the private half alone,
    so when [ssh-keygen] left that one and no public one (it ran out of
    space, or was killed), every later call fails the same way. *)
Theorem half_made_key_is_final keygen f :
  let k := mkKeyFiles true None in
  public_key keygen f k = (k, read_public f k) /\ is_ok (read_public f k) = false.
Proof. split; [done|]. by destruct f. Qed.
