(* ===== verification/MachineLaws.v ===== *)
(** * What holds of Machines

    Theorems about [Machine]: targets round-trip and can't be mistaken for
    [ssh] options, retries back off within bounds, App names and hostnames
    stay unique over restarts that set up every Machine on record, a Machine
    whose host key changed isn't reached again while the agent runs, and an
    old [ssh] can't speak for a new one. *)

From S2P Require Import Prelude RustStr Proto Subnet Store Validate Machine.

(** ** Targets *)

Lemma word_ok_chars extra c s :
  is_alphanumeric c = false -> c <> "-"%char -> c <> "."%char -> extra c = false ->
  word_ok extra s = true -> str_contains c s = false.
Proof.
  intros Ha Hm Hd He. unfold word_ok. rewrite !andb_true_iff. intros [_ Hall].
  eapply str_all_not_contains; [exact Hall|]. cbv beta.
  by rewrite Ha, He, !bool_decide_false.
Qed.

Lemma target_parse_wf s t : target_parse s = Ok t -> target_wf t.
Proof.
  unfold target_parse. intros H. apply bind_ok in H as ([user rest] & _ & H).
  apply bind_ok in H as ([host port] & Hp & H). apply bind_ok in H as ([] & Hf & [= <-]).
  apply fail_if_ok in Hf. rewrite !orb_false_iff, !negb_false_iff in Hf.
  destruct Hf as [[Hu Hh] Hz%N.eqb_neq]. split; simpl; [done..|].
  destruct (split_once ":" rest) as [[h p]|].
  - apply bind_ok in Hp as (p' & ?%ok_or_ok%parse_uint_le & [= _ <-]). lia.
  - injection Hp as _ <-. unfold u16_max. lia.
Qed.

Lemma target_parse_display t : target_wf t -> target_parse (target_display t) = Ok t.
Proof.
  intros [Hu Hh Hp]. unfold target_parse, target_display.
  assert (str_contains "@" (tg_user t) = false) as Hat
    by (by apply (word_ok_chars (fun b => bool_decide (b = "_"%char)))).
  assert (str_contains ":" (tg_host t) = false) as Hco by (by apply (word_ok_chars (fun _ => false))).
  change ("@" +:+ ?x) with (String "@" x). rewrite split_once_app by done. rsimpl.
  assert ((tg_port t =? 0)%N = false) as Hz by (apply N.eqb_neq; lia).
  destruct (N.eqb_spec (tg_port t) 22) as [H22|_].
  - rewrite str_app_nil_r. apply split_once_none in Hco as ->. rsimpl.
    rewrite Hu, Hh. simpl. rewrite <- H22. by destruct t.
  - change (":" +:+ ?x) with (String ":" x). rewrite split_once_app by done. rsimpl.
    rewrite parse_uint_dec. destruct (N.leb_spec (tg_port t) u16_max); [|lia]. rsimpl.
    rewrite Hu, Hh, Hz. by destruct t.
Qed.

(** A Machine's SSH target is what it says and nothing more. A target the
    agent accepts prints, as its record keeps it, to text that parses back to
    the same user, host and port; and neither its user nor its host, which
    become arguments of [ssh], is empty or starts with a dash, so no target
    can pass as an option. *)
Theorem target_roundtrip s t :
  target_parse s = Ok t ->
  target_parse (target_display t) = Ok t /\
  (1 <= tg_port t <= u16_max)%N /\
  (forall w, w = tg_user t \/ w = tg_host t -> w <> "" /\ starts_with "-" w = false).
Proof.
  intros Hwf%target_parse_wf. split; [by apply target_parse_display|].
  destruct Hwf as [Hu Hh Hp]. split; [done|]. intros w Hw.
  assert (word_ok (fun b => bool_decide (b = "_"%char)) w = true \/
          word_ok (fun _ => false) w = true) as Hok by (destruct Hw as [-> | ->]; auto).
  unfold word_ok in Hok. rewrite !andb_true_iff, !negb_true_iff in Hok.
  split; [intros ->; destruct Hok as [[[? _] _]|[[? _] _]]; done|naive_solver].
Qed.

Lemma target_roundtrip_witness :
  target_parse (target_display (mkTarget "deploy" "db.example.com" 2222)) =
  Ok (mkTarget "deploy" "db.example.com" 2222).
Proof. apply (target_roundtrip "deploy@db.example.com:2222"). reflexivity. Defined.

(** ** Retries *)

Lemma tunnel_turn_wait wait out link link' sleep wait' :
  (1 <= wait <= RETRY_MAX)%N -> tunnel_turn wait out link = (link', Some (sleep, wait')) ->
  (1 <= sleep <= RETRY_MAX)%N /\ (1 <= wait' <= RETRY_MAX)%N /\
  (sd_logged_in (run_ssh out link).1 = true -> sleep = RETRY_FIRST) /\
  (sd_logged_in (run_ssh out link).1 = false -> sleep = wait /\ wait' = N.min (wait * 2) RETRY_MAX).
Proof.
  unfold tunnel_turn, RETRY_MAX, RETRY_FIRST. intros Hw. destruct (run_ssh out link) as [e l].
  destruct (sd_host_key_changed e); [done|]. simpl.
  destruct (sd_logged_in e); intros [= _ <- <-]; split_and!; (lia || done).
Qed.

Lemma run_tunnel_bounds wait outs link sleeps link' over :
  (1 <= wait <= RETRY_MAX)%N -> run_tunnel wait outs link = (sleeps, link', over) ->
  Forall (fun s => 1 <= s <= RETRY_MAX)%N sleeps.
Proof.
  revert wait link sleeps. induction outs as [|out outs IH]; intros wait link sleeps Hw; simpl.
  - intros [= <- _ _]. constructor.
  - destruct (tunnel_turn wait out link) as [l [[sleep wait']|]] eqn:Ht;
      [|intros [= <- _ _]; constructor].
    destruct (run_tunnel wait' outs l) as [[ss l2] o2] eqn:Hr. intros [= <- -> ->].
    destruct (tunnel_turn_wait _ _ _ _ _ _ Hw Ht) as (? & Hw' & _). constructor; [done|].
    by eapply IH.
Qed.

(** The doubling, capped. *)
Definition backoff (i : nat) : N := N.min (2 ^ N.of_nat i) RETRY_MAX.

Lemma run_tunnel_backoff outs : forall i link,
  Forall (fun out => forall link, sd_logged_in (run_ssh out link).1 = false /\
                                  sd_host_key_changed (run_ssh out link).1 = false) outs ->
  (run_tunnel (backoff i) outs link).1.1 = backoff <$> seq i (length outs).
Proof.
  induction outs as [|out outs IH]; intros i link Hall; [done|].
  apply Forall_cons in Hall as [Hout Hall]. cbn [run_tunnel length seq fmap list_fmap].
  destruct (Hout link) as [Hl Hk].
  assert (exists l, tunnel_turn (backoff i) out link = (l, Some (backoff i, backoff (S i)))) as [l ->].
  { unfold tunnel_turn. destruct (run_ssh out link) as [e l0]. simpl in *. rewrite Hk, Hl.
    eexists. do 3 f_equal. unfold backoff, RETRY_MAX. rewrite Nat2N.inj_succ, N.pow_succ_r'.
    lia. }
  specialize (IH (S i) l Hall). destruct (run_tunnel _ outs l) as [[ss l2] o2]. simpl in *.
  by rewrite IH.
Qed.

(** A Machine that can't be reached is tried again for ever, never more
    than thirty seconds later: the [n]th sleep after failures without a login
    is [min(2^n, 30)] seconds, every sleep whatever happens is between one
    and thirty, and a login makes the next sleep one second again. *)
Theorem retries_back_off outs link wait out link' sleep wait' :
  Forall (fun s => 1 <= s <= RETRY_MAX)%N (run_tunnel RETRY_FIRST outs link).1.1 /\
  (Forall (fun out => forall link, sd_logged_in (run_ssh out link).1 = false /\
                                   sd_host_key_changed (run_ssh out link).1 = false) outs ->
   (run_tunnel RETRY_FIRST outs link).1.1 = backoff <$> seq 0 (length outs) /\
   (run_tunnel RETRY_FIRST outs link).2 = false) /\
  (tunnel_turn wait out link = (link', Some (sleep, wait')) ->
   sd_logged_in (run_ssh out link).1 = true -> sleep = RETRY_FIRST).
Proof.
  split_and!.
  - destruct (run_tunnel RETRY_FIRST outs link) as [[ss l] o] eqn:E.
    eapply run_tunnel_bounds; [|exact E]. by vm_compute.
  - intros Hall. split; [apply (run_tunnel_backoff outs 0 link Hall)|].
    generalize RETRY_FIRST. clear wait wait' link' sleep out. revert link.
    induction Hall as [|out outs Hout _ IH]; intros link w; [done|]. simpl.
    unfold tunnel_turn. destruct (Hout link) as [Hl Hk].
    destruct (run_ssh out link) as [e l0]. simpl in Hl, Hk. rewrite Hk, Hl.
    specialize (IH (mkLink Unreachable (Some (sd_last e)) false) (N.min (w * 2) RETRY_MAX)).
    by destruct (run_tunnel _ outs _) as [[ss l2] o2].
  - unfold tunnel_turn. destruct (run_ssh out link) as [e l0]. simpl.
    destruct (sd_host_key_changed e); [done|]. by intros [= _ <- _] ->.
Qed.

Lemma retries_back_off_witness :
  (run_tunnel RETRY_FIRST (replicate 7 (Ok ["Connection refused"])) new_link).1.1 =
  [1; 2; 4; 8; 16; 30; 30]%N.
Proof.
  refine (proj1 (proj1 (proj2 (retries_back_off (replicate 7 (Ok ["Connection refused"])) new_link
    1 (Ok []) new_link 1 1)) _)).
  apply Forall_replicate. intros link. split; reflexivity.
Defined.

(** ** The registry *)

(** What a Machine serves: its Apps' routes, without the ports of the day. *)
Definition routes (m : Machine) : gmap string Route := app_route <$> mc_apps m.

Lemma has_app_spec entries a :
  has_app entries a = true <->
  exists n m r, entries !! n = Some m /\ routes m !! a = Some r.
Proof.
  unfold has_app, routes. rewrite existsb_exists. setoid_rewrite bool_decide_eq_true.
  setoid_rewrite <- list_elem_of_In. setoid_rewrite elem_of_values.
  setoid_rewrite lookup_fmap. setoid_rewrite fmap_Some. unfold is_Some. naive_solver.
Qed.

Lemma app_with_host_none entries host :
  machine_app_with_host entries host = None <->
  forall n m a r, entries !! n = Some m -> routes m !! a = Some r -> rt_host r <> host.
Proof.
  unfold machine_app_with_host. rewrite find_map_none, Forall_forall.
  setoid_rewrite elem_of_values. unfold routes. split.
  - intros H n m a r Hn Hr Hh. rewrite lookup_fmap in Hr.
    apply fmap_Some in Hr as (x & Hx & ->).
    specialize (H m (ex_intro _ n Hn)). rewrite fmap_None, find_first_none, Forall_forall in H.
    specialize (H (a, x)). rewrite elem_of_entries, bool_decide_eq_false in H. by apply H.
  - intros H m [n Hn]. rewrite fmap_None, find_first_none, Forall_forall. intros [a x] Hx.
    apply elem_of_entries in Hx. rewrite bool_decide_eq_false.
    apply (H n m a (app_route x)); [done|]. by rewrite lookup_fmap, Hx.
Qed.

(** Port numbers change no route. *)
Lemma assign_ports_routes names ports apps :
  app_route <$> assign_ports names ports apps = app_route <$> apps.
Proof.
  revert ports apps. induction names as [|n names IH]; intros [|p ports] apps; try done.
  simpl. rewrite IH. apply map_eq. intros k. rewrite !lookup_fmap.
  destruct (decide (k = n)) as [->|]; [|by rewrite lookup_alter_ne].
  rewrite lookup_alter_eq. by destruct (apps !! n).
Qed.

(** [start_tunnel] fails without a trace, or keeps the Machine's record and
    routes and either leaves its link alone, when the host key has changed,
    or gives it one nothing else has. *)
Lemma start_tunnel_spec ports m ms ms' r :
  start_tunnel ports m ms = (ms', r) ->
  match r with
  | Err _ => ms' = ms
  | Ok m' =>
      mc_record m' = mc_record m /\ routes m' = routes m /\
      (if lk_host_key_changed (link_of ms m)
       then ms' = ms /\ mc_link m' = mc_link m
       else mc_link m' = ms_next ms /\
            ms' = spawn_task (ms_next ms) (alloc_link (abort_task (mc_link m) ms)))
  end.
Proof.
  unfold start_tunnel. destruct (target_parse _); [|by intros [= <- <-]].
  destruct (ports _) as [ps|]; [|by intros [= <- <-]].
  unfold link_of; simpl.
  destruct (lk_host_key_changed _); intros [= <- <-]; simpl; split_and!; try done;
    unfold routes; simpl; apply assign_ports_routes.
Qed.

(** The row an App has in the database. *)
Definition app_row (machine : string) (r : Route) : MachineAppRow :=
  mkMachineAppRow machine (rt_host r) (Z.of_N (rt_port r)).

Record minv (ms : Machines) (db : Db) : Prop := {
  mv_keyed : forall n m, ms_entries ms !! n = Some m -> mr_name (mc_record m) = n;
  mv_names : forall n1 m1 n2 m2 a r1 r2,
    ms_entries ms !! n1 = Some m1 -> ms_entries ms !! n2 = Some m2 ->
    routes m1 !! a = Some r1 -> routes m2 !! a = Some r2 -> n1 = n2;
  mv_hosts : forall n1 m1 n2 m2 a1 r1 a2 r2,
    ms_entries ms !! n1 = Some m1 -> ms_entries ms !! n2 = Some m2 ->
    routes m1 !! a1 = Some r1 -> routes m2 !! a2 = Some r2 -> rt_host r1 = rt_host r2 ->
    a1 = a2;
  mv_live : forall n m, ms_entries ms !! n = Some m -> is_Some (ms_links ms !! mc_link m);
  mv_next : forall l, is_Some (ms_links ms !! l) -> l < ms_next ms;
  mv_unshared : forall n1 m1 n2 m2,
    ms_entries ms !! n1 = Some m1 -> ms_entries ms !! n2 = Some m2 ->
    mc_link m1 = mc_link m2 -> n1 = n2;
  mv_apps_db : forall a row,
    db_machine_apps db !! a = Some row <->
    exists n m r, ms_entries ms !! n = Some m /\ routes m !! a = Some r /\ row = app_row n r;
  mv_machines_db : forall n m, ms_entries ms !! n = Some m -> is_Some (db_machines db !! n);
}.

(** Replacing one Machine by one with the same name. *)
Section update.
Context (ms ms' : Machines) (db db' : Db) (n : string) (m m' : Machine).
Context (Hinv : minv ms db).
Context (Hm : ms_entries ms !! n = Some m) (Hrec : mc_record m' = mc_record m).
Context (Hent : ms_entries ms' = ms_entries ms) (Hdbm : db_machines db' = db_machines db).
(** the link is the old one or a new one *)
Context (Hlink : mc_link m' = mc_link m \/ ms_next ms <= mc_link m').
Context (Hlive : is_Some (ms_links ms' !! mc_link m')).
Context (Hkept : forall l, is_Some (ms_links ms !! l) -> is_Some (ms_links ms' !! l)).
Context (Hnext : forall l, is_Some (ms_links ms' !! l) -> l < ms_next ms').
(** no other Machine has one of its Apps' names or hosts *)
Context (Hother : forall n2 m2 a r a2 r2, ms_entries ms !! n2 = Some m2 -> n2 <> n ->
  routes m' !! a = Some r -> routes m2 !! a2 = Some r2 -> a2 <> a /\ rt_host r2 <> rt_host r).
Context (Hown : forall a1 r1 a2 r2, routes m' !! a1 = Some r1 -> routes m' !! a2 = Some r2 ->
  rt_host r1 = rt_host r2 -> a1 = a2).
Context (Hdb : forall a row, db_machine_apps db' !! a = Some row <->
  (exists r, routes m' !! a = Some r /\ row = app_row n r) \/
  (exists n2 m2 r, n2 <> n /\ ms_entries ms !! n2 = Some m2 /\ routes m2 !! a = Some r /\
     row = app_row n2 r)).

Lemma put_lookup k x :
  ms_entries (put_machine m' ms') !! k = Some x ->
  (k = n /\ x = m') \/ (k <> n /\ ms_entries ms !! k = Some x).
Proof.
  unfold put_machine; simpl. rewrite Hrec, (mv_keyed _ _ Hinv _ _ Hm), Hent.
  destruct (decide (k = n)) as [->|]; [rewrite lookup_insert_eq|rewrite lookup_insert_ne by done];
    naive_solver.
Qed.
Lemma put_lookup_eq : ms_entries (put_machine m' ms') !! n = Some m'.
Proof.
  unfold put_machine; simpl. by rewrite Hrec, (mv_keyed _ _ Hinv _ _ Hm), lookup_insert_eq.
Qed.
Lemma put_lookup_ne k : k <> n -> ms_entries (put_machine m' ms') !! k = ms_entries ms !! k.
Proof.
  intros. unfold put_machine; simpl.
  by rewrite Hrec, (mv_keyed _ _ Hinv _ _ Hm), lookup_insert_ne, Hent.
Qed.

Lemma old_link_bound k x : ms_entries ms !! k = Some x -> mc_link x < ms_next ms.
Proof. intros Hk. apply (mv_next _ _ Hinv), (mv_live _ _ Hinv _ _ Hk). Qed.

Lemma minv_update : minv (put_machine m' ms') db'.
Proof.
  split.
  - intros k x [[-> ->]|[? Hk]]%put_lookup; [by rewrite Hrec, (mv_keyed _ _ Hinv _ _ Hm)|].
    apply (mv_keyed _ _ Hinv _ _ Hk).
  - intros n1 m1 n2 m2 a r1 r2 [[-> ->]|[H1 K1]]%put_lookup [[-> ->]|[H2 K2]]%put_lookup R1 R2;
      [done|by destruct (Hother _ _ _ _ _ _ K2 H2 R1 R2)|by destruct (Hother _ _ _ _ _ _ K1 H1 R2 R1)|].
    by apply (mv_names _ _ Hinv _ _ _ _ _ _ _ K1 K2 R1 R2).
  - intros n1 m1 n2 m2 a1 r1 a2 r2 [[-> ->]|[H1 K1]]%put_lookup [[-> ->]|[H2 K2]]%put_lookup R1 R2 Hh.
    + by eapply Hown.
    + by destruct (Hother _ _ _ _ _ _ K2 H2 R1 R2).
    + by destruct (Hother _ _ _ _ _ _ K1 H1 R2 R1).
    + by apply (mv_hosts _ _ Hinv _ _ _ _ _ _ _ _ K1 K2 R1 R2).
  - intros k x [[-> ->]|[? Hk]]%put_lookup; simpl; [done|].
    apply Hkept, (mv_live _ _ Hinv _ _ Hk).
  - done.
  - intros n1 m1 n2 m2 [[-> ->]|[H1 K1]]%put_lookup [[-> ->]|[H2 K2]]%put_lookup Heq; [done|..].
    + destruct Hlink as [Hl|Hl]; [|pose proof (old_link_bound _ _ K2); lia].
      by apply (mv_unshared _ _ Hinv _ _ _ _ Hm K2); rewrite <- Hl.
    + destruct Hlink as [Hl|Hl]; [|pose proof (old_link_bound _ _ K1); lia].
      by apply (mv_unshared _ _ Hinv _ _ _ _ K1 Hm); rewrite <- Hl.
    + by apply (mv_unshared _ _ Hinv _ _ _ _ K1 K2).
  - intros a row. rewrite Hdb. split.
    + intros [(r & Hr & ->)|(n2 & m2 & r & Hne & K & Hr & ->)].
      * exists n, m', r. split_and!; [apply put_lookup_eq|done..].
      * exists n2, m2, r. by rewrite put_lookup_ne.
    + intros (n2 & m2 & r & [[-> ->]|[Hne K]]%put_lookup & Hr & ->); [eauto|].
      right. by exists n2, m2, r.
  - intros k x. rewrite Hdbm. intros [[-> ->]|[? Hk]]%put_lookup.
    + apply (mv_machines_db _ _ Hinv _ _ Hm).
    + apply (mv_machines_db _ _ Hinv _ _ Hk).
Qed.
End update.

(** What [start_tunnel] keeps of [minv]'s conditions on links. *)
Record tunnelled (ms ms' : Machines) (m m' : Machine) : Prop := {
  tn_record : mc_record m' = mc_record m;
  tn_entries : ms_entries ms' = ms_entries ms;
  tn_link : mc_link m' = mc_link m \/ ms_next ms <= mc_link m';
  tn_live : is_Some (ms_links ms' !! mc_link m');
  tn_kept : forall l, is_Some (ms_links ms !! l) -> is_Some (ms_links ms' !! l);
  tn_next : forall l, is_Some (ms_links ms' !! l) -> l < ms_next ms';
  tn_mono : ms_next ms <= ms_next ms';
}.

Lemma tunnelled_start ports m ms ms' m' :
  is_Some (ms_links ms !! mc_link m) ->
  (forall l, is_Some (ms_links ms !! l) -> l < ms_next ms) ->
  start_tunnel ports m ms = (ms', Ok m') -> tunnelled ms ms' m m' /\ routes m' = routes m.
Proof.
  intros Hlive Hnext H%start_tunnel_spec. destruct H as (Hr & Hro & Hl). split; [|done].
  destruct (lk_host_key_changed _); [destruct Hl as [-> Hl]|destruct Hl as [Hl ->]].
  - split; rewrite ?Hl; auto.
  - split; simpl; auto.
    + rewrite Hl. auto.
    + rewrite Hl, lookup_insert_eq. eauto.
    + intros l ?. destruct (decide (l = ms_next ms)) as [->|].
      * rewrite lookup_insert_eq. eauto.
      * by rewrite lookup_insert_ne.
    + intros l. destruct (decide (l = ms_next ms)) as [->|]; [lia|].
      rewrite lookup_insert_ne by done. intros ?%Hnext. lia.
Qed.

Lemma tunnelled_trans ms1 ms2 ms3 m1 m2 m2' m3 :
  tunnelled ms1 ms2 m1 m2 -> mc_record m2' = mc_record m2 -> mc_link m2' = mc_link m2 ->
  tunnelled ms2 ms3 m2' m3 -> tunnelled ms1 ms3 m1 m3.
Proof.
  intros [] Hr Hl []. split; try congruence; auto; try lia.
Qed.
Lemma tunnelled_refl ms m :
  is_Some (ms_links ms !! mc_link m) ->
  (forall l, is_Some (ms_links ms !! l) -> l < ms_next ms) -> tunnelled ms ms m m.
Proof. split; auto. Qed.

(** The database's rows, in terms of one Machine and the others. *)
Lemma rows_split ms db n m :
  minv ms db -> ms_entries ms !! n = Some m ->
  forall a row, db_machine_apps db !! a = Some row <->
    (exists r, routes m !! a = Some r /\ row = app_row n r) \/
    (exists n2 m2 r, n2 <> n /\ ms_entries ms !! n2 = Some m2 /\ routes m2 !! a = Some r /\
       row = app_row n2 r).
Proof.
  intros Hinv Hm a row. rewrite (mv_apps_db _ _ Hinv). split.
  - intros (n2 & m2 & r & K & Hr & ->). destruct (decide (n2 = n)) as [->|].
    + left. exists r. by simplify_eq.
    + right. by exists n2, m2, r.
  - intros [(r & Hr & ->)|(n2 & m2 & r & _ & K & Hr & ->)]; eauto 6.
Qed.

(** Routes that were there before don't clash with the other Machines'. *)
Lemma routes_apart ms db n m n2 m2 a r a2 r2 :
  minv ms db -> ms_entries ms !! n = Some m -> ms_entries ms !! n2 = Some m2 -> n2 <> n ->
  routes m !! a = Some r -> routes m2 !! a2 = Some r2 -> a2 <> a /\ rt_host r2 <> rt_host r.
Proof.
  intros Hinv Hm K Hne R R2. split.
  - intros ->. apply Hne. by apply (mv_names _ _ Hinv _ _ _ _ _ _ _ K Hm R2 R).
  - intros Hh. assert (a2 = a) as -> by by apply (mv_hosts _ _ Hinv _ _ _ _ _ _ _ _ K Hm R2 R).
    apply Hne. by apply (mv_names _ _ Hinv _ _ _ _ _ _ _ K Hm R2 R).
Qed.

Lemma routes_set_apps apps m : routes (set_apps apps m) = app_route <$> apps.
Proof. done. Qed.

(** A Machine whose tunnel started anew serves what it did. *)
Lemma same_routes_inv ms ms' db n m m' :
  minv ms db -> ms_entries ms !! n = Some m -> tunnelled ms ms' m m' -> routes m' = routes m ->
  minv (put_machine m' ms') db.
Proof.
  intros Hinv Hm [] Hr. eapply (minv_update ms ms' db _ n m m'); try done; rewrite ?Hr.
  - intros. by eapply (routes_apart ms db n m).
  - intros b1 r1 b2 r2 R1 R2 Heq. by apply (mv_hosts _ _ Hinv _ _ _ _ _ _ _ _ Hm Hm R1 R2).
  - by apply rows_split.
Qed.
(** One that serves a new App as well, whose name and hostname nobody has. *)
Lemma new_route_inv ms ms' db n m m' a route :
  minv ms db -> ms_entries ms !! n = Some m -> tunnelled ms ms' m m' -> routes m' = <[a := route]> (routes m) ->
  (forall n2 m2 r2, ms_entries ms !! n2 = Some m2 -> routes m2 !! a = Some r2 -> False) ->
  (forall n2 m2 b r2, ms_entries ms !! n2 = Some m2 -> routes m2 !! b = Some r2 -> rt_host r2 <> rt_host route) ->
  minv (put_machine m' ms')
    (set_machine_apps (<[a := mkMachineAppRow n (rt_host route) (Z.of_N (rt_port route))]> (db_machine_apps db)) db).
Proof.
  intros Hinv Hm [] Hr Hna Hh. eapply (minv_update ms ms' db _ n m m'); try done; rewrite ?Hr.
  - intros n2 m3 b r0 b2 r2 K Hne [[<- <-]|[? R]]%lookup_insert_Some R2.
    + split; [|by apply (Hh _ _ _ _ K R2)]. intros ->. by destruct (Hna _ _ _ K R2).
    + by apply (routes_apart ms db n m n2 m3).
  - intros b1 r1 b2 r2 [[<- <-]|[? R1]]%lookup_insert_Some [[<- <-]|[? R2]]%lookup_insert_Some Heq;
      [done| | |by apply (mv_hosts _ _ Hinv _ _ _ _ _ _ _ _ Hm Hm R1 R2)].
    + by destruct (Hh _ _ _ _ Hm R2).
    + by destruct (Hh _ _ _ _ Hm R1).
  - intros b row. simpl. destruct (decide (b = a)) as [->|Hne].
    + rewrite !lookup_insert_eq. split.
      * intros [= <-]. left. by eexists.
      * intros [(r0 & [= <-] & ->)|(n2 & m3 & r2 & _ & K & R & _)]; [done|].
         by destruct (Hna _ _ _ K R).
    + rewrite !lookup_insert_ne by done. by apply rows_split.
Qed.

Lemma add_app_inv ports ports' f req ms db ms' db' r :
  minv ms db -> add_app ports ports' f req ms db = (ms', db', r) -> minv ms' db'.
Proof.
  intros Hinv. unfold add_app. set (a := mar_name req).
  destruct (has_app _ a) eqn:Ha; [by intros [= <- <- _]|].
  destruct (machine_app_with_host _ _) eqn:Hh; [by intros [= <- <- _]|].
  destruct (ms_entries ms !! _) as [m|] eqn:Hm; [|by intros [= <- <- _]].
  set (n := mar_machine req) in *. set (m1 := set_apps _ m).
  assert (forall n2 m2 r2, ms_entries ms !! n2 = Some m2 -> routes m2 !! a = Some r2 -> False) as Hna.
  { intros n2 m2 r2 K R. apply not_true_iff_false in Ha. apply Ha, has_app_spec. eauto. }
  rewrite app_with_host_none in Hh.
  assert (routes m1 = <[a := mar_route req]> (routes m)) as Hro
    by exact (fmap_insert app_route (mc_apps m) a _).
  destruct (start_tunnel ports m1 ms) as [ms1 [m2|e]] eqn:Hst;
    [|intros [= <- <- _]; by apply start_tunnel_spec in Hst as ->].
  apply tunnelled_start in Hst as [Ht Hr2];
    [|apply (mv_live _ _ Hinv _ _ Hm)|apply (mv_next _ _ Hinv)].
  rewrite Hro in Hr2.
  assert (routes m !! a = None) as Hno.
  { destruct (routes m !! a) eqn:E; [|done]. by destruct (Hna _ _ _ Hm E). }
  assert (db_machine_apps db !! a = None) as Hdbn.
  { destruct (db_machine_apps db !! a) eqn:E; [|done].
    apply (mv_apps_db _ _ Hinv) in E as (n2 & m3 & r2 & K & R & _). by destruct (Hna _ _ _ K R). }
  destruct (insert_machine_app _ _ db) as [db1 [[]|e]] eqn:Hins.
  - intros [= <- <- _]. destruct Ht. unfold insert_machine_app in Hins.
    destruct f; [done|]. simpl in Hins. rewrite Hdbn in Hins. injection Hins as <-.
    by apply (new_route_inv ms ms1 db n m m2 a).
  - set (m3 := set_apps _ m2). assert (db1 = db) as ->.
    { unfold insert_machine_app in Hins. simpl in Hins. rewrite Hdbn in Hins.
      destruct f; by injection Hins. }
    assert (routes m3 = routes m) as Hr3.
    { unfold m3. rewrite routes_set_apps, fmap_delete. unfold routes in Hr2 at 1. rewrite Hr2.
      by rewrite delete_insert_id. }
    pose proof (fun ms4 m4 => same_routes_inv ms ms4 db n m m4 Hinv Hm) as Hback.
    assert (tunnelled ms ms1 m m2) as Ht1 by (destruct Ht; split; done).
    destruct (start_tunnel ports' m3 ms1) as [ms2 [m4|e2]] eqn:Hst2; intros [= <- <- _].
    + apply tunnelled_start in Hst2 as [Ht2 Hr4]; [|apply (tn_live _ _ _ _ Ht)|apply (tn_next _ _ _ _ Ht)].
      apply Hback; [|by rewrite Hr4].
      by apply (tunnelled_trans ms ms1 ms2 m m2 m3 m4).
    + apply start_tunnel_spec in Hst2 as ->. apply Hback; [|done]. by destruct Ht1; split.
Qed.

Lemma remove_app_inv ports f a ms db ms' db' r :
  minv ms db -> remove_app ports f a ms db = (ms', db', r) -> minv ms' db'.
Proof.
  intros Hinv. unfold remove_app.
  destruct (find_first _ _) as [m|] eqn:Hfind; [|by intros [= <- <- _]].
  apply find_first_elem in Hfind as [[n Hm]%elem_of_values Ha]. apply bool_decide_eq_true in Ha.
  unfold delete_machine_app. destruct f; [by intros [= <- <- _]|].
  set (m1 := set_apps _ m).
  assert (routes m1 = delete a (routes m)) as Hro
    by exact (fmap_delete app_route (mc_apps m) a).
  assert (exists ra, routes m !! a = Some ra) as [ra Hra]
    by (destruct Ha as [x Hx]; exists (app_route x); unfold routes; by rewrite lookup_fmap, Hx).
  assert (forall ms4 m4, tunnelled ms ms4 m m4 -> routes m4 = delete a (routes m) ->
    minv (put_machine m4 ms4) (set_machine_apps (delete a (db_machine_apps db)) db)) as Hback.
  { intros ms4 m4 [] Hr4. eapply (minv_update ms ms4 db _ n m m4); try done; rewrite ?Hr4.
    - intros n2 m3 b r0 b2 r2 K Hne [_ R]%lookup_delete_Some R2.
      by apply (routes_apart ms db n m n2 m3).
    - intros b1 r1 b2 r2 [_ R1]%lookup_delete_Some [_ R2]%lookup_delete_Some Heq.
      by apply (mv_hosts _ _ Hinv _ _ _ _ _ _ _ _ Hm Hm R1 R2).
    - intros b row. simpl. destruct (decide (b = a)) as [->|Hne].
      + rewrite !lookup_delete_eq. split; [done|].
        intros [(? & ? & _)|(n2 & m3 & r2 & Hne & K & R & _)]; [done|].
        exfalso. apply Hne. by apply (mv_names _ _ Hinv _ _ _ _ _ _ _ K Hm R Hra).
      + rewrite !lookup_delete_ne by done. by apply rows_split. }
  pose proof (mv_live _ _ Hinv _ _ Hm) as Hlive. pose proof (mv_next _ _ Hinv) as Hnext.
  destruct (start_tunnel ports m1 ms) as [ms1 [m2|e]] eqn:Hst; intros [= <- <- _].
  - apply tunnelled_start in Hst as [Ht Hr2]; [|done|done].
    apply Hback; [|by rewrite Hr2]. by destruct Ht; split.
  - apply start_tunnel_spec in Hst as ->. apply Hback; [|done].
    by destruct (tunnelled_refl ms m Hlive Hnext); split.
Qed.

Lemma write_known_hosts_entries f p ms :
  ms_entries (write_known_hosts f p ms).1 = ms_entries ms /\
  ms_links (write_known_hosts f p ms).1 = ms_links ms /\
  ms_next (write_known_hosts f p ms).1 = ms_next ms.
Proof. by destruct f as [[]|]. Qed.

(** [minv] looks at neither the pins nor links nobody has. *)
Lemma minv_grow ms ms' db db' :
  minv ms db -> ms_entries ms' = ms_entries ms ->
  (forall l, is_Some (ms_links ms !! l) -> is_Some (ms_links ms' !! l)) ->
  (forall l, is_Some (ms_links ms' !! l) -> l < ms_next ms') ->
  db_machine_apps db' = db_machine_apps db ->
  (forall n, is_Some (db_machines db !! n) -> is_Some (db_machines db' !! n)) ->
  minv ms' db'.
Proof. intros [] He Hk Hn Ha Hm. split; rewrite ?He, ?Ha; eauto. Qed.

Lemma write_known_hosts_inv f p ms db : minv ms db -> minv (write_known_hosts f p ms).1 db.
Proof.
  intros Hinv. destruct (write_known_hosts_entries f p ms) as (He & Hl & Hn).
  apply (minv_grow ms _ db db); rewrite ?Hl, ?Hn; try done. apply (mv_next _ _ Hinv).
Qed.
Lemma set_tasks_inv t ms db : minv ms db -> minv (set_tasks t ms) db.
Proof. intros Hinv. apply (minv_grow ms _ db db); try done. apply (mv_next _ _ Hinv). Qed.
Lemma alloc_link_inv ms db : minv ms db -> minv (alloc_link ms) db.
Proof.
  intros Hinv. apply (minv_grow ms _ db db); try done; simpl.
  - intros l ?. destruct (decide (l = ms_next ms)) as [->|];
      [rewrite lookup_insert_eq; eauto|by rewrite lookup_insert_ne].
  - intros l. destruct (decide (l = ms_next ms)) as [->|]; [lia|].
    rewrite lookup_insert_ne by done. intros ?%(mv_next _ _ Hinv). lia.
Qed.

(** A new Machine without Apps. *)
Lemma minv_insert ms db m :
  minv ms db -> ms_entries ms !! mr_name (mc_record m) = None -> routes m = ∅ ->
  is_Some (ms_links ms !! mc_link m) ->
  (forall n m', ms_entries ms !! n = Some m' -> mc_link m' <> mc_link m) ->
  is_Some (db_machines db !! mr_name (mc_record m)) ->
  minv (put_machine m ms) db.
Proof.
  intros Hinv Hnone Hr Hlive Hfresh Hdbm. set (n := mr_name (mc_record m)) in *.
  assert (forall k x, ms_entries (put_machine m ms) !! k = Some x ->
    k = n /\ x = m \/ ms_entries ms !! k = Some x) as Hput
    by (intros k x; unfold put_machine; simpl; intros [[<- <-]|[_ ?]]%lookup_insert_Some; auto).
  assert (forall a r, routes m !! a = Some r -> False) as Hno
    by (intros a r; by rewrite Hr, lookup_empty).
  split; simpl.
  - intros k x [[-> ->]|K]%Hput; [done|by apply (mv_keyed _ _ Hinv)].
  - intros n1 m1 n2 m2 a r1 r2 [[-> ->]|K1]%Hput [[-> ->]|K2]%Hput R1 R2;
      try (by destruct (Hno _ _ R1)); try (by destruct (Hno _ _ R2)).
    by apply (mv_names _ _ Hinv _ _ _ _ _ _ _ K1 K2 R1 R2).
  - intros n1 m1 n2 m2 a1 r1 a2 r2 [[-> ->]|K1]%Hput [[-> ->]|K2]%Hput R1 R2;
      try (by destruct (Hno _ _ R1)); try (by destruct (Hno _ _ R2)).
    by apply (mv_hosts _ _ Hinv _ _ _ _ _ _ _ _ K1 K2 R1 R2).
  - intros k x [[-> ->]|K]%Hput; [done|by apply (mv_live _ _ Hinv _ _ K)].
  - apply (mv_next _ _ Hinv).
  - intros n1 m1 n2 m2 [[-> ->]|K1]%Hput [[-> ->]|K2]%Hput Heq; [done|..].
    + by destruct (Hfresh _ _ K2).
    + by destruct (Hfresh _ _ K1).
    + by apply (mv_unshared _ _ Hinv _ _ _ _ K1 K2).
  - intros a row. rewrite (mv_apps_db _ _ Hinv). split.
    + intros (k & x & r & K & R & ->). exists k, x, r. split_and!; try done.
      rewrite lookup_insert_ne; [done|]. intros <-. unfold n in Hnone. congruence.
    + intros (k & x & r & [[-> ->]|K]%Hput & R & ->); [by destruct (Hno _ _ R)|eauto 6].
  - intros k x [[-> ->]|K]%Hput; [done|by apply (mv_machines_db _ _ Hinv _ _ K)].
Qed.

Lemma connect_inv f ports record ms db ms' r :
  minv ms db -> ms_entries ms !! mr_name record = None -> is_Some (db_machines db !! mr_name record) ->
  connect f ports record ∅ ms = (ms', r) -> minv ms' db.
Proof.
  intros Hinv Hnone Hdbm. unfold connect.
  pose proof (write_known_hosts_inv f (Some record) ms db Hinv) as Hw.
  destruct (write_known_hosts_entries f (Some record) ms) as (He & Hl0 & Hn).
  destruct (write_known_hosts f (Some record) ms) as [ms0 [[]|e]]; [|by intros [= <- _]].
  cbn [fst] in *. set (ms1 := alloc_link ms0). set (m := mkMachine _ _ _ _).
  pose proof (alloc_link_inv _ _ Hw) as Hinv1. fold ms1 in Hinv1.
  assert (is_Some (ms_links ms1 !! mc_link m)) as Hl by (simpl; rewrite lookup_insert_eq; eauto).
  assert (routes m = ∅) as Hr by (unfold routes; simpl; by rewrite !fmap_empty).
  assert (forall n m', ms_entries ms1 !! n = Some m' -> mc_link m' < ms_next ms0) as Hb.
  { intros n m' K. apply (mv_next _ _ Hw), (mv_live _ _ Hw _ _ K). }
  destruct (start_tunnel ports m ms1) as [ms2 [m2|e]] eqn:Hst; intros [= <- _];
    [|by apply start_tunnel_spec in Hst as ->].
  apply tunnelled_start in Hst as [[] Hr2]; [|done|apply (mv_next _ _ Hinv1)].
  apply minv_insert; try done.
  - by apply (minv_grow ms1 _ db db).
  - rewrite tn_record0, tn_entries0. simpl. by rewrite He.
  - intros n m'. rewrite tn_entries0. intros K%Hb. simpl in tn_link0. lia.
  - by rewrite tn_record0.
Qed.

Lemma machines_add_inv o add ms db ms' db' r :
  minv ms db -> machines_add o add ms db = (ms', db', r) -> minv ms' db'.
Proof.
  intros Hinv. unfold machines_add.
  destruct (add_checks o add ms) as [[[t rec] key]|e] eqn:Hc; [|by intros [= <- <- _]].
  assert (ms_entries ms !! mr_name rec = None) as Hnone.
  { unfold add_checks in Hc. do 3 (apply bind_ok in Hc as (? & ? & Hc)).
    do 4 (apply bind_ok in Hc as (? & ? & Hc)). injection Hc as <- <- <-. simpl.
    match goal with H : fail_if _ _ = Ok _ |- _ => apply fail_if_ok, bool_decide_eq_false in H end.
    by apply eq_None_not_Some. }
  pose proof (fun f p => write_known_hosts_inv f p ms db Hinv) as Hw.
  destruct (write_known_hosts _ _ ms) as [ms1 [[]|e]] eqn:Hk;
    [|intros [= <- <- _]; specialize (Hw (ao_known o) (Some rec)); by rewrite Hk in Hw].
  assert (minv ms1 db) as Hinv1 by (specialize (Hw (ao_known o) (Some rec)); by rewrite Hk in Hw).
  assert (ms_entries ms1 = ms_entries ms) as He1.
  { pose proof (write_known_hosts_entries (ao_known o) (Some rec) ms) as [He _].
    by rewrite Hk in He. }
  destruct (ao_login o).
  { intros [= <- <- _]. by apply write_known_hosts_inv. }
  destruct (insert_machine _ _ db) as [db1 [[]|e]] eqn:Hins.
  2:{ intros [= <- <- _]. unfold insert_machine in Hins.
      destruct (ao_store o); [by injection Hins as <-|].
      destruct (db_machines db !! _); by injection Hins as <-. }
  unfold insert_machine in Hins. destruct (ao_store o); [done|].
  destruct (db_machines db !! _) eqn:Hdb; [done|]. injection Hins as <-.
  set (db1 := set_machines _ db).
  assert (minv ms1 db1) as Hinv2.
  { apply (minv_grow ms1 _ db db1); try done; [apply (mv_next _ _ Hinv1)|].
    intros n ?. simpl. destruct (decide (n = mr_name rec)) as [->|];
      [rewrite lookup_insert_eq; eauto|by rewrite lookup_insert_ne]. }
  destruct (connect _ _ rec ∅ ms1) as [ms2 [[]|e]] eqn:Hcon; intros [= <- <- _];
    (apply (connect_inv _ _ _ _ db1) in Hcon; [done|done|by rewrite He1|];
     simpl; rewrite lookup_insert_eq; eauto).
Qed.

Lemma machines_remove_inv f f' n ms db ms' db' r :
  minv ms db -> machines_remove f f' n ms db = (ms', db', r) -> minv ms' db'.
Proof.
  intros Hinv. unfold machines_remove.
  destruct (ms_entries ms !! n) as [m|] eqn:Hm; [|by intros [= <- <- _]].
  destruct (bool_decide (mc_apps m = ∅)) eqn:Hemp; [|by intros [= <- <- _]].
  apply bool_decide_eq_true in Hemp.
  unfold delete_machine. destruct f; [by intros [= <- <- _]|]. intros [= <- <- _].
  set (ms1 := set_entries _ _). set (db1 := set_machines _ db). apply write_known_hosts_inv.
  { split; simpl.
    - intros k x [_ K]%lookup_delete_Some. by apply (mv_keyed _ _ Hinv).
    - intros n1 m1 n2 m2 a r1 r2 [_ K1]%lookup_delete_Some [_ K2]%lookup_delete_Some.
      by apply (mv_names _ _ Hinv).
    - intros n1 m1 n2 m2 a1 r1 a2 r2 [_ K1]%lookup_delete_Some [_ K2]%lookup_delete_Some.
      by apply (mv_hosts _ _ Hinv _ _ _ _ _ _ _ _ K1 K2).
    - intros k x [_ K]%lookup_delete_Some. by apply (mv_live _ _ Hinv _ _ K).
    - apply (mv_next _ _ Hinv).
    - intros n1 m1 n2 m2 [_ K1]%lookup_delete_Some [_ K2]%lookup_delete_Some.
      by apply (mv_unshared _ _ Hinv _ _ _ _ K1 K2).
    - intros a row. rewrite (mv_apps_db _ _ Hinv). split.
      + intros (k & x & r0 & K & R & ->). exists k, x, r0. split_and!; try done.
        rewrite lookup_delete_ne; [done|]. intros <-. assert (x = m) as -> by congruence.
        unfold routes in R. by rewrite Hemp, fmap_empty, lookup_empty in R.
      + intros (k & x & r0 & [_ K]%lookup_delete_Some & R & ->). eauto 6.
    - intros k x [Hne K]%lookup_delete_Some. rewrite lookup_delete_ne by done.
      by apply (mv_machines_db _ _ Hinv _ _ K). }
Qed.

(** ** Everything that happens to Machines *)

Inductive MEvent :=
| EAddApp (ports ports' : nat -> result string (list N)) (f : fault) (request : MachineAppRequest)
| ERemoveApp (ports : nat -> result string (list N)) (f : fault) (name : string)
| EAdd (o : AddOutcome) (add : AddMachine)
| ERemove (f : fault) (f_known : write_fault) (name : string)
(** the task of a link, if there is one still: its [ssh] logged in, or ended
    having said this *)
| EUp (l : nat)
| ETurn (l : nat) (out : result string (list string)).

Definition mexec (s : Machines * Db) (ev : MEvent) : Machines * Db :=
  let '(ms, db) := s in
  match ev with
  | EAddApp ports ports' f request => (add_app ports ports' f request ms db).1
  | ERemoveApp ports f name => (remove_app ports f name ms db).1
  | EAdd o add => (machines_add o add ms db).1
  | ERemove f f_known name => (machines_remove f f_known name ms db).1
  | EUp l => (task_up l ms, db)
  | ETurn l out => (task_turn l out ms, db)
  end.
Definition mexecs (evs : list MEvent) (s : Machines * Db) : Machines * Db := foldl mexec s evs.

Lemma set_link_inv l link ms db : minv ms db -> minv (set_link l link ms) db.
Proof.
  intros Hinv. assert (forall k, is_Some (ms_links (set_link l link ms) !! k) <->
    is_Some (ms_links ms !! k)) as Hl.
  { intros k. simpl. destruct (decide (k = l)) as [->|]; [|by rewrite lookup_alter_ne].
    rewrite lookup_alter_eq. apply fmap_is_Some. }
  apply (minv_grow ms _ db db); try done; intros k; rewrite Hl; [done|apply (mv_next _ _ Hinv)].
Qed.

Lemma go_on_inv l t next ms db : minv ms db -> minv (go_on l t next ms) db.
Proof. unfold go_on. intros. destruct next; [destruct (tk_aborted t)|]; by apply set_tasks_inv. Qed.
Lemma task_up_inv l ms db : minv ms db -> minv (task_up l ms) db.
Proof. unfold task_up. intros. destruct (_ !! l); [|done]. by apply go_on_inv, set_link_inv. Qed.
Lemma task_turn_inv l out ms db : minv ms db -> minv (task_turn l out ms) db.
Proof.
  unfold task_turn. intros. destruct (ms_tasks ms !! l); [|done].
  destruct (tunnel_turn _ _ _). by apply go_on_inv, set_link_inv.
Qed.

Lemma mexec_inv s ev : minv s.1 s.2 -> minv (mexec s ev).1 (mexec s ev).2.
Proof.
  destruct s as [ms db]. intros Hinv. destruct ev; cbn [mexec fst snd] in *.
  - destruct (add_app _ _ _ _ _ _) as [[ms' db'] r] eqn:E. by eapply add_app_inv.
  - destruct (remove_app _ _ _ _ _) as [[ms' db'] r] eqn:E. by eapply remove_app_inv.
  - destruct (machines_add _ _ _ _) as [[ms' db'] r] eqn:E. by eapply machines_add_inv.
  - destruct (machines_remove _ _ _ _ _) as [[ms' db'] r] eqn:E. by eapply machines_remove_inv.
  - by apply task_up_inv.
  - by apply task_turn_inv.
Qed.
Lemma mexecs_inv evs s : minv s.1 s.2 -> minv (mexecs evs s).1 (mexecs evs s).2.
Proof.
  revert s. induction evs as [|ev evs IH]; intros s Hinv; [done|].
  apply IH, mexec_inv, Hinv.
Qed.

Definition fresh_machines : Machines * Db := (machines_new, mkDb None None ∅ ∅ ∅).
Lemma fresh_machines_inv : minv fresh_machines.1 fresh_machines.2.
Proof. split; simpl; try done. all: intros; try (by destruct H). set_solver. Qed.

(** ** Restarts *)

(** A new agent's Machines: none, and the pins as the last one left them. *)
Definition reborn (ms : Machines) : Machines := set_known_hosts (ms_known_hosts ms) machines_new.

(** A history across agents. [MRestart] is an agent's end and the start of the
    next one, which restores the Machines on record; a start that can't read
    them fails there, and is no step. *)
Inductive MStep :=
| MLive (ev : MEvent)
| MRestart (f_machines f_apps : fault) (f_known : string -> write_fault)
    (ports : string -> nat -> result string (list N)).
Definition mstep (s : Machines * Db) (st : MStep) : Machines * Db :=
  match st with
  | MLive ev => mexec s ev
  | MRestart f_machines f_apps f_known ports =>
      match load_machines f_machines s.2, load_machine_apps f_apps s.2 with
      | Ok records, Ok apps => (restore f_known ports records apps (reborn s.1), s.2)
      | _, _ => s
      end
  end.
Definition msteps (sts : list MStep) (s : Machines * Db) : Machines * Db := foldl mstep s sts.

(** Every Machine on record is in the registry. *)
Definition all_set_up (s : Machines * Db) : bool :=
  forallb (fun n => bool_decide (is_Some (ms_entries s.1 !! n))) (keys_of (db_machines s.2)).
(** Every restart of the history sets up every Machine on record. *)
Fixpoint restarts_whole (sts : list MStep) (s : Machines * Db) : bool :=
  match sts with
  | [] => true
  | st :: sts =>
      (match st with MRestart _ _ _ _ => all_set_up (mstep s st) | MLive _ => true end)
      && restarts_whole sts (mstep s st)
  end.

Lemma all_set_up_spec s n :
  all_set_up s = true -> is_Some (db_machines s.2 !! n) -> is_Some (ms_entries s.1 !! n).
Proof.
  unfold all_set_up. rewrite forallb_forall. intros H [row Hn].
  apply (bool_decide_eq_true (is_Some (ms_entries s.1 !! n))), H, list_elem_of_In.
  unfold keys_of. apply list_elem_of_fmap. exists (n, row). by rewrite elem_of_entries.
Qed.

(** What [load_machine_apps] reads back. *)
Lemma collect_app_rows_elem rows apps x :
  collect_app_rows rows = Some apps ->
  (x ∈ apps <-> exists row, (ma_name x, row) ∈ rows /\
     row = mkMachineAppRow (ma_machine x) (ma_host x) (Z.of_N (ma_port x))).
Proof.
  revert apps. induction rows as [|[a row] rows IH]; intros apps; simpl.
  - intros [= <-]. set_solver.
  - intros (p & Hp & (rs & Hrs & [= <-])%bind_Some)%bind_Some.
    assert (marow_port row = Z.of_N p) as Hz.
    { unfold get_uint in Hp. destruct (_ && _) eqn:Hb; [|done]. injection Hp as <-.
      apply andb_true_iff in Hb as [Hb _]. apply Z.leb_le in Hb. lia. }
    rewrite elem_of_cons, (IH rs Hrs). split.
    + intros [->|(r & Hr & ->)]; [|set_solver]. exists row. split; [left|]. destruct row; simpl in *. by subst.
    + intros (r & [[= Ha <-]|Hr]%elem_of_cons & He); [left|right; eauto].
      destruct x; simpl in *; subst. simpl in Hz. f_equal. lia.
Qed.

Lemma restored_apps_lookup f db apps n a r :
  load_machine_apps f db = Ok apps ->
  restored_apps apps n !! a = Some r <->
  rt_idle_park_secs r = None /\ db_machine_apps db !! a = Some (app_row n r).
Proof.
  unfold load_machine_apps. destruct f; [done|]. intros Hc%ok_or_ok.
  pose proof (fun x => collect_app_rows_elem _ _ x Hc) as Hel. setoid_rewrite elem_of_entries in Hel.
  unfold restored_apps. rewrite <- elem_of_list_to_map'.
  - rewrite list_elem_of_fmap. setoid_rewrite list_elem_of_filter. setoid_rewrite Hel. split.
    + intros (x & [= -> ->] & <- & row & Hrow & ->). by rewrite Hrow.
    + intros [Hi Hrow]. exists (mkMachineAppRecord a n (rt_host r) (rt_port r)). simpl.
      destruct r as [h p i]; simpl in *; subst. eauto.
  - intros r'. rewrite !list_elem_of_fmap. setoid_rewrite list_elem_of_filter. setoid_rewrite Hel.
    intros (x & [= -> ->] & <- & row & Hrow & ->) (y & [= Hn ->] & Hm & row' & Hrow' & ->).
    rewrite Hn, Hrow' in Hrow. injection Hrow as Hma Hh Hp.
    apply N2Z.inj in Hp. by rewrite Hh, Hp.
Qed.

(** What [restore] builds, Machine by Machine: each under its name with the
    Apps on record for it, and a link of its own. *)
Record shaped (apps : list MachineAppRecord) (db : Db) (ms : Machines) : Prop := {
  sh_keyed : forall n m, ms_entries ms !! n = Some m -> mr_name (mc_record m) = n;
  sh_routes : forall n m, ms_entries ms !! n = Some m -> routes m = restored_apps apps n;
  sh_live : forall n m, ms_entries ms !! n = Some m -> is_Some (ms_links ms !! mc_link m);
  sh_next : forall l, is_Some (ms_links ms !! l) -> l < ms_next ms;
  sh_unshared : forall n1 m1 n2 m2,
    ms_entries ms !! n1 = Some m1 -> ms_entries ms !! n2 = Some m2 ->
    mc_link m1 = mc_link m2 -> n1 = n2;
  sh_db : forall n m, ms_entries ms !! n = Some m -> is_Some (db_machines db !! n);
}.

(** A registry whose links only grow. *)
Lemma shaped_grow apps db ms ms' :
  shaped apps db ms -> ms_entries ms' = ms_entries ms ->
  (forall l, is_Some (ms_links ms !! l) -> is_Some (ms_links ms' !! l)) ->
  (forall l, is_Some (ms_links ms' !! l) -> l < ms_next ms') -> shaped apps db ms'.
Proof. intros [] He Hk Hn. split; rewrite ?He; eauto. Qed.

Lemma shaped_put apps db ms m :
  shaped apps db ms -> routes m = restored_apps apps (mr_name (mc_record m)) ->
  is_Some (ms_links ms !! mc_link m) ->
  (forall n m', ms_entries ms !! n = Some m' -> mc_link m' <> mc_link m) ->
  is_Some (db_machines db !! mr_name (mc_record m)) -> shaped apps db (put_machine m ms).
Proof.
  intros [] Hr Hlive Hfresh Hdb. unfold put_machine.
  split; simpl; try done.
  1-3, 5: intros n x [[<- <-]|[_ ?]]%lookup_insert_Some; eauto.
  intros n1 m1 n2 m2 [[<- <-]|[? K1]]%lookup_insert_Some [[<- <-]|[? K2]]%lookup_insert_Some Heq;
    [done|by destruct (Hfresh _ _ K2)|by destruct (Hfresh _ _ K1)|eauto].
Qed.

Lemma connect_shaped f ports apps db r ms :
  shaped apps db ms -> is_Some (db_machines db !! mr_name r) ->
  shaped apps db (connect f ports r (restored_apps apps (mr_name r)) ms).1.
Proof.
  intros Hsh Hdb. unfold connect. destruct (write_known_hosts_entries f (Some r) ms) as (He & Hl & Hn).
  destruct (write_known_hosts f (Some r) ms) as [ms0 res]. cbn [fst] in *.
  assert (shaped apps db ms0) as Hsh0.
  { apply (shaped_grow _ _ ms); [done..| |]; rewrite ?Hl, ?Hn; [done|apply (sh_next _ _ _ Hsh)]. }
  destruct res as [[]|e]; [|done]. set (m := mkMachine _ _ _ _).
  assert (shaped apps db (alloc_link ms0)) as Hsh1.
  { apply (shaped_grow _ _ ms0); [done..| |]; simpl.
    - intros l ?. destruct (decide (l = ms_next ms0)) as [->|];
        [rewrite lookup_insert_eq; eauto|by rewrite lookup_insert_ne].
    - intros l. destruct (decide (l = ms_next ms0)) as [->|]; [lia|].
      rewrite lookup_insert_ne by done. intros ?%(sh_next _ _ _ Hsh0). lia. }
  destruct (start_tunnel ports m (alloc_link ms0)) as [ms2 [m2|e]] eqn:Hst; simpl;
    [|by apply start_tunnel_spec in Hst as ->].
  apply tunnelled_start in Hst as [[] Hr2];
    [|simpl; rewrite lookup_insert_eq; eauto|apply (sh_next _ _ _ Hsh1)].
  apply shaped_put; rewrite ?tn_record0; try done.
  - by apply (shaped_grow _ _ (alloc_link ms0)).
  - rewrite Hr2. unfold routes. simpl. rewrite <- map_fmap_compose.
    rewrite <- (map_fmap_id (restored_apps apps (mr_name r))) at 2. by apply map_fmap_ext.
  - rewrite tn_entries0. intros n m' K.
    pose proof (sh_next _ _ _ Hsh0 _ (sh_live _ _ _ Hsh0 _ _ K)). simpl in tn_link0. lia.
Qed.

Lemma restore_shaped f_known ports records apps db ms :
  shaped apps db ms -> Forall (fun r => is_Some (db_machines db !! mr_name r)) records ->
  shaped apps db (restore f_known ports records apps ms).
Proof.
  unfold restore. intros Hsh Hall. revert ms Hsh.
  induction Hall as [|r records Hr _ IH]; intros ms Hsh; [done|]. by apply IH, connect_shaped.
Qed.

Lemma reborn_shaped apps db ms : shaped apps db (reborn ms).
Proof. split; simpl; try done; by intros l []. Qed.
Lemma load_machines_recorded f db records :
  load_machines f db = Ok records -> Forall (fun r => is_Some (db_machines db !! mr_name r)) records.
Proof.
  unfold load_machines. destruct f; [done|]. intros [= <-].
  apply Forall_fmap, Forall_forall. intros [n row] Hn%elem_of_entries. simpl. eauto.
Qed.

(** A restart that sets up every Machine on record brings the registry back. *)
Lemma restart_inv ms db f1 f2 f_known ports records apps :
  minv ms db -> load_machines f1 db = Ok records -> load_machine_apps f2 db = Ok apps ->
  let ms' := restore f_known ports records apps (reborn ms) in
  all_set_up (ms', db) = true -> minv ms' db.
Proof.
  intros Hinv Hm Ha ms' Hup.
  assert (shaped apps db ms') as []
    by (apply restore_shaped; [apply reborn_shaped|by eapply load_machines_recorded]).
  assert (forall n m a r, ms_entries ms' !! n = Some m -> routes m !! a = Some r ->
    db_machine_apps db !! a = Some (app_row n r)) as Hrow.
  { intros n m a r Hn Hr. rewrite (sh_routes0 _ _ Hn) in Hr.
    by apply (restored_apps_lookup _ _ _ _ _ _ Ha) in Hr as [_ Hr]. }
  split; try done.
  - intros n1 m1 n2 m2 a r1 r2 K1 K2 R1%(Hrow _ _ _ _ K1) R2%(Hrow _ _ _ _ K2).
    rewrite R1 in R2. by injection R2.
  - intros n1 m1 n2 m2 a1 r1 a2 r2 K1 K2 R1%(Hrow _ _ _ _ K1) R2%(Hrow _ _ _ _ K2) Hh.
    apply (mv_apps_db _ _ Hinv) in R1 as (k1 & x1 & q1 & E1 & Q1 & [= -> Hh1 _]).
    apply (mv_apps_db _ _ Hinv) in R2 as (k2 & x2 & q2 & E2 & Q2 & [= -> Hh2 _]).
    apply (mv_hosts _ _ Hinv _ _ _ _ _ _ _ _ E1 E2 Q1 Q2). congruence.
  - intros a row. split; [|intros (n & m & r & K & R & ->); eauto].
    intros Hr. pose proof Hr as (n & m & r & K & R & ->)%(mv_apps_db _ _ Hinv).
    destruct (all_set_up_spec (ms', db) n Hup (mv_machines_db _ _ Hinv _ _ K)) as [m' Hm'].
    exists n, m', (mkRoute (rt_host r) (rt_port r) None). split_and!; [done| |done].
    rewrite (sh_routes0 _ _ Hm'). by apply (restored_apps_lookup _ _ _ _ _ _ Ha).
Qed.

Lemma mstep_inv s st :
  minv s.1 s.2 -> (forall a b c d, st = MRestart a b c d -> all_set_up (mstep s st) = true) ->
  minv (mstep s st).1 (mstep s st).2.
Proof.
  intros Hinv Hup. destruct st as [ev|f1 f2 f_known ports]; cbn [mstep] in *; [by apply mexec_inv|].
  specialize (Hup _ _ _ _ eq_refl).
  destruct (load_machines f1 s.2) eqn:E1, (load_machine_apps f2 s.2) eqn:E2; try done.
  by eapply restart_inv.
Qed.
Lemma msteps_inv sts s :
  minv s.1 s.2 -> restarts_whole sts s = true -> minv (msteps sts s).1 (msteps sts s).2.
Proof.
  revert s. induction sts as [|st sts IH]; intros s Hinv Hw; [done|].
  cbn [restarts_whole] in Hw. apply andb_true_iff in Hw as [Hst Hw]. apply IH; [|done].
  apply mstep_inv; [done|]. by intros a b c d ->.
Qed.


(** ** A changed host key *)

(** Links stay, new ones are blank, new tasks hold blank ones, and a Machine
    whose host key changed keeps its link, unless it is [except]. *)
Record evolves (except : option string) (ms ms' : Machines) : Prop := {
  ev_links : forall l lk, ms_links ms !! l = Some lk -> ms_links ms' !! l = Some lk;
  ev_new : forall l lk, ms_links ms' !! l = Some lk -> ms_links ms !! l = Some lk \/ lk = new_link;
  ev_tasks : forall l, is_Some (ms_tasks ms' !! l) ->
    is_Some (ms_tasks ms !! l) \/ ms_links ms' !! l = Some new_link;
  ev_stuck : forall n m, except <> Some n -> ms_entries ms !! n = Some m ->
    lk_host_key_changed (link_of ms m) = true ->
    exists m', ms_entries ms' !! n = Some m' /\ mc_link m' = mc_link m;
}.

Lemma evolves_refl except ms : evolves except ms ms.
Proof. split; eauto. Qed.

Lemma evolves_link except ms ms' m m' :
  evolves except ms ms' -> mc_link m' = mc_link m ->
  lk_host_key_changed (link_of ms m) = true -> link_of ms' m' = link_of ms m.
Proof.
  intros Hev Hl. unfold link_of. rewrite Hl.
  destruct (ms_links ms !! mc_link m) as [lk|] eqn:E; [|done]. by rewrite (ev_links _ _ _ Hev _ _ E).
Qed.

Lemma evolves_trans except ms1 ms2 ms3 :
  evolves except ms1 ms2 -> evolves except ms2 ms3 -> evolves except ms1 ms3.
Proof.
  intros H1 H2. split.
  - intros l lk ?. by apply (ev_links _ _ _ H2), (ev_links _ _ _ H1).
  - intros l lk [?|?]%(ev_new _ _ _ H2); [by apply (ev_new _ _ _ H1)|by right].
  - intros l [[?|?]%(ev_tasks _ _ _ H1)|?]%(ev_tasks _ _ _ H2); [by left|right|by right].
    by apply (ev_links _ _ _ H2).
  - intros n m Hn Hm Hc. destruct (ev_stuck _ _ _ H1 n m Hn Hm Hc) as (m2 & Hm2 & Hl).
    destruct (ev_stuck _ _ _ H2 n m2 Hn Hm2) as (m3 & Hm3 & Hl3).
    { by rewrite (evolves_link _ _ _ _ _ H1 Hl Hc). }
    exists m3. split; [done|congruence].
Qed.

(** Only the links, the tasks and the pins change. *)
Lemma evolves_blank except ms ms' :
  ms_entries ms' = ms_entries ms ->
  (forall l, is_Some (ms_tasks ms' !! l) ->
     is_Some (ms_tasks ms !! l) \/ ms_links ms' !! l = Some new_link) ->
  (ms_links ms' = ms_links ms \/
   ms_links ms !! ms_next ms = None /\ ms_links ms' = <[ms_next ms := new_link]> (ms_links ms)) ->
  evolves except ms ms'.
Proof.
  intros He Ht [Hl|[Hn Hl]]; split; rewrite ?He; try exact Ht; rewrite ?Hl; eauto.
  - intros l lk Hk. rewrite lookup_insert_ne; [done|congruence].
  - intros l lk [[_ <-]|[_ ?]]%lookup_insert_Some; auto.
Qed.

Lemma next_unused ms db : minv ms db -> ms_links ms !! ms_next ms = None.
Proof.
  intros Hinv. destruct (ms_links ms !! ms_next ms) eqn:E; [|done].
  pose proof (mv_next _ _ Hinv (ms_next ms) ltac:(rewrite E; eauto)). lia.
Qed.

Lemma abort_task_tasks l ms k :
  is_Some (ms_tasks (abort_task l ms) !! k) <-> is_Some (ms_tasks ms !! k).
Proof.
  simpl. destruct (decide (k = l)) as [->|]; [|by rewrite lookup_alter_ne].
  rewrite lookup_alter_eq. apply fmap_is_Some.
Qed.

Lemma evolves_start except ports m ms ms' r :
  ms_links ms !! ms_next ms = None -> start_tunnel ports m ms = (ms', r) -> evolves except ms ms'.
Proof.
  intros Hn H%start_tunnel_spec. destruct r; [|subst; apply evolves_refl].
  destruct H as (_ & _ & H). destruct (lk_host_key_changed _).
  - destruct H as [-> _]. apply evolves_refl.
  - destruct H as [_ ->]. apply evolves_blank; [done| |auto]. intros l. simpl.
    destruct (decide (l = ms_next ms)) as [->|]; [rewrite !lookup_insert_eq; auto|].
    rewrite !lookup_insert_ne by done. intros ?%abort_task_tasks. by left.
Qed.

(** Putting a Machine back where its old self was, link kept if it is stuck. *)
Lemma evolves_put except ms m m' :
  ms_entries ms !! mr_name (mc_record m') = Some m ->
  (lk_host_key_changed (link_of ms m) = true -> mc_link m' = mc_link m) ->
  evolves except ms (put_machine m' ms).
Proof.
  intros Hm Hl. split; simpl; eauto. intros n x _ Hx Hc.
  destruct (decide (n = mr_name (mc_record m'))) as [->|].
  - rewrite lookup_insert_eq. simplify_eq. eauto.
  - rewrite lookup_insert_ne by done. eauto.
Qed.

(** A reconnect of the Machine [n], whose Apps may have changed. *)
Lemma evolves_reconnect except ports ms db n m m1 ms' m' :
  minv ms db -> ms_entries ms !! n = Some m -> mc_record m1 = mc_record m ->
  mc_link m1 = mc_link m -> start_tunnel ports m1 ms = (ms', Ok m') ->
  evolves except ms (put_machine m' ms') /\
  (lk_host_key_changed (link_of ms m) = true -> mc_link m' = mc_link m).
Proof.
  intros Hinv Hm Hr Hl Hst.
  pose proof (evolves_start except _ _ _ _ _ (next_unused _ _ Hinv) Hst) as Hev.
  pose proof (start_tunnel_spec _ _ _ _ _ Hst) as (Hr' & _ & Hlink).
  assert (link_of ms m1 = link_of ms m) as Hlo by (unfold link_of; by rewrite Hl).
  assert (ms_entries ms' = ms_entries ms) as He.
  { rewrite Hlo in Hlink. destruct (lk_host_key_changed _); [by destruct Hlink as [-> _]|].
    by destruct Hlink as [_ ->]. }
  assert (lk_host_key_changed (link_of ms m) = true -> mc_link m' = mc_link m) as Hkeep.
  { intros Hc. rewrite Hlo, Hc in Hlink. destruct Hlink as [_ ->]. done. }
  split; [|done]. eapply evolves_trans; [exact Hev|]. apply (evolves_put _ _ m).
  - by rewrite Hr', Hr, (mv_keyed _ _ Hinv _ _ Hm), He.
  - intros Hc. apply Hkeep. revert Hc. unfold link_of.
    destruct (ms_links ms' !! mc_link m) as [lk|] eqn:E; [|done]. simpl. intros Hc.
    destruct (ev_new _ _ _ Hev _ _ E) as [->| ->]; done.
Qed.

Lemma add_app_evolves except ports ports' f req ms db :
  minv ms db -> evolves except ms (add_app ports ports' f req ms db).1.1.
Proof.
  intros Hinv. unfold add_app. destruct (has_app _ _); [apply evolves_refl|].
  destruct (machine_app_with_host _ _); [apply evolves_refl|].
  destruct (ms_entries ms !! _) as [m|] eqn:Hm; [|apply evolves_refl].
  set (m1 := set_apps _ m).
  destruct (start_tunnel ports m1 ms) as [ms1 [m2|e]] eqn:Hst;
    [|apply start_tunnel_spec in Hst as ->; apply evolves_refl].
  destruct (insert_machine_app _ _ db) as [db1 [[]|e]].
  { by eapply (evolves_reconnect _ ports ms db _ m m1). }
  pose proof (evolves_start except _ _ _ _ _ (next_unused _ _ Hinv) Hst) as Hev.
  destruct (evolves_reconnect except ports ms db _ m m1 _ _ Hinv Hm eq_refl eq_refl Hst) as [_ Hk1].
  pose proof (start_tunnel_spec _ _ _ _ _ Hst) as (Hrec & _ & _).
  apply tunnelled_start in Hst as [[] _];
    [|apply (mv_live _ _ Hinv _ _ Hm)|apply (mv_next _ _ Hinv)].
  set (m3 := set_apps _ m2).
  assert (ms_links ms1 !! ms_next ms1 = None) as Hn1.
  { destruct (ms_links ms1 !! ms_next ms1) eqn:E; [|done].
    pose proof (tn_next0 (ms_next ms1) ltac:(rewrite E; eauto)). lia. }
  assert (forall ms4, evolves except ms ms4 -> lk_host_key_changed (link_of ms4 m) = true ->
    lk_host_key_changed (link_of ms m) = true) as Hback.
  { intros ms4 Hev4. unfold link_of.
    destruct (ms_links ms4 !! mc_link m) as [lk|] eqn:E; [|done]. simpl. intros Hc.
    destruct (ev_new _ _ _ Hev4 _ _ E) as [->| ->]; done. }
  destruct (start_tunnel ports' m3 ms1) as [ms2 r] eqn:Hst2. cbn [fst].
  pose proof (evolves_start except _ _ _ _ _ Hn1 Hst2) as Hev2.
  pose proof (evolves_trans _ _ _ _ Hev Hev2) as Hev12.
  eapply evolves_trans; [exact Hev12|]. pose proof (start_tunnel_spec _ _ _ _ _ Hst2) as Hs2.
  apply (evolves_put _ _ m).
  - assert (ms_entries ms2 = ms_entries ms) as ->.
    { destruct r; [|by subst]. destruct Hs2 as (_ & _ & Hs2).
      destruct (lk_host_key_changed (link_of ms1 m3)); [by destruct Hs2 as [-> _]|].
      by destruct Hs2 as [_ ->]. }
    destruct r as [m4|]; simpl; [destruct Hs2 as (-> & _)|]; simpl; rewrite tn_record0; simpl;
      by rewrite (mv_keyed _ _ Hinv _ _ Hm).
  - intros Hc%(Hback _ Hev12). specialize (Hk1 Hc). destruct r as [m4|]; [|done].
    destruct Hs2 as (_ & _ & Hs2).
    rewrite (evolves_link except ms ms1 m m3 Hev Hk1 Hc), Hc in Hs2. destruct Hs2 as [_ ->]. done.
Qed.

Lemma remove_app_evolves except ports f name ms db :
  minv ms db -> evolves except ms (remove_app ports f name ms db).1.1.
Proof.
  intros Hinv. unfold remove_app. destruct (find_first _ _) as [m|] eqn:Hf; [|apply evolves_refl].
  apply find_first_elem in Hf as [[n Hm]%elem_of_values _].
  destruct (delete_machine_app f name db) as [db1 [[]|e]]; [|apply evolves_refl].
  destruct (start_tunnel _ _ ms) as [ms1 [m2|e]] eqn:Hst.
  - exact (proj1 (evolves_reconnect _ ports ms db n m
      (set_apps (delete name (mc_apps m)) m) _ _ Hinv Hm eq_refl eq_refl Hst)).
  - apply start_tunnel_spec in Hst as ->. apply (evolves_put _ _ m); [|done]. simpl.
    by rewrite (mv_keyed _ _ Hinv _ _ Hm).
Qed.

Lemma write_known_hosts_evolves except f p ms : evolves except ms (write_known_hosts f p ms).1.
Proof.
  destruct (write_known_hosts_entries f p ms) as (? & ? & ?). apply evolves_blank; auto.
  intros l ?. left. by destruct f as [[]|].
Qed.

Lemma connect_evolves except f ports record apps ms :
  (forall l, is_Some (ms_links ms !! l) -> l < ms_next ms) ->
  ms_entries ms !! mr_name record = None \/ except = Some (mr_name record) ->
  evolves except ms (connect f ports record apps ms).1.
Proof.
  intros Hb Hnone. unfold connect.
  assert (ms_links ms !! ms_next ms = None) as Hn.
  { destruct (ms_links ms !! ms_next ms) eqn:E; [|done]. pose proof (Hb _ (ex_intro _ _ E)). lia. }
  pose proof (write_known_hosts_evolves except f (Some record) ms) as Hw.
  destruct (write_known_hosts_entries f (Some record) ms) as (He0 & Hl0 & Hn0).
  destruct (write_known_hosts f (Some record) ms) as [ms0 [[]|e]]; [|done].
  cbn [fst] in *. set (ms1 := alloc_link ms0). set (m := mkMachine _ _ _ _).
  assert (evolves except ms ms1) as Hev.
  { eapply evolves_trans; [exact Hw|]. apply evolves_blank; [done|by left|].
    right. split; [by rewrite Hl0, Hn0|done]. }
  assert (ms_links ms1 !! ms_next ms1 = None) as Hn1.
  { simpl. rewrite lookup_insert_ne, Hl0, Hn0 by lia.
    destruct (ms_links ms !! S (ms_next ms)) eqn:E; [|done].
    pose proof (Hb _ (ex_intro _ _ E)). lia. }
  destruct (start_tunnel ports m ms1) as [ms2 [m2|e]] eqn:Hst; simpl.
  - eapply evolves_trans; [eapply evolves_trans; [exact Hev|by eapply evolves_start]|].
    apply start_tunnel_spec in Hst as (Hr & _ & Hl).
    assert (ms_entries ms2 = ms_entries ms) as He2.
    { destruct (lk_host_key_changed (link_of ms1 m)); [destruct Hl as [-> _]|destruct Hl as [_ ->]];
        done. }
    split; simpl; eauto. intros n x Hex Hx Hc. exists x. split; [|done].
    rewrite lookup_insert_ne; [done|]. rewrite Hr. simpl. rewrite He2 in Hx.
    destruct Hnone; congruence.
  - eapply evolves_trans; [exact Hev|by eapply evolves_start].
Qed.

Lemma machines_add_evolves except o add ms db :
  minv ms db -> evolves except ms (machines_add o add ms db).1.1.
Proof.
  intros Hinv. unfold machines_add.
  destruct (add_checks o add ms) as [[[t rec] key]|e] eqn:Hc; [|apply evolves_refl].
  assert (ms_entries ms !! mr_name rec = None) as Hnone.
  { unfold add_checks in Hc. do 3 (apply bind_ok in Hc as (? & ? & Hc)).
    do 4 (apply bind_ok in Hc as (? & ? & Hc)). injection Hc as <- <- <-. simpl.
    match goal with H : fail_if _ _ = Ok _ |- _ => apply fail_if_ok, bool_decide_eq_false in H end.
    by apply eq_None_not_Some. }
  pose proof (write_known_hosts_evolves except (ao_known o) (Some rec) ms) as Hw.
  destruct (write_known_hosts_entries (ao_known o) (Some rec) ms) as (He & Hl & Hn).
  destruct (write_known_hosts _ _ ms) as [ms1 [[]|e]]; [|done]. simpl in *.
  destruct (ao_login o).
  { eapply evolves_trans; [exact Hw|apply write_known_hosts_evolves]. }
  destruct (insert_machine _ _ db) as [db1 [[]|e]]; [|done].
  assert (evolves except ms1 (connect (ao_connect_known o) (ao_ports o) rec ∅ ms1).1) as Hcon.
  { apply connect_evolves; [rewrite Hl, Hn; apply (mv_next _ _ Hinv)|left; by rewrite He]. }
  destruct (connect _ _ rec ∅ ms1) as [ms2 [[]|e]]; simpl in *;
    by eapply evolves_trans; [exact Hw|].
Qed.

Lemma machines_remove_evolves f f' name ms db :
  evolves (Some name) ms (machines_remove f f' name ms db).1.1.
Proof.
  unfold machines_remove. destruct (ms_entries ms !! name) as [m|]; [|apply evolves_refl].
  destruct (bool_decide _); [|apply evolves_refl].
  destruct (delete_machine f name db) as [db1 [[]|e]]; [|apply evolves_refl].
  eapply evolves_trans; [|apply write_known_hosts_evolves].
  split; simpl; eauto.
  - intros l ?%abort_task_tasks. by left.
  - intros n x Hne Hx _. exists x. rewrite lookup_delete_ne; [done|congruence].
Qed.

(** A link that says the host key changed says the Machine is down, and the
    task that held it has returned. *)
Definition links_down (ms : Machines) : Prop :=
  forall l lk, ms_links ms !! l = Some lk -> lk_host_key_changed lk = true ->
    lk_status lk = Unreachable /\ ms_tasks ms !! l = None.

Lemma evolves_down except ms ms' : evolves except ms ms' -> links_down ms -> links_down ms'.
Proof.
  intros Hev Hd l lk Hl Hc. destruct (ev_new _ _ _ Hev _ _ Hl) as [Ho| ->]; [|done].
  destruct (Hd l lk Ho Hc) as [Hs Ht]. split; [done|]. apply eq_None_not_Some.
  intros [[t ?]|Hn]%(ev_tasks _ _ _ Hev); [congruence|]. by simplify_eq.
Qed.

(** The Machine [n] is there, and its host key has changed. *)
Definition untrusted (ms : Machines) (n : string) : Prop :=
  exists m, ms_entries ms !! n = Some m /\ lk_host_key_changed (link_of ms m) = true.

(** What a task that is still there does: it writes its link, and one that
    writes that the host key changed is down and has returned. *)
Lemma go_on_down l t link next ms :
  (lk_host_key_changed link = true -> lk_status link = Unreachable /\ next = None) ->
  links_down ms -> links_down (go_on l t next (set_link l link ms)).
Proof.
  intros Hl Hd k lk Hk Hc.
  assert (ms_links (go_on l t next (set_link l link ms)) !! k = alter (fun _ => link) l (ms_links ms) !! k)
    as Hlk by (unfold go_on; destruct next; [destruct (tk_aborted t)|]; done).
  rewrite Hlk in Hk. destruct (decide (k = l)) as [->|Hne].
  - rewrite lookup_alter_eq in Hk. apply fmap_Some in Hk as (lk' & _ & ->).
    destruct (Hl Hc) as [Hs ->]. split; [done|]. simpl. apply lookup_delete_eq.
  - rewrite lookup_alter_ne in Hk by done. destruct (Hd k lk Hk Hc) as [Hs Ht]. split; [done|].
    unfold go_on. destruct next; [destruct (tk_aborted t)|]; simpl;
      by rewrite ?lookup_delete_ne, ?lookup_insert_ne.
Qed.
Lemma go_on_untrusted l t link next ms n :
  links_down ms -> is_Some (ms_tasks ms !! l) -> untrusted ms n ->
  untrusted (go_on l t next (set_link l link ms)) n.
Proof.
  intros Hd Ht (m & Hm & Hc). exists m. unfold link_of in *.
  assert (mc_link m <> l) as Hne.
  { intros <-. destruct (ms_links ms !! mc_link m) as [lk|] eqn:E; [|done].
    destruct (Hd _ _ E Hc) as [_ Hn]. rewrite Hn in Ht. by destruct Ht. }
  unfold go_on. destruct next; [destruct (tk_aborted t)|]; simpl; by rewrite lookup_alter_ne.
Qed.

(** A turn that finds the host key changed is [run_tunnel]'s last. *)
Lemma tunnel_turn_changed wait out link :
  lk_host_key_changed (tunnel_turn wait out link).1 = true ->
  lk_status (tunnel_turn wait out link).1 = Unreachable /\ snd <$> (tunnel_turn wait out link).2 = None.
Proof.
  unfold tunnel_turn. destruct (run_ssh out link) as [e l]. by destruct (sd_host_key_changed e) eqn:E.
Qed.

Lemma task_up_down l ms : links_down ms -> links_down (task_up l ms).
Proof. unfold task_up. intros Hd. destruct (_ !! l); [|done]. by apply go_on_down. Qed.
Lemma task_up_untrusted l ms n : links_down ms -> untrusted ms n -> untrusted (task_up l ms) n.
Proof.
  unfold task_up. intros Hd Hu. destruct (ms_tasks ms !! l) eqn:E; [|done].
  apply go_on_untrusted; eauto.
Qed.
Lemma task_turn_down l out ms : links_down ms -> links_down (task_turn l out ms).
Proof.
  unfold task_turn. intros Hd. destruct (ms_tasks ms !! l) as [t|]; [|done].
  pose proof (tunnel_turn_changed (tk_wait t) out (default new_link (ms_links ms !! l))) as Ht.
  destruct (tunnel_turn _ _ _) as [link next]. by apply go_on_down.
Qed.
Lemma task_turn_untrusted l out ms n : links_down ms -> untrusted ms n -> untrusted (task_turn l out ms) n.
Proof.
  unfold task_turn. intros Hd Hu. destruct (ms_tasks ms !! l) as [t|] eqn:E; [|done].
  destruct (tunnel_turn _ _ _) as [link next]. apply go_on_untrusted; eauto.
Qed.

Definition removes (n : string) (ev : MEvent) : Prop :=
  match ev with ERemove _ _ name => name = n | _ => False end.

Lemma mexec_untrusted s ev n :
  minv s.1 s.2 -> links_down s.1 -> untrusted s.1 n -> ~ removes n ev ->
  links_down (mexec s ev).1 /\ untrusted (mexec s ev).1 n.
Proof.
  destruct s as [ms db]. cbn [fst snd]. intros Hinv Hd Hu Hr.
  assert (forall except ms', except <> Some n -> evolves except ms ms' ->
    links_down ms' /\ untrusted ms' n) as Hev.
  { intros except ms' Hx He. split; [by eapply evolves_down|]. destruct Hu as (m & Hm & Hc).
    destruct (ev_stuck _ _ _ He n m Hx Hm Hc) as (m' & Hm' & Hl). exists m'. split; [done|].
    by rewrite (evolves_link _ _ _ _ _ He Hl Hc). }
  destruct ev; cbn [mexec fst].
  - apply (Hev None); [done|by apply add_app_evolves].
  - apply (Hev None); [done|by apply remove_app_evolves].
  - apply (Hev None); [done|by apply machines_add_evolves].
  - apply (Hev (Some name)); [|apply machines_remove_evolves]. simpl in Hr. congruence.
  - split; [by apply task_up_down|by apply task_up_untrusted].
  - split; [by apply task_turn_down|by apply task_turn_untrusted].
Qed.

Lemma mexecs_untrusted evs s n :
  minv s.1 s.2 -> links_down s.1 -> untrusted s.1 n -> Forall (fun ev => ~ removes n ev) evs ->
  links_down (mexecs evs s).1 /\ untrusted (mexecs evs s).1 n.
Proof.
  intros Hinv Hd Hu Hall. revert s Hinv Hd Hu.
  induction Hall as [|ev evs Hev _ IH]; intros s Hinv Hd Hu; [done|].
  destruct (mexec_untrusted s ev n Hinv Hd Hu Hev) as [Hd' Hu'].
  apply IH; [by apply mexec_inv|done|done].
Qed.

Lemma mexecs_down evs s : minv s.1 s.2 -> links_down s.1 -> links_down (mexecs evs s).1.
Proof.
  revert s. induction evs as [|ev evs IH]; intros [ms db] Hinv Hd; [done|].
  apply IH; [by apply mexec_inv|]. cbn [fst snd] in *. destruct ev; cbn [mexec fst].
  - by eapply evolves_down; [apply (add_app_evolves None)|].
  - by eapply evolves_down; [apply (remove_app_evolves None)|].
  - by eapply evolves_down; [apply (machines_add_evolves None)|].
  - by eapply evolves_down; [apply machines_remove_evolves|].
  - by apply task_up_down.
  - by apply task_turn_down.
Qed.

(** A restart's links are all new. *)
Lemma restore_down f_known ports records apps db ms :
  shaped apps db ms -> Forall (fun r => is_Some (db_machines db !! mr_name r)) records ->
  links_down ms -> links_down (restore f_known ports records apps ms).
Proof.
  unfold restore. intros Hsh Hall. revert ms Hsh.
  induction Hall as [|r records Hr _ IH]; intros ms Hsh Hd; [done|].
  apply IH; [by apply connect_shaped|]. eapply evolves_down; [|exact Hd].
  apply (connect_evolves (Some (mr_name r))); [apply (sh_next _ _ _ Hsh)|by right].
Qed.
Lemma msteps_down sts s :
  minv s.1 s.2 -> restarts_whole sts s = true -> links_down s.1 -> links_down (msteps sts s).1.
Proof.
  revert s. induction sts as [|st sts IH]; intros s Hinv Hw Hd; [done|].
  cbn [restarts_whole] in Hw. apply andb_true_iff in Hw as [Hst Hw]. apply IH; [|done|].
  - apply mstep_inv; [done|]. by intros a b c d ->.
  - destruct st as [ev|f1 f2 f_known ports]; cbn [mstep]; [by apply (mexecs_down [ev])|].
    destruct (load_machines f1 s.2) eqn:E1, (load_machine_apps f2 s.2) eqn:E2; try done.
    apply (restore_down _ _ _ _ s.2); [by apply reborn_shaped|by eapply load_machines_recorded|done].
Qed.

(** No request reaches a Machine whose host key changed. *)
Lemma untrusted_resolve ms db n m a r p :
  minv ms db -> links_down ms -> untrusted ms n ->
  ms_entries ms !! n = Some m -> routes m !! a = Some r ->
  machines_resolve ms (rt_host r) <> Some (ToPort p).
Proof.
  intros Hinv Hd (m' & Hm' & Hc) Hm Hr Hres. assert (m' = m) as -> by congruence.
  apply find_map_elem in Hres as (m2 & [n2 Hm2]%elem_of_values & Hres).
  apply bind_Some in Hres as (x & Hx & Hres).
  apply find_first_elem in Hx as [[a2 Hx]%elem_of_values Hh]. apply bool_decide_eq_true in Hh.
  assert (routes m2 !! a2 = Some (app_route x)) as Hr2 by (unfold routes; by rewrite lookup_fmap, Hx).
  assert (a2 = a) as -> by by apply (mv_hosts _ _ Hinv _ _ _ _ _ _ _ _ Hm2 Hm Hr2 Hr).
  assert (n2 = n) as -> by by apply (mv_names _ _ Hinv _ _ _ _ _ _ _ Hm2 Hm Hr2 Hr).
  assert (m2 = m) as -> by congruence. unfold link_of in *. destruct (mv_live _ _ Hinv _ _ Hm) as [lk Hlk].
  rewrite Hlk in *. simpl in *. by rewrite (proj1 (Hd _ _ Hlk Hc)) in Hres.
Qed.

(** C25: A Machine whose host key changed is not reached again while the same
    agent runs. After any history of [machine_registry_invariant], once the
    Machine's [ssh] has reported a host key other than the pinned one, its task
    has returned; and then, whatever Apps are added to it or removed from it,
    whatever other Machines do and whatever a late [ssh] still says, it stays
    marked so with no task, and the edge sends no request to it, until the
    Machine is removed or the agent restarts ([restart_tries_a_changed_host_key_again]). *)
Theorem changed_host_key_is_final sts evs n :
  let s := msteps sts fresh_machines in
  restarts_whole sts fresh_machines = true ->
  untrusted s.1 n -> Forall (fun ev => ~ removes n ev) evs ->
  let s' := mexecs evs s in
  untrusted s'.1 n /\
  (forall m, ms_entries s'.1 !! n = Some m -> ms_tasks s'.1 !! mc_link m = None) /\
  forall m a r p, ms_entries s'.1 !! n = Some m -> routes m !! a = Some r ->
    machines_resolve s'.1 (rt_host r) <> Some (ToPort p).
Proof.
  intros s Hw Hu Hall s'.
  assert (minv s.1 s.2) as Hinv by (apply msteps_inv; [apply fresh_machines_inv|done]).
  assert (links_down s.1) as Hd by (apply msteps_down; [apply fresh_machines_inv|done|done]).
  destruct (mexecs_untrusted evs s n Hinv Hd Hu Hall) as [Hd' Hu']. fold s' in Hd', Hu'.
  split_and!; [done| |].
  - intros m Hm. destruct Hu' as (m' & Hm' & Hc). assert (m' = m) as -> by congruence.
    unfold link_of in Hc. destruct (ms_links s'.1 !! mc_link m) as [lk|] eqn:E; [|done].
    by apply (Hd' _ _ E).
  - intros m a r p Hm Hr. eapply untrusted_resolve; [by apply mexecs_inv|done|done|done|done].
Qed.

Definition example_ports (n : nat) : result string (list N) :=
  Ok ((fun i => 40000 + N.of_nat i)%N <$> seq 0 n).
Definition example_adding (connect_known : write_fault) : AddOutcome :=
  mkAddOutcome (fun _ => Ok "box.example.com ssh-ed25519 AAAA") (fun _ => Ok "256 SHA256:abc box (ED25519)")
    (Ok "ssh-ed25519 KEY cirro-node") None None None None connect_known example_ports.
Definition example_add : AddMachine := mkAddMachine "box" "deploy@box.example.com" "SHA256:abc".
Definition example_app (name host : string) : MachineAppRequest :=
  mkMachineAppRequest name "box" (mkRoute host 8080 None).
Definition example_later : list MEvent :=
  [EAddApp example_ports example_ports None (example_app "api" "api.example.com");
   ETurn 1 (Ok ["Authenticated to box.example.com"]); EUp 1].

Definition example_restart : MStep := MRestart None None (fun _ => None) (fun _ => example_ports).
Definition example_steps : list MStep :=
  [MLive (EAdd (example_adding None) example_add);
   MLive (EAddApp example_ports example_ports None (example_app "site" "site.example.com"));
   example_restart;
   MLive (EUp 1); MLive (ETurn 1 (Ok ["Host key verification failed."]))].


Lemma changed_host_key_is_final_witness :
  untrusted (mexecs example_later (msteps example_steps fresh_machines)).1 "box".
Proof.
  refine (proj1 (changed_host_key_is_final example_steps example_later "box" _ _ _)).
  - vm_compute. reflexivity.
  - eexists. split; vm_compute; reflexivity.
  - repeat constructor; intros H; exact H.
Defined.

(** A restart forgets that a host key changed: the Machine gets a new link and
    a new task, and if its [ssh] logs in, requests reach it again, though
    nobody removed it and added it again. *)
Theorem restart_tries_a_changed_host_key_again :
  let before := msteps example_steps fresh_machines in
  let after := msteps [example_restart; MLive (EUp 1)] before in
  machines_resolve before.1 "site.example.com" =
    Some (MachineDown ("Machine " +:+ debug_str "box" +:+ " is unreachable: " +:+ KEY_CHANGED)) /\
  machines_resolve after.1 "site.example.com" = Some (ToPort 40000).
Proof. vm_compute. done. Qed.

(** A Machine that a restart couldn't set up keeps its Apps' rows, and a
    hostname on record is not checked for ([machine_apps.host] is not unique):
    another Machine's App can take it, and once a later restart sets both up,
    two Apps have one hostname, for which the edge answers with whichever
    Machine comes first. *)
Definition other_add : AddMachine := mkAddMachine "cube" "deploy@cube.example.com" "SHA256:abc".
Definition clash_steps : list MStep :=
  [MLive (EAdd (example_adding None) example_add);
   MLive (EAdd (example_adding None) other_add);
   MLive (EAddApp example_ports example_ports None (example_app "site" "site.example.com"));
   MRestart None None (fun name => if bool_decide (name = "box") then Some ("No space left on device", "") else None)
     (fun _ => example_ports);
   MLive (EAddApp example_ports example_ports None
     (mkMachineAppRequest "shop" "cube" (mkRoute "site.example.com" 8080 None)));
   example_restart].
Theorem skipped_restore_lets_apps_share_a_host :
  let s := msteps clash_steps fresh_machines in
  restarts_whole clash_steps fresh_machines = false /\
  ((fun app => (mai_name app, mai_machine app, rt_host (mai_route app))) <$> machines_apps s.1) =
    [("site", "box", "site.example.com"); ("shop", "cube", "site.example.com")].
Proof. vm_compute. done. Qed.

(** A Machine whose connect fails after it was recorded is stranded: [add]
    answers an error, the Machine isn't listed, adding it again fails on the
    row the first try left, and removing it answers that there is no such
    Machine, until the agent restarts. *)
Theorem failed_connect_strands_record :
  let s := fresh_machines in
  let '(ms, db, r) := machines_add (example_adding (Some ("No space left on device", ""))) example_add s.1 s.2 in
  let '(ms', db', r') := machines_add (example_adding None) example_add ms db in
  let '(_, _, r'') := machines_remove None None "box" ms' db' in
  is_ok r = false /\ machines_list ms = [] /\
  r' = Err (internal ("record Machine " +:+ debug_str "box"
    +:+ ": state database: UNIQUE constraint failed: machines.name")) /\
  r'' = Err (mkApiError NOT_FOUND ("no Machine named " +:+ debug_str "box")).
Proof. vm_compute. done. Qed.
