(* ===== verification/Edge.v ===== *)
(** * The Node's edge ([crates/cirro-edge/src/lib.rs])

    The HTTP reverse proxy: a request's hostname, what a [Router] answers for
    it, the request and response as they pass, and the connections they come
    on, with the hostname of a TLS handshake. The router is an
    interface, [Router], which the Node agent implements. Parsing of an
    authority, of a header name and of a header value is the [http] crate's,
    and is an argument ([authority_host], [header_name], [header_value]). *)

From S2P Require Import Prelude RustStr Proto Validate.

(** ** Routing *)

(** [Resolution], with what the router wants held as the lease. *)
Inductive Resolution (L : Type) :=
| Upstream (address : Ipv4Addr) (port : N) (lease : L)
| NotFound
| Unavailable (why : string).
Arguments Upstream {L}.
Arguments NotFound {L}.
Arguments Unavailable {L}.

(** The [Router] trait: the router's own state is threaded through. *)
Class Router (R L : Type) := {
  router_resolve : R -> string -> R * Resolution L;
  router_challenge : R -> string -> option string;
}.

Inductive Scheme := Http | Https (sni : string).
(** [Scheme::proto]. *)
Definition scheme_proto (s : Scheme) : string :=
  match s with Http => "http" | Https _ => "https" end.
(** The scheme [accept] gives a TLS connection. *)
Definition tls_scheme (server_name : option string) : Scheme :=
  Https (to_lower (trim_end_matches "." (default "" server_name))).

(** ** Messages *)

(** Header names are lowercase, as [HeaderName] keeps them; a name may come
    more than once. *)
Definition Headers : Type := list (string * string).
Definition get_all (name : string) (hs : Headers) : list string :=
  (filter (fun h => h.1 = name) hs).*2.
Definition hdr_remove (name : string) (hs : Headers) : Headers :=
  filter (fun h => h.1 <> name) hs.
(** [HeaderMap::insert]: one value, where the name first was or at the end. *)
Fixpoint hdr_insert (name value : string) (hs : Headers) : Headers :=
  match hs with
  | [] => [(name, value)]
  | (n, v) :: hs =>
      if decide (n = name) then (name, value) :: hdr_remove name hs
      else (n, v) :: hdr_insert name value hs
  end.

(** [HeaderValue::to_str] takes visible ASCII, spaces and tabs. *)
Definition visible (c : ascii) : bool :=
  let n := N_of_ascii c in ((32 <=? n) && (n <? 127) || (n =? 9))%N.

Record EdgeRequest := mkEdgeRequest {
  er_authority : option string;  (** of an absolute-form URI, its host part *)
  er_path : string;
  er_path_and_query : option string;
  er_headers : Headers;
}.

(** A response: the edge's own text, or the App's, and the lease its body
    holds. *)
Record EdgeResponse := mkEdgeResponse {
  es_status : N;
  es_headers : Headers;
  es_body : string;
}.
Definition edge_text (status : N) (body : string) : EdgeResponse :=
  mkEdgeResponse status [("content-type", "text/plain; charset=utf-8")] body.

Definition MISDIRECTED_REQUEST : N := 421.

(** What the edge sends upstream. *)
Record Forwarded := mkForwarded { fw_uri : string; fw_headers : Headers }.

Section edge.
Context (authority_host : string -> option string).
Context (header_name : string -> option string).
(** Whether [HeaderValue::from_str] takes a text. *)
Context (header_value : string -> bool).

Definition host_of (req : EdgeRequest) : option string :=
  raw ← match er_authority req with
        | Some host => Some host
        | None =>
            value ← head (get_all "host" (er_headers req));
            if str_all visible value then authority_host value else None
        end;
  let host := to_lower (trim_end_matches "." raw) in
  if is_empty host then None else Some host.

(** ** Hop-by-hop headers *)

Definition HOP_BY_HOP : list string :=
  ["connection"; "proxy-authenticate"; "proxy-authorization"; "te"; "trailer";
   "transfer-encoding"; "upgrade"; "keep-alive"; "proxy-connection"].

(** The headers a message's [Connection] names. *)
Definition connection_names (hs : Headers) : list string :=
  omap (fun n => header_name (trim n))
    (mjoin (str_split "," <$> filter (fun v => str_all visible v = true) (get_all "connection" hs))).

Definition remove_hop_by_hop (hs : Headers) : Headers :=
  foldl (fun hs n => hdr_remove n hs) hs (connection_names hs ++ HOP_BY_HOP).

(** The request [proxy] sends. *)
Definition forward_request (req : EdgeRequest) (host peer proto : string) : Forwarded :=
  let hs := remove_hop_by_hop (er_headers req) in
  let hs := if header_value host
            then hdr_insert "x-forwarded-host" host (hdr_insert "host" host hs) else hs in
  let hs := if header_value peer then hdr_insert "x-forwarded-for" peer hs else hs in
  mkForwarded (default "/" (er_path_and_query req)) (hdr_insert "x-forwarded-proto" proto hs).

(** [connect]: refused connections are tried again until the time is up,
    which is the end of the tries. *)
Inductive ConnectTry := Refused | Connected | ConnectFailed (e : string).
Fixpoint edge_connect (tries : list ConnectTry) : result string unit :=
  match tries with
  | [] => Err "connecting to it timed out after 5s"
  | Refused :: tries => edge_connect tries
  | Connected :: _ => Ok tt
  | ConnectFailed e :: _ => Err ("connect: " +:+ e)
  end.

(** What the App's side answers. *)
Record UpstreamOutcome := mkUpstreamOutcome {
  uo_connect : list ConnectTry;
  uo_handshake : option string;
  uo_answer : Forwarded -> result string EdgeResponse;
}.

Definition proxy (u : UpstreamOutcome) (req : EdgeRequest) (host peer proto : string)
    : result string EdgeResponse :=
  _ ← edge_connect (uo_connect u);
  _ ← match uo_handshake u with Some e => Err ("handshake: " +:+ e) | None => Ok tt end;
  response ← map_err (fun e => "send the request: " +:+ e)
               (uo_answer u (forward_request req host peer proto));
  Ok (mkEdgeResponse (es_status response) (remove_hop_by_hop (es_headers response))
        (es_body response)).

(** ** One request *)

Context {R L : Type} `{Router R L}.

(** [handle]: the router after it, the response, and the lease the
    response's body holds. A lease of a request that failed is dropped. *)
Definition edge_handle (u : Ipv4Addr -> N -> UpstreamOutcome) (peer : string) (scheme : Scheme)
    (req : EdgeRequest) (router : R) : R * EdgeResponse * option L :=
  match host_of req with
  | None => (router, edge_text BAD_REQUEST ("the request names no host" +:+ nl), None)
  | Some host =>
      let answer :=
        match scheme with
        | Http =>
            token ← strip_prefix "/.well-known/acme-challenge/" (er_path req);
            router_challenge router token
        | Https _ => None
        end in
      match answer with
      | Some answer => (router, edge_text OK answer, None)
      | None =>
          let misdirected :=
            match scheme with
            | Https sni => if bool_decide (sni = host) then None else Some sni
            | Http => None
            end in
          match misdirected with
          | Some sni =>
              (router, edge_text MISDIRECTED_REQUEST
                 ("this connection is for " +:+ sni +:+ ", not " +:+ host +:+ "; connect again for "
                    +:+ host +:+ nl), None)
          | None =>
              match router_resolve router host with
              | (router, NotFound) =>
                  (router, edge_text NOT_FOUND
                     ("no App on this Node has the hostname " +:+ host +:+ nl), None)
              | (router, Unavailable why) =>
                  (router, edge_text SERVICE_UNAVAILABLE (why +:+ nl), None)
              | (router, Upstream address port lease) =>
                  match proxy (u address port) req host peer (scheme_proto scheme) with
                  | Ok response => (router, response, Some lease)
                  | Err e =>
                      (router, edge_text BAD_GATEWAY
                         ("the App at " +:+ host +:+ " didn't answer: " +:+ e +:+ nl), None)
                  end
              end
          end
      end
  end.

(** ** Connections *)

(** A TLS handshake, as [accept] waits for it; a client, with what the
    router is like at each request it makes on its connection. *)
Inductive Handshake :=
| HandshakeDone (server_name : option string)
| HandshakeFailed (e : string)
| HandshakeTimedOut.
Record EdgeClient := mkEdgeClient {
  cl_peer : string;
  cl_handshake : Handshake;
  cl_requests : list (R * EdgeRequest);
}.

(** [serve_connection]: every request of a connection has its scheme. *)
Definition serve_connection (u : Ipv4Addr -> N -> UpstreamOutcome) (peer : string) (scheme : Scheme)
    (requests : list (R * EdgeRequest)) : list (EdgeResponse * option L) :=
  (fun '(router, req) => let '(_, resp, lease) := edge_handle u peer scheme req router in (resp, lease))
    <$> requests.

(** The task [accept] spawns for a connection. *)
Definition accepted (u : Ipv4Addr -> N -> UpstreamOutcome) (tls : bool) (client : EdgeClient)
    : list (EdgeResponse * option L) :=
  if negb tls then serve_connection u (cl_peer client) Http (cl_requests client)
  else
    match cl_handshake client with
    | HandshakeDone server_name =>
        serve_connection u (cl_peer client) (tls_scheme server_name) (cl_requests client)
    | HandshakeFailed _ | HandshakeTimedOut => []
    end.

(** [accept], over what the listener says: what each client was answered. An
    error is only waited out. *)
Definition accept (u : Ipv4Addr -> N -> UpstreamOutcome) (tls : bool) (conns : list (result string EdgeClient))
    : list (EdgeClient * list (EdgeResponse * option L)) :=
  (fun client => (client, accepted u tls client)) <$> omap ok conns.
Definition edge_serve (u : Ipv4Addr -> N -> UpstreamOutcome) := accept u false.
Definition serve_tls (u : Ipv4Addr -> N -> UpstreamOutcome) := accept u true.
End edge.
Arguments mkEdgeClient {R}.
Arguments cl_peer {R}.
Arguments cl_handshake {R}.
Arguments cl_requests {R}.

(** ** Headers *)

Lemma elem_of_hdr_remove name hs h : h ∈ hdr_remove name hs <-> h ∈ hs /\ h.1 <> name.
Proof. unfold hdr_remove. rewrite list_elem_of_filter. naive_solver. Qed.

Lemma elem_of_fold_remove names hs h :
  h ∈ foldl (fun hs n => hdr_remove n hs) hs names <-> h ∈ hs /\ h.1 ∉ names.
Proof.
  revert hs. induction names as [|n names IH]; intros hs; simpl; [set_solver|].
  rewrite IH, elem_of_hdr_remove, not_elem_of_cons. naive_solver.
Qed.

Lemma hdr_remove_cons n v hs name :
  hdr_remove name ((n, v) :: hs)
  = if decide (n = name) then hdr_remove name hs else (n, v) :: hdr_remove name hs.
Proof.
  unfold hdr_remove at 1. unfold filter; cbn [list_filter fst].
  destruct (decide (n <> name)), (decide (n = name)); try done; by exfalso; auto.
Qed.

Lemma get_all_remove_eq name hs : get_all name (hdr_remove name hs) = [].
Proof.
  apply elem_of_nil_inv. intros v Hv. unfold get_all in Hv.
  apply list_elem_of_fmap in Hv as ([n w] & -> & Hw).
  apply list_elem_of_filter in Hw as [Hn Hw]. by apply elem_of_hdr_remove in Hw as [_ ?].
Qed.

Lemma get_all_cons n v hs name :
  get_all name ((n, v) :: hs) = if decide (n = name) then v :: get_all name hs else get_all name hs.
Proof.
  unfold get_all. unfold filter; cbn [list_filter fst]. by destruct (decide (n = name)).
Qed.

Lemma get_all_insert_eq name value hs : get_all name (hdr_insert name value hs) = [value].
Proof.
  induction hs as [|[n v] hs IH]; cbn [hdr_insert].
  - by rewrite get_all_cons, decide_True.
  - destruct (decide (n = name)) as [->|Hne].
    + by rewrite get_all_cons, decide_True, get_all_remove_eq.
    + by rewrite get_all_cons, decide_False.
Qed.

Lemma get_all_remove_ne name other hs : name <> other ->
  get_all other (hdr_remove name hs) = get_all other hs.
Proof.
  intros Hne. induction hs as [|[n v] hs IH]; [done|]. rewrite hdr_remove_cons.
  destruct (decide (n = name)) as [->|Hn]; rewrite !get_all_cons, ?IH; [|done].
  by rewrite decide_False.
Qed.

Lemma get_all_insert_ne name other value hs : name <> other ->
  get_all other (hdr_insert name value hs) = get_all other hs.
Proof.
  intros Hne. induction hs as [|[n v] hs IH]; cbn [hdr_insert].
  - by rewrite get_all_cons, decide_False.
  - destruct (decide (n = name)) as [->|Hn]; rewrite !get_all_cons.
    + rewrite !decide_False by done. by apply get_all_remove_ne.
    + by rewrite IH.
Qed.

(** Hop-by-hop headers never pass the edge, and no other header is lost:
    a header is in what is passed on exactly when it was in the message and
    its name is neither one of the nine fixed ones nor named by any
    [Connection] header of the message. *)
Theorem hop_by_hop_removed header_name hs name value :
  (name, value) ∈ remove_hop_by_hop header_name hs <->
  (name, value) ∈ hs /\ (name ∉ HOP_BY_HOP) /\ (name ∉ connection_names header_name hs).
Proof.
  unfold remove_hop_by_hop. rewrite elem_of_fold_remove, not_elem_of_app. simpl. tauto.
Qed.

Lemma get_all_fold_remove names hs name :
  get_all name (foldl (fun hs n => hdr_remove n hs) hs names)
  = if decide (name ∈ names) then [] else get_all name hs.
Proof.
  revert hs. induction names as [|n names IH]; intros hs; cbn [foldl]; [by rewrite decide_False by set_solver|].
  rewrite IH. destruct (decide (name ∈ names)) as [Hin|Hout].
  { by rewrite decide_True by set_solver. }
  destruct (decide (n = name)) as [->|Hne].
  - rewrite decide_True by set_solver. apply get_all_remove_eq.
  - rewrite decide_False by set_solver. by apply get_all_remove_ne.
Qed.
Lemma elem_of_get_all name hs value : value ∈ get_all name hs <-> (name, value) ∈ hs.
Proof.
  unfold get_all. rewrite list_elem_of_fmap. split.
  - intros ([n v] & -> & [Hn H]%list_elem_of_filter). cbn in *. by subst.
  - intros H. exists (name, value). split; [done|]. by apply list_elem_of_filter.
Qed.

(** A name one of a message's [Connection] headers lists. *)
Definition listed_by_connection (header_name : string -> option string) (hs : Headers) (name : string) : Prop :=
  exists value piece, ("connection", value) ∈ hs /\ str_all visible value = true /\
    piece ∈ str_split "," value /\ header_name (trim piece) = Some name.
Lemma elem_of_connection_names header_name hs name :
  name ∈ connection_names header_name hs <-> listed_by_connection header_name hs name.
Proof.
  unfold connection_names, listed_by_connection. rewrite list_elem_of_omap. split.
  - intros (piece & Hin & Hn). apply list_elem_of_join in Hin as (pieces & Hp & Hps).
    apply list_elem_of_fmap in Hps as (value & -> & Hv). apply list_elem_of_filter in Hv as [Hvis Hv%elem_of_get_all].
    by exists value, piece.
  - intros (value & piece & Hv & Hvis & Hp & Hn). exists piece. split; [|done].
    apply list_elem_of_join. exists (str_split "," value). split; [done|]. apply list_elem_of_fmap. exists value.
    split; [done|]. apply list_elem_of_filter. by split; [|apply elem_of_get_all].
Qed.

(** C26: What an App is told of a request comes from the edge, not the client.
    Where the routed hostname and the client's address are texts a header can
    hold, and whatever [Host], [X-Forwarded-*], [Connection] or other headers
    the client sent: the App gets exactly one [Host] and one
    [X-Forwarded-Host], the routed hostname, one [X-Forwarded-For], the
    client's address, and one [X-Forwarded-Proto]; of the other headers it
    gets none of the nine hop-by-hop ones and none that a readable
    [Connection] header of the request lists, and every one left exactly as
    the client sent it. *)
Theorem forwarded_headers_are_the_edges header_name header_value req host peer proto :
  header_value host = true -> header_value peer = true ->
  let hs := fw_headers (forward_request header_name header_value req host peer proto) in
  let hop_by_hop n :=
    n ∈ ["connection"; "proxy-authenticate"; "proxy-authorization"; "te"; "trailer"; "transfer-encoding";
         "upgrade"; "keep-alive"; "proxy-connection"] \/ listed_by_connection header_name (er_headers req) n in
  get_all "host" hs = [host] /\ get_all "x-forwarded-host" hs = [host] /\
  get_all "x-forwarded-for" hs = [peer] /\ get_all "x-forwarded-proto" hs = [proto] /\
  (forall n, n ∉ ["host"; "x-forwarded-host"; "x-forwarded-for"; "x-forwarded-proto"] ->
     (hop_by_hop n -> get_all n hs = []) /\ (~ hop_by_hop n -> get_all n hs = get_all n (er_headers req))).
Proof.
  intros Hh Hp hs hop_by_hop. unfold hs, forward_request. rewrite Hh, Hp. cbn [fw_headers].
  split_and!.
  5: { intros n Hn. rewrite !not_elem_of_cons in Hn. destruct Hn as (? & ? & ? & ? & _).
       rewrite !get_all_insert_ne by done. unfold remove_hop_by_hop. rewrite get_all_fold_remove.
       unfold hop_by_hop. fold HOP_BY_HOP. rewrite <- elem_of_connection_names.
       destruct (decide _) as [Hin|Hout]; split; try done; rewrite elem_of_app in *; tauto. }
  all: rewrite ?get_all_insert_eq; try done;
    repeat (rewrite get_all_insert_ne by done; rewrite ?get_all_insert_eq); done.
Qed.

(** Header names as [HeaderName] accepts them when they are plain words. *)
Definition plain_header_name (s : string) : option string :=
  if str_all (fun c => is_alphanumeric c || bool_decide (c = "-"%char)) s && negb (is_empty s)
  then Some (to_lower s) else None.

Lemma forwarded_headers_are_the_edges_witness :
  let hs := fw_headers (forward_request plain_header_name (str_all visible)
    (mkEdgeRequest None "/" (Some "/") [("host", "a.test"); ("x-forwarded-for", "1.2.3.4"); ("x-secret", "1");
       ("connection", "X-Secret, close"); ("upgrade", "h2c")]) "a.test" "203.0.113.9" "https") in
  get_all "x-forwarded-for" hs = ["203.0.113.9"] /\ get_all "upgrade" hs = [] /\ get_all "x-secret" hs = [].
Proof.
  intros hs.
  pose proof (forwarded_headers_are_the_edges plain_header_name (str_all visible)
    (mkEdgeRequest None "/" (Some "/") [("host", "a.test"); ("x-forwarded-for", "1.2.3.4"); ("x-secret", "1");
       ("connection", "X-Secret, close"); ("upgrade", "h2c")]) "a.test" "203.0.113.9" "https"
    ltac:(vm_compute; reflexivity) ltac:(vm_compute; reflexivity)) as (_ & _ & H & _ & Hrest).
  split_and!; [exact H| |].
  - apply (proj1 (Hrest "upgrade" ltac:(by rewrite !not_elem_of_cons; split_and!; [..|apply not_elem_of_nil]))).
    left. do 6 right. left.
  - apply (proj1 (Hrest "x-secret" ltac:(by rewrite !not_elem_of_cons; split_and!; [..|apply not_elem_of_nil]))).
    right. exists "X-Secret, close", "X-Secret". split_and!; [do 3 right; left|by vm_compute|left|by vm_compute].
Defined.

(** ** Hostnames *)

Lemma trim_end_matches_app c s t :
  trim_end_matches c t = "" -> trim_end_matches c (s +:+ t) = trim_end_matches c s.
Proof.
  intros Ht. induction s as [|d s IH]; [done|]. change (String d s +:+ t) with (String d (s +:+ t)).
  cbn [trim_end_matches]. by rewrite IH.
Qed.

(** [k] trailing dots. *)
Fixpoint dots (k : nat) : string :=
  match k with O => "" | S k => String "." (dots k) end.

Lemma trim_end_matches_dots k : trim_end_matches "." (dots k) = "".
Proof. induction k as [|k IH]; [done|]. cbn [dots trim_end_matches]. by rewrite IH. Qed.

(** Only a dot is a dot in lowercase. *)
Lemma lower_char_dot c : lower_char c = "."%char <-> c = "."%char.
Proof.
  destruct c as [[] [] [] [] [] [] [] []]; split; intros H; first [discriminate H | reflexivity].
Qed.

Lemma to_lower_trim_end s : to_lower (trim_end_matches "." s) = trim_end_matches "." (to_lower s).
Proof.
  induction s as [|d s IH]; [done|]. cbn [to_lower trim_end_matches]. rewrite <- IH.
  pose proof (lower_char_dot d) as Hd.
  destruct (trim_end_matches "." s); [|done]. cbn [to_lower].
  destruct (decide ("."%char = d)) as [<-|Hne]; [by rewrite decide_True|].
  rewrite decide_False; [done|]. intros He. apply Hne. symmetry. by apply Hd.
Qed.

Lemma trim_end_matches_last c s w :
  last (str_split c s) = Some w -> w <> "" -> trim_end_matches c s = s.
Proof.
  revert w. induction s as [|d s IH]; intros w Hl Hw; [done|].
  cbn [str_split trim_end_matches] in *.
  destruct (decide (c = d)) as [->|Hne].
  - destruct (str_split d s) as [|u us] eqn:Es; [by apply str_split_nonempty in Es|].
    change (last ("" :: u :: us)) with (last (u :: us)) in Hl. rewrite (IH w Hl Hw).
    destruct s; [|done]. injection Es as <- <-. by injection Hl as <-.
  - destruct (str_split c s) as [|u us] eqn:Es; [by apply str_split_nonempty in Es|].
    destruct us as [|u' us].
    + destruct (decide (u = "")) as [->|Hu].
      * destruct s as [|e s]; [done|]. exfalso. cbn [str_split] in Es.
        pose proof (str_split_nonempty c s) as Hn.
        destruct (decide (c = e)); [congruence|]. by destruct (str_split c s).
      * rewrite (IH u); [by destruct s|done|done].
    + change (last (String d u :: u' :: us)) with (last (u :: u' :: us)) in Hl.
      rewrite (IH w Hl Hw). destruct s; [|done]. done.
Qed.

Lemma valid_host_trimmed route :
  validate_route route = Ok tt ->
  trim_end_matches "." (rt_host route) = rt_host route /\ rt_host route <> "".
Proof.
  unfold validate_route. intros Hv.
  destruct ((_ <? _)%N || _) eqn:E; [done|]. apply orb_false_iff in E as [_ E].
  apply negb_false_iff, Is_true_true, forallb_True in E.
  destruct (last (str_split "." (rt_host route))) as [w|] eqn:El.
  2: { apply last_None in El. by apply str_split_nonempty in El. }
  assert (Hw : label_ok w).
  { rewrite Forall_forall in E. apply E. by apply last_Some_elem_of in El. }
  assert (w <> "") by (intros ->; done).
  split; [by apply trim_end_matches_last with w|]. intros He. rewrite He in El. simpl in El.
  by simplify_eq.
Qed.

Lemma spelled_host route raw k :
  validate_route route = Ok tt -> to_lower raw = rt_host route ->
  to_lower (trim_end_matches "." (raw +:+ dots k)) = rt_host route.
Proof.
  intros Hv Hl. rewrite trim_end_matches_app by apply trim_end_matches_dots.
  rewrite to_lower_trim_end, Hl. by apply valid_host_trimmed.
Qed.

(** Every hostname the agent accepts for a Route can be reached, however a
    client spells it: in upper or lower case, with trailing dots, in an
    absolute-form URI or in a [Host] header with a port, [host_of] gives
    exactly the Route's hostname; and the name of a TLS handshake spelled
    any such way gives a connection for that same hostname. *)
Theorem route_reachable authority_host route req raw j k :
  validate_route route = Ok tt -> to_lower raw = rt_host route ->
  er_authority req = Some (raw +:+ dots k) \/
  (er_authority req = None /\
   exists value, head (get_all "host" (er_headers req)) = Some value /\
     str_all visible value = true /\ authority_host value = Some (raw +:+ dots k)) ->
  host_of authority_host req = Some (rt_host route) /\
  tls_scheme (Some (raw +:+ dots j)) = Https (rt_host route).
Proof.
  intros Hv Hl Hreq. destruct (valid_host_trimmed _ Hv) as [_ Hne].
  split; [|unfold tls_scheme; simpl; by rewrite (spelled_host route)].
  assert (Hraw : match er_authority req with
                 | Some host => Some host
                 | None => value ← head (get_all "host" (er_headers req));
                           if str_all visible value then authority_host value else None
                 end = Some (raw +:+ dots k)).
  { destruct Hreq as [->|(-> & value & -> & Hvis & Ha)]; [done|]. simpl. by rewrite Hvis. }
  unfold host_of. rewrite Hraw. cbn [mbind option_bind]. rewrite (spelled_host route raw k Hv Hl).
  by destruct (rt_host route).
Qed.

Lemma route_reachable_witness :
  host_of (fun v => fst <$> split_once ":" v)
    (mkEdgeRequest None "/" None [("host", "Web.Example.COM.:8080")]) = Some "web.example.com".
Proof.
  refine (proj1 (route_reachable (fun v => fst <$> split_once ":" v)
    (mkRoute "web.example.com" 8080 None) (mkEdgeRequest None "/" None [("host", "Web.Example.COM.:8080")])
    "Web.Example.COM" 0 1 _ _ _)).
  - vm_compute. reflexivity.
  - vm_compute. reflexivity.
  - right. split; [reflexivity|]. exists "Web.Example.COM.:8080".
    split_and!; vm_compute; reflexivity.
Defined.

(** A response that is passed on is the App's, less the hop-by-hop headers. *)
Lemma proxy_ok hn hv u req host peer proto resp :
  proxy hn hv u req host peer proto = Ok resp ->
  exists answer, uo_answer u (forward_request hn hv req host peer proto) = Ok answer /\
    resp = mkEdgeResponse (es_status answer) (remove_hop_by_hop hn (es_headers answer)) (es_body answer).
Proof.
  unfold proxy. intros (_ & _ & H)%bind_ok. apply bind_ok in H as (_ & _ & H).
  apply bind_ok in H as (answer & H & [= <-]). exists answer. split; [|done].
  by destruct (uo_answer _ _); simplify_eq/=.
Qed.

(** A request reaches an App only for the hostname it names, and over TLS
    only for the hostname its connection's certificate was chosen for: if the
    edge's answer holds a lease, or the router's state moved, then the router
    was asked for exactly the hostname [host_of] gives, which on a TLS
    connection is the handshake's; a held lease is the one the router gave,
    and the response the App's at the address the router gave. *)
Theorem edge_routes_by_host {R L} `{Router R L} ah hn hv u peer scheme req (router r' : R)
    resp (lease : option L) :
  edge_handle ah hn hv u peer scheme req router = (r', resp, lease) ->
  is_Some lease \/ r' <> router ->
  exists host res,
    host_of ah req = Some host /\ router_resolve router host = (r', res) /\
    (forall sni, scheme = Https sni -> sni = host) /\
    (forall l, lease = Some l -> exists address port,
       res = Upstream address port l /\
       proxy hn hv (u address port) req host peer (scheme_proto scheme) = Ok resp).
Proof.
  unfold edge_handle. intros He Hr.
  destruct (host_of ah req) as [host|]; [|simplify_eq; by destruct Hr as [[? ?]|?]].
  destruct (match scheme with Http => _ | Https _ => _ end) as [a|];
    [simplify_eq; by destruct Hr as [[? ?]|?]|].
  assert (Hs : (forall sni, scheme = Https sni -> sni = host) /\
    match scheme with Https sni => if bool_decide (sni = host) then None else Some sni
                    | Http => None end = None).
  { destruct scheme as [|sni]; [done|]. case_bool_decide as Hsni; [naive_solver|].
    simplify_eq. by destruct Hr as [[? ?]|?]. }
  destruct Hs as [Hs Hn]. rewrite Hn in He. exists host.
  destruct (router_resolve router host) as [r1 [address port l| |why]] eqn:Er.
  - destruct (proxy _ _ _ _ _ _ _) eqn:Ep; simplify_eq; eexists; split_and!; try done.
    intros l' [= <-]. by exists address, port.
  - simplify_eq. eexists. by split_and!.
  - simplify_eq. eexists. by split_and!.
Qed.

(** An answer on a connection is one of its requests', with the scheme the
    connection began with. *)
Lemma accept_elem {R L} `{Router R L} ah hn hv u tls conns client answers resp (lease : option L) :
  (client, answers) ∈ accept ah hn hv u tls conns -> (resp, lease) ∈ answers ->
  exists scheme router router' req,
    Ok client ∈ conns /\ (router, req) ∈ cl_requests client /\
    edge_handle ah hn hv u (cl_peer client) scheme req router = (router', resp, lease) /\
    (if tls then exists name, cl_handshake client = HandshakeDone name /\ scheme = tls_scheme name
     else scheme = Http).
Proof.
  unfold accept. intros (c & [= -> ->] & (r & Hc & Hr)%list_elem_of_omap)%list_elem_of_fmap Ha.
  destruct r as [c'|]; [|done]. injection Hr as ->.
  assert (Hs : forall scheme, (resp, lease) ∈ serve_connection ah hn hv u (cl_peer c) scheme (cl_requests c) ->
    exists router router' req, (router, req) ∈ cl_requests c /\
      edge_handle ah hn hv u (cl_peer c) scheme req router = (router', resp, lease)).
  { unfold serve_connection. intros scheme ([router req] & He & Hin)%list_elem_of_fmap.
    destruct (edge_handle _ _ _ _ _ _ _ _) as [[router' resp'] lease'] eqn:E. injection He as -> ->.
    by exists router, router', req. }
  unfold accepted in Ha. destruct tls; cbn [negb] in Ha.
  - destruct (cl_handshake c) as [name| |] eqn:Hh; [|by apply not_elem_of_nil in Ha..].
    destruct (Hs _ Ha) as (router & router' & req & ? & ?).
    exists (tls_scheme name), router, router', req. split_and!; try done. by exists name.
  - destruct (Hs _ Ha) as (router & router' & req & ? & ?). by exists Http, router, router', req.
Qed.

(** A router with one App, for the hostname [a.test]. *)
Definition one_app_router : Router nat string := {|
  router_resolve n host :=
    if decide (host = "a.test") then (S n, Upstream 167772165%N 80 "lease")
    else (n, NotFound);
  router_challenge _ _ := None;
|}.
Definition echo_app (_ : Ipv4Addr) (_ : N) : UpstreamOutcome :=
  mkUpstreamOutcome [Refused; Connected] None (fun fw => Ok (mkEdgeResponse OK [] (fw_uri fw))).

Lemma edge_routes_by_host_witness :
  exists host res,
    host_of Some (mkEdgeRequest (Some "A.test") "/x" (Some "/x") []) = Some host /\
    router_resolve (Router := one_app_router) 0%nat host = (1%nat, res) /\
    (forall sni, Https "a.test" = Https sni -> sni = host) /\
    (forall l, Some "lease" = Some l -> exists address port,
       res = Upstream address port l /\
       proxy plain_header_name (str_all visible) (echo_app address port)
         (mkEdgeRequest (Some "A.test") "/x" (Some "/x") []) host "203.0.113.9" "https"
         = Ok (mkEdgeResponse OK [] "/x")).
Proof.
  refine (edge_routes_by_host (H := one_app_router) Some plain_header_name (str_all visible)
    echo_app "203.0.113.9" (Https "a.test") (mkEdgeRequest (Some "A.test") "/x" (Some "/x") [])
    0%nat 1%nat (mkEdgeResponse OK [] "/x") (Some "lease") _ _).
  - vm_compute. reflexivity.
  - left. eexists. reflexivity.
Defined.
