(* ===== verification/Agent.v ===== *)
(** * The Node agent ([crates/cirro-node/src/agent.rs])

    The registry of VMs, and the handlers that change it. A handler that
    awaits is split there: the part under the VM table's lock, which
    reserves or claims, and the part the spawned task does when the awaited
    thing has happened, given what it answered. The host's objects, the
    state database and the Machines are part of the agent's state, so a
    handler's effect on them is its result. [Arc<Traffic>] is a key of a
    heap, which also names the supervisor task of the entry it was made for.
    Clocks are arguments, in seconds. *)

From S2P Require Import Prelude RustStr Proto Subnet Store Validate Vm Machine Edge.

(** ** State *)

Definition DEFAULT_STOP_TIMEOUT : N := 10.
Definition HOLD_FOR_START : N := 30.

Inductive Entry :=
| Starting (vm_address : Ipv4Addr) (log : string) (route : option Route)
| Running (info : VmInfo) (log : string) (traffic : nat)
| EndedVm (info : VmInfo) (log : string).

(** [Entry::vm_address], [Entry::route] and [Entry::log]. *)
Definition entry_vm_address (e : Entry) : option Ipv4Addr :=
  match e with
  | Starting vm_address _ _ => Some vm_address
  | Running info _ _ => vi_vm_address info
  | EndedVm _ _ => None
  end.
Definition entry_route (e : Entry) : option Route :=
  match e with
  | Starting _ _ route => route
  | Running info _ _ | EndedVm info _ => vi_route info
  end.
Definition entry_log (e : Entry) : string :=
  match e with Starting _ log _ | Running _ log _ | EndedVm _ log => log end.

Record Traffic := mkTraffic {
  tr_in_flight : N;
  tr_last : N;
  tr_parking : bool;
}.
(** [Traffic::new] and [Traffic::idle_for]. *)
Definition traffic_new (now : N) : Traffic := mkTraffic 0 now false.
Definition idle_for (now idle : N) (t : Traffic) : bool :=
  ((tr_in_flight t =? 0) && (idle <=? now - tr_last t))%N.

(** The 32-bit counter's [fetch_add] and [fetch_sub], as [InFlight::start]
    and its [drop] use them. *)
Definition inflight_start (t : Traffic) : Traffic :=
  mkTraffic (wrap32 (tr_in_flight t + 1)) (tr_last t) (tr_parking t).
Definition inflight_drop (now : N) (t : Traffic) : Traffic :=
  mkTraffic (wrap32 (tr_in_flight t + u32_max)) now (tr_parking t).
Definition set_parking (b : bool) (t : Traffic) : Traffic :=
  mkTraffic (tr_in_flight t) (tr_last t) b.
Definition set_last (now : N) (t : Traffic) : Traffic :=
  mkTraffic (tr_in_flight t) now (tr_parking t).

Record Replaced := mkReplaced { rp_info : VmInfo; rp_log : string }.

Record Agent := mkAgent {
  ag_node : NodeConfig;
  ag_subnet : Subnet;
  ag_logs_dir : string;
  ag_parked_dir : string;
  ag_vms : gmap string Entry;
  ag_db : Db;
  ag_next_log : N;
  ag_shutting_down : bool;
  ag_wake_failures : gmap string string;
  ag_ca : option string;
  ag_acme : bool;
  ag_machines : Machines;
  (** the heap of [Traffic]s, and the running supervisor tasks by the
      [Traffic] of their entry *)
  ag_traffic : gmap nat Traffic;
  ag_next : nat;
  ag_sups : gmap nat (string * Vm);
  (** the hostnames [acme.ensure] was spawned for *)
  ag_ensuring : list string;
  ag_host : Host;
}.

Definition set_ag_vms (x : gmap string Entry) (a : Agent) : Agent :=
  mkAgent (ag_node a) (ag_subnet a) (ag_logs_dir a) (ag_parked_dir a) x (ag_db a) (ag_next_log a)
    (ag_shutting_down a) (ag_wake_failures a) (ag_ca a) (ag_acme a) (ag_machines a) (ag_traffic a)
    (ag_next a) (ag_sups a) (ag_ensuring a) (ag_host a).
Definition set_ag_db (x : Db) (a : Agent) : Agent :=
  mkAgent (ag_node a) (ag_subnet a) (ag_logs_dir a) (ag_parked_dir a) (ag_vms a) x (ag_next_log a)
    (ag_shutting_down a) (ag_wake_failures a) (ag_ca a) (ag_acme a) (ag_machines a) (ag_traffic a)
    (ag_next a) (ag_sups a) (ag_ensuring a) (ag_host a).
Definition set_ag_next_log (x : N) (a : Agent) : Agent :=
  mkAgent (ag_node a) (ag_subnet a) (ag_logs_dir a) (ag_parked_dir a) (ag_vms a) (ag_db a) x
    (ag_shutting_down a) (ag_wake_failures a) (ag_ca a) (ag_acme a) (ag_machines a) (ag_traffic a)
    (ag_next a) (ag_sups a) (ag_ensuring a) (ag_host a).
Definition set_ag_shutting_down (x : bool) (a : Agent) : Agent :=
  mkAgent (ag_node a) (ag_subnet a) (ag_logs_dir a) (ag_parked_dir a) (ag_vms a) (ag_db a)
    (ag_next_log a) x (ag_wake_failures a) (ag_ca a) (ag_acme a) (ag_machines a) (ag_traffic a)
    (ag_next a) (ag_sups a) (ag_ensuring a) (ag_host a).
Definition set_ag_wake_failures (x : gmap string string) (a : Agent) : Agent :=
  mkAgent (ag_node a) (ag_subnet a) (ag_logs_dir a) (ag_parked_dir a) (ag_vms a) (ag_db a)
    (ag_next_log a) (ag_shutting_down a) x (ag_ca a) (ag_acme a) (ag_machines a) (ag_traffic a)
    (ag_next a) (ag_sups a) (ag_ensuring a) (ag_host a).
Definition set_ag_machines (x : Machines) (a : Agent) : Agent :=
  mkAgent (ag_node a) (ag_subnet a) (ag_logs_dir a) (ag_parked_dir a) (ag_vms a) (ag_db a)
    (ag_next_log a) (ag_shutting_down a) (ag_wake_failures a) (ag_ca a) (ag_acme a) x (ag_traffic a)
    (ag_next a) (ag_sups a) (ag_ensuring a) (ag_host a).
Definition set_ag_traffic (x : gmap nat Traffic) (a : Agent) : Agent :=
  mkAgent (ag_node a) (ag_subnet a) (ag_logs_dir a) (ag_parked_dir a) (ag_vms a) (ag_db a)
    (ag_next_log a) (ag_shutting_down a) (ag_wake_failures a) (ag_ca a) (ag_acme a) (ag_machines a) x
    (ag_next a) (ag_sups a) (ag_ensuring a) (ag_host a).
Definition set_ag_next (x : nat) (a : Agent) : Agent :=
  mkAgent (ag_node a) (ag_subnet a) (ag_logs_dir a) (ag_parked_dir a) (ag_vms a) (ag_db a)
    (ag_next_log a) (ag_shutting_down a) (ag_wake_failures a) (ag_ca a) (ag_acme a) (ag_machines a)
    (ag_traffic a) x (ag_sups a) (ag_ensuring a) (ag_host a).
Definition set_ag_sups (x : gmap nat (string * Vm)) (a : Agent) : Agent :=
  mkAgent (ag_node a) (ag_subnet a) (ag_logs_dir a) (ag_parked_dir a) (ag_vms a) (ag_db a)
    (ag_next_log a) (ag_shutting_down a) (ag_wake_failures a) (ag_ca a) (ag_acme a) (ag_machines a)
    (ag_traffic a) (ag_next a) x (ag_ensuring a) (ag_host a).
Definition set_ag_ensuring (x : list string) (a : Agent) : Agent :=
  mkAgent (ag_node a) (ag_subnet a) (ag_logs_dir a) (ag_parked_dir a) (ag_vms a) (ag_db a)
    (ag_next_log a) (ag_shutting_down a) (ag_wake_failures a) (ag_ca a) (ag_acme a) (ag_machines a)
    (ag_traffic a) (ag_next a) (ag_sups a) x (ag_host a).
Definition set_ag_host (x : Host) (a : Agent) : Agent :=
  mkAgent (ag_node a) (ag_subnet a) (ag_logs_dir a) (ag_parked_dir a) (ag_vms a) (ag_db a)
    (ag_next_log a) (ag_shutting_down a) (ag_wake_failures a) (ag_ca a) (ag_acme a) (ag_machines a)
    (ag_traffic a) (ag_next a) (ag_sups a) (ag_ensuring a) x.

Definition put_vm (name : string) (e : Entry) (a : Agent) : Agent :=
  set_ag_vms (<[name := e]> (ag_vms a)) a.
Definition snapshot_of (a : Agent) (name : string) : string := path_join (ag_parked_dir a) name.
(** [Path::is_dir]. *)
Definition is_dir (path : string) (h : Host) : bool := bool_decide (is_Some (ho_dirs h !! path)).
(** [std::fs::remove_file] of a console log, its error dropped. *)
Definition remove_log (log : string) (a : Agent) : Agent :=
  set_ag_host (set_logs (delete log (ho_logs (ag_host a))) (ag_host a)) a.
(** [std::fs::remove_dir] of a path, its error dropped: only an empty
    directory goes. *)
Definition remove_empty_dir (path : string) (h : Host) : Host :=
  if bool_decide (ho_dirs h !! path = Some ∅) &&
     forallb (fun d => negb (starts_with (path +:+ "/") d)) (map_to_list (ho_dirs h)).*1
  then set_dirs (delete path (ho_dirs h)) h else h.

(** ** Responses *)

Inductive Body :=
| BVm (info : VmInfo)
| BVms (infos : list VmInfo)
| BStats (stats : Stats)
| BMachine (info : MachineInfo)
| BMachines (infos : list MachineInfo)
| BApp (info : MachineAppInfo)
| BApps (infos : list MachineAppInfo)
| BHostKey (host_key : string)
| BError (error : string)
| BText (text : string)
| BEmpty.

Record ApiResponse := mkApiResponse {
  ar_status : N;
  ar_headers : list (string * string);
  ar_body : Body;
}.
Definition json (status : N) (body : Body) : ApiResponse :=
  mkApiResponse status [("content-type", "application/json")] body.
Definition no_content : ApiResponse := mkApiResponse NO_CONTENT [] BEmpty.

(** ** Looking *)

(** [app_with_host], of agent.rs: the first in name order. *)
Definition app_with_host (vms : gmap string Entry) (host : string) : option (string * Entry) :=
  find_first (fun e => match entry_route e.2 with
                       | Some r => bool_decide (rt_host r = host)
                       | None => false
                       end) (entries_of vms).

(** [Agent::list]. *)
Definition agent_list (all : bool) (a : Agent) : list VmInfo :=
  omap (fun e => match e with
                 | Running info _ _ => Some info
                 | EndedVm info _ => if all then Some info else None
                 | Starting _ _ _ => None
                 end) (values_of (ag_vms a)).

(** [Agent::free_vm_address]. *)
Definition held_addresses (vms : gmap string Entry) : list Ipv4Addr :=
  omap entry_vm_address (values_of vms).
Definition free_vm_address (a : Agent) : result ApiError Ipv4Addr :=
  let held := held_addresses (ag_vms a) in
  ok_or (find_first (fun x => negb (bool_decide (x ∈ held))) (vm_addresses (ag_subnet a)))
    (mkApiError SERVICE_UNAVAILABLE "the Node subnet has no free VM addresses").

(** [Agent::running]: the supervisor to reach. *)
Definition running (a : Agent) (name : string) : result ApiError nat :=
  match ag_vms a !! name with
  | None => Err (no_such_vm name)
  | Some (Starting _ _ _) =>
      Err (mkApiError CONFLICT ("VM " +:+ debug_str name +:+ " is still starting"))
  | Some (EndedVm info _) =>
      if is_parked info then
        Err (mkApiError CONFLICT ("VM " +:+ debug_str name
          +:+ " is parked: wake it first, or rm it to discard its snapshot"))
      else
        Err (mkApiError CONFLICT ("VM " +:+ debug_str name
          +:+ " has already ended; `cirro run` starts a new VM under its name"))
  | Some (Running _ _ traffic) => Ok traffic
  end.

(** [Agent::ended_info]. *)
Definition ended_response (a : Agent) (name : string) : result ApiError ApiResponse :=
  match ag_vms a !! name with
  | Some (EndedVm info _) => Ok (json OK (BVm info))
  | _ => Err (internal ("VM " +:+ debug_str name +:+ " ended, but its record is gone"))
  end.

(** [Agent::logs]; [f] is the reading's error. *)
Definition agent_logs (f : option string) (a : Agent) (name : string) (offset : N)
    : result ApiError ApiResponse :=
  '(state, log) ← match ag_vms a !! name with
    | None => Err (no_such_vm name)
    | Some (EndedVm _ log) => Ok ("ended", log)
    | Some entry => Ok ("running", entry_log entry)
    end;
  bytes ← map_err (fun e => internal ("read the console log: " +:+ e))
            (read_log f (ho_logs (ag_host a) !! log) offset);
  Ok (mkApiResponse OK [("content-type", "text/plain; charset=utf-8"); (VM_STATE_HEADER, state)]
        (BText bytes)).

(** [Agent::ca_pem]. *)
Definition ca_pem (a : Agent) : result ApiError ApiResponse :=
  ca ← ok_or (ag_ca a) (mkApiError NOT_FOUND
         "this Node agent serves no HTTPS edge, so has no CA; start it with --https");
  Ok (mkApiResponse OK [("content-type", "application/x-pem-file")] (BText ca)).

(** ** Running a VM *)

(** [Agent::get_certificate]; [is_public] is the edge's. *)
Definition NOT_PUBLIC : list string :=
  ["test"; "example"; "invalid"; "localhost"; "local"; "internal"; "lan"; "arpa"; "onion"; "alt";
   "home"; "corp"].
Definition is_public (host : string) : bool :=
  str_contains "." host &&
  match last (str_split "." host) with
  | Some tld => negb (bool_decide (tld ∈ NOT_PUBLIC)) && negb (str_all is_digit tld)
  | None => false
  end.
Definition get_certificate (host : string) (a : Agent) : Agent :=
  if ag_acme a && is_public host then set_ag_ensuring (ag_ensuring a ++ [host]) a else a.

(** What [rootfs_open::open_as], run as the caller, answered. *)
Inductive RootfsOpen :=
| Opened (contents : string)
| Denied (msg : string)
| OpenFailed (msg : string)
| HelperPanicked (e : string).
Definition opened_rootfs (o : RootfsOpen) : result ApiError string :=
  match o with
  | Opened contents => Ok contents
  | Denied msg => Err (mkApiError FORBIDDEN msg)
  | OpenFailed msg => Err (internal msg)
  | HelperPanicked e => Err (internal ("the rootfs-open helper panicked: " +:+ e))
  end.

(** [Agent::new_log_path]; the counter is 64 bits. *)
Definition new_log_path (name : string) (a : Agent) : Agent * string :=
  let n := ag_next_log a in
  (set_ag_next_log (wrap64 (n + 1)) a, path_join (ag_logs_dir a) (log_file_name name n)).

(** [run_vm]'s checks of the request itself. *)
Definition run_checks (run : RunRequest) : result ApiError GuestConfig :=
  _ ← validate_name "VM" (rq_name run);
  guest ← guest_config run;
  _ ← fail_if (negb (starts_with "/" (rq_rootfs run))) (bad_request "the rootfs path must be absolute");
  _ ← in_bounds "vcpus" (rq_vcpus run) MIN_VCPUS MAX_VCPUS;
  _ ← in_bounds "mem_mib" (rq_mem_mib run) MIN_MEM_MIB MAX_MEM_MIB;
  _ ← match rq_route run with Some route => validate_route route | None => Ok tt end;
  Ok guest.

Definition shutting_down_error : ApiError :=
  mkApiError SERVICE_UNAVAILABLE "the Node agent is shutting down".

(** Its checks under the VM table's lock: the VM address it may have. *)
Definition reserve_checks (run : RunRequest) (a : Agent) : result ApiError Ipv4Addr :=
  let name := rq_name run in
  _ ← fail_if (ag_shutting_down a) shutting_down_error;
  _ ← fail_if (has_app (ms_entries (ag_machines a)) name)
        (mkApiError CONFLICT
           ("a Machine-backed App named " +:+ debug_str name +:+ " already exists"));
  _ ← match rq_route run with
      | Some route =>
          match machine_app_with_host (ms_entries (ag_machines a)) (rt_host route) with
          | Some owner => Err (hostname_taken (rt_host route) owner false)
          | None => Ok tt
          end
      | None => Ok tt
      end;
  _ ← match ag_vms a !! name with
      | Some (Starting _ _ _) | Some (Running _ _ _) =>
          Err (mkApiError CONFLICT ("a VM named " +:+ debug_str name +:+ " already exists"))
      | Some (EndedVm info _) =>
          fail_if (is_parked info) (mkApiError CONFLICT ("VM " +:+ debug_str name
            +:+ " is parked: wake it, or rm it to discard its snapshot"))
      | None => Ok tt
      end;
  _ ← match rq_route run with
      | Some route =>
          match app_with_host (ag_vms a) (rt_host route) with
          | Some (owner, _) => fail_if (negb (bool_decide (owner = name)))
                                 (hostname_taken (rt_host route) owner true)
          | None => Ok tt
          end
      | None => Ok tt
      end;
  free_vm_address a.

(** A start under way: what [start_vm] was spawned with. *)
Record StartTask := mkStartTask {
  stt_name : string;
  stt_spec : VmSpec;
  stt_route : option Route;
  stt_replaced : option Replaced;
}.

(** [Agent::run_vm], up to the spawn of [start_vm]. *)
Definition run_vm (open : RootfsOpen) (run : RunRequest) (a : Agent)
    : Agent * result ApiError StartTask :=
  match (guest ← run_checks run; file ← opened_rootfs open; Ok (guest, file)) with
  | Err e => (a, Err e)
  | Ok (guest, file) =>
      let '(a, log) := new_log_path (rq_name run) a in
      match reserve_checks run a with
      | Err e => (a, Err e)
      | Ok vm_address =>
          let replaced := match ag_vms a !! rq_name run with
                          | Some (EndedVm info log) => Some (mkReplaced info log)
                          | _ => None
                          end in
          (put_vm (rq_name run) (Starting vm_address log (rq_route run)) a,
           Ok (mkStartTask (rq_name run)
                 (mkVmSpec vm_address (rq_rootfs run) file (rq_mem_mib run) (rq_vcpus run) guest log)
                 (rq_route run) replaced))
      end
  end.

(** [Agent::start_supervising]. *)
Definition start_supervising (now : N) (info : VmInfo) (log : string) (v : Vm) (a : Agent) : Agent :=
  let t := ag_next a in
  put_vm (vi_name info) (Running info log t)
    (set_ag_sups (<[t := (vi_name info, v)]> (ag_sups a))
       (set_ag_next (S t) (set_ag_traffic (<[t := traffic_new now]> (ag_traffic a)) a))).

(** [Agent::forget_start]. *)
Definition forget_start (name : string) (replaced : option Replaced) (log : string) (a : Agent)
    : Agent :=
  let vms := delete name (ag_vms a) in
  let vms := match replaced with
             | Some r => <[name := EndedVm (rp_info r) (rp_log r)]> vms
             | None => vms
             end in
  remove_log log (set_ag_vms vms a).

(** [VmInfo] of a VM that just started or woke. *)
Definition started_info (name : string) (vm_address : Ipv4Addr) (mem_mib vcpus now : N)
    (route : option Route) : VmInfo :=
  mkVmInfo name (Some vm_address) mem_mib vcpus now None route.

(** [Agent::start_vm]. [f] is the database's answer, [now] the clock's; no
    answer is a panic. [Vm::start] awaits between its steps; here it is one
    step of the Node, from the reservation that made [task] on: all it makes
    before it answers is named after the address its [Starting] entry holds,
    which nobody else is given meanwhile, and its own steps, with what each
    leaves when it fails, are those of [Vm.start]. *)
Definition start_vm (o : StartOutcome) (u : UndoOutcome) (f : fault) (now : N) (task : StartTask)
    (a : Agent) : Agent * option (result ApiError ApiResponse) :=
  let name := stt_name task in
  let spec := stt_spec task in
  let '(h, started) := vm_start o u (ag_node a) spec (ag_host a) in
  let a := set_ag_host h a in
  match started with
  | Err e =>
      (forget_start name (stt_replaced task) (sp_console_log spec) a,
       Some (Err (mkApiError UNPROCESSABLE_ENTITY
         ("VM " +:+ debug_str name +:+ " failed to start: " +:+ e))))
  | Ok v =>
      match vm_process v with
      | None => (a, None)
      | Some process =>
          let info := started_info name (sp_vm_address spec) (sp_mem_mib spec) (sp_vcpus spec) now
                        (stt_route task) in
          match insert_running f info (sp_console_log spec) process (ag_db a) with
          | (db, Err e) =>
              let a := set_ag_host (vm_destroy u v h) (set_ag_db db a) in
              (forget_start name (stt_replaced task) (sp_console_log spec) a,
               Some (Err (internal ("VM " +:+ debug_str name
                 +:+ " started, but recording it failed, so it was stopped: " +:+ e))))
          | (db, Ok _) =>
              let a := set_ag_db db a in
              let a := match stt_replaced task with Some old => remove_log (rp_log old) a | None => a end in
              let a := match vi_route info with
                       | Some route => get_certificate (rt_host route) a
                       | None => a
                       end in
              (start_supervising now info (sp_console_log spec) v a, Some (Ok (json CREATED (BVm info))))
          end
      end
  end.

(** What [run_vm] answers once the task has ended. *)
Definition start_answer (r : option (result ApiError ApiResponse)) : result ApiError ApiResponse :=
  default (Err (internal "starting the VM panicked: task panicked")) r.

(** ** Waking *)

Record WakeTask := mkWakeTask {
  wkt_name : string;
  wkt_spec : WakeSpec;
  wkt_parked : Replaced;
}.

(** [Agent::wake_vm], up to the spawn. *)
Definition wake_vm (name : string) (a : Agent) : Agent * result ApiError WakeTask :=
  let reserved : result ApiError (Replaced * Ipv4Addr) :=
    _ ← fail_if (ag_shutting_down a) shutting_down_error;
    parked ← match ag_vms a !! name with
      | None => Err (no_such_vm name)
      | Some (EndedVm info log) =>
          if is_parked info then
            if is_dir (snapshot_of a name) (ag_host a) then Ok (mkReplaced info log)
            else Err (mkApiError CONFLICT (snapshot_gone name))
          else Err (mkApiError CONFLICT ("VM " +:+ debug_str name
            +:+ " isn't parked; it has ended, and `cirro run` starts a new VM under its name"))
      | Some _ => Err (mkApiError CONFLICT ("VM " +:+ debug_str name +:+ " isn't parked; it's running"))
      end;
    vm_address ← free_vm_address a;
    Ok (parked, vm_address) in
  match reserved with
  | Err e => (a, Err e)
  | Ok (parked, vm_address) =>
      (put_vm name (Starting vm_address (rp_log parked) (vi_route (rp_info parked))) a,
       Ok (mkWakeTask name
             (mkWakeSpec vm_address (vi_mem_mib (rp_info parked)) (vi_vcpus (rp_info parked))
                (snapshot_of a name) (rp_log parked)) parked))
  end.

(** [Agent::finish_wake]; [f] and [f_mark] are the database's answers. Like
    [start_vm], one step of the Node, whose own steps are those of [Vm.wake]. *)
Definition finish_wake (o : WakeOutcome) (u : UndoOutcome) (f f_mark : fault) (now : N)
    (task : WakeTask) (a : Agent) : Agent * option (result ApiError ApiResponse) :=
  let name := wkt_name task in
  let spec := wkt_spec task in
  let parked := wkt_parked task in
  let '(h, woken) := vm_wake o u (ag_node a) spec (ag_host a) in
  let a := set_ag_host h a in
  match woken with
  | Err e =>
      (put_vm name (EndedVm (rp_info parked) (rp_log parked)) a,
       Some (Err (mkApiError UNPROCESSABLE_ENTITY
         ("VM " +:+ debug_str name +:+ " failed to wake, and is still parked: " +:+ e))))
  | Ok v =>
      match vm_process v with
      | None => (a, None)
      | Some process =>
          let info := started_info name (ws_vm_address spec) (ws_mem_mib spec) (ws_vcpus spec) now
                        (vi_route (rp_info parked)) in
          match insert_running f info (ws_console_log spec) process (ag_db a) with
          | (db, Err e) =>
              let ended := mkEnded now Forced in
              let '(db, _) := mark_ended f_mark name ended db in
              let a := set_ag_host (vm_destroy u v h) (set_ag_db db a) in
              (put_vm name (EndedVm (ended_info (rp_info parked) ended) (rp_log parked)) a,
               Some (Err (internal ("VM " +:+ debug_str name
                 +:+ " woke, but recording it failed, so it was stopped and its snapshot is lost: "
                 +:+ e))))
          | (db, Ok _) =>
              let a := set_ag_host (remove_empty_dir (ws_snapshot spec) h) (set_ag_db db a) in
              (start_supervising now info (ws_console_log spec) v a, Some (Ok (json CREATED (BVm info))))
          end
      end
  end.

(** The spawned task: [finish_wake], and what it leaves for held requests;
    a panic leaves nothing. *)
Definition wake_task (o : WakeOutcome) (u : UndoOutcome) (f f_mark : fault) (now : N)
    (task : WakeTask) (a : Agent) : Agent * result ApiError ApiResponse :=
  match finish_wake o u f f_mark now task a with
  | (a, Some (Ok r)) =>
      (set_ag_wake_failures (delete (wkt_name task) (ag_wake_failures a)) a, Ok r)
  | (a, Some (Err e)) =>
      (set_ag_wake_failures (<[wkt_name task := ae_error e]> (ag_wake_failures a)) a, Err e)
  | (a, None) => (a, Err (internal "waking the VM panicked: task panicked"))
  end.

(** ** Ending *)

(** [Agent::record_end]. *)
Definition record_end (f : fault) (now : N) (name : string) (reason : EndReason) (a : Agent) : Agent :=
  let gone := set_ag_vms (delete name (ag_vms a)) a in
  match ag_vms a !! name with
  | Some (Running info log _) =>
      let ended := mkEnded now reason in
      let '(db, _) := mark_ended f name ended (ag_db a) in
      put_vm name (EndedVm (ended_info info ended) log) (set_ag_db db gone)
  | _ => gone
  end.

(** The supervisor task of [t], once its VM has ended: [Vm::supervise] over
    what it met, then [record_end]. The replies are what each park asked of
    it was told. *)
Definition supervisor_ends (env : SupEnv) (u : UndoOutcome) (evs : list Event) (f : fault) (now : N)
    (t : nat) (a : Agent) : Agent * Replies :=
  match ag_sups a !! t with
  | None => (a, [])
  | Some (name, v) =>
      match supervise env u v evs (ag_host a) with
      | (_, rs, None) => (a, rs)
      | (h, rs, Some reason) =>
          (record_end f now name reason
             (set_ag_sups (delete t (ag_sups a)) (set_ag_host h a)), rs)
      end
  end.

(** [Agent::stop_vm], up to the send: the supervisor reached, and the stop
    sent it. Once it has ended the answer is [ended_response]. *)
Definition stop_vm (name : string) (stop : StopRequest) (a : Agent) : result ApiError (nat * Stop) :=
  t ← running a name;
  Ok (t, if st_force stop then StopForce
         else StopGraceful (default DEFAULT_STOP_TIMEOUT (st_timeout_secs stop))).

(** ** Parking *)

(** [ParkClaim::take] and its [drop]. *)
Definition claim_take (t : nat) (a : Agent) : option Agent :=
  traffic ← ag_traffic a !! t;
  if tr_parking traffic then None
  else Some (set_ag_traffic (<[t := set_parking true traffic]> (ag_traffic a)) a).
Definition claim_drop (t : nat) (a : Agent) : Agent :=
  set_ag_traffic (alter (set_parking false) t (ag_traffic a)) a.

(** [Agent::claim_park]: the entry's [Traffic], claimed. [later] is the
    agent when the table is looked at again. *)
Definition claim_park (name : string) (later a : Agent) : Agent * result ApiError nat :=
  match ag_vms a !! name with
  | Some (Running _ _ t) =>
      match claim_take t a with
      | Some a => (a, Ok t)
      | None => (a, Err (mkApiError CONFLICT
                   ("VM " +:+ debug_str name +:+ " is already being parked")))
      end
  | _ =>
      (a, Err match running later name with
              | Err e => e
              | Ok _ => mkApiError CONFLICT ("VM " +:+ debug_str name
                          +:+ " started while it was being parked; try again")
              end)
  end.

(** [Agent::park], up to the send: the supervisor reached, and where the
    snapshot goes. *)
Definition park_send (name : string) (a : Agent) : result ApiError (nat * string) :=
  t ← running a name; Ok (t, snapshot_of a name).
(** What it answers: [sent] is whether the supervisor took the park, and
    [reply] what it replied, if it did before it ended; [a] the agent once
    the VM has ended. *)
Definition park_answer (name : string) (sent : bool) (reply : option (result string unit)) (a : Agent)
    : result ApiError ApiResponse :=
  let before := mkApiError CONFLICT ("VM " +:+ debug_str name +:+ " ended before it could be parked") in
  if negb sent then Err before
  else match reply with
       | Some (Ok _) => ended_response a name
       | Some (Err e) => Err (mkApiError UNPROCESSABLE_ENTITY
           ("VM " +:+ debug_str name +:+ " couldn't be parked: " +:+ e))
       | None => Err before
       end.

(** One tick of [Agent::park_idle_apps], under the VM table's lock: the idle
    Apps, each claimed. *)
Fixpoint claim_idle (now : N) (entries : list (string * Entry)) (a : Agent)
    : Agent * list (string * nat) :=
  match entries with
  | [] => (a, [])
  | (name, Running info _ t) :: entries =>
      let claimed :=
        route ← vi_route info;
        secs ← rt_idle_park_secs route;
        traffic ← ag_traffic a !! t;
        if idle_for now secs traffic then claim_take t a else None in
      match claimed with
      | Some a => let '(a, rest) := claim_idle now entries a in (a, (name, t) :: rest)
      | None => claim_idle now entries a
      end
  | _ :: entries => claim_idle now entries a
  end.
Definition idle_tick (now : N) (a : Agent) : Agent * list (string * nat) :=
  claim_idle now (entries_of (ag_vms a)) a.

(** The end of [park_claimed]: the claim is dropped, and the idle parker
    gives an App whose park failed a whole idle time. *)
Definition park_done (idle : bool) (now : N) (t : nat) (answer : result ApiError ApiResponse)
    (a : Agent) : Agent :=
  let a := claim_drop t a in
  if idle && negb (is_ok answer)
  then set_ag_traffic (alter (set_last now) t (ag_traffic a)) a else a.

(** ** Removing, and Machine-backed Apps *)

(** [Agent::remove]; [f_dir] is the file system's answer to removing the
    snapshot, other than that there is none. *)
Definition agent_remove (ports : nat -> result string (list N)) (f_app f_dir f : fault)
    (name : string) (a : Agent) : Agent * result ApiError ApiResponse :=
  let '(ms, db, r) := remove_app ports f_app name (ag_machines a) (ag_db a) in
  let a := set_ag_machines ms (set_ag_db db a) in
  match r with
  | Err e => (a, Err e)
  | Ok true => (a, Ok no_content)
  | Ok false =>
      match ag_vms a !! name with
      | None => (a, Err (no_such_vm name))
      | Some (EndedVm info log) =>
          match (if is_parked info then f_dir else None) with
          | Some e =>
              (a, Err (internal ("remove the snapshot of " +:+ debug_str name +:+ ": " +:+ e)))
          | None =>
              let h := ag_host a in
              let a := if is_parked info
                       then set_ag_host (set_dirs (remove_tree (snapshot_of a name) (ho_dirs h)) h) a
                       else a in
              match store_delete f name (ag_db a) with
              | (db, Err e) =>
                  (set_ag_db db a,
                   Err (internal ("remove the record of " +:+ debug_str name +:+ ": " +:+ e)))
              | (db, Ok _) =>
                  let a := remove_log log (set_ag_db db a) in
                  (set_ag_vms (delete name (ag_vms a)) a, Ok no_content)
              end
          end
      | Some _ =>
          (a, Err (mkApiError CONFLICT
                ("VM " +:+ debug_str name +:+ " is running; stop it before removing it")))
      end
  end.

(** [Agent::run_on_machine]. *)
Definition run_on_machine (ports ports' : nat -> result string (list N)) (f : fault)
    (request : MachineAppRequest) (a : Agent) : Agent * result ApiError ApiResponse :=
  let checks : result ApiError unit :=
    _ ← validate_name "App" (mar_name request);
    _ ← validate_route (mar_route request);
    _ ← fail_if (bool_decide (is_Some (rt_idle_park_secs (mar_route request))))
          (bad_request
             "a Machine-backed App can't idle-park: Cirrocumulus doesn't run what serves it");
    _ ← fail_if (bool_decide (is_Some (ag_vms a !! mar_name request)))
          (mkApiError CONFLICT ("a VM named " +:+ debug_str (mar_name request)
             +:+ " already exists; rm it to use its name"));
    match app_with_host (ag_vms a) (rt_host (mar_route request)) with
    | Some (owner, _) => Err (hostname_taken (rt_host (mar_route request)) owner true)
    | None => Ok tt
    end in
  match checks with
  | Err e => (a, Err e)
  | Ok _ =>
      let '(ms, db, r) := add_app ports ports' f request (ag_machines a) (ag_db a) in
      let a := set_ag_machines ms (set_ag_db db a) in
      match r with
      | Err e => (a, Err e)
      | Ok info => (get_certificate (rt_host (mai_route info)) a, Ok (json CREATED (BApp info)))
      end
  end.

(** ** Shutting down *)

(** [Agent::shutdown] begins, whether it still waits, and ends. *)
Definition shutdown_begin (a : Agent) : Agent :=
  set_ag_machines (disconnect_all (ag_machines a)) (set_ag_shutting_down true a).
Definition still_starting_any (a : Agent) : bool :=
  existsb (fun e => match e with Starting _ _ _ => true | _ => false end) (values_of (ag_vms a)).
(** [remove_dir] of the cgroup VMs' are in: its io controller goes with it. *)
Definition remove_empty_cgroup (path : string) (h : Host) : Host :=
  if bool_decide (ho_cgroups h !! path = Some ∅) &&
     forallb (fun c => negb (starts_with (path +:+ "/") c)) (map_to_list (ho_cgroups h)).*1
  then set_io false (set_cgroups (delete path (ho_cgroups h)) h) else h.
Definition shutdown_end (a : Agent) : Agent :=
  let h := ag_host a in
  let h := remove_empty_dir (jails (ag_node a)) h in
  let h := remove_empty_dir (nc_jail_base (ag_node a)) h in
  let h := remove_empty_dir (ag_parked_dir a) h in
  set_ag_host (remove_empty_cgroup parent_cgroup h) a.

(** ** The edge's router *)

Inductive Holding := HoldStart | HoldPark.
Inductive Step (L : Type) :=
| Answer (r : Resolution L)
| Hold (name : string) (holding : Holding)
| Wake (name : string).
Arguments Answer {L}.
Arguments Hold {L}.
Arguments Wake {L}.

(** [Ipv4Addr::LOCALHOST]. *)
Definition LOCALHOST : Ipv4Addr := ipv4_new 127 0 0 1.

(** [Agent::step_for]. A VM's lease is its [Traffic]; a Machine's is empty. *)
Definition step_for (host : string) (a : Agent) : Agent * Step (option nat) :=
  match machines_resolve (ag_machines a) host with
  | Some (ToPort port) => (a, Answer (Upstream LOCALHOST port None))
  | Some (MachineDown why) => (a, Answer (Unavailable why))
  | None =>
      match app_with_host (ag_vms a) host with
      | None => (a, Answer NotFound)
      | Some (name, Running info _ t) =>
          if from_option tr_parking false (ag_traffic a !! t) then (a, Hold name HoldPark)
          else
            match vi_vm_address info, vi_route info with
            | Some address, Some route =>
                (set_ag_traffic (alter inflight_start t (ag_traffic a)) a,
                 Answer (Upstream address (rt_port route) (Some t)))
            | _, _ => (a, Answer (Unavailable ("App " +:+ debug_str name +:+ " has no VM address")))
            end
      | Some (name, Starting _ _ _) => (a, Hold name HoldStart)
      | Some (name, EndedVm info _) =>
          if is_parked info then (a, Wake name)
          else (a, Answer (Unavailable ("App " +:+ debug_str name +:+ " has ended ("
                     +:+ from_option (fun e => reason_as_str (en_reason e)) "unknown" (vi_ended info)
                     +:+ ")")))
      end
  end.
(** [InFlight]'s [drop]. *)
Definition lease_drop (now : N) (t : nat) (a : Agent) : Agent :=
  set_ag_traffic (alter (inflight_drop now) t (ag_traffic a)) a.

Definition still_starting (name : string) : string :=
  "App " +:+ debug_str name +:+ " is still starting after 30s; try again shortly, or see `cirro logs "
    +:+ name +:+ "`".

(** One turn of [resolve]'s loop: the agent when it looks; for a held
    request, whether something settled before the deadline; for a wake, its
    answer, if it came before the deadline. *)
Record Look := mkLook {
  lo_agent : Agent;
  lo_settled : bool;
  lo_wake : option (result ApiError ApiResponse);
}.
(** [Edge::resolve], over the turns it makes: the Apps it asked to wake,
    and its answer; none while it still waits. *)
Fixpoint resolve (host : string) (tried : option (option string)) (looks : list Look)
    : list string * option (Resolution (option nat)) :=
  match looks with
  | [] => ([], None)
  | look :: looks =>
      match (step_for host (lo_agent look)).2 with
      | Answer r => ([], Some r)
      | Hold name holding =>
          let tried := match holding with HoldStart => Some None | HoldPark => tried end in
          if lo_settled look then resolve host tried looks
          else ([], Some (Unavailable
                 match holding with
                 | HoldStart => still_starting name
                 | HoldPark => "App " +:+ debug_str name
                     +:+ " is still being parked after 30s; try again shortly"
                 end))
      | Wake name =>
          match tried with
          | Some why =>
              ([], Some (Unavailable
                 match why, ag_wake_failures (lo_agent look) !! name with
                 | Some why, _ => why
                 | None, Some why => why
                 | None, None => "App " +:+ debug_str name +:+ " failed to wake; `cirro logs "
                     +:+ name +:+ "` may say why"
                 end))
          | None =>
              match lo_wake look with
              | None => ([name], Some (Unavailable (still_starting name)))
              | Some (Ok _) => let '(ws, r) := resolve host None looks in (name :: ws, r)
              | Some (Err e) =>
                  if (ae_status e =? CONFLICT)%N
                  then let '(ws, r) := resolve host (Some (Some (ae_error e))) looks in (name :: ws, r)
                  else ([name], Some (Unavailable (ae_error e)))
              end
          end
      end
  end.

(** The hostnames [renew_certificates] asks for at each tick, and the ones
    the TLS edge has certificates for. *)
Definition renew_hosts (a : Agent) : list string :=
  (rt_host <$> omap entry_route (values_of (ag_vms a)))
    ++ ((fun app => rt_host (mai_route app)) <$> machines_apps (ag_machines a)).
Definition renew_tick (a : Agent) : Agent :=
  foldl (fun a host => get_certificate host a) a (renew_hosts a).
Definition routed (a : Agent) (host : string) : bool :=
  bool_decide (is_Some (app_with_host (ag_vms a) host)) ||
  bool_decide (is_Some (machine_app_with_host (ms_entries (ag_machines a)) host)).

(** ** Starting again *)

(** [Agent::remove_unrecorded_logs]; [f] is the answer to each removal. *)
Definition remove_unrecorded_logs (f : string -> fault) (records : list VmRecord) (a : Agent) : Agent :=
  let recorded := omap (fun r => file_name (rec_log r)) records in
  let goes path :=
    match strip_prefix (ag_logs_dir a +:+ "/") path with
    | Some file => negb (str_contains "/" file) && negb (bool_decide (file ∈ recorded))
                   && negb (bool_decide (is_Some (f path)))
    | None => false
    end in
  set_ag_host (set_logs (filter (fun l => goes l.1 = false) (ho_logs (ag_host a))) (ag_host a)) a.

(** [Agent::remove_unowned_snapshots]: the parked dir's subdirectories and
    files that aren't a parked VM's. *)
Definition remove_unowned_snapshots (f : string -> fault) (records : list VmRecord) (a : Agent) : Agent :=
  let parked := (fun r => vi_name (rec_info r)) <$> filter (fun r => is_parked (rec_info r) = true) records in
  let goes file := negb (bool_decide (file ∈ parked)) && negb (bool_decide (is_Some (f file))) in
  let h := ag_host a in
  let kept path :=
    match child_of (ag_parked_dir a) path with Some dir => negb (goes dir) | None => true end in
  let dirs := filter (fun d => kept d.1 = true) (ho_dirs h) in
  let dirs := alter (filter (fun file => goes file.1 = false)) (ag_parked_dir a) dirs in
  set_ag_host (set_dirs dirs h) a.

(** One record of [Agent::reconcile]'s loop; [alive] says whether a process
    is still the recorded one, [f] is the database's answer. *)
Definition reconcile_record (alive : ProcessId -> bool) (f : fault) (now : N) (r : VmRecord) (a : Agent)
    : Agent * result string unit :=
  let info := rec_info r in
  let name := vi_name info in
  match vi_ended info with
  | Some _ => (put_vm name (EndedVm info (rec_log r)) a, Ok tt)
  | None =>
      match vi_vm_address info, rec_process r with
      | Some vm_address, Some process =>
          if alive process then
            (start_supervising now info (rec_log r)
               (adopt (ag_node a) vm_address process (rec_log r)) a, Ok tt)
          else
            let ended := mkEnded now AgentDown in
            match mark_ended f name ended (ag_db a) with
            | (db, Err e) => (set_ag_db db a, Err e)
            | (db, Ok _) =>
                (put_vm name (EndedVm (ended_info info ended) (rec_log r)) (set_ag_db db a), Ok tt)
            end
      | _, _ =>
          (a, Err ("the state database records VM " +:+ debug_str name
             +:+ " as running but doesn't name its VM address and process; refusing to start rather than guess"))
      end
  end.
Fixpoint reconcile_records (alive : ProcessId -> bool) (f : string -> fault) (now : N)
    (records : list VmRecord) (a : Agent) : Agent * result string unit :=
  match records with
  | [] => (a, Ok tt)
  | r :: records =>
      match reconcile_record alive (f (vi_name (rec_info r))) now r a with
      | (a, Err e) => (a, Err e)
      | (a, Ok _) => reconcile_records alive f now records a
      end
  end.

(** [Agent::sweep_host_state]. *)
Definition sweep_owner (u : UndoOutcome) (held : list Ipv4Addr) (s : Subnet) (node : NodeConfig)
    (h : Host) (owner : N) : Host :=
  match vm_address_with_low16 s owner with
  | Some vm_address =>
      if bool_decide (vm_address ∈ held) then h else clean_up u node vm_address h
  | None => h
  end.
Definition sweep_host_state (u : UndoOutcome) (a : Agent) : Agent :=
  set_ag_host
    (foldl (sweep_owner u (held_addresses (ag_vms a)) (ag_subnet a) (ag_node a)) (ag_host a)
       (elements (host_state_owners (ag_node a) (ag_host a)))) a.

(** What a reconciliation meets. *)
Record ReconcileOutcome := mkReconcileOutcome {
  ro_load : fault;
  ro_logs : fault;
  ro_log : string -> fault;
  ro_parked : fault;
  ro_snapshot : string -> fault;
  ro_mark : string -> fault;
  ro_undo : UndoOutcome;
}.
(** [Agent::reconcile]. *)
Definition reconcile (o : ReconcileOutcome) (now : N) (a : Agent) : Agent * result string unit :=
  match store_load (ro_load o) (ag_db a) with
  | Err e => (a, Err e)
  | Ok records =>
      match ro_logs o with
      | Some e => (a, Err e)
      | None =>
          let a := remove_unrecorded_logs (ro_log o) records a in
          match ro_parked o with
          | Some e => (a, Err e)
          | None =>
              let a := remove_unowned_snapshots (ro_snapshot o) records a in
              match reconcile_records (is_running (ag_host a)) (ro_mark o) now records a with
              | (a, Err e) => (a, Err e)
              | (a, Ok _) => (sweep_host_state (ro_undo o) a, Ok tt)
              end
          end
      end
  end.

(** ** Requests *)

Inductive Method := GET | POST | DELETE | OtherMethod (m : string).
Definition method_str (m : Method) : string :=
  match m with GET => "GET" | POST => "POST" | DELETE => "DELETE" | OtherMethod m => m end.

(** A request; [rb_*] are what [read_json] makes of its body. *)
Record ApiRequest := mkApiRequest {
  rb_method : Method;
  rb_path : string;
  rb_query : string;
  rb_run : result ApiError RunRequest;
  rb_stop : result ApiError StopRequest;
  rb_app : result ApiError MachineAppRequest;
  rb_scan : result ApiError string;
  rb_add : result ApiError AddMachine;
}.

(** The handler [Agent::handle] gives a request to, with its arguments. *)
Inductive Action :=
| Respond (r : result ApiError ApiResponse)
| ToRun (run : RunRequest)
| ToStop (name : string) (stop : StopRequest)
| ToPark (name : string)
| ToWake (name : string)
| ToLogs (name : string) (offset : N)
| ToRemove (name : string)
| ToRunOnMachine (request : MachineAppRequest)
| ToStats
| ToSshKey
| ToScan (ssh : string)
| ToAddMachine (add : AddMachine)
| ToRemoveMachine (name : string).

Definition from_body {A} (to : A -> Action) (body : result ApiError A) : Action :=
  match body with Ok x => to x | Err e => Respond (Err e) end.

(** The endpoints, by method and path segments. *)
Definition route_request (req : ApiRequest) (segments : list string) (a : Agent) : Action :=
  match rb_method req, segments with
  | GET, ["machine-apps"] => Respond (Ok (json OK (BApps (machines_apps (ag_machines a)))))
  | POST, ["machine-apps"] => from_body ToRunOnMachine (rb_app req)
  | GET, ["stats"] => ToStats
  | GET, ["ca"] => Respond (ca_pem a)
  | GET, ["vms"] =>
      let all := bool_decide (query_param (rb_query req) "all" = Some "true") in
      Respond (Ok (json OK (BVms (agent_list all a))))
  | POST, ["vms"] => from_body ToRun (rb_run req)
  | POST, ["vms"; name; "stop"] => from_body (ToStop name) (rb_stop req)
  | POST, ["vms"; name; "park"] => ToPark name
  | POST, ["vms"; name; "wake"] => ToWake name
  | GET, ["vms"; name; "logs"] =>
      match query_param (rb_query req) "offset" with
      | None => ToLogs name 0
      | Some o =>
          match parse_uint u64_max o with
          | Some offset => ToLogs name offset
          | None => Respond (Err (bad_request "offset must be a byte count"))
          end
      end
  | DELETE, ["vms"; name] => ToRemove name
  | GET, ["ssh-key"] => ToSshKey
  | GET, ["machines"] => Respond (Ok (json OK (BMachines (machines_list (ag_machines a)))))
  | POST, ["machines"; "scan"] => from_body ToScan (rb_scan req)
  | POST, ["machines"] => from_body ToAddMachine (rb_add req)
  | DELETE, ["machines"; name] => ToRemoveMachine name
  | m, _ => Respond (Err (mkApiError NOT_FOUND
      ("no such endpoint: " +:+ method_str m +:+ " " +:+ rb_path req)))
  end.

Definition machine_app_refusal (name action : string) : ApiError :=
  let cant := if bool_decide (action = "logs") then "it has no log of it"
              else "it can't " +:+ action +:+ " it" in
  mkApiError CONFLICT (debug_str name
    +:+ " is a Machine-backed App: Cirrocumulus doesn't run what serves it, so " +:+ cant
    +:+ "; `cirro rm " +:+ name +:+ "` takes it off the edge").

(** [Agent::handle]. *)
Definition handle (req : ApiRequest) (a : Agent) : Action :=
  let segments := str_split "/" (trim_matches "/" (rb_path req)) in
  let checks : result ApiError unit :=
    _ ← match segments with "vms" :: name :: _ => validate_name "VM" name | _ => Ok tt end;
    _ ← match segments with "machines" :: name :: _ => validate_name "Machine" name | _ => Ok tt end;
    match segments with
    | ["vms"; name; action] =>
        fail_if (has_app (ms_entries (ag_machines a)) name) (machine_app_refusal name action)
    | _ => Ok tt
    end in
  match checks with
  | Err e => Respond (Err e)
  | Ok _ => route_request req segments a
  end.
(** What a result is sent as. *)
Definition api_response (r : result ApiError ApiResponse) : ApiResponse :=
  match r with Ok r => r | Err e => json (ae_status e) (BError (ae_error e)) end.
