(* ===== verification/AgentSys.v ===== *)
(** * The agent as it runs

    The agent with the tasks its handlers spawned, the park claims and the
    edge's leases, and everything that can happen to it, in any order: each
    [SysEvent] is what a handler does before it answers or spawns, or a task
    from there to its end, a start, wake or end of a VM being one. What holds in every
    state it can reach: the registry of VMs, and the traffic to them. *)

From S2P Require Import Prelude RustStr Proto Subnet Store Validate Vm VmLaws VmEnd Machine.
From S2P Require Import MachineLaws Edge Agent.

(** ** The system *)

Inductive Task := TStart (t : StartTask) | TWake (t : WakeTask).
Definition task_name (t : Task) : string :=
  match t with TStart t => stt_name t | TWake t => wkt_name t end.
Definition task_address (t : Task) : Ipv4Addr :=
  match t with TStart t => sp_vm_address (stt_spec t) | TWake t => ws_vm_address (wkt_spec t) end.
Definition task_log (t : Task) : string :=
  match t with TStart t => sp_console_log (stt_spec t) | TWake t => ws_console_log (wkt_spec t) end.
Definition task_route (t : Task) : option Route :=
  match t with TStart t => stt_route t | TWake t => vi_route (rp_info (wkt_parked t)) end.
Definition task_replaced (t : Task) : option Replaced :=
  match t with TStart t => stt_replaced t | TWake t => Some (wkt_parked t) end.

(** The agent, its start and wake tasks, the claims on a [Traffic] (with
    whether the idle parker holds it), and the leases. *)
Record Sys := mkSys {
  sy_agent : Agent;
  sy_tasks : list Task;
  sy_claims : list (nat * bool);
  sy_leases : list nat;
}.
Definition on_agent (f : Agent -> Agent) (s : Sys) : Sys :=
  mkSys (f (sy_agent s)) (sy_tasks s) (sy_claims s) (sy_leases s).

Inductive SysEvent :=
| SRun (open : RootfsOpen) (run : RunRequest)
| SStarted (i : nat) (o : StartOutcome) (u : UndoOutcome) (f : fault) (now : N)
| SWake (name : string)
| SWoken (i : nat) (o : WakeOutcome) (u : UndoOutcome) (f f_mark : fault) (now : N)
| SEnded (t : nat) (env : SupEnv) (u : UndoOutcome) (evs : list Event) (f : fault) (now : N)
| SClaim (name : string)
| STick (now : N)
| SParkDone (i : nat) (answer : result ApiError ApiResponse) (now : N)
| SLook (host : string)
| SLeaseDrop (i : nat) (now : N)
| SRemove (ports : nat -> result string (list N)) (f_app f_dir f : fault) (name : string)
| SOnMachine (ports ports' : nat -> result string (list N)) (f : fault) (req : MachineAppRequest)
| SMachine (ev : MEvent)
| SRenew
| SShutdown
| SShutdownEnd.

Definition sys_step (ev : SysEvent) (s : Sys) : Sys :=
  let a := sy_agent s in
  match ev with
  | SRun open run =>
      match run_vm open run a with
      | (a, Ok task) => mkSys a (sy_tasks s ++ [TStart task]) (sy_claims s) (sy_leases s)
      | (a, Err _) => on_agent (fun _ => a) s
      end
  | SStarted i o u f now =>
      match sy_tasks s !! i with
      | Some (TStart task) =>
          mkSys (start_vm o u f now task a).1 (delete i (sy_tasks s)) (sy_claims s) (sy_leases s)
      | _ => s
      end
  | SWake name =>
      match wake_vm name a with
      | (a, Ok task) => mkSys a (sy_tasks s ++ [TWake task]) (sy_claims s) (sy_leases s)
      | (a, Err _) => on_agent (fun _ => a) s
      end
  | SWoken i o u f f_mark now =>
      match sy_tasks s !! i with
      | Some (TWake task) =>
          mkSys (wake_task o u f f_mark now task a).1 (delete i (sy_tasks s)) (sy_claims s)
            (sy_leases s)
      | _ => s
      end
  | SEnded t env u evs f now => on_agent (fun a => (supervisor_ends env u evs f now t a).1) s
  | SClaim name =>
      match claim_park name a a with
      | (a, Ok t) => mkSys a (sy_tasks s) ((t, false) :: sy_claims s) (sy_leases s)
      | (a, Err _) => on_agent (fun _ => a) s
      end
  | STick now =>
      let '(a, claimed) := idle_tick now a in
      mkSys a (sy_tasks s) (((fun c => (c.2, true)) <$> claimed) ++ sy_claims s) (sy_leases s)
  | SParkDone i answer now =>
      match sy_claims s !! i with
      | Some (t, idle) =>
          mkSys (park_done idle now t answer a) (sy_tasks s) (delete i (sy_claims s)) (sy_leases s)
      | None => s
      end
  | SLook host =>
      match step_for host a with
      | (a, Answer (Upstream _ _ (Some t))) =>
          mkSys a (sy_tasks s) (sy_claims s) (t :: sy_leases s)
      | (a, _) => on_agent (fun _ => a) s
      end
  | SLeaseDrop i now =>
      match sy_leases s !! i with
      | Some t => mkSys (lease_drop now t a) (sy_tasks s) (sy_claims s) (delete i (sy_leases s))
      | None => s
      end
  | SRemove ports f_app f_dir f name =>
      on_agent (fun a => (agent_remove ports f_app f_dir f name a).1) s
  | SOnMachine ports ports' f req => on_agent (fun a => (run_on_machine ports ports' f req a).1) s
  | SMachine ev =>
      let '(ms, db) := mexec (ag_machines a, ag_db a) ev in
      on_agent (fun a => set_ag_machines ms (set_ag_db db a)) s
  | SRenew => on_agent renew_tick s
  | SShutdown => on_agent shutdown_begin s
  | SShutdownEnd =>
      if ag_shutting_down a && negb (still_starting_any a) then on_agent shutdown_end s else s
  end.
Definition sys_run (evs : list SysEvent) (s : Sys) : Sys := foldl (fun s ev => sys_step ev s) s evs.

(** [Agent] as [run] makes it: with its state dir's names, no VM yet. *)
Definition agent_new (state_dir firecracker jailer kernel : string) (gid : N) (subnet : Subnet)
    (ca : option string) (acme : bool) (logs : list string) (db : Db) (host : Host) : Agent :=
  mkAgent (mkNodeConfig firecracker jailer kernel (jail_base state_dir) (node_address subnet) gid)
    subnet (path_join state_dir "logs") (path_join state_dir "parked") ∅ db (next_log_number logs)
    false ∅ ca acme machines_new ∅ 0 ∅ [] host.

(** ** The registry *)

Definition ended_wf (n : string) (i : VmInfo) : Prop :=
  vi_name i = n /\ vi_vm_address i = None /\ is_Some (vi_ended i).
Definition entry_wf (n : string) (e : Entry) : Prop :=
  match e with
  | Starting _ _ _ => True
  | Running i _ _ => vi_name i = n /\ is_Some (vi_vm_address i) /\ vi_ended i = None
  | EndedVm i _ => ended_wf n i
  end.
Definition entry_of (t : Task) : Entry := Starting (task_address t) (task_log t) (task_route t).
Definition task_wf (t : Task) : Prop :=
  forall r, task_replaced t = Some r -> ended_wf (task_name t) (rp_info r).

Section reg.
Context (sub : Subnet).

(** Addresses are VM addresses of the subnet that one entry each holds; a
    start or wake is under way for exactly the Starting entries; a
    supervisor runs for exactly the Running ones. *)
Record reg (vms : gmap string Entry) (tasks : list Task) (sups : gmap nat (string * Vm)) (next : nat)
    : Prop := {
  rg_addr : forall n m e e' x, vms !! n = Some e -> vms !! m = Some e' ->
    entry_vm_address e = Some x -> entry_vm_address e' = Some x -> n = m;
  rg_sub : forall n e x, vms !! n = Some e -> entry_vm_address e = Some x -> x ∈ vm_addresses sub;
  rg_wf : map_Forall entry_wf vms;
  rg_nodup : NoDup (task_name <$> tasks);
  rg_task : forall t, t ∈ tasks -> vms !! task_name t = Some (entry_of t) /\ task_wf t;
  rg_starting : forall n x l r, vms !! n = Some (Starting x l r) -> n ∈ task_name <$> tasks;
  rg_sups : forall t n, (exists v, sups !! t = Some (n, v)) <->
    exists i l, vms !! n = Some (Running i l t);
  rg_next : forall t x, sups !! t = Some x -> t < next;
}.

(** One name's entry changes, and its tasks and supervisors with it. *)
Lemma reg_alter vms tasks sups next n (eo : option Entry) tasks' sups' next' :
  reg vms tasks sups next ->
  (forall e x, eo = Some e -> entry_vm_address e = Some x ->
     x ∈ vm_addresses sub /\ forall m e', m <> n -> vms !! m = Some e' -> entry_vm_address e' <> Some x) ->
  (forall e, eo = Some e -> entry_wf n e) ->
  (forall t, t ∈ tasks' -> task_name t <> n -> t ∈ tasks) ->
  (forall t, t ∈ tasks -> task_name t <> n -> t ∈ tasks') ->
  NoDup (task_name <$> tasks') ->
  (forall t, t ∈ tasks' -> task_name t = n -> eo = Some (entry_of t) /\ task_wf t) ->
  (forall x l r, eo = Some (Starting x l r) -> n ∈ task_name <$> tasks') ->
  (forall t m, m <> n -> (exists v, sups' !! t = Some (m, v)) <-> (exists v, sups !! t = Some (m, v))) ->
  (forall t, (exists v, sups' !! t = Some (n, v)) <-> exists i l, eo = Some (Running i l t)) ->
  (forall t x, sups' !! t = Some x -> t < next') ->
  reg (partial_alter (fun _ => eo) n vms) tasks' sups' next'.
Proof.
  intros R Hx Hwf Ht1 Ht2 Hnd Ht Hst Hs1 Hs2 Hn.
  assert (Hl : forall m, partial_alter (fun _ => eo) n vms !! m = if decide (m = n) then eo else vms !! m).
  { intros m. destruct (decide (m = n)) as [->|]; [apply lookup_partial_alter_eq|].
    by rewrite lookup_partial_alter_ne by done. }
  split; try done.
  - intros m m' e e' x. rewrite !Hl.
    destruct (decide (m = n)) as [->|Hm], (decide (m' = n)) as [->|Hm']; intros He He' Ha Ha'; try done.
    + by destruct (proj2 (Hx _ _ He Ha) _ _ Hm' He').
    + by destruct (proj2 (Hx _ _ He' Ha') _ _ Hm He).
    + by apply (rg_addr _ _ _ _ R _ _ _ _ _ He He' Ha Ha').
  - intros m e x. rewrite Hl. destruct (decide (m = n)) as [->|Hm]; intros He Ha.
    + by apply (Hx _ _ He Ha).
    + by apply (rg_sub _ _ _ _ R _ _ _ He Ha).
  - intros m e. rewrite Hl. destruct (decide (m = n)) as [->|Hm]; intros He; [by apply Hwf|].
    by apply (rg_wf _ _ _ _ R _ _ He).
  - intros t Hin. rewrite Hl. destruct (decide (task_name t = n)) as [Heq|Hne].
    + by apply Ht.
    + by apply (rg_task _ _ _ _ R), Ht1.
  - intros m x l r. rewrite Hl. destruct (decide (m = n)) as [->|Hm]; intros He; [by apply (Hst _ _ _ He)|].
    apply (rg_starting _ _ _ _ R) in He. apply list_elem_of_fmap in He as (t & -> & Hin).
    apply list_elem_of_fmap. exists t. split; [done|by apply Ht2].
  - intros t m. rewrite Hl. destruct (decide (m = n)) as [->|Hm]; [apply Hs2|].
    rewrite Hs1 by done. apply (rg_sups _ _ _ _ R).
Qed.

(** A task is over: it was the only one of its name. *)
Lemma delete_task (tasks : list Task) i t :
  NoDup (task_name <$> tasks) -> tasks !! i = Some t ->
  NoDup (task_name <$> delete i tasks) /\
  (forall t', t' ∈ delete i tasks <-> t' ∈ tasks /\ task_name t' <> task_name t).
Proof.
  intros Hnd Hi. rewrite delete_take_drop. pose proof (take_drop_middle _ _ _ Hi) as Heq.
  set (l1 := take i tasks) in *. set (l2 := drop (S i) tasks) in *. clearbody l1 l2. subst tasks.
  rewrite fmap_app, fmap_cons, NoDup_app, NoDup_cons in Hnd. destruct Hnd as (H1 & H12 & H2 & H3).
  split.
  - rewrite fmap_app, NoDup_app. split_and!; [done| |done].
    intros x Hx Hx2. apply (H12 x Hx). by right.
  - intros t'. rewrite !elem_of_app, elem_of_cons. split.
    + intros [Hin|Hin]; (split; [tauto|]); intros Hn.
      * apply (H12 (task_name t')); [apply list_elem_of_fmap; eauto|]. rewrite Hn. left.
      * apply H2. rewrite <- Hn. apply list_elem_of_fmap. eauto.
    + intros [[?|[->|?]] ?]; [by left|done|by right].
Qed.

Section ops.
Context {vms : gmap string Entry} {tasks : list Task} {sups : gmap nat (string * Vm)} {next : nat}.
Context (R : reg vms tasks sups next).

(** Only the Running entry of a name has a supervisor. *)
Lemma no_sup n t v : sups !! t = Some (n, v) -> exists i l, vms !! n = Some (Running i l t).
Proof. intros H. apply (rg_sups _ _ _ _ R). eauto. Qed.
Lemma no_task n t : t ∈ tasks -> task_name t = n -> vms !! n = Some (entry_of t).
Proof. intros Hin <-. by apply (rg_task _ _ _ _ R). Qed.

Lemma reg_reserve t :
  match vms !! task_name t with None | Some (EndedVm _ _) => True | _ => False end ->
  task_address t ∈ vm_addresses sub ->
  (forall m e, vms !! m = Some e -> entry_vm_address e <> Some (task_address t)) ->
  task_wf t ->
  reg (<[task_name t := entry_of t]> vms) (tasks ++ [t]) sups next.
Proof.
  intros Hn Hsub Hfree Hwf. set (n := task_name t) in *.
  assert (Hnot : n ∉ task_name <$> tasks).
  { intros (t' & Hn' & Hin)%list_elem_of_fmap. symmetry in Hn'.
    rewrite (no_task _ _ Hin Hn') in Hn. done. }
  apply (reg_alter vms tasks sups next n (Some (entry_of t))); try done.
  - intros e x [= <-] [= <-]. split; [done|]. intros m e' _. apply Hfree.
  - by intros e [= <-].
  - intros t' [?| ->%list_elem_of_singleton]%elem_of_app ?; done.
  - intros t' ? ?. apply elem_of_app. by left.
  - rewrite fmap_app, NoDup_app. split_and!; [apply (rg_nodup _ _ _ _ R)| |apply NoDup_singleton].
    intros x Hx ->%list_elem_of_singleton. done.
  - intros t' [Hin| ->%list_elem_of_singleton]%elem_of_app Hn'; [|done].
    exfalso. apply Hnot. apply list_elem_of_fmap. eauto.
  - intros x l r _. rewrite fmap_app. apply elem_of_app. right. apply list_elem_of_here.
  - intros t'. split; [|by intros (i & l & [=])]. intros [v Hv].
    apply no_sup in Hv as (i & l & Hv). by rewrite Hv in Hn.
  - apply (rg_next _ _ _ _ R).
Qed.

(** A start or wake ends: its VM runs, or what it replaced is back. *)
Lemma reg_started i t info v :
  tasks !! i = Some t -> vi_name info = task_name t -> vi_vm_address info = Some (task_address t) ->
  vi_ended info = None ->
  reg (<[task_name t := Running info (task_log t) next]> vms) (delete i tasks)
    (<[next := (task_name t, v)]> sups) (S next).
Proof.
  intros Hi Hn Ha He. destruct (delete_task _ _ _ (rg_nodup _ _ _ _ R) Hi) as [Hnd Hdel].
  assert (Hin : t ∈ tasks) by by eapply list_elem_of_lookup_2.
  destruct (rg_task _ _ _ _ R t Hin) as [Hv _].
  apply (reg_alter vms tasks sups next _ (Some _)); try done.
  - intros e x [= <-] Hx. simpl in Hx. rewrite Ha in Hx. injection Hx as <-.
    split; [by apply (rg_sub _ _ _ _ R _ _ _ Hv)|]. intros m e' Hm He' Ha'.
    apply Hm, (rg_addr _ _ _ _ R _ _ _ _ _ He' Hv Ha'). done.
  - intros e [= <-]. simpl. rewrite Ha. eauto.
  - intros t' Ht' _. by apply Hdel in Ht' as [? _].
  - intros t' ? ?. by apply Hdel.
  - intros t' [_ ?]%Hdel ?. done.
  - intros t' m Hm. destruct (decide (t' = next)) as [->|Hne].
    + rewrite lookup_insert_eq. split; [intros [v' [= <- _]]; done|]. intros [v' Hv'].
      apply (rg_next _ _ _ _ R) in Hv'. lia.
    + by rewrite lookup_insert_ne.
  - intros t'. destruct (decide (t' = next)) as [->|Hne].
    + rewrite lookup_insert_eq. split; eauto.
    + rewrite lookup_insert_ne by done. split; [|intros (? & ? & [= _ _ ->]); done].
      intros [v' Hv']. apply no_sup in Hv' as (? & ? & Hv'). rewrite Hv in Hv'. done.
  - intros t' x [[<- _]|[_ Ht']]%lookup_insert_Some; [lia|].
    apply (rg_next _ _ _ _ R) in Ht'. lia.
Qed.

Lemma reg_back i t eo :
  tasks !! i = Some t ->
  match eo with None => True | Some (EndedVm info _) => ended_wf (task_name t) info | _ => False end ->
  reg (partial_alter (fun _ => eo) (task_name t) vms) (delete i tasks) sups next.
Proof.
  intros Hi He. destruct (delete_task _ _ _ (rg_nodup _ _ _ _ R) Hi) as [Hnd Hdel].
  assert (Hin : t ∈ tasks) by by eapply list_elem_of_lookup_2.
  destruct (rg_task _ _ _ _ R t Hin) as [Hv _].
  apply (reg_alter vms tasks sups next); try done.
  - intros e x ->. by destruct e.
  - intros e ->. by destruct e.
  - intros t' Ht' _. by apply Hdel in Ht' as [? _].
  - intros t' ? ?. by apply Hdel.
  - intros t' [_ ?]%Hdel ?. done.
  - intros x l r ->. done.
  - intros t'. split.
    + intros [v' Hv']. apply no_sup in Hv' as (? & ? & Hv'). rewrite Hv in Hv'. done.
    + by intros (? & ? & ->).
  - apply (rg_next _ _ _ _ R).
Qed.

Lemma not_starting_no_task n e t :
  vms !! n = Some e -> match e with Starting _ _ _ => False | _ => True end ->
  t ∈ tasks -> task_name t <> n.
Proof. intros Hn He Hin Heq. rewrite (no_task _ _ Hin Heq) in Hn. simplify_eq. done. Qed.

(** A supervisor's VM has ended. *)
Lemma reg_ended t n v i l eo :
  sups !! t = Some (n, v) -> vms !! n = Some (Running i l t) ->
  match eo with Some (EndedVm info _) => ended_wf n info | _ => False end ->
  reg (partial_alter (fun _ => eo) n vms) tasks (delete t sups) next.
Proof.
  intros Ht Hn He. apply (reg_alter vms tasks sups next); try done.
  - intros e x ->. by destruct e.
  - intros e ->. by destruct e.
  - apply (rg_nodup _ _ _ _ R).
  - intros t' Hin Heq. by apply (not_starting_no_task _ _ _ Hn) in Heq.
  - intros x l' r ->. done.
  - intros t' m Hm. destruct (decide (t' = t)) as [->|Hne].
    + rewrite lookup_delete_eq, Ht. split; intros [? ?]; simplify_eq.
    + by rewrite lookup_delete_ne.
  - intros t'. split; [|by intros (? & ? & ->)]. intros [v' [Hne Hv']%lookup_delete_Some].
    apply no_sup in Hv' as (? & ? & Hv'). rewrite Hn in Hv'. congruence.
  - intros t' x [_ ?]%lookup_delete_Some. by apply (rg_next _ _ _ _ R) with x.
Qed.

(** An Ended VM is forgotten. *)
Lemma reg_removed n i l : vms !! n = Some (EndedVm i l) -> reg (delete n vms) tasks sups next.
Proof.
  intros Hn. apply (reg_alter vms tasks sups next n None); try done.
  - apply (rg_nodup _ _ _ _ R).
  - intros t' Hin Heq. by apply (not_starting_no_task _ _ _ Hn) in Heq.
  - intros t'. split; [|by intros (? & ? & ?)]. intros [v' Hv'].
    apply no_sup in Hv' as (? & ? & Hv'). by rewrite Hn in Hv'.
  - apply (rg_next _ _ _ _ R).
Qed.
End ops.
End reg.

(** ** What each handler does to the registry *)

Lemma vm_start_adopted o u node spec h h' v :
  vm_start o u node spec h = (h', Ok v) ->
  like_adopted node (sp_vm_address spec) (sp_console_log spec) v.
Proof.
  unfold vm_start. destruct (start_steps _ _ _ _) as [[v1 h1] [[]|e]] eqn:E; [|done].
  intros [= <- <-]. by eapply start_steps_adopted.
Qed.
Lemma vm_wake_adopted o u node spec h h' v :
  vm_wake o u node spec h = (h', Ok v) ->
  like_adopted node (ws_vm_address spec) (ws_console_log spec) v.
Proof.
  unfold vm_wake. destruct (wake_steps _ _ _ _) as [[v1 h1] [[]|e]] eqn:Hw; [|done].
  intros [= <- <-]. unfold wake_steps in Hw. apply bind_Ok_inv in Hw as ([v2 h2] & uid & Hh & Hw).
  apply host_steps_adopted in Hh. ok_step Hw.
  apply bind_Ok_inv in Hw as ([v3 h3] & [] & Hmv & Hw). cbn [fst snd] in Hmv.
  destruct (move_files _ _ _ _ _ _) as [h4 [[]|]]; [|done]. injection Hmv as <- <-.
  apply bind_Ok_inv in Hw as (s4 & [] & Hch & Hw). apply chown_each_state in Hch as ->.
  unfold vm_try in Hw. destruct (wf_load o); [done|]. by injection Hw as <- <-.
Qed.
Lemma adopted_process node a log v : like_adopted node a log v -> exists p, vm_process v = Some p.
Proof. intros (pid & st & _ & Hp & _). eauto. Qed.

(** The parts of the agent the registry is about. *)
Definition same_reg (a a' : Agent) : Prop :=
  ag_subnet a' = ag_subnet a /\ ag_vms a' = ag_vms a /\ ag_sups a' = ag_sups a /\ ag_next a' = ag_next a.

Definition areg (a : Agent) (tasks : list Task) : Prop :=
  reg (ag_subnet a) (ag_vms a) tasks (ag_sups a) (ag_next a).
Lemma areg_same a a' tasks : same_reg a a' -> areg a tasks -> areg a' tasks.
Proof. unfold areg. by intros (-> & -> & -> & ->). Qed.

Lemma get_certificate_same host a : same_reg a (get_certificate host a).
Proof. unfold get_certificate. by destruct (_ && _). Qed.

Lemma free_vm_address_ok a x :
  free_vm_address a = Ok x ->
  x ∈ vm_addresses (ag_subnet a) /\
  forall m e, ag_vms a !! m = Some e -> entry_vm_address e <> Some x.
Proof.
  unfold free_vm_address. intros Hf%ok_or_ok. apply find_first_some in Hf as (l1 & l2 & Hl & Hp & _).
  split; [rewrite Hl; apply elem_of_app; right; left|].
  apply negb_true_iff, bool_decide_eq_false in Hp. intros m e Hm Ha. apply Hp.
  unfold held_addresses. apply list_elem_of_omap. exists e. split; [|done].
  apply elem_of_values. eauto.
Qed.

Lemma reserve_checks_ok run a x :
  reserve_checks run a = Ok x ->
  free_vm_address a = Ok x /\ ag_shutting_down a = false /\
  match ag_vms a !! rq_name run with
  | None => True | Some (EndedVm info _) => is_parked info = false | _ => False
  end.
Proof.
  unfold reserve_checks. intros H.
  apply bind_ok in H as (_ & Hsd%fail_if_ok & H). apply bind_ok in H as (_ & _ & H).
  apply bind_ok in H as (_ & _ & H). apply bind_ok in H as ([] & Hn & H).
  apply bind_ok in H as (_ & _ & H). split_and!; [done|done|].
  destruct (ag_vms a !! rq_name run) as [[]|]; try done. by apply fail_if_ok in Hn.
Qed.

Lemma run_vm_reg open run a a' r tasks :
  run_vm open run a = (a', r) -> areg a tasks ->
  areg a' (tasks ++ match r with Ok t => [TStart t] | Err _ => [] end).
Proof.
  unfold run_vm. intros H R.
  destruct (_ ≫= _) as [[guest file]|e]; [|injection H as <- <-; by rewrite app_nil_r].
  destruct (new_log_path (rq_name run) a) as [a1 log] eqn:El.
  assert (same_reg a a1) as Hs by (unfold new_log_path in El; by injection El as <- _).
  apply (areg_same _ _ _ Hs) in R. clear El Hs.
  destruct (reserve_checks run a1) as [x|e] eqn:Er;
    [|injection H as <- <-; by rewrite app_nil_r].
  apply reserve_checks_ok in Er as (Hf & _ & Hn). apply free_vm_address_ok in Hf as [Hsub Hfree].
  injection H as <- <-. set (t := TStart _).
  apply (reg_reserve _ R t); try done.
  - simpl. destruct (ag_vms a1 !! rq_name run) as [[]|]; done.
  - intros rp. simpl. destruct (ag_vms a1 !! rq_name run) as [[]|] eqn:En; try done.
    intros [= <-]. simpl. apply (rg_wf _ _ _ _ _ R) in En. done.
Qed.

Lemma areg_started i t a tasks now info v :
  areg a tasks -> tasks !! i = Some t ->
  info = started_info (task_name t) (task_address t) (vi_mem_mib info) (vi_vcpus info) now (task_route t) ->
  areg (start_supervising now info (task_log t) v a) (delete i tasks).
Proof.
  intros R Hi Hinfo.
  assert (vi_name info = task_name t) as Hn by by rewrite Hinfo.
  pose proof (reg_started _ R i t info v Hi) as H. unfold areg, start_supervising. simpl.
  rewrite Hn. by apply H; rewrite Hinfo.
Qed.

Lemma areg_back i t eo a tasks :
  areg a tasks -> tasks !! i = Some t ->
  match eo with None => True | Some (EndedVm info _) => ended_wf (task_name t) info | _ => False end ->
  areg (set_ag_vms (partial_alter (fun _ => eo) (task_name t) (ag_vms a)) a) (delete i tasks).
Proof. intros R Hi He. apply (reg_back _ R i t eo Hi He). Qed.

Lemma forget_start_reg i t log a tasks :
  areg a tasks -> tasks !! i = Some (TStart t) ->
  areg (forget_start (stt_name t) (stt_replaced t) log a) (delete i tasks).
Proof.
  intros R Hi.
  destruct (rg_task _ _ _ _ _ R (TStart t)) as [_ Hwf]; [by eapply list_elem_of_lookup_2|].
  unfold forget_start. destruct (stt_replaced t) as [r|] eqn:Er.
  - pose proof (areg_back i (TStart t) (Some (EndedVm (rp_info r) (rp_log r))) a tasks R Hi
      (Hwf r Er)) as H.
    eapply areg_same; [|exact H]. split_and!; try done. simpl. by rewrite insert_delete_eq.
  - apply (areg_back i (TStart t) None a tasks R Hi I).
Qed.

Lemma start_vm_reg o u f now i t a tasks :
  areg a tasks -> tasks !! i = Some (TStart t) ->
  areg (start_vm o u f now t a).1 (delete i tasks).
Proof.
  intros R Hi. unfold start_vm.
  destruct (vm_start o u (ag_node a) (stt_spec t) (ag_host a)) as [h [v|e]] eqn:Hs.
  2: { apply forget_start_reg; [|done]. exact R. }
  destruct (adopted_process _ _ _ _ (vm_start_adopted _ _ _ _ _ _ _ Hs)) as [p ->].
  destruct (insert_running _ _ _ _ _) as [db [[]|e]].
  2: { apply forget_start_reg; [|done]. exact R. }
  apply (areg_started i (TStart t)); [|done|done].
  eapply areg_same; [|exact R].
  destruct (stt_replaced t), (vi_route _); unfold get_certificate; repeat case_match; done.
Qed.

Lemma wake_vm_reg name a a' r tasks :
  wake_vm name a = (a', r) -> areg a tasks ->
  areg a' (tasks ++ match r with Ok t => [TWake t] | Err _ => [] end).
Proof.
  unfold wake_vm. intros H R.
  destruct (_ ≫= _) as [[parked x]|e] eqn:Er; [|injection H as <- <-; by rewrite app_nil_r].
  injection H as <- <-. apply bind_ok in Er as (_ & _ & Er).
  apply bind_ok in Er as (p & Hp & Er). apply bind_ok in Er as (x' & Hf & Er).
  injection Er as -> ->. apply free_vm_address_ok in Hf as [Hsub Hfree].
  assert (exists i l, ag_vms a !! name = Some (EndedVm i l) /\ parked = mkReplaced i l) as (i & l & Hn & ->).
  { destruct (ag_vms a !! name) as [[]|]; try done. destruct (is_parked info); [|done].
    destruct (is_dir _ _); [|done]. injection Hp as <-. eauto. }
  set (t := TWake _). apply (reg_reserve _ R t); try done.
  - simpl. by rewrite Hn.
  - intros rp [= <-]. simpl. by apply (rg_wf _ _ _ _ _ R) in Hn.
Qed.

Lemma wake_task_reg o u f f_mark now i t a tasks :
  areg a tasks -> tasks !! i = Some (TWake t) ->
  areg (wake_task o u f f_mark now t a).1 (delete i tasks).
Proof.
  intros R Hi.
  destruct (rg_task _ _ _ _ _ R (TWake t)) as [_ Hwf]; [by eapply list_elem_of_lookup_2|].
  specialize (Hwf _ eq_refl).
  assert (areg (finish_wake o u f f_mark now t a).1 (delete i tasks)) as H.
  { unfold finish_wake.
    destruct (vm_wake o u (ag_node a) (wkt_spec t) (ag_host a)) as [h [v|e]] eqn:Hs.
    2: { by apply (areg_back i (TWake t) (Some _) (set_ag_host h a)). }
    destruct (adopted_process _ _ _ _ (vm_wake_adopted _ _ _ _ _ _ _ Hs)) as [p ->].
    destruct (insert_running _ _ _ _ _) as [db [[]|e]].
    - by apply (areg_started i (TWake t)).
    - destruct (mark_ended _ _ _ _) as [db' r]. cbn [fst].
      apply (areg_back i (TWake t) (Some _) (set_ag_host _ (set_ag_db db' a))); [exact R|done|].
      destruct Hwf as (Hn & _ & _). split_and!; [done|done|]. simpl. eauto. }
  unfold wake_task. destruct (finish_wake o u f f_mark now t a) as [a' [[r|e]|]]; exact H.
Qed.

Lemma supervisor_ends_reg env u evs f now t a tasks :
  areg a tasks -> areg (supervisor_ends env u evs f now t a).1 tasks.
Proof.
  intros R. unfold supervisor_ends. destruct (ag_sups a !! t) as [[n v]|] eqn:Ht; [|done].
  destruct (supervise _ _ _ _ _) as [[h rs] [reason|]]; [|done]. cbn [fst].
  unfold record_end. cbn [ag_vms set_ag_sups set_ag_host].
  destruct (no_sup _ R _ _ _ Ht) as (i & l & Hn). rewrite Hn.
  destruct (mark_ended _ _ _ _) as [db r].
  pose proof (reg_ended _ R t n v i l (Some (EndedVm (ended_info i (mkEnded now reason)) l)) Ht Hn) as H.
  destruct (rg_wf _ _ _ _ _ R _ _ Hn) as (Hname & _ & _).
  apply (areg_same (set_ag_vms (partial_alter (fun _ => Some (EndedVm (ended_info i
    (mkEnded now reason)) l)) n (ag_vms a)) (set_ag_sups (delete t (ag_sups a)) a))); [|apply H].
  - split_and!; try done. simpl. by rewrite insert_delete_eq.
  - split_and!; [done|done|]. simpl. eauto.
Qed.

Lemma claim_take_same t a a' : claim_take t a = Some a' -> same_reg a a'.
Proof.
  unfold claim_take. destruct (ag_traffic a !! t) as [tr|]; [|done]. cbn [mbind option_bind].
  destruct (tr_parking tr); [done|]. by intros [= <-].
Qed.
Lemma same_reg_trans a b c : same_reg a b -> same_reg b c -> same_reg a c.
Proof. unfold same_reg. intuition congruence. Qed.
Lemma claim_idle_same now es a : same_reg a (claim_idle now es a).1.
Proof.
  revert a. induction es as [|[n [x l r|i l t|i l]] es IH]; intros a; simpl; try done.
  destruct (_ ≫= _) as [a'|] eqn:E; [|apply IH].
  assert (same_reg a a') as Hs.
  { apply bind_Some in E as (? & _ & E). apply bind_Some in E as (? & _ & E).
    apply bind_Some in E as (? & _ & E). destruct (idle_for _ _ _); [|done].
    by apply claim_take_same in E. }
  specialize (IH a'). destruct (claim_idle now es a') as [a'' rest].
  by eapply same_reg_trans.
Qed.
Lemma step_for_same host a : same_reg a (step_for host a).1.
Proof. unfold step_for. repeat case_match; done. Qed.

Lemma agent_remove_reg ports f1 f2 f3 name a tasks :
  areg a tasks -> areg (agent_remove ports f1 f2 f3 name a).1 tasks.
Proof.
  intros R. unfold agent_remove. destruct (remove_app _ _ _ _ _) as [[ms db] [[]|e]]; try exact R.
  cbn [ag_vms set_ag_machines set_ag_db].
  destruct (ag_vms a !! name) as [[| |info log]|] eqn:Hn; try exact R.
  destruct (if is_parked info then f2 else None); [exact R|].
  destruct (store_delete _ _ _) as [db' [[]|e]]; [|destruct (is_parked info); exact R].
  apply (areg_same (set_ag_vms (delete name (ag_vms a)) a)); [|apply (reg_removed _ R _ _ _ Hn)].
  by destruct (is_parked info).
Qed.
Lemma run_on_machine_same ports ports' f req a : same_reg a (run_on_machine ports ports' f req a).1.
Proof.
  unfold run_on_machine. destruct (_ ≫= _); [|done].
  destruct (add_app _ _ _ _ _ _) as [[ms db] [info|e]]; [|done].
  apply (same_reg_trans _ (set_ag_machines ms (set_ag_db db a))); [done|apply get_certificate_same].
Qed.
Lemma renew_tick_same a : same_reg a (renew_tick a).
Proof.
  unfold renew_tick. generalize (renew_hosts a) as hosts. intros hosts. revert a.
  induction hosts as [|host hosts IH]; intros a; [done|]. simpl.
  eapply same_reg_trans; [|apply IH]. apply get_certificate_same.
Qed.

Lemma sys_step_reg ev s :
  areg (sy_agent s) (sy_tasks s) -> areg (sy_agent (sys_step ev s)) (sy_tasks (sys_step ev s)).
Proof.
  intros R. destruct ev; cbn [sys_step]; unfold on_agent.
  - destruct (run_vm open run (sy_agent s)) as [a' [t|e]] eqn:E;
      apply run_vm_reg with (tasks := sy_tasks s) in E; rewrite ?app_nil_r in E; done.
  - destruct (sy_tasks s !! i) as [[t|t]|] eqn:E; [|done|done]. by apply start_vm_reg.
  - destruct (wake_vm name (sy_agent s)) as [a' [t|e]] eqn:E;
      apply wake_vm_reg with (tasks := sy_tasks s) in E; rewrite ?app_nil_r in E; done.
  - destruct (sy_tasks s !! i) as [[t|t]|] eqn:E; [done| |done]. by apply wake_task_reg.
  - by apply supervisor_ends_reg.
  - unfold claim_park. destruct (ag_vms (sy_agent s) !! name) as [[]|]; try done.
    destruct (claim_take _ _) as [a'|] eqn:E; [|done].
    eapply areg_same; [|exact R]. by apply claim_take_same in E.
  - pose proof (claim_idle_same now (entries_of (ag_vms (sy_agent s))) (sy_agent s)) as Hs.
    unfold idle_tick. destruct (claim_idle _ _ _) as [a' c]. by eapply areg_same.
  - destruct (sy_claims s !! i) as [[t idle]|]; [|done].
    eapply areg_same; [|exact R]. unfold park_done. by destruct (_ && _).
  - pose proof (step_for_same host (sy_agent s)) as Hs.
    destruct (step_for host (sy_agent s)) as [a' st].
    assert (areg a' (sy_tasks s)) by by eapply areg_same. repeat case_match; done.
  - destruct (sy_leases s !! i) as [t|]; [|done]. eapply areg_same; [|exact R]. done.
  - by apply agent_remove_reg.
  - eapply areg_same; [|exact R]. apply run_on_machine_same.
  - destruct (mexec _ _) as [ms db]. eapply areg_same; [|exact R]. done.
  - eapply areg_same; [|exact R]. apply renew_tick_same.
  - exact R.
  - destruct (_ && _); [|done]. exact R.
Qed.

Lemma sys_run_reg evs s :
  areg (sy_agent s) (sy_tasks s) -> areg (sy_agent (sys_run evs s)) (sy_tasks (sys_run evs s)).
Proof.
  revert s. induction evs as [|ev evs IH]; intros s R; [done|]. by apply IH, sys_step_reg.
Qed.

Definition sys_new (a : Agent) : Sys := mkSys a [] [] [].
Lemma agent_new_reg sd fc jl kn gid sub ca acme logs db h :
  areg (agent_new sd fc jl kn gid sub ca acme logs db h) [].
Proof.
  unfold areg, agent_new; simpl. split; simpl; try done.
  - constructor.
  - set_solver.
  - intros t n. by split; [intros (? & ?)|intros (? & ? & ?)].
Qed.

(** ** Traffic *)

Fixpoint count_of (t : nat) (l : list nat) : nat :=
  match l with [] => 0 | t' :: l => (if decide (t = t') then 1 else 0) + count_of t l end.
Definition leases_of (t : nat) (l : list nat) : N := N.of_nat (count_of t l).

Lemma count_of_zero t l : count_of t l = 0 <-> t ∉ l.
Proof.
  induction l as [|t' l IH]; simpl; [split; [intros _; apply not_elem_of_nil|done]|].
  rewrite not_elem_of_cons, <- IH. destruct (decide (t = t')); split; try lia; naive_solver lia.
Qed.
Lemma count_of_le t l : count_of t l <= length l.
Proof. induction l as [|t' l IH]; simpl; [lia|]. destruct (decide (t = t')); lia. Qed.
Lemma count_of_delete t t' l i :
  l !! i = Some t' -> count_of t l = (if decide (t = t') then 1 else 0) + count_of t (delete i l).
Proof.
  revert i. induction l as [|x l IH]; intros [|i]; try done; simpl.
  - by intros [= ->].
  - intros Hi. rewrite (IH _ Hi). unfold delete, list_delete; simpl. fold (@list_delete nat). lia.
Qed.

(** A [Traffic] is being parked exactly while its one claim is held, and
    counts the leases on it; the idle parker's claims are on [Traffic]s
    with no lease. *)
Record traf (a : Agent) (claims : list (nat * bool)) (leases : list nat) : Prop := {
  tf_next : forall t tr, ag_traffic a !! t = Some tr -> t < ag_next a;
  tf_sups : forall t x, ag_sups a !! t = Some x -> is_Some (ag_traffic a !! t);
  tf_claims : forall t, t ∈ claims.*1 <->
    exists tr, ag_traffic a !! t = Some tr /\ tr_parking tr = true;
  tf_nodup : NoDup claims.*1;
  tf_count : forall t tr, ag_traffic a !! t = Some tr -> tr_in_flight tr = wrap32 (leases_of t leases);
  tf_leases : forall t, t ∈ leases -> is_Some (ag_traffic a !! t);
  tf_idle : forall t, (t, true) ∈ claims -> t ∉ leases;
}.

Definition same_traf (a a' : Agent) : Prop :=
  ag_traffic a' = ag_traffic a /\ ag_sups a' ⊆ ag_sups a /\ ag_next a' = ag_next a.
Lemma traf_same a a' claims leases : same_traf a a' -> traf a claims leases -> traf a' claims leases.
Proof.
  intros (Ht & Hs & Hn) []. split; rewrite ?Ht, ?Hn; try done.
  intros t x Hx. eapply tf_sups0, lookup_weaken; done.
Qed.
Lemma same_traf_refl a : same_traf a a.
Proof. done. Qed.
Lemma same_traf_trans a b c : same_traf a b -> same_traf b c -> same_traf a c.
Proof. intros (H1 & H2 & H3) (H4 & H5 & H6). split_and!; [congruence|by etrans|congruence]. Qed.

Lemma start_supervising_traf now info log v a claims leases :
  traf a claims leases -> traf (start_supervising now info log v a) claims leases.
Proof.
  intros []. assert (Hnew : ag_traffic a !! ag_next a = None).
  { apply eq_None_not_Some. intros [tr Htr]. apply tf_next0 in Htr. lia. }
  assert (Hl : ag_next a ∉ leases).
  { intros Hin. apply tf_leases0 in Hin. rewrite Hnew in Hin. by apply is_Some_None in Hin. }
  split; simpl; try done.
  - intros t tr [[<- _]|[_ Ht]]%lookup_insert_Some; [lia|]. apply tf_next0 in Ht. lia.
  - intros t x [[<- _]|[Hne Ht]]%lookup_insert_Some; [rewrite lookup_insert_eq; eauto|].
    rewrite lookup_insert_ne by done. by eapply tf_sups0.
  - intros t. rewrite tf_claims0. destruct (decide (t = ag_next a)) as [->|Hne].
    + rewrite Hnew, lookup_insert_eq. split; [by intros (? & ? & _)|by intros (? & [= <-] & ?)].
    + by rewrite lookup_insert_ne.
  - intros t tr [[<- <-]|[_ Ht]]%lookup_insert_Some; [|by apply tf_count0].
    unfold leases_of. apply count_of_zero in Hl as ->. done.
  - intros t Hin. apply tf_leases0 in Hin. rewrite lookup_insert_ne; [done|].
    intros <-. rewrite Hnew in Hin. by apply is_Some_None in Hin.
Qed.
Lemma get_certificate_traf host a : same_traf a (get_certificate host a).
Proof. unfold get_certificate. by destruct (_ && _). Qed.

Lemma claim_take_traf t a a' b claims leases :
  claim_take t a = Some a' -> (b = true -> t ∉ leases) -> traf a claims leases ->
  traf a' ((t, b) :: claims) leases.
Proof.
  unfold claim_take. destruct (ag_traffic a !! t) as [tr|] eqn:Ht; [|done]. cbn [mbind option_bind].
  destruct (tr_parking tr) eqn:Hp; [done|]. intros [= <-] Hb [].
  assert (Hnot : t ∉ claims.*1) by (rewrite tf_claims0; intros (? & ? & ?); congruence).
  split; simpl; try done.
  - intros t' tr' [[<- _]|[_ Ht']]%lookup_insert_Some; by eapply tf_next0.
  - intros t' x Hx. destruct (decide (t' = t)) as [->|]; [rewrite lookup_insert_eq; eauto|].
    rewrite lookup_insert_ne by done. by eapply tf_sups0.
  - intros t'. rewrite elem_of_cons, tf_claims0. destruct (decide (t' = t)) as [->|Hne].
    + rewrite lookup_insert_eq. split; [|by left]. intros _. by eexists.
    + rewrite lookup_insert_ne by done. split; [by intros [?|?]|by right].
  - by constructor.
  - intros t' tr' [[<- <-]|[_ Ht']]%lookup_insert_Some; [simpl; by apply tf_count0|by apply tf_count0].
  - intros t' Hin. destruct (decide (t' = t)) as [->|]; [rewrite lookup_insert_eq; eauto|].
    rewrite lookup_insert_ne by done. by apply tf_leases0.
  - intros t' [[= -> <-]|Hin]%elem_of_cons; [by apply Hb|by apply tf_idle0].
Qed.
Lemma traf_perm a claims claims' leases :
  claims ≡ₚ claims' -> traf a claims leases -> traf a claims' leases.
Proof.
  intros Hp []. assert (claims.*1 ≡ₚ claims'.*1) as Hp1 by by apply fmap_Permutation.
  split; try done.
  - intros t. rewrite <- tf_claims0. by rewrite Hp1.
  - by rewrite <- Hp1.
  - intros t. rewrite <- Hp. apply tf_idle0.
Qed.

Lemma wrap32_start c : wrap32 (wrap32 c + 1) = wrap32 (c + 1).
Proof. unfold wrap32. by rewrite N.Div0.add_mod_idemp_l. Qed.
Lemma wrap32_drop c : wrap32 (wrap32 (1 + c) + u32_max) = wrap32 c.
Proof.
  unfold wrap32. rewrite N.Div0.add_mod_idemp_l.
  replace (1 + c + u32_max)%N with (c + 1 * 4294967296)%N by (unfold u32_max; lia).
  by rewrite N.Div0.mod_add.
Qed.

Lemma idle_no_lease a claims leases t tr now secs :
  traf a claims leases -> (N.of_nat (length leases) < 2 ^ 32)%N ->
  ag_traffic a !! t = Some tr -> idle_for now secs tr = true -> t ∉ leases.
Proof.
  intros T Hlen Ht. unfold idle_for. intros [Hz _]%andb_prop. apply N.eqb_eq in Hz.
  rewrite (tf_count _ _ _ T _ _ Ht) in Hz. apply count_of_zero.
  pose proof (count_of_le t leases). unfold wrap32, leases_of in Hz. rewrite N.mod_small in Hz; lia.
Qed.

Lemma claim_idle_traf now es a claims leases :
  (N.of_nat (length leases) < 2 ^ 32)%N -> traf a claims leases ->
  let '(a', claimed) := claim_idle now es a in
  traf a' (((fun c => (c.2, true)) <$> claimed) ++ claims) leases.
Proof.
  intros Hlen. revert a claims.
  induction es as [|[n [x l r|i l t|i l]] es IH]; intros a claims T; cbn [claim_idle];
    [done|by apply IH| |by apply IH].
  destruct (_ ≫= _) as [a'|] eqn:E; [|by apply IH].
  apply bind_Some in E as (? & _ & E). apply bind_Some in E as (secs & _ & E).
  apply bind_Some in E as (tr & Htr & E). destruct (idle_for _ _ _) eqn:Hi; [|done].
  pose proof (idle_no_lease _ _ _ _ _ _ _ T Hlen Htr Hi) as Hno.
  apply claim_take_traf with (b := true) (claims := claims) (leases := leases) in E; [|done|done].
  specialize (IH a' _ E). destruct (claim_idle now es a') as [a'' rest]. cbn [fmap list_fmap].
  eapply traf_perm; [|exact IH]. simpl. symmetry. apply Permutation_middle.
Qed.

(** The parking flag of one [Traffic] is cleared, its claim given up. *)
Lemma claims_delete (claims : list (nat * bool)) i t b :
  NoDup claims.*1 -> claims !! i = Some (t, b) ->
  NoDup (delete i claims).*1 /\ (forall c, c ∈ delete i claims <-> c ∈ claims /\ c.1 <> t).
Proof.
  intros Hnd Hi. rewrite delete_take_drop. pose proof (take_drop_middle _ _ _ Hi) as Heq.
  set (l1 := take i claims) in *. set (l2 := drop (S i) claims) in *. clearbody l1 l2. subst claims.
  rewrite fmap_app, fmap_cons, NoDup_app, NoDup_cons in Hnd. destruct Hnd as (H1 & H12 & H2 & H3).
  split.
  - rewrite fmap_app, NoDup_app. split_and!; [done| |done].
    intros x Hx Hx2. apply (H12 x Hx). by right.
  - intros c. rewrite !elem_of_app, elem_of_cons. split.
    + intros [Hin|Hin]; (split; [tauto|]); intros Hn.
      * apply (H12 c.1); [apply list_elem_of_fmap; eauto|]. rewrite Hn. left.
      * apply H2. simpl. rewrite <- Hn. apply list_elem_of_fmap. eauto.
    + intros [[?|[->|?]] ?]; [by left|done|by right].
Qed.

Lemma lookup_alter_inv {A} (f : A -> A) (m : gmap nat A) t t' x :
  alter f t m !! t' = Some x -> exists y, m !! t' = Some y /\ x = if decide (t' = t) then f y else y.
Proof.
  destruct (decide (t' = t)) as [->|Hne].
  - rewrite lookup_alter_eq. destruct (m !! t) as [y|]; [|done]. intros [= <-]. eauto.
  - rewrite lookup_alter_ne by done. eauto.
Qed.
Lemma lookup_alter_is_Some {A} (f : A -> A) (m : gmap nat A) t t' :
  is_Some (alter f t m !! t') <-> is_Some (m !! t').
Proof.
  destruct (decide (t' = t)) as [->|Hne]; [|by rewrite lookup_alter_ne].
  rewrite lookup_alter_eq. apply fmap_is_Some.
Qed.

(** One [Traffic] changes in place. *)
Lemma traf_alter a f t claims leases claims' leases' :
  traf a claims leases ->
  (forall t', t' ∈ claims'.*1 <-> exists tr, ag_traffic a !! t' = Some tr /\
     tr_parking (if decide (t' = t) then f tr else tr) = true) ->
  NoDup claims'.*1 ->
  (forall t' tr, ag_traffic a !! t' = Some tr ->
     tr_in_flight (if decide (t' = t) then f tr else tr) = wrap32 (leases_of t' leases')) ->
  (forall t', t' ∈ leases' -> is_Some (ag_traffic a !! t')) ->
  (forall t', (t', true) ∈ claims' -> t' ∉ leases') ->
  traf (set_ag_traffic (alter f t (ag_traffic a)) a) claims' leases'.
Proof.
  intros [] Hc Hnd Hn Hl Hi. split; simpl; try done.
  - intros t' tr (y & Hy & _)%lookup_alter_inv. by eapply tf_next0.
  - intros t' x Hx. apply lookup_alter_is_Some. by eapply tf_sups0.
  - intros t'. rewrite Hc. split.
    + intros (tr & Ht & Hp). destruct (decide (t' = t)) as [->|Hne].
      * exists (f tr). by rewrite lookup_alter_eq, Ht.
      * exists tr. by rewrite lookup_alter_ne.
    + intros (tr & (y & Hy & ->)%lookup_alter_inv & Hp). eauto.
  - intros t' tr (y & Hy & ->)%lookup_alter_inv. by apply Hn.
  - intros t' Hin. apply lookup_alter_is_Some. by apply Hl.
Qed.

Lemma park_done_traf i idle now t answer a claims leases :
  claims !! i = Some (t, idle) -> traf a claims leases ->
  traf (park_done idle now t answer a) (delete i claims) leases.
Proof.
  intros Hi T. destruct (claims_delete _ _ _ _ (tf_nodup _ _ _ T) Hi) as [Hnd Hdel].
  assert (Hel : forall t', t' ∈ (delete i claims).*1 <-> t' ∈ claims.*1 /\ t' <> t).
  { intros t'. rewrite !list_elem_of_fmap. setoid_rewrite Hdel. naive_solver. }
  assert (T' : traf (claim_drop t a) (delete i claims) leases).
  { apply (traf_alter a _ t claims leases); try done.
    - intros t'. rewrite Hel, (tf_claims _ _ _ T). destruct (decide (t' = t)); naive_solver.
    - intros t' tr Ht. rewrite <- (tf_count _ _ _ T _ _ Ht). by destruct (decide (t' = t)).
    - apply (tf_leases _ _ _ T).
    - intros t' [Hin _]%Hdel. by apply (tf_idle _ _ _ T). }
  unfold park_done. destruct (_ && _); [|done].
  apply (traf_alter _ _ t _ _ _ _ T').
  - intros t'. rewrite (tf_claims _ _ _ T'). by destruct (decide (t' = t)).
  - apply (tf_nodup _ _ _ T').
  - intros t' tr Ht. rewrite <- (tf_count _ _ _ T' _ _ Ht). by destruct (decide (t' = t)).
  - apply (tf_leases _ _ _ T').
  - apply (tf_idle _ _ _ T').
Qed.

Lemma lease_traf a t tr claims leases :
  ag_traffic a !! t = Some tr -> tr_parking tr = false -> traf a claims leases ->
  traf (set_ag_traffic (alter inflight_start t (ag_traffic a)) a) claims (t :: leases).
Proof.
  intros Ht Hp T. apply (traf_alter a _ t _ _ _ _ T).
  - intros t'. rewrite (tf_claims _ _ _ T). by destruct (decide (t' = t)).
  - apply (tf_nodup _ _ _ T).
  - intros t' tr' Ht'. pose proof (tf_count _ _ _ T _ _ Ht') as Hc. unfold leases_of in *. simpl.
    destruct (decide (t' = t)) as [->|Hne]; simpl; rewrite Hc; [|done].
    rewrite wrap32_start. f_equal. lia.
  - intros t' [->|Hin]%elem_of_cons; [eauto|by apply (tf_leases _ _ _ T)].
  - intros t' Hin [->|Hl]%elem_of_cons; [|by apply (tf_idle _ _ _ T _ Hin)].
    assert (t ∈ claims.*1) as (tr' & ? & ?)%(tf_claims _ _ _ T); [|congruence].
    apply list_elem_of_fmap. by exists (t, true).
Qed.
Lemma lease_drop_traf a i t now claims leases :
  leases !! i = Some t -> traf a claims leases ->
  traf (lease_drop now t a) claims (delete i leases).
Proof.
  intros Hi T. assert (Hsub : forall t', t' ∈ delete i leases -> t' ∈ leases).
  { intros t'. rewrite delete_take_drop, elem_of_app. rewrite <- (take_drop_middle _ _ _ Hi) at 3.
    rewrite elem_of_app, elem_of_cons. tauto. }
  apply (traf_alter a _ t _ _ _ _ T).
  - intros t'. rewrite (tf_claims _ _ _ T). by destruct (decide (t' = t)).
  - apply (tf_nodup _ _ _ T).
  - intros t' tr' Ht'. pose proof (tf_count _ _ _ T _ _ Ht') as Hc. unfold leases_of in *.
    rewrite (count_of_delete t' _ _ _ Hi) in Hc.
    destruct (decide (t' = t)) as [->|Hne]; simpl in *; rewrite Hc; [|done].
    rewrite Nat2N.inj_succ, <- N.add_1_l. apply wrap32_drop.
  - intros t' Hin. by apply (tf_leases _ _ _ T), Hsub.
  - intros t' Hin Hl. by apply (tf_idle _ _ _ T _ Hin), Hsub.
Qed.

Lemma forget_start_traf name r log a : same_traf a (forget_start name r log a).
Proof. done. Qed.
Lemma record_end_traf f now name reason a : same_traf a (record_end f now name reason a).
Proof.
  unfold record_end. destruct (ag_vms a !! name) as [[]|]; [done| |done|done].
  destruct (mark_ended _ _ _ _). by split_and!.
Qed.

Ltac traf_triv := eapply traf_same; [|eassumption]; by split_and!.

Lemma start_vm_traf o u f now t a claims leases :
  traf a claims leases -> traf (start_vm o u f now t a).1 claims leases.
Proof.
  intros T. unfold start_vm. destruct (vm_start _ _ _ _ _) as [h [v|e]]; [|traf_triv].
  destruct (vm_process v); [|traf_triv].
  destruct (insert_running _ _ _ _ _) as [db [[]|e]]; [|traf_triv].
  apply start_supervising_traf. eapply traf_same; [|exact T].
  destruct (stt_replaced t), (vi_route _); unfold get_certificate; repeat case_match; by split_and!.
Qed.
Lemma wake_task_traf o u f f_mark now t a claims leases :
  traf a claims leases -> traf (wake_task o u f f_mark now t a).1 claims leases.
Proof.
  intros T. assert (traf (finish_wake o u f f_mark now t a).1 claims leases) as H.
  { unfold finish_wake. destruct (vm_wake _ _ _ _ _) as [h [v|e]]; [|traf_triv].
    destruct (vm_process v); [|traf_triv].
    destruct (insert_running _ _ _ _ _) as [db [[]|e]].
    - apply start_supervising_traf. traf_triv.
    - destruct (mark_ended _ _ _ _). traf_triv. }
  unfold wake_task. destruct (finish_wake o u f f_mark now t a) as [a' [[r|e]|]];
    traf_triv.
Qed.

Lemma sys_step_traf ev s :
  (N.of_nat (length (sy_leases s)) < 2 ^ 32)%N ->
  areg (sy_agent s) (sy_tasks s) -> traf (sy_agent s) (sy_claims s) (sy_leases s) ->
  traf (sy_agent (sys_step ev s)) (sy_claims (sys_step ev s)) (sy_leases (sys_step ev s)).
Proof.
  intros Hlen R T. destruct ev; cbn [sys_step]; unfold on_agent.
  - unfold run_vm. destruct (_ ≫= _) as [[guest file]|e]; [|done].
    destruct (new_log_path _ _) as [a' log] eqn:El.
    injection El as <- _.
    destruct (reserve_checks _ _) as [x|e]; traf_triv.
  - destruct (sy_tasks s !! i) as [[t|t]|]; [|done|done]. by apply start_vm_traf.
  - unfold wake_vm. destruct (_ ≫= _) as [[p x]|e]; [|done]. traf_triv.
  - destruct (sy_tasks s !! i) as [[t|t]|]; [done| |done]. by apply wake_task_traf.
  - unfold supervisor_ends. destruct (ag_sups (sy_agent s) !! t) as [[n v]|]; [|done].
    destruct (supervise _ _ _ _ _) as [[h rs] [reason|]]; [|done].
    eapply traf_same; [|exact T]. eapply same_traf_trans; [|apply record_end_traf].
    split_and!; [done|apply delete_subseteq|done].
  - unfold claim_park. destruct (ag_vms (sy_agent s) !! name) as [[]|]; try done.
    destruct (claim_take _ _) as [a'|] eqn:E; [|done]. by eapply claim_take_traf.
  - pose proof (claim_idle_traf now (entries_of (ag_vms (sy_agent s))) _ _ _ Hlen T) as H.
    unfold idle_tick. by destruct (claim_idle _ _ _) as [a' c].
  - destruct (sy_claims s !! i) as [[t idle]|] eqn:E; [|done]. by apply park_done_traf.
  - unfold step_for. destruct (machines_resolve _ _) as [[]|]; try done.
    destruct (app_with_host _ _) as [[n [x l r|info l t|info l]]|] eqn:Eh; try done.
    2: by destruct (is_parked info).
    destruct (ag_traffic (sy_agent s) !! t) as [tr|] eqn:Et.
    2: { exfalso. apply find_first_elem in Eh as [Eh%elem_of_entries _].
         assert (exists v, ag_sups (sy_agent s) !! t = Some (n, v)) as [v Hv]
           by (apply (rg_sups _ _ _ _ _ R); eauto).
         apply (tf_sups _ _ _ T) in Hv. rewrite Et in Hv. by apply is_Some_None in Hv. }
    simpl. destruct (tr_parking tr) eqn:Hp; [done|].
    destruct (vi_vm_address info), (vi_route info); try done. by eapply lease_traf.
  - destruct (sy_leases s !! i) as [t|] eqn:E; [|done]. by apply lease_drop_traf.
  - unfold agent_remove. eapply traf_same; [|exact T].
    destruct (remove_app _ _ _ _ _) as [[ms db] [[]|e]]; try by split_and!.
    destruct (ag_vms _ !! name) as [[| |info log]|]; try by split_and!.
    destruct (if is_parked info then f_dir else None); [by split_and!|].
    destruct (store_delete _ _ _) as [db' [[]|e]]; destruct (is_parked info); by split_and!.
  - unfold run_on_machine. destruct (_ ≫= _); [|done].
    destruct (add_app _ _ _ _ _ _) as [[ms db] [info|e]]; (eapply traf_same; [|exact T]); [|by split_and!].
    eapply same_traf_trans; [|apply get_certificate_traf]. by split_and!.
  - destruct (mexec _ _) as [ms db]. traf_triv.
  - eapply traf_same; [|exact T]. unfold renew_tick.
    generalize (renew_hosts (sy_agent s)) as hosts. intros hosts. generalize (sy_agent s).
    induction hosts as [|host hosts IH]; intros a; [done|]. simpl.
    eapply same_traf_trans; [|apply IH]. apply get_certificate_traf.
  - traf_triv.
  - destruct (_ && _); [|done]. traf_triv.
Qed.
