(* ===== verification/AgentHost.v ===== *)
(** * What the agent leaves on the host

    The host's objects through everything that happens to the agent: only a
    running VM has any, and a VM that ends takes its own with it. *)

From S2P Require Import Prelude RustStr Proto Subnet Store Validate Vm VmLaws VmEnd Machine.
From S2P Require Import MachineLaws Edge Agent AgentSys.

#[local] Arguments host_id : simpl never.
#[local] Arguments jail_dir : simpl never.
#[local] Arguments cgroup_of : simpl never.
#[local] Arguments path_join : simpl never.
#[local] Arguments remove_tree : simpl never.

Section calm.
Context (node : NodeConfig).

(** A cgroup of [h'] is there in [h], with at least its processes, or is the
    one VMs' cgroups are in, without any. *)
Definition cgroup_from (h : Host) (cg : string) (ps' : gset N) : Prop :=
  (exists ps, ho_cgroups h !! cg = Some ps /\ ps' ⊆ ps) \/ cg = parent_cgroup /\ ps' = ∅.

(** From [h] to [h'] nothing named after a VM appears, no cgroup gains a
    process, and no process starts. *)
Record calm (h h' : Host) : Prop := {
  cm_netns : forall id, is_Some (ho_netns h' !! id) -> is_Some (ho_netns h !! id);
  cm_links : ho_links h' ⊆ ho_links h;
  cm_dirs : forall k y, under (jail_dir node (host_id y)) k = true ->
    is_Some (ho_dirs h' !! k) -> is_Some (ho_dirs h !! k);
  cm_cgroups : forall cg ps', ho_cgroups h' !! cg = Some ps' -> cgroup_from h cg ps';
  cm_procs : forall pid st, ho_procs h' !! pid = Some st -> ho_procs h !! pid = Some st;
}.
Lemma cgroup_from_same h cg ps : ho_cgroups h !! cg = Some ps -> cgroup_from h cg ps.
Proof. left. eauto. Qed.
Lemma cgroup_from_sub h cg ps ps' : ho_cgroups h !! cg = Some ps -> ps' ⊆ ps -> cgroup_from h cg ps'.
Proof. left. eauto. Qed.
Lemma cgroup_from_smaller h cg ps ps' : cgroup_from h cg ps -> ps' ⊆ ps -> cgroup_from h cg ps'.
Proof.
  intros [(ps0 & ? & ?)|[-> ->]] Hs; [left; exists ps0; split; [done|set_solver]|right; split; [done|set_solver]].
Qed.
Lemma cgroup_from_vm h x ps : cgroup_from h (cgroup_of (host_id x)) ps ->
  exists ps0, ho_cgroups h !! cgroup_of (host_id x) = Some ps0 /\ ps ⊆ ps0.
Proof. intros [?|[E _]]; [done|]. by destruct (parent_cgroup_apart x). Qed.
#[local] Hint Resolve cgroup_from_same : core.
#[export] Instance calm_preorder : PreOrder calm.
Proof.
  split.
  - intros h. split; eauto.
  - intros h1 h2 h3 [] []. split; eauto.
    + set_solver.
    + intros cg ps3 H3. apply cm_cgroups1 in H3 as [(ps2 & H2 & ?)|?]; [|by right].
      apply cm_cgroups0 in H2. by eapply cgroup_from_smaller.
Qed.

Lemma calm_free y h h' : calm h h' -> id_free node y h -> id_free node y h'.
Proof.
  intros [] F. apply id_free_iff. apply id_free_iff in F. intros Hs. apply F.
  destruct Hs as [Hn|[Hl|[(k & Hk & Hu)|[ps Hc]]]].
  - left. by apply cm_netns0.
  - right; left. by apply cm_links0.
  - right; right; left. exists k. split; [|done]. by apply (cm_dirs0 k y).
  - right; right; right. apply cm_cgroups0, cgroup_from_vm in Hc as (ps0 & -> & _). eauto.
Qed.

Lemma calm_same h h' :
  ho_netns h' = ho_netns h -> ho_links h' = ho_links h -> ho_cgroups h' = ho_cgroups h ->
  ho_procs h' = ho_procs h ->
  (forall k y, under (jail_dir node (host_id y)) k = true ->
     is_Some (ho_dirs h' !! k) -> is_Some (ho_dirs h !! k)) ->
  calm h h'.
Proof. intros Hn Hl Hc Hp Hd. split; rewrite ?Hn, ?Hl, ?Hc, ?Hp; eauto. Qed.

Lemma calm_logs ls h : calm h (set_logs ls h).
Proof. by apply calm_same. Qed.
Lemma calm_kill pids h : calm h (kill_pids pids h).
Proof.
  unfold kill_pids. split; simpl; try done.
  - intros cg ps' Hp. apply lookup_fmap_Some in Hp as (ps & <- & Hp). eapply cgroup_from_sub; [done|set_solver].
  - by intros pid st [? _]%map_lookup_filter_Some.
Qed.
Lemma calm_vmm_kill vmm h : calm h (vmm_kill vmm h).
Proof. destruct vmm; apply calm_kill. Qed.
Lemma calm_dirs dirs h :
  (forall k y, under (jail_dir node (host_id y)) k = true ->
     is_Some (dirs !! k) -> is_Some (ho_dirs h !! k)) ->
  calm h (set_dirs dirs h).
Proof. intros. by apply calm_same. Qed.
Lemma calm_remove_tree path h : calm h (set_dirs (remove_tree path (ho_dirs h)) h).
Proof. apply calm_dirs. intros k id _ [d Hd]. apply map_lookup_filter_Some in Hd as [? _]. eauto. Qed.
Lemma calm_alter f path h : calm h (set_dirs (alter f path (ho_dirs h)) h).
Proof.
  apply calm_dirs. intros k id _. destruct (decide (k = path)) as [->|]; [|by rewrite lookup_alter_ne].
  rewrite lookup_alter_eq. apply fmap_is_Some.
Qed.
Lemma calm_put_file dir file c h : calm h (put_file dir file c h).
Proof. apply calm_alter. Qed.
Lemma calm_remove_empty_dir path h : calm h (remove_empty_dir path h).
Proof.
  unfold remove_empty_dir. destruct (_ && _); [|done]. apply calm_dirs.
  intros k id _ [d [_ Hd]%lookup_delete_Some]. eauto.
Qed.
Lemma calm_remove_empty_cgroup path h : calm h (remove_empty_cgroup path h).
Proof.
  unfold remove_empty_cgroup. destruct (_ && _); [|done]. split; simpl; try done.
  intros cg ps [_ Hd]%lookup_delete_Some. eauto.
Qed.

Lemma calm_undo o u h : calm h (undo_run o u h).1.
Proof.
  destruct u as [id|id|path|path]; simpl.
  - destruct (ho_netns h !! id); [|done]. destruct (uo_fault o _); [done|]. split; simpl; try done; [|eauto].
    intros id' [x [_ ?]%lookup_delete_Some]. eauto.
  - case_bool_decide; [|done]. destruct (uo_fault o _); [done|]. split; simpl; try done; [set_solver|eauto].
  - destruct (uo_fault o _); [done|]. apply calm_remove_tree.
  - destruct (ho_cgroups h !! path); [|done]. destruct (uo_fault o _); [done|]. destruct (_ && _); [|done].
    split; simpl; try done. intros cg ps [_ Hd]%lookup_delete_Some. eauto.
Qed.
Lemma calm_undos o us h : calm h (run_undos o us h).
Proof.
  induction us as [|u us IH]; [done|]. simpl. etrans; [exact IH|apply calm_undo].
Qed.
Lemma calm_teardown o v h : calm h (teardown o v h).
Proof.
  unfold teardown. etrans; [|apply calm_undos]. destruct (vm_vmm v); [apply calm_vmm_kill|done].
Qed.
Lemma calm_clean_up o a h : calm h (clean_up o node a h).
Proof.
  unfold clean_up. etrans; [|apply calm_undos]. unfold kill_cgroup.
  destruct (ho_cgroups h !! _), (uo_kill o); try done. apply calm_kill.
Qed.

Lemma calm_rename f from source to dest h : calm h (rename f from source to dest h).1.
Proof.
  unfold rename. destruct f; [done|]. destruct (_ ≫= _), (ho_dirs h !! to); try done. simpl.
  etrans; [apply (calm_alter (delete source) from)|apply calm_put_file].
Qed.
Lemma calm_move f from fn to tn h : calm h (move_files f from fn to tn h).1.
Proof.
  unfold move_files. generalize (Ok tt : result string unit) as r. generalize (zip fn tn) as names.
  intros names. revert h. induction names as [|[s d] names IH]; intros h r; [done|]. simpl.
  destruct (rename (f s) from s to d h) as [h1 r1] eqn:E.
  etrans; [|apply IH]. apply (f_equal fst) in E. simpl in E. rewrite <- E. apply calm_rename.
Qed.

(** What all VMs share is named after none. *)
Lemma calm_prepared h h' : prepared node h h' -> calm h h'.
Proof.
  intros []. split.
  - by rewrite pr_netns.
  - by rewrite pr_links.
  - intros k y Hu. destruct (pr_dirs k) as [->|([-> | ->] & _)]; [done| |].
    + by rewrite jail_base_outside in Hu.
    + by rewrite jails_outside in Hu.
  - intros cg ps' Hc. destruct (pr_cgroups cg) as [E|(-> & _ & E)]; rewrite E in Hc; [by apply cgroup_from_same|].
    injection Hc as <-. by right.
  - by rewrite pr_procs.
Qed.

(** Parking puts a snapshot outside every jail. *)
Definition outside (path : string) : Prop := forall y, under (jail_dir node (host_id y)) path = false.
Lemma calm_with_dir into h : outside into -> calm h (with_dir into h).
Proof.
  intros Hout. unfold with_dir. destruct (ho_dirs h !! into); [done|]. apply calm_dirs.
  intros k id Hu. rewrite lookup_insert_ne; [done|]. intros <-. by rewrite (Hout id) in Hu.
Qed.
Lemma calm_park_hung o root into h h' : outside into -> park_hung o root into h = Some h' -> calm h h'.
Proof.
  intros Hout%(calm_with_dir _ h). unfold park_hung.
  repeat case_match; intros [= <-]; try done. etrans; [done|apply calm_alter].
Qed.
Lemma calm_park o vmm root into h : outside into -> calm h (park o vmm root into h).1.
Proof.
  intros Hout. assert (Hs : calm h (park_steps o vmm root into h).1).
  { unfold park_steps. destruct (pf_mkdir o); [done|].
    assert (calm h (with_dir into h)) as Hw by by apply calm_with_dir.
    destruct (pf_pause o); [done|]. destruct (pf_snapshot o) as [[vs mem]|e].
    - set (h1 := put_file root "park.mem" mem _).
      assert (calm h h1) as H1.
      { unfold h1. etrans; [exact Hw|]. etrans; apply calm_put_file. }
      pose proof (calm_move (pf_move o) root PARK_FILES into SNAPSHOT_FILES (vmm_kill vmm h1)) as H2.
      destruct (move_files _ _ _ _ _ _) as [h2 r]. simpl in *.
      etrans; [exact H1|]. etrans; [apply calm_vmm_kill|exact H2].
    - assert (calm h (set_dirs (alter (fun d => delete "park.vmstate" (delete "park.mem" d)) root
        (ho_dirs (with_dir into h))) (with_dir into h))) by (etrans; [exact Hw|apply calm_alter]).
      by destruct (pf_resume o). }
  unfold park. destruct (park_steps o vmm root into h) as [h1 [x|e]]; [done|].
  etrans; [exact Hs|apply calm_remove_tree].
Qed.

(** The parks a supervisor is sent. *)
Definition parks_outside (evs : list Event) : Prop :=
  forall into o, EvStop (StopPark into o) ∈ evs -> outside into.
Lemma parks_outside_cons ev evs : parks_outside (ev :: evs) -> parks_outside evs.
Proof. intros H into o Hin. apply (H into o). by right. Qed.

Lemma calm_graceful_loop env vmm evs h : calm h (graceful_loop env vmm evs h).1.1.
Proof.
  revert h. induction evs as [|[st|[t| |into o]| |] evs IH]; intros h; simpl;
    try apply calm_vmm_kill; try done.
  specialize (IH h). by destruct (graceful_loop env vmm evs h) as [[h1 rs] r].
Qed.
Lemma calm_run_until_ended env vmm root evs h :
  parks_outside evs -> calm h (run_until_ended env vmm root evs h).1.1.
Proof.
  revert h. induction evs as [|[st|[t| |into o]| |] evs IH]; intros h Hp; cbn [run_until_ended];
    try (by apply calm_vmm_kill); try done.
  - unfold graceful_stop. destruct (se_hang env); [done|]. destruct (se_ctrl_alt_del env); [|apply calm_graceful_loop].
    destruct (se_ended env); apply calm_vmm_kill.
  - assert (Ho : outside into) by (apply (Hp into o); left).
    pose proof (calm_park o vmm root into h Ho) as H1. apply parks_outside_cons in Hp.
    destruct (park_hung o root into h) as [hh|] eqn:Hh; [by eapply calm_park_hung|].
    destruct (park o vmm root into h) as [h1 [[]|[e|e]]]; simpl in *; [done| |].
    + specialize (IH h1 Hp). destruct (run_until_ended _ _ _ _ _) as [[h2 rs] r]. by etrans.
    + etrans; [exact H1|apply calm_vmm_kill].
  - apply IH. by apply parks_outside_cons in Hp.
Qed.

(** ** A VM's own objects *)

(** From [h] to [h'] only objects named after the VM at [x] appear, and its
    VMM. *)
Record grown (x : Ipv4Addr) (v : Vm) (h h' : Host) : Prop := {
  gr_netns : forall id, id <> host_id x -> is_Some (ho_netns h' !! id) -> is_Some (ho_netns h !! id);
  gr_links : forall id, id <> host_id x -> id ∈ ho_links h' -> id ∈ ho_links h;
  gr_dirs : forall k y, host_id y <> host_id x -> under (jail_dir node (host_id y)) k = true ->
    is_Some (ho_dirs h' !! k) -> is_Some (ho_dirs h !! k);
  gr_cgroups : forall cg ps', cg <> cgroup_of (host_id x) -> ho_cgroups h' !! cg = Some ps' ->
    cgroup_from h cg ps';
  gr_procs : forall pid st, ho_procs h' !! pid = Some st ->
    ho_procs h !! pid = Some st \/ pid ∈ vmm_pids v;
}.
(** Every object of the VM's has its undo on the stack. *)
Record owned (x : Ipv4Addr) (v : Vm) (h : Host) : Prop := {
  ow_own : Forall (own_undo node (host_id x)) (vm_undo v);
  ow_netns : is_Some (ho_netns h !! host_id x) -> has (DeleteNetns (host_id x)) (vm_undo v) = true;
  ow_links : host_id x ∈ ho_links h -> has (DeleteLink (host_id x)) (vm_undo v) = true;
  ow_dirs : forall k, under (jail_dir node (host_id x)) k = true -> is_Some (ho_dirs h !! k) ->
    has (RemoveDir (jail_dir node (host_id x))) (vm_undo v) = true;
  ow_cgroups : forall ps, ho_cgroups h !! cgroup_of (host_id x) = Some ps ->
    has (RemoveCgroup (cgroup_of (host_id x))) (vm_undo v) = true /\ ps ⊆ vmm_pids v;
  ow_vmm : vm_vmm v = None \/ exists pid, vm_vmm v = Some (Child pid);
}.

Lemma jail_dirs_apart y x k :
  host_id y <> host_id x -> under (jail_dir node (host_id y)) k = true ->
  under (jail_dir node (host_id x)) k = false.
Proof.
  intros Hne Hy. apply not_true_is_false. intros Hx. apply Hne.
  assert (Hb : jails node <> "") by by apply path_join_nonempty.
  apply (child_of_tree _ _ _ Hb (host_id_no_slash _)) in Hx, Hy. congruence.
Qed.

Lemma building_grown x log h v h' : building node x log h (v, h') -> grown x v h h'.
Proof.
  intros []. simpl in *. split.
  - intros id Hne. by rewrite <- b_netns, lookup_delete_ne.
  - intros id Hne Hin. rewrite <- b_links. set_solver.
  - intros k y Hne Hu. rewrite <- b_dirs, remove_tree_other; [done|].
    by apply (jail_dirs_apart y).
  - intros cg ps' Hne Hcg. apply cgroup_from_same. rewrite <- b_cgroups, lookup_delete_ne by done. done.
  - intros pid st Hp. destruct (decide (pid ∈ vmm_pids v)) as [|Hn]; [by right|left].
    rewrite <- b_procs. by apply map_lookup_filter_Some.
Qed.
Lemma building_owned x log h v h' : building node x log h (v, h') -> owned x v h'.
Proof.
  intros []. simpl in *. split; try done.
  - intros Hs. destruct b_netns_undo as [Hn|]; [|done]. rewrite Hn in Hs. by apply is_Some_None in Hs.
  - intros Hin. by destruct b_links_undo.
  - intros k Hu Hs. destruct b_dirs_undo as [Hd|]; [|done].
    rewrite (remove_tree_lookup _ _ _ Hd Hu) in Hs. by apply is_Some_None in Hs.
  - intros ps Hp. split; [|by apply b_cg_procs]. destruct b_cg_undo; [congruence|done].
Qed.

Lemma calm_grown x v h1 h2 h3 : calm h1 h2 -> grown x v h2 h3 -> grown x v h1 h3.
Proof.
  intros [] []. split.
  - intros id Hne Hs. by apply cm_netns0, gr_netns0.
  - intros id Hne Hin. by apply cm_links0, gr_links0.
  - intros k y Hne Hu Hs. apply (cm_dirs0 k y Hu). by apply (gr_dirs0 k y).
  - intros cg ps3 Hne H3. apply gr_cgroups0 in H3 as [(ps2 & H2 & ?)|?]; [|by right|done].
    apply cm_cgroups0 in H2. by eapply cgroup_from_smaller.
  - intros pid st Hp. destruct (gr_procs0 _ _ Hp) as [?|?]; [left; by apply cm_procs0|by right].
Qed.
Lemma built_grown x log h v h' : built node x log h (v, h') -> grown x v h h'.
Proof. intros (h1 & Hp%calm_prepared & B%building_grown). by eapply calm_grown. Qed.
Lemma built_owned x log h v h' : built node x log h (v, h') -> owned x v h'.
Proof. intros (h1 & _ & B). by eapply building_owned. Qed.
Lemma grown_calm x v h1 h2 h3 : grown x v h1 h2 -> calm h2 h3 -> grown x v h1 h3.
Proof.
  intros [] []. split.
  - intros id Hne Hs. by apply gr_netns0, cm_netns0.
  - intros id Hne Hin. by apply gr_links0, cm_links0.
  - intros k y Hne Hu Hs. apply (gr_dirs0 k y Hne Hu). by apply (cm_dirs0 k y).
  - intros cg ps3 Hne H3. apply cm_cgroups0 in H3 as [(ps2 & H2 & ?)|?]; [|by right].
    apply gr_cgroups0 in H2; [|done]. by eapply cgroup_from_smaller.
  - intros pid st Hp. by apply gr_procs0, cm_procs0.
Qed.
Lemma owned_calm x v h h' : calm h h' -> owned x v h -> owned x v h'.
Proof.
  intros [] []. split; try done.
  - intros Hs. by apply ow_netns0, cm_netns0.
  - intros Hs. by apply ow_links0, cm_links0.
  - intros k Hu Hs. apply (ow_dirs0 k Hu). by apply (cm_dirs0 k x).
  - intros ps' Hp. apply cm_cgroups0, cgroup_from_vm in Hp as (ps & Hp & ?). apply ow_cgroups0 in Hp as [? ?].
    split; [done|set_solver].
Qed.

(** Tearing a VM down takes all it owns. *)
Lemma owned_teardown busy x v h :
  busy <= CGROUP_POLL_ATTEMPTS -> owned x v h -> id_free node x (teardown (undo_ok busy) v h).
Proof.
  intros Hb []. unfold teardown. rewrite vmm_kill_pids by done.
  rewrite (run_undos_spec node (host_id x) (undo_ok busy) _ _ ow_own0).
  2: { intros ps Hp. unfold kill_pids in Hp. simpl in Hp. apply lookup_fmap_Some in Hp as (ps0 & <- & Hp).
       apply ow_cgroups0 in Hp as [_ ?]. set_solver. }
  unfold kill_pids, undone. rewrite !undo_ok_works, !andb_true_r by done. split; simpl.
  - destruct (has (DeleteNetns _) _) eqn:E; [apply lookup_delete_eq|].
    apply eq_None_not_Some. intros Hs. apply ow_netns0 in Hs. congruence.
  - destruct (has (DeleteLink _) _) eqn:E; [set_solver|]. intros Hin. apply ow_links0 in Hin. congruence.
  - destruct (has (RemoveDir _) _) eqn:E; [apply remove_tree_idemp|].
    apply map_filter_id. intros k d Hk. simpl. apply not_true_is_false. intros Hu.
    discriminate (ow_dirs0 k Hu (mk_is_Some _ _ Hk)).
  - destruct (has (RemoveCgroup _) _) eqn:E; [apply lookup_delete_eq|].
    rewrite lookup_fmap. destruct (ho_cgroups h !! _) as [ps|] eqn:Ec; [|done].
    destruct (ow_cgroups0 ps eq_refl). congruence.
Qed.

(** Unwound, a VM leaves nothing new. *)
Lemma unwind busy x v h h1 h2 :
  busy <= CGROUP_POLL_ATTEMPTS -> grown x v h h1 -> owned x v h1 -> calm h1 h2 ->
  calm h (teardown (undo_ok busy) v h2) /\ id_free node x (teardown (undo_ok busy) v h2).
Proof.
  intros Hb G O C. pose proof (owned_calm _ _ _ _ C O) as O2.
  pose proof (owned_teardown busy x v h2 Hb O2) as F. split; [|done].
  pose proof (grown_calm _ _ _ _ _ (grown_calm _ _ _ _ _ G C) (calm_teardown (undo_ok busy) v h2)) as G2.
  assert (Hdead : forall pid st, ho_procs (teardown (undo_ok busy) v h2) !! pid = Some st ->
    pid ∉ vmm_pids v).
  { intros pid st Hp. unfold teardown in Hp. rewrite vmm_kill_pids in Hp by apply (ow_vmm _ _ _ O2).
    apply (cm_procs _ _ (calm_undos _ _ _)) in Hp. unfold kill_pids in Hp; simpl in Hp.
    by apply map_lookup_filter_Some in Hp as [_ ?]. }
  destruct G2, F. split.
  - intros id Hs. destruct (decide (id = host_id x)) as [->|]; [|by apply gr_netns0].
    rewrite if_netns in Hs. by apply is_Some_None in Hs.
  - intros id Hin. destruct (decide (id = host_id x)) as [->|]; [done|]. by apply gr_links0.
  - intros k y Hu Hs. destruct (decide (host_id y = host_id x)) as [Heq|Hne]; [|by apply (gr_dirs0 k y)].
    rewrite Heq in Hu. rewrite (remove_tree_lookup _ _ _ if_dirs Hu) in Hs. by apply is_Some_None in Hs.
  - intros cg ps' Hc. destruct (decide (cg = cgroup_of (host_id x))) as [->|]; [congruence|].
    by apply gr_cgroups0.
  - intros pid st Hp. destruct (gr_procs0 _ _ Hp) as [?|Hin]; [done|]. by apply Hdead in Hp.
Qed.

(** What a start and a wake do to the host. *)
Lemma vm_start_host busy spec h o h' r :
  busy <= CGROUP_POLL_ATTEMPTS -> id_free node (sp_vm_address spec) h -> spawn_fresh h (sf_host o) ->
  vm_start o (undo_ok busy) node spec h = (h', r) ->
  match r with
  | Err _ => calm h h'
  | Ok v => grown (sp_vm_address spec) v h h' /\ owned (sp_vm_address spec) v h'
  end.
Proof.
  intros Hb Hfree Hspawn. unfold vm_start.
  pose proof (start_steps_hoare node spec h o Hfree Hspawn _ eq_refl) as H.
  destruct (start_steps o node spec _) as [[v h1] [[]|e]]; intros [= <- <-].
  - destruct H as [B _]. split; [by eapply built_grown|by eapply built_owned].
  - apply (unwind busy (sp_vm_address spec) v h h1 h1 Hb); [by eapply built_grown|by eapply built_owned|done].
Qed.
Lemma vm_wake_host busy spec h o h' r :
  busy <= CGROUP_POLL_ATTEMPTS -> id_free node (ws_vm_address spec) h -> spawn_fresh h (wf_host o) ->
  vm_wake o (undo_ok busy) node spec h = (h', r) ->
  match r with
  | Err _ => calm h h'
  | Ok v => grown (ws_vm_address spec) v h h' /\ owned (ws_vm_address spec) v h'
  end.
Proof.
  intros Hb Hfree Hspawn.
  assert (Hw : forall v h1 r, wake_steps o node spec (vm_empty (ws_console_log spec), h) = ((v, h1), r) ->
    grown (ws_vm_address spec) v h h1 /\ owned (ws_vm_address spec) v h1).
  { intros v h1 r0. unfold wake_steps. unfold mbind at 1, vmM_bind at 1.
    pose proof (host_steps_hoare node (ws_vm_address spec) (ws_console_log spec) h (wf_host o)
      Hfree Hspawn (ws_mem_mib spec) (ws_vcpus spec) true _ eq_refl) as H.
    destruct (host_steps _ _ _ _ _ _ _) as [[v1 h2] [uid|e]].
    2: { intros [= <- <- <-]. destruct H as (B & _).
         split; [by eapply built_grown|by eapply built_owned]. }
    destruct H as (_ & _ & pid & B & _). simpl in B. unfold mbind at 1, vmM_bind at 1. cbn [get_vm fst].
    unfold mbind at 1, vmM_bind at 1. cbn [fst snd].
    pose proof (calm_move (wf_move o) (ws_snapshot spec) SNAPSHOT_FILES (vm_jail_root v1) WAKE_FILES h2) as C.
    assert (grown (ws_vm_address spec) v1 h (move_files (wf_move o) (ws_snapshot spec) SNAPSHOT_FILES
        (vm_jail_root v1) WAKE_FILES h2).1 /\ owned (ws_vm_address spec) v1 (move_files (wf_move o)
        (ws_snapshot spec) SNAPSHOT_FILES (vm_jail_root v1) WAKE_FILES h2).1) as HG.
    { split; [eapply grown_calm; [by eapply built_grown|done]|
              eapply owned_calm; [done|by eapply built_owned]]. }
    destruct (move_files (wf_move o) _ _ _ _ h2) as [h3 [[]|e]]; cbn [map_err];
      [|by intros [= <- <- _]].
    unfold mbind, vmM_bind. destruct (chown_each _ _ _) as [s' [[]|e]] eqn:Hch;
      apply chown_each_state in Hch as ->; [|by intros [= <- <- _]].
    unfold vm_try. by destruct (_ <$> wf_load o); intros [= <- <- _]. }
  unfold vm_wake. destruct (wake_steps o node spec _) as [[v h1] [[]|e]]; intros [= <- <-];
    destruct (Hw _ _ _ eq_refl) as [G O]; [done|].
  apply (unwind busy (ws_vm_address spec) v h h1 _ Hb G O), calm_move.
Qed.
End calm.

(** ** Every VM of the agent's *)

Lemma host_id_inj s x y :
  subnet_wf s -> x ∈ vm_addresses s -> y ∈ vm_addresses s -> host_id x = host_id y -> x = y.
Proof.
  intros Hs Hx Hy Heq. apply (low16_inj s); try done.
  apply (f_equal parse_host_id) in Heq. rewrite !parse_host_id_host_id in Heq. by injection Heq.
Qed.
Lemma cgroup_of_inj id id' : cgroup_of id = cgroup_of id' -> id = id'.
Proof. unfold cgroup_of. rewrite !path_join_slash by done. intros H. by do 2 apply (inj _) in H. Qed.

(** What a supervisor knows of its VM: the VMM, and how to take it all down. *)
Definition sup_ok (node : NodeConfig) (x : Ipv4Addr) (v : Vm) (h : Host) : Prop :=
  exists p vmm, vm_process v = Some p /\ vm_vmm v = Some vmm /\ vmm_pid vmm = pr_pid p /\
    (owned node x v h \/
     vmm = Adopted p (cgroup_of (host_id x)) /\ vm_undo v = undo_steps node (host_id x)).

Lemma sup_ok_calm node x v h h' : calm node h h' -> sup_ok node x v h -> sup_ok node x v h'.
Proof.
  intros C (p & vmm & Hp & Hv & Hpid & Hd). exists p, vmm. split_and!; try done.
  destruct Hd as [O|?]; [left; by eapply owned_calm|by right].
Qed.
Lemma sup_ok_grown node x y v w h h' :
  host_id x <> host_id y -> grown node y w h h' -> sup_ok node x v h -> sup_ok node x v h'.
Proof.
  intros Hne G (p & vmm & Hp & Hv & Hpid & Hd). exists p, vmm. split_and!; try done.
  destruct Hd as [O|?]; [left|by right]. destruct G, O. split; try done.
  - intros Hs. by apply ow_netns0, gr_netns0.
  - intros Hs. by apply ow_links0, gr_links0.
  - intros k Hu Hs. apply (ow_dirs0 k Hu). by apply (gr_dirs0 k x).
  - intros ps' Hps. apply gr_cgroups0, cgroup_from_vm in Hps as (ps & Hps & ?); [|by intros ?%cgroup_of_inj].
    apply ow_cgroups0 in Hps as [? ?]. split; [done|set_solver].
Qed.

Lemma sup_teardown node x v h busy :
  busy <= CGROUP_POLL_ATTEMPTS -> sup_ok node x v h -> id_free node x (teardown (undo_ok busy) v h).
Proof.
  intros Hb (p & vmm & Hp & Hv & Hpid & [O|[-> Hu]]); [by apply owned_teardown|].
  unfold teardown. rewrite Hv, Hu. cbn [vmm_kill].
  rewrite (run_undos_spec node (host_id x) (undo_ok busy) _ _ (undo_steps_own _ _)).
  - unfold undone. rewrite !undo_ok_works, !andb_true_r by done. rewrite !undo_steps_has; [|right; right; by left|right; by left|by do 3 right|by left].
    split; simpl; [apply lookup_delete_eq|set_solver|apply remove_tree_idemp|apply lookup_delete_eq].
  - intros ps Hps. unfold kill_pids in Hps; simpl in Hps.
    apply lookup_fmap_Some in Hps as (ps0 & <- & Hps). rewrite Hps. simpl. set_solver.
Qed.

Definition runs (a : Agent) (n : string) (t : nat) (x : Ipv4Addr) : Prop :=
  exists i l, ag_vms a !! n = Some (Running i l t) /\ vi_vm_address i = Some x.

(** Only what a running VM holds has host objects, and its supervisor can
    take them down. *)
Record hinv (a : Agent) : Prop := {
  hv_free : forall x, x ∈ vm_addresses (ag_subnet a) -> (forall n t, ~ runs a n t x) ->
    id_free (ag_node a) x (ag_host a);
  hv_sups : forall t n v, ag_sups a !! t = Some (n, v) ->
    exists x, runs a n t x /\ sup_ok (ag_node a) x v (ag_host a);
}.

Lemma hinv_calm a a' :
  ag_node a' = ag_node a -> ag_subnet a' = ag_subnet a -> ag_sups a' = ag_sups a ->
  (forall n t x, runs a' n t x <-> runs a n t x) ->
  calm (ag_node a) (ag_host a) (ag_host a') -> hinv a -> hinv a'.
Proof.
  intros Hn Hs Hp Hr C []. split; rewrite ?Hn, ?Hs, ?Hp.
  - intros x Hx Hno. apply (calm_free _ _ _ _ C). apply hv_free0; [done|].
    intros n t H. by apply (Hno n t), Hr.
  - intros t n v Ht. destruct (hv_sups0 _ _ _ Ht) as (x & H & S). exists x.
    split; [by apply Hr|]. by eapply sup_ok_calm.
Qed.

Section hsteps.
Context {a : Agent} {tasks : list Task}.
Context (Hsub : subnet_wf (ag_subnet a)) (R : areg a tasks) (H : hinv a).

Lemma runs_subnet n t x : runs a n t x -> x ∈ vm_addresses (ag_subnet a).
Proof. intros (i & l & Hn & Hx). apply (rg_sub _ _ _ _ _ R _ _ _ Hn Hx). Qed.
Lemma task_not_running i t n s :
  tasks !! i = Some t -> ~ runs a n s (task_address t).
Proof.
  intros Hi (info & l & Hn & Hx).
  destruct (rg_task _ _ _ _ _ R t) as [Ht _]; [by eapply list_elem_of_lookup_2|].
  assert (n = task_name t) as ->.
  { apply (rg_addr _ _ _ _ _ R _ _ _ _ (task_address t) Hn Ht); done. }
  by rewrite Hn in Ht.
Qed.
Lemma task_free i t : tasks !! i = Some t -> id_free (ag_node a) (task_address t) (ag_host a).
Proof.
  intros Hi. apply (hv_free _ H); [|intros n s; by eapply task_not_running].
  destruct (rg_task _ _ _ _ _ R t) as [Ht _]; [by eapply list_elem_of_lookup_2|].
  by apply (rg_sub _ _ _ _ _ R _ _ _ Ht).
Qed.

(** A VM starts. *)
Lemma hinv_started i t info v a' :
  tasks !! i = Some t -> vi_vm_address info = Some (task_address t) ->
  ag_node a' = ag_node a -> ag_subnet a' = ag_subnet a ->
  ag_vms a' = <[task_name t := Running info (task_log t) (ag_next a)]> (ag_vms a) ->
  ag_sups a' = <[ag_next a := (task_name t, v)]> (ag_sups a) ->
  grown (ag_node a) (task_address t) v (ag_host a) (ag_host a') ->
  sup_ok (ag_node a) (task_address t) v (ag_host a') -> hinv a'.
Proof.
  intros Hi Hx Hnode Hsn Hvms Hsups G S.
  destruct (rg_task _ _ _ _ _ R t) as [Ht _]; [by eapply list_elem_of_lookup_2|].
  assert (Hta : task_address t ∈ vm_addresses (ag_subnet a)) by by apply (rg_sub _ _ _ _ _ R _ _ _ Ht).
  assert (Hold : forall n s y, runs a n s y -> runs a' n s y /\ host_id y <> host_id (task_address t)).
  { intros n s y Hr. pose proof Hr as (i0 & l0 & Hn & Hy). split.
    - exists i0, l0. rewrite Hvms, lookup_insert_ne; [done|]. intros <-. by rewrite Ht in Hn.
    - intros Heq. apply (host_id_inj _ _ _ Hsub) in Heq as ->; [|by eapply runs_subnet|done].
      by eapply task_not_running. }
  split; rewrite ?Hnode, ?Hsn.
  - intros x Hxs Hno.
    assert (Hne : host_id x <> host_id (task_address t)).
    { intros Heq. apply (host_id_inj _ _ _ Hsub) in Heq as ->; [|done|done].
      apply (Hno (task_name t) (ag_next a)). exists info, (task_log t). by rewrite Hvms, lookup_insert_eq. }
    assert (F : id_free (ag_node a) x (ag_host a)).
    { apply (hv_free _ H _ Hxs). intros n s Hr. by apply (Hno n s), Hold. }
    apply id_free_iff. apply id_free_iff in F. intros Hs. apply F. destruct G.
    destruct Hs as [Hn|[Hl|[(k & Hk & Hu)|[ps Hc]]]].
    + left. by apply gr_netns0.
    + right; left. by apply gr_links0.
    + right; right; left. exists k. split; [|done]. by apply (gr_dirs0 k x).
    + right; right; right. apply gr_cgroups0, cgroup_from_vm in Hc as (ps0 & -> & _); [eauto|].
      by intros ?%cgroup_of_inj.
  - intros s n w. rewrite Hsups. intros [[<- [= <- <-]]|[Hne Hs]]%lookup_insert_Some.
    + exists (task_address t). split; [|done]. exists info, (task_log t).
      by rewrite Hvms, lookup_insert_eq.
    + destruct (hv_sups _ H _ _ _ Hs) as (y & Hr & Sy). exists y.
      destruct (Hold _ _ _ Hr) as [Hr' Hid]. split; [done|]. by eapply sup_ok_grown.
Qed.

(** A VM ends. *)
Lemma hinv_ended t n v x a' info log :
  ag_sups a !! t = Some (n, v) -> runs a n t x ->
  ag_node a' = ag_node a -> ag_subnet a' = ag_subnet a ->
  ag_vms a' = <[n := EndedVm info log]> (ag_vms a) -> ag_sups a' = delete t (ag_sups a) ->
  calm (ag_node a) (ag_host a) (ag_host a') -> id_free (ag_node a) x (ag_host a') -> hinv a'.
Proof.
  intros Ht (i & l & Hn & Hx) Hnode Hsn Hvms Hsups C F.
  split; rewrite ?Hnode, ?Hsn.
  - intros y Hy Hno. destruct (decide (y = x)) as [->|Hne]; [done|].
    apply (calm_free _ _ _ _ C), (hv_free _ H _ Hy). intros m s (i' & l' & Hm & Hy').
    apply (Hno m s). exists i', l'. rewrite Hvms, lookup_insert_ne; [done|]. intros <-. congruence.
  - intros s m w. rewrite Hsups. intros [Hne Hs]%lookup_delete_Some.
    destruct (hv_sups _ H _ _ _ Hs) as (y & (i' & l' & Hm & Hy) & Sy). exists y.
    split; [|by eapply sup_ok_calm]. exists i', l'. rewrite Hvms, lookup_insert_ne; [done|].
    intros <-. congruence.
Qed.
End hsteps.

(** ** Through every event *)

Definition same_cfg (a a' : Agent) : Prop :=
  ag_node a' = ag_node a /\ ag_subnet a' = ag_subnet a /\ ag_parked_dir a' = ag_parked_dir a /\
  ag_logs_dir a' = ag_logs_dir a.
#[export] Instance same_cfg_preorder : PreOrder same_cfg.
Proof. split; [done|]. unfold same_cfg. intros a b c. intuition congruence. Qed.

Lemma get_certificate_cfg host a : same_cfg a (get_certificate host a).
Proof. unfold get_certificate. by destruct (_ && _). Qed.
Lemma claim_take_cfg t a a' : claim_take t a = Some a' -> same_cfg a a'.
Proof.
  unfold claim_take. destruct (ag_traffic a !! t) as [tr|]; [|done]. cbn [mbind option_bind].
  destruct (tr_parking tr); [done|]. by intros [= <-].
Qed.
(** Claiming changes no more than [Traffic]s. *)
Definition only_traffic (a a' : Agent) : Prop := exists m, a' = set_ag_traffic m a.
#[export] Instance only_traffic_preorder : PreOrder only_traffic.
Proof.
  split; [intros a; exists (ag_traffic a); by destruct a|].
  intros a b c [m ->] [m' ->]. by exists m'.
Qed.
Lemma claim_take_only t a a' : claim_take t a = Some a' -> only_traffic a a'.
Proof.
  unfold claim_take. destruct (ag_traffic a !! t) as [tr|]; [|done]. cbn [mbind option_bind].
  destruct (tr_parking tr); [done|]. intros [= <-]. by eexists.
Qed.
Lemma claim_idle_only now es a : only_traffic a (claim_idle now es a).1.
Proof.
  revert a. induction es as [|[n [x l r|i l t|i l]] es IH]; intros a; cbn [claim_idle];
    [by exists (ag_traffic a); destruct a|apply IH| |apply IH].
  destruct (_ ≫= _) as [a'|] eqn:E; [|apply IH].
  apply bind_Some in E as (? & _ & E). apply bind_Some in E as (? & _ & E).
  apply bind_Some in E as (? & _ & E). destruct (idle_for _ _ _); [|done].
  apply claim_take_only in E. specialize (IH a').
  destruct (claim_idle now es a') as [a'' rest]. by etrans.
Qed.
Lemma step_for_only host a : only_traffic a (step_for host a).1.
Proof.
  unfold step_for. repeat case_match; try (by exists (ag_traffic a); destruct a). by eexists.
Qed.

(** What happens to the registry in an event: nothing runs or stops, but
    for a start, a wake and an end. *)
Definition quiet (a a' : Agent) : Prop :=
  same_cfg a a' /\ ag_sups a' = ag_sups a /\ (forall n t x, runs a' n t x <-> runs a n t x) /\
  calm (ag_node a) (ag_host a) (ag_host a').
Lemma quiet_hinv a a' : quiet a a' -> hinv a -> hinv a'.
Proof. intros ((? & ? & _) & ? & ? & ?). by apply hinv_calm. Qed.
Lemma only_traffic_quiet a a' : only_traffic a a' -> quiet a a'.
Proof. intros [m ->]. by split_and!. Qed.

Lemma runs_other a a' n e :
  ag_vms a' = partial_alter (fun _ => e) n (ag_vms a) ->
  match e with Some (Running _ _ _) => False | _ => True end ->
  match ag_vms a !! n with Some (Running _ _ _) => False | _ => True end ->
  forall m t x, runs a' m t x <-> runs a m t x.
Proof.
  intros Hv He Hn m t x. unfold runs. rewrite Hv. destruct (decide (m = n)) as [->|Hne].
  - rewrite lookup_partial_alter_eq.
    split; intros (i & l & Hm & _); [by rewrite Hm in He|by rewrite Hm in Hn].
  - by rewrite lookup_partial_alter_ne.
Qed.

Lemma run_vm_quiet open run a : quiet a (run_vm open run a).1.
Proof.
  unfold run_vm. destruct (_ ≫= _) as [[guest file]|e]; [|by split_and!]. cbn [new_log_path].
  set (a1 := set_ag_next_log _ a). destruct (reserve_checks run a1) as [x|e] eqn:Er; [|by split_and!].
  apply reserve_checks_ok in Er as (_ & _ & Hn). split_and!; try done.
  apply (runs_other _ _ (rq_name run) (Some (Starting x (path_join (ag_logs_dir a)
    (log_file_name (rq_name run) (ag_next_log a))) (rq_route run)))); try done.
  cbn in Hn. by destruct (ag_vms a !! rq_name run) as [[]|].
Qed.
Lemma wake_vm_quiet name a : quiet a (wake_vm name a).1.
Proof.
  unfold wake_vm. destruct (_ ≫= _) as [[parked x]|e] eqn:Er; [|by split_and!].
  split_and!; try done.
  apply (runs_other _ _ name (Some (Starting x (rp_log parked) (vi_route (rp_info parked))))); try done.
  apply bind_ok in Er as (_ & _ & Er). apply bind_ok in Er as (p & Hp & _).
  by destruct (ag_vms a !! name) as [[]|].
Qed.
Lemma agent_remove_quiet ports f1 f2 f3 name a : quiet a (agent_remove ports f1 f2 f3 name a).1.
Proof.
  unfold agent_remove. destruct (remove_app _ _ _ _ _) as [[ms db] [[]|e]]; try by split_and!.
  cbn [ag_vms set_ag_machines set_ag_db].
  destruct (ag_vms a !! name) as [[| |info log]|] eqn:Hn; try by split_and!.
  destruct (if is_parked info then f2 else None); [by split_and!|].
  destruct (store_delete _ _ _) as [db' [[]|e]].
  - split_and!; try by destruct (is_parked info).
    + destruct (is_parked info); (apply (runs_other _ _ name None); [done|done|by rewrite Hn]).
    + destruct (is_parked info); cbn; [|apply calm_logs].
      etrans; [apply (calm_remove_tree _ (snapshot_of a name))|apply calm_logs].
  - split_and!; try by destruct (is_parked info).
    destruct (is_parked info); cbn; [apply calm_remove_tree|done].
Qed.
Lemma run_on_machine_quiet ports ports' f req a : quiet a (run_on_machine ports ports' f req a).1.
Proof.
  unfold run_on_machine. destruct (_ ≫= _); [|by split_and!].
  destruct (add_app _ _ _ _ _ _) as [[ms db] [info|e]]; [|by split_and!].
  unfold get_certificate. destruct (_ && _); by split_and!.
Qed.
Lemma renew_tick_shape a : exists m, renew_tick a = set_ag_ensuring m a.
Proof.
  unfold renew_tick. generalize (renew_hosts a) as hosts. intros hosts.
  revert a. induction hosts as [|host hosts IH]; intros a; [exists (ag_ensuring a); by destruct a|].
  simpl. unfold get_certificate at 2. destruct (_ && _); [|apply IH].
  destruct (IH (set_ag_ensuring (ag_ensuring a ++ [host]) a)) as [m ->]. by exists m.
Qed.
Lemma renew_tick_quiet a : quiet a (renew_tick a).
Proof. destruct (renew_tick_shape a) as [m ->]. by split_and!. Qed.

Lemma adopted_sup_ok node x log v h : like_adopted node x log v -> owned node x v h -> sup_ok node x v h.
Proof.
  intros (pid & st & Hv & Hp & _) O. exists (mkProcessId pid st), (Child pid). split_and!; try done.
  by left.
Qed.

Section tasks.
Context {a : Agent} {tasks : list Task} (busy : nat).
Context (Hsub : subnet_wf (ag_subnet a)) (R : areg a tasks) (H : hinv a).
Context (Hbusy : busy <= CGROUP_POLL_ATTEMPTS).

(** A start or wake that failed is as if it hadn't been. *)
Lemma back_quiet i t e a' :
  tasks !! i = Some t -> same_cfg a a' -> ag_sups a' = ag_sups a ->
  ag_vms a' = partial_alter (fun _ => e) (task_name t) (ag_vms a) ->
  match e with Some (Running _ _ _) => False | _ => True end ->
  calm (ag_node a) (ag_host a) (ag_host a') -> quiet a a'.
Proof.
  intros Hi Hc Hs Hv He C.
  destruct (rg_task _ _ _ _ _ R t) as [Ht _]; [by eapply list_elem_of_lookup_2|].
  split_and!; try done. apply (runs_other _ _ (task_name t) e); [done|done|]. by rewrite Ht.
Qed.

Lemma forget_start_quiet i t h db :
  tasks !! i = Some (TStart t) -> calm (ag_node a) (ag_host a) h ->
  quiet a (forget_start (stt_name t) (stt_replaced t) (sp_console_log (stt_spec t))
             (set_ag_host h (set_ag_db db a))).
Proof.
  intros Hi C.
  apply (back_quiet i (TStart t) ((fun r => EndedVm (rp_info r) (rp_log r)) <$> stt_replaced t));
    try done.
  - simpl. destruct (stt_replaced t); simpl; [|done]. by rewrite insert_delete_eq.
  - by destruct (stt_replaced t).
  - simpl. etrans; [exact C|apply calm_logs].
Qed.

Lemma start_vm_hinv i t o f now :
  tasks !! i = Some (TStart t) -> spawn_fresh (ag_host a) (sf_host o) ->
  hinv (start_vm o (undo_ok busy) f now t a).1 /\ same_cfg a (start_vm o (undo_ok busy) f now t a).1.
Proof.
  intros Hi Hspawn. unfold start_vm.
  destruct (vm_start o (undo_ok busy) (ag_node a) (stt_spec t) (ag_host a)) as [h r] eqn:Hs.
  pose proof (vm_start_host _ _ _ _ _ _ _ Hbusy (task_free R H i _ Hi) Hspawn Hs) as Hh.
  destruct r as [v|e].
  2: { pose proof (forget_start_quiet i t h (ag_db a) Hi Hh) as Q.
       destruct a. split; [by eapply quiet_hinv|apply Q]. }
  destruct Hh as [G O]. pose proof (vm_start_adopted _ _ _ _ _ _ _ Hs) as Had.
  destruct (adopted_process _ _ _ _ Had) as [p ->].
  destruct (insert_running _ _ _ _ _) as [db [[]|e]].
  - cbn [fst]. set (info := started_info _ _ _ _ _ _).
    set (a1 := match vi_route info with Some _ => _ | None => _ end).
    assert (Hcfg : same_cfg a a1 /\ ag_vms a1 = ag_vms a /\ ag_sups a1 = ag_sups a /\
      ag_next a1 = ag_next a /\ calm (ag_node a) h (ag_host a1)).
    { unfold a1. destruct (stt_replaced t), (vi_route info); unfold get_certificate;
        repeat case_match; split_and!; try done; apply calm_logs. }
    destruct Hcfg as (Hcfg & Hvms & Hsups & Hnext & C). split; [|exact Hcfg].
    apply (hinv_started Hsub R H i (TStart t) info v); try done; try apply Hcfg.
    + simpl. by rewrite Hvms, Hnext.
    + simpl. by rewrite Hsups, Hnext.
    + simpl. by eapply grown_calm.
    + simpl. eapply adopted_sup_ok; [exact Had|]. by eapply owned_calm.
  - destruct (unwind _ busy _ v _ h h Hbusy G O (reflexivity h)) as [C _].
    pose proof (forget_start_quiet i t (vm_destroy (undo_ok busy) v h) db Hi C) as Q.
    destruct a. split; [by eapply quiet_hinv|apply Q].
Qed.

Lemma wake_task_hinv i t o f f_mark now :
  tasks !! i = Some (TWake t) -> spawn_fresh (ag_host a) (wf_host o) ->
  hinv (wake_task o (undo_ok busy) f f_mark now t a).1 /\
  same_cfg a (wake_task o (undo_ok busy) f f_mark now t a).1.
Proof.
  intros Hi Hspawn.
  enough (HH : hinv (finish_wake o (undo_ok busy) f f_mark now t a).1 /\
    same_cfg a (finish_wake o (undo_ok busy) f f_mark now t a).1).
  { unfold wake_task. destruct (finish_wake _ _ _ _ _ _ _) as [a' [[r|e]|]]; [| |exact HH];
      destruct HH as [[Hf Hs] Hc]; (split; [split; [exact Hf|exact Hs]|exact Hc]). }
  unfold finish_wake.
  destruct (vm_wake o (undo_ok busy) (ag_node a) (wkt_spec t) (ag_host a)) as [h r] eqn:Hs.
  pose proof (vm_wake_host _ _ _ _ _ _ _ Hbusy (task_free R H i _ Hi) Hspawn Hs) as Hh.
  destruct r as [v|e].
  2: { enough (quiet a (put_vm (wkt_name t) (EndedVm (rp_info (wkt_parked t)) (rp_log (wkt_parked t)))
         (set_ag_host h a))) as Q by (split; [by eapply quiet_hinv|apply Q]).
       by apply (back_quiet i (TWake t) (Some (EndedVm (rp_info (wkt_parked t)) (rp_log (wkt_parked t))))). }
  destruct Hh as [G O]. pose proof (vm_wake_adopted _ _ _ _ _ _ _ Hs) as Had.
  destruct (adopted_process _ _ _ _ Had) as [p ->].
  destruct (insert_running _ _ _ _ _) as [db [[]|e]].
  - split; [|done]. cbn [fst].
    assert (C : calm (ag_node a) h (remove_empty_dir (ws_snapshot (wkt_spec t)) h))
      by apply calm_remove_empty_dir.
    apply (hinv_started Hsub R H i (TWake t) (started_info (wkt_name t) (ws_vm_address (wkt_spec t))
      (ws_mem_mib (wkt_spec t)) (ws_vcpus (wkt_spec t)) now (vi_route (rp_info (wkt_parked t)))) v);
      try done.
    + simpl. by eapply grown_calm.
    + simpl. eapply adopted_sup_ok; [exact Had|]. by eapply owned_calm.
  - destruct (unwind _ busy _ v _ h h Hbusy G O (reflexivity h)) as [C _].
    destruct (mark_ended _ _ _ _) as [db' rm]. cbn [fst].
    match goal with |- hinv ?a' /\ _ => enough (quiet a a') as Q by (split; [by eapply quiet_hinv|apply Q]) end.
    by apply (back_quiet i (TWake t) (Some (EndedVm (ended_info (rp_info (wkt_parked t))
      (mkEnded now Forced)) (rp_log (wkt_parked t))))).
Qed.

Lemma supervisor_ends_hinv env evs f now t :
  (forall n v, ag_sups a !! t = Some (n, v) -> parks_outside (ag_node a) evs) ->
  hinv (supervisor_ends env (undo_ok busy) evs f now t a).1 /\
  same_cfg a (supervisor_ends env (undo_ok busy) evs f now t a).1.
Proof.
  intros Hout. unfold supervisor_ends. destruct (ag_sups a !! t) as [[n v]|] eqn:Ht; [|done].
  destruct (hv_sups _ H _ _ _ Ht) as (x & Hr & S). pose proof S as (p & vmm & _ & Hv & _).
  unfold supervise. rewrite Hv.
  pose proof (calm_run_until_ended _ env vmm (vm_jail_root v) evs (ag_host a) (Hout _ _ eq_refl)) as C.
  destruct (run_until_ended _ _ _ _ _) as [[h rs] [reason|]]; [|done]. cbn [fst] in *.
  pose proof Hr as (i & l & Hn & Hx). unfold record_end. cbn [ag_vms set_ag_sups set_ag_host].
  rewrite Hn. destruct (mark_ended _ _ _ _) as [db r].
  split; [|done].
  apply (hinv_ended H t n v x _ (ended_info i (mkEnded now reason)) l); try done.
  - simpl. by rewrite insert_delete_eq.
  - simpl. etrans; [exact C|apply calm_teardown].
  - simpl. apply sup_teardown; [done|]. by eapply sup_ok_calm.
Qed.
End tasks.
