(* ===== verification/AgentBoot.v ===== *)
(** * The agent across restarts

    The agent goes down, at any moment and with its tasks, and a later one
    starts from the state database and whatever the host has become:
    [reconcile] rebuilds the registry from the VMs that are still there and
    sweeps what nobody holds. *)

From S2P Require Import Prelude RustStr Proto Subnet Store Validate Vm VmLaws VmEnd Machine.
From S2P Require Import MachineLaws Edge Agent AgentSys AgentHost.

#[local] Arguments host_id : simpl never.
#[local] Arguments jail_dir : simpl never.
#[local] Arguments cgroup_of : simpl never.
#[local] Arguments path_join : simpl never.
#[local] Arguments remove_tree : simpl never.

(** ** Records *)

Lemma row_record_name n row r : row_record n row = Some r -> vi_name (rec_info r) = n.
Proof.
  unfold row_record. intros Hr. repeat (apply bind_Some in Hr as (? & _ & Hr)). by injection Hr as <-.
Qed.
Lemma row_record_process n row r p :
  row_record n row = Some r -> rec_process r = Some p -> row_pid row = Some (Z.of_N (pr_pid p)).
Proof.
  unfold row_record. intros Hr. apply bind_Some in Hr as (pid & Hpid & Hr).
  repeat (apply bind_Some in Hr as (? & _ & Hr)). injection Hr as <-. cbn [rec_process].
  destruct pid as [pid|]; [|done]. simpl. destruct (row_pid_start row) as [ps|]; [|done]. simpl. intros [= <-].
  unfold get_uint_opt in Hpid. destruct (row_pid row) as [z|]; [|done].
  destruct (get_uint u32_max z) as [k|] eqn:E; [|done]. injection Hpid as <-. simpl.
  unfold get_uint in E. destruct (_ && _) eqn:Hb; [|done]. injection E as <-.
  apply andb_prop in Hb as [Hb _]. apply Z.leb_le in Hb. by rewrite Z2N.id.
Qed.
Lemma row_record_running_row n info log p r :
  row_record n (running_row info log p) = Some r ->
  vi_vm_address (rec_info r) = (ipv4_display <$> vi_vm_address info) ≫= ipv4_parse /\
  vi_ended (rec_info r) = None.
Proof.
  unfold row_record. intros Hr. repeat (apply bind_Some in Hr as (? & _ & Hr)). by injection Hr as <-.
Qed.
Lemma row_record_ended_row n e row r :
  row_record n (ended_row e row) = Some r ->
  vi_vm_address (rec_info r) = None /\ is_Some (vi_ended (rec_info r)).
Proof.
  unfold row_record. intros Hr. repeat (apply bind_Some in Hr as (? & _ & Hr)). injection Hr as <-.
  cbn [rec_info vi_vm_address vi_ended ended_row row_vm_address row_ended_at row_end_reason opt_zip].
  split; [done|]. rewrite parse_reason_text. rsimpl. eauto.
Qed.

(** What the records of a load are. *)
Definition loaded (db : Db) (rs : list VmRecord) : Prop :=
  NoDup ((fun r => vi_name (rec_info r)) <$> rs) /\
  (forall n row r, db_vms db !! n = Some row -> row_record n row = Some r -> r ∈ rs) /\
  (forall r, r ∈ rs -> exists row, db_vms db !! vi_name (rec_info r) = Some row /\
     row_record (vi_name (rec_info r)) row = Some r) /\
  (forall n row, db_vms db !! n = Some row -> is_Some (row_record n row)).

Lemma collect_rows_Forall2 rows rs :
  collect_rows rows = Some rs ->
  Forall2 (fun nr r => row_record nr.1 nr.2 = Some r) rows rs.
Proof.
  revert rs. induction rows as [|[n row] rows IH]; intros rs; cbn [collect_rows].
  - intros [= <-]. constructor.
  - intros (r & Hr & (rs' & Hrs & [= <-])%bind_Some)%bind_Some. constructor; [done|by apply IH].
Qed.
Lemma Forall2_in_l {A B} (P : A -> B -> Prop) l k x : Forall2 P l k -> x ∈ l -> exists y, y ∈ k /\ P x y.
Proof.
  intros H (i & Hi)%list_elem_of_lookup. destruct (Forall2_lookup_l _ _ _ _ _ H Hi) as (y & Hy & ?).
  exists y. split; [by eapply list_elem_of_lookup_2|done].
Qed.
Lemma store_load_loaded f db rs : store_load f db = Ok rs -> loaded db rs.
Proof.
  unfold store_load. destruct f; [done|]. intros Hc%ok_or_ok%collect_rows_Forall2.
  assert (Hnames : (fun r => vi_name (rec_info r)) <$> rs = keys_of (db_vms db)).
  { unfold keys_of. induction Hc as [|[n row] r rows rs Hr _ IH]; [done|]. cbn.
    f_equal; [by eapply row_record_name|exact IH]. }
  split_and!.
  - rewrite Hnames. apply NoDup_keys_of.
  - intros n row r Hn Hr. apply elem_of_entries in Hn.
    destruct (Forall2_in_l _ _ _ (n, row) Hc Hn) as (r' & Hin & Hr'). simpl in Hr'.
    assert (r = r') as -> by congruence. done.
  - intros r Hin. destruct (Forall2_in_l _ _ _ r (proj2 (Forall2_flip _ _ _) Hc) Hin) as ([n row] & Hn & Hr). simpl in Hr.
    apply elem_of_entries in Hn. rewrite (row_record_name _ _ _ Hr). eauto.
  - intros n row Hn. apply elem_of_entries in Hn.
    destruct (Forall2_in_l _ _ _ (n, row) Hc Hn) as (r' & Hin & Hr'). eauto.
Qed.

(** A record of a VM that runs. *)
Definition live (alive : ProcessId -> bool) (r : VmRecord) (x : Ipv4Addr) : Prop :=
  vi_ended (rec_info r) = None /\ vi_vm_address (rec_info r) = Some x /\
  exists p, rec_process r = Some p /\ alive p = true.
(** The database's VMs that run have VM addresses of their own, and those
    that ended have none. *)
Record db_ok (sub : Subnet) (alive : ProcessId -> bool) (db : Db) : Prop := {
  do_distinct : forall n m row row' r r' x, db_vms db !! n = Some row -> db_vms db !! m = Some row' ->
    row_record n row = Some r -> row_record m row' = Some r' ->
    live alive r x -> live alive r' x -> n = m;
  do_subnet : forall n row r x, db_vms db !! n = Some row -> row_record n row = Some r ->
    live alive r x -> x ∈ vm_addresses sub;
  do_ended : forall n row r, db_vms db !! n = Some row -> row_record n row = Some r ->
    is_Some (vi_ended (rec_info r)) -> vi_vm_address (rec_info r) = None;
}.

(** The running VM a record is of. *)
Definition linked (a : Agent) (n : string) (r : VmRecord) (x : Ipv4Addr) : Prop :=
  exists t v p q, runs a n t x /\ ag_sups a !! t = Some (n, v) /\ vm_process v = Some q /\
    rec_process r = Some p /\ pr_pid p = pr_pid q.

(** Its entry and supervisor, once a later agent has taken it back. *)
Definition adopted (a : Agent) (n : string) (row : VmRow) (r : VmRecord) (x : Ipv4Addr) (p : ProcessId)
    : Prop :=
  exists t, ag_vms a !! n = Some (Running (rec_info r) (rec_log r) t) /\
    ag_sups a !! t = Some (n, adopt (ag_node a) x p (rec_log r)) /\
    db_vms (ag_db a) !! n = Some row.

Lemma db_ok_sub sub alive alive' db db' :
  (forall n row' r x, db_vms db' !! n = Some row' -> row_record n row' = Some r -> live alive' r x ->
     exists row r', db_vms db !! n = Some row /\ row_record n row = Some r' /\ live alive r' x) ->
  (forall n row r, db_vms db' !! n = Some row -> row_record n row = Some r ->
     is_Some (vi_ended (rec_info r)) -> vi_vm_address (rec_info r) = None) ->
  db_ok sub alive db -> db_ok sub alive' db'.
Proof.
  intros Hl He []. split; [| |exact He].
  - intros n m row row' r r' x Hn Hm Hr Hr' L L'.
    destruct (Hl _ _ _ _ Hn Hr L) as (? & ? & ? & ? & ?).
    destruct (Hl _ _ _ _ Hm Hr' L') as (? & ? & ? & ? & ?). by eapply do_distinct0.
  - intros n row r x Hn Hr L. destruct (Hl _ _ _ _ Hn Hr L) as (? & ? & ? & ? & ?).
    by eapply do_subnet0.
Qed.

(** After [mark_ended] a row is as it was or an Ended VM's. *)
Lemma mark_ended_rows f n e db db' r m row :
  mark_ended f n e db = (db', r) -> db_vms db' !! m = Some row ->
  db_vms db !! m = Some row \/ (m = n /\ is_ok r = true /\ exists row0, row = ended_row e row0).
Proof.
  unfold mark_ended. destruct f; intros [= <- <-]; [by left|]. cbn [set_vms db_vms].
  destruct (decide (m = n)) as [->|Hne]; [|rewrite lookup_alter_ne by done; by left].
  rewrite lookup_alter_eq. destruct (db_vms db !! n) as [row0|]; [|done]. intros [= <-]. right. eauto.
Qed.
Lemma mark_ended_db_ok sub alive f n e db db' r :
  mark_ended f n e db = (db', r) -> db_ok sub alive db -> db_ok sub alive db'.
Proof.
  intros Hm D. apply (db_ok_sub sub alive _ db); [| |done].
  - intros m row rec x Hrow Hrec L.
    destruct (mark_ended_rows _ _ _ _ _ _ _ _ Hm Hrow) as [?|(-> & _ & row0 & ->)]; [eauto|].
    apply row_record_ended_row in Hrec as [_ [? Hs]]. destruct L as (Hn & _). congruence.
  - intros m row rec Hrow Hrec Hs.
    destruct (mark_ended_rows _ _ _ _ _ _ _ _ Hm Hrow) as [?|(-> & _ & row0 & ->)];
      [by eapply (do_ended _ _ _ D)|]. by apply row_record_ended_row in Hrec as [? _].
Qed.

Section reconcile.
Context (alive : ProcessId -> bool) (sub : Subnet) (rs0 : list VmRecord) (db0 : Db).
Context (Hload : loaded db0 rs0) (Hdb0 : db_ok sub alive db0).

Let rname (r : VmRecord) : string := vi_name (rec_info r).

(** Part-way through the records, with [rest] to go. *)
Record looping (rest : list VmRecord) (a : Agent) : Prop := {
  lp_sub : ag_subnet a = sub;
  lp_reg : areg a [];
  lp_traf : traf a [] [];
  lp_nodup : NoDup (rname <$> rest);
  lp_rest : forall r, r ∈ rest -> r ∈ rs0;
  lp_new : forall r, r ∈ rest -> ag_vms a !! rname r = None;
  lp_rows : forall r, r ∈ rest -> db_vms (ag_db a) !! rname r = db_vms db0 !! rname r;
  lp_from : forall m e x, ag_vms a !! m = Some e -> entry_vm_address e = Some x ->
    exists r, r ∈ rs0 /\ rname r = m /\ live alive r x;
  lp_sups : forall t n v, ag_sups a !! t = Some (n, v) ->
    exists x p log, runs a n t x /\ v = adopt (ag_node a) x p log;
  lp_live : forall n row r x, db_vms (ag_db a) !! n = Some row -> row_record n row = Some r ->
    live alive r x -> n ∈ rname <$> rest \/ linked a n r x;
  lp_ok : db_ok sub alive (ag_db a);
  lp_adopted : forall n row r x p, db_vms db0 !! n = Some row -> row_record n row = Some r ->
    live alive r x -> rec_process r = Some p -> n ∈ rname <$> rest \/ adopted a n row r x p;
}.

(** Distinct names: the rest doesn't see what happens to this one. *)
Lemma rest_ne r rest r' : NoDup (rname <$> r :: rest) -> r' ∈ rest -> rname r' <> rname r.
Proof.
  rewrite fmap_cons, NoDup_cons. intros [Hn _] Hin Heq. apply Hn. rewrite <- Heq.
  apply list_elem_of_fmap. eauto.
Qed.

Lemma rest_in r rest n : n ∈ rname <$> r :: rest -> n <> rname r -> n ∈ rname <$> rest.
Proof. rewrite fmap_cons, elem_of_cons. by intros []. Qed.

(** An Ended VM's entry. *)
Lemma loop_ended r rest a info log db :
  looping (r :: rest) a -> ended_wf (rname r) info ->
  (forall m row, db_vms db !! m = Some row -> db_vms (ag_db a) !! m = Some row \/
     (m = rname r /\ exists e row0, row = ended_row e row0)) ->
  (forall m, m <> rname r -> db_vms db !! m = db_vms (ag_db a) !! m) ->
  (forall row rec x, db_vms db !! rname r = Some row -> row_record (rname r) row = Some rec ->
     ~ live alive rec x) ->
  (forall x, ~ live alive r x) ->
  looping rest (put_vm (rname r) (EndedVm info log) (set_ag_db db a)).
Proof.
  intros L Hwf Hdb Hsame Hdead Hnl. pose proof L as [].
  assert (Hnone : ag_vms a !! rname r = None) by (apply lp_new0; left).
  assert (Hruns : forall n t x, runs a n t x -> runs (put_vm (rname r) (EndedVm info log) (set_ag_db db a)) n t x).
  { intros n t x (i & l & Hn & Hx). exists i, l. split; [|done]. simpl.
    rewrite lookup_insert_ne; [done|]. intros <-. congruence. }
  split; try done.
  - simpl. apply (reg_alter _ (ag_vms a) [] (ag_sups a) (ag_next a) _ (Some (EndedVm info log))); try done.
    + by intros e x [= <-].
    + by intros e [= <-].
    + constructor.
    + intros t Hin. by apply not_elem_of_nil in Hin.
    + intros t. split; [|by intros (? & ? & ?)]. intros [v Hv].
      destruct (no_sup _ lp_reg0 _ _ _ Hv) as (? & ? & ?). congruence.
    + apply (rg_next _ _ _ _ _ lp_reg0).
  - eapply traf_same; [|exact lp_traf0]. by split_and!.
  - rewrite fmap_cons, NoDup_cons in lp_nodup0. tauto.
  - intros r' Hin. apply lp_rest0. by right.
  - intros r' Hin. simpl. rewrite lookup_insert_ne; [apply lp_new0; by right|].
    intros Heq. by apply (rest_ne r rest r' lp_nodup0 Hin).
  - intros r' Hin. simpl. rewrite Hsame by by apply (rest_ne r rest). apply lp_rows0. by right.
  - intros m e x. simpl. rewrite lookup_insert_Some. intros [[<- <-]|[_ Hm]]; [done|]. by apply lp_from0.
  - intros t n v Ht. destruct (lp_sups0 _ _ _ Ht) as (x & p & lg & Hr & ->). exists x, p, lg.
    split; [by apply Hruns|done].
  - simpl. intros n row rec x Hn Hrec Hl.
    destruct (decide (n = rname r)) as [->|Hne]; [by destruct (Hdead _ _ _ Hn Hrec Hl)|].
    rewrite Hsame in Hn by done. destruct (lp_live0 _ _ _ _ Hn Hrec Hl) as [Hin|(t & v & p & q & Hr & ?)].
    + left. by eapply rest_in.
    + right. exists t, v, p, q. split; [by apply Hruns|done].
  - simpl. apply (db_ok_sub sub alive _ (ag_db a)); [| |done].
    + intros m row rec x Hm Hrec Hl. destruct (Hdb _ _ Hm) as [?|(-> & ? & ? & ->)]; [eauto|].
      apply row_record_ended_row in Hrec as [_ [? Hs]]. destruct Hl as (Hn & _). congruence.
    + intros m row rec Hm Hrec Hs. destruct (Hdb _ _ Hm) as [?|(-> & ? & ? & ->)];
        [by eapply (do_ended _ _ _ lp_ok0)|]. by apply row_record_ended_row in Hrec as [? _].
  - intros n row rec x p Hn Hrec Hl Hp. destruct (decide (n = rname r)) as [->|Hne].
    + exfalso. pose proof Hload as (_ & _ & Hrow0 & _).
      destruct (Hrow0 r) as (row0 & Hrow & Hr0); [apply lp_rest0; left|]. unfold rname in Hn, Hrec.
      rewrite Hn in Hrow. injection Hrow as <-. rewrite Hrec in Hr0. injection Hr0 as <-. by apply (Hnl x).
    + destruct (lp_adopted0 _ _ _ _ _ Hn Hrec Hl Hp) as [Hin|(t & H1 & H2 & H3)].
      * left. by eapply rest_in.
      * right. exists t. split_and!; [simpl; by rewrite lookup_insert_ne|done|simpl; by rewrite Hsame].
Qed.

(** A running VM taken back. *)
Lemma adopt_reg r rest a now x v :
  looping (r :: rest) a -> live alive r x ->
  areg (start_supervising now (rec_info r) (rec_log r) v a) [].
Proof.
  intros [] Hl. pose proof Hl as (He & Hx & _).
  assert (Hnone : ag_vms a !! rname r = None) by (apply lp_new0; left).
  assert (Hr0 : r ∈ rs0) by (apply lp_rest0; left).
  pose proof Hload as (_ & _ & Hrow0 & _). destruct (Hrow0 r Hr0) as (row0 & Hrow & Hrec).
  assert (Hsub : x ∈ vm_addresses sub) by by eapply (do_subnet _ _ _ Hdb0).
  apply (reg_alter _ (ag_vms a) [] (ag_sups a) (ag_next a) _
    (Some (Running (rec_info r) (rec_log r) (ag_next a)))); try done.
  - intros e y [= <-] Hy. simpl in Hy. rewrite Hx in Hy. injection Hy as <-.
    split; [simpl; by rewrite lp_sub0|]. intros m e' Hm Hm' Ha'. destruct (lp_from0 _ _ _ Hm' Ha') as (r' & Hin & <- & Hl').
    apply Hm. destruct (Hrow0 r' Hin) as (row' & Hrow' & Hrec').
    by apply (do_distinct _ _ _ Hdb0 _ _ _ _ _ _ x Hrow' Hrow Hrec' Hrec).
  - intros e [= <-]. simpl. split_and!; [done|eauto|done].
  - constructor.
  - intros t Hin. by apply not_elem_of_nil in Hin.
  - intros t m Hm. destruct (decide (t = ag_next a)) as [->|Hne].
    + simpl. rewrite lookup_insert_eq. split; [intros [? [= <- _]]; done|]. intros [? Hv].
      apply (rg_next _ _ _ _ _ lp_reg0) in Hv. lia.
    + simpl. by rewrite lookup_insert_ne.
  - intros t. simpl. destruct (decide (t = ag_next a)) as [->|Hne].
    + rewrite lookup_insert_eq. split; eauto.
    + rewrite lookup_insert_ne by done. split; [|intros (? & ? & Heq); congruence].
      intros [? Hv]. destruct (no_sup _ lp_reg0 _ _ _ Hv) as (? & ? & ?). unfold rname in Hnone. congruence.
  - simpl. intros t y [[<- _]|[_ Ht]]%lookup_insert_Some; [lia|].
    apply (rg_next _ _ _ _ _ lp_reg0) in Ht. lia.
Qed.
Lemma loop_adopt r rest a now x p :
  looping (r :: rest) a -> vi_ended (rec_info r) = None -> vi_vm_address (rec_info r) = Some x ->
  rec_process r = Some p -> alive p = true ->
  looping rest (start_supervising now (rec_info r) (rec_log r) (adopt (ag_node a) x p (rec_log r)) a).
Proof.
  intros L He Hx Hp Ha. pose proof L as []. set (v := adopt _ _ _ _).
  assert (Hnone : ag_vms a !! rname r = None) by (apply lp_new0; left).
  assert (Hr0 : r ∈ rs0) by (apply lp_rest0; left).
  assert (Hlive : live alive r x) by (split_and!; eauto).
  pose proof Hload as (Hnd0 & _ & Hrow0 & _).
  destruct (Hrow0 r Hr0) as (row0 & Hrow & Hrec).
  assert (Hsub : x ∈ vm_addresses sub) by by eapply (do_subnet _ _ _ Hdb0).
  set (a' := start_supervising _ _ _ _ _).
  assert (Hnew : runs a' (rname r) (ag_next a) x).
  { exists (rec_info r), (rec_log r). split; [|done]. simpl. by rewrite lookup_insert_eq. }
  assert (Hruns : forall n t y, runs a n t y -> runs a' n t y).
  { intros n t y (i & l & Hn & Hy). exists i, l. split; [|done]. simpl.
    rewrite lookup_insert_ne; [done|]. intros <-. unfold rname in Hnone. congruence. }
  split; try done.
  - by eapply (adopt_reg r rest).
  - by apply start_supervising_traf.
  - rewrite fmap_cons, NoDup_cons in lp_nodup0. tauto.
  - intros r' Hin. apply lp_rest0. by right.
  - intros r' Hin. simpl. rewrite lookup_insert_ne; [apply lp_new0; by right|].
    intros Heq. by apply (rest_ne r rest r' lp_nodup0 Hin).
  - intros r' Hin. apply lp_rows0. by right.
  - intros m e y. simpl. rewrite lookup_insert_Some. intros [[<- <-]|[_ Hm]] Hy; [|by apply lp_from0 with e].
    simpl in Hy. rewrite Hx in Hy. injection Hy as <-. eauto.
  - intros t n w. simpl. rewrite lookup_insert_Some. intros [[<- [= <- <-]]|[_ Ht]].
    + exists x, p, (rec_log r). done.
    + destruct (lp_sups0 _ _ _ Ht) as (y & q & lg & Hr & ->). exists y, q, lg.
      split; [by apply Hruns|done].
  - simpl. intros n row rec y Hn Hrec' Hl. destruct (decide (n = rname r)) as [->|Hne].
    + right. rewrite (lp_rows0 r) in Hn by left. unfold rname in Hn. rewrite Hrow in Hn. injection Hn as <-.
      unfold rname in Hrec'. rewrite Hrec in Hrec'. injection Hrec' as <-.
      assert (y = x) as -> by (destruct Hl as (_ & Hy & _); congruence).
      exists (ag_next a), v, p, p. split_and!; try done. simpl. by rewrite lookup_insert_eq.
    + destruct (lp_live0 _ _ _ _ Hn Hrec' Hl) as [Hin|(t & w & p' & q & Hr & Ht & ?)].
      * left. by eapply rest_in.
      * right. exists t, w, p', q. split_and!; [by apply Hruns| |naive_solver..].
        simpl. rewrite lookup_insert_ne; [done|]. intros <-. apply (rg_next _ _ _ _ _ lp_reg0) in Ht. lia.
  - intros n row rec y q Hn Hrec' Hl Hq. destruct (decide (n = rname r)) as [->|Hne].
    + right. unfold rname in Hn, Hrec'. rewrite Hrow in Hn. injection Hn as <-.
      rewrite Hrec in Hrec'. injection Hrec' as <-.
      assert (y = x) as -> by (destruct Hl as (_ & Hy & _); congruence).
      assert (q = p) as -> by congruence. exists (ag_next a). simpl. rewrite !lookup_insert_eq.
      split_and!; try done. rewrite (lp_rows0 r) by left. exact Hrow.
    + destruct (lp_adopted0 _ _ _ _ _ Hn Hrec' Hl Hq) as [Hin|(t & H1 & H2 & H3)].
      * left. by eapply rest_in.
      * right. exists t. simpl. rewrite !lookup_insert_ne; [done| |done].
        intros <-. apply (rg_next _ _ _ _ _ lp_reg0) in H2. lia.
Qed.
End reconcile.

Lemma set_ag_db_same a : set_ag_db (ag_db a) a = a.
Proof. by destruct a. Qed.

Section reconcile_loop.
Context (alive : ProcessId -> bool) (sub : Subnet) (rs0 : list VmRecord) (db0 : Db).
Context (Hload : loaded db0 rs0) (Hdb0 : db_ok sub alive db0).

Lemma reconcile_record_loop f now r rest a a' res :
  looping alive sub rs0 db0 (r :: rest) a ->
  reconcile_record alive f now r a = (a', res) ->
  same_cfg a a' /\ ag_host a' = ag_host a /\ db_ok sub alive (ag_db a') /\
  (res = Ok tt -> looping alive sub rs0 db0 rest a').
Proof.
  intros L. pose proof (lp_ok _ _ _ _ _ _ L) as Hok.
  assert (Hr0 : r ∈ rs0) by (apply (lp_rest _ _ _ _ _ _ L); left).
  destruct Hload as (_ & _ & Hrow0 & _). destruct (Hrow0 r Hr0) as (row0 & Hrow & Hrec).
  assert (Hcur : db_vms (ag_db a) !! vi_name (rec_info r) = Some row0)
    by (rewrite (lp_rows _ _ _ _ _ _ L r) by left; exact Hrow).
  unfold reconcile_record. destruct (vi_ended (rec_info r)) as [e|] eqn:He.
  { intros [= <- <-]. split_and!; try done. intros _.
    rewrite <- (set_ag_db_same a) at 1. apply loop_ended; try done.
    - split_and!; [done| |rewrite He; eauto]. by eapply (do_ended _ _ _ Hdb0); eauto.
    - intros m row Hm. by left.
    - intros row rec x Hn Hr (Hno & _). rewrite Hcur in Hn. injection Hn as <-. congruence.
    - intros x (Hno & _). congruence. }
  destruct (vi_vm_address (rec_info r)) as [x|] eqn:Hx; [|by intros [= <- <-]].
  destruct (rec_process r) as [p|] eqn:Hp; [|by intros [= <- <-]].
  destruct (alive p) eqn:Ha.
  { intros [= <- <-]. split_and!; try done. intros _. by eapply loop_adopt. }
  destruct (mark_ended _ _ _ _) as [db [[]|em]] eqn:Hm; intros [= <- <-].
  - split_and!; try done; [by eapply mark_ended_db_ok|]. intros _. apply loop_ended; try done.
    + intros m row Hrow'. destruct (mark_ended_rows _ _ _ _ _ _ _ _ Hm Hrow') as [?|(-> & _ & ? & ->)];
        [by left|]. right. split; [done|]. eauto.
    + intros m Hne. unfold mark_ended in Hm. destruct f; [done|]. injection Hm as <-. simpl.
      by rewrite lookup_alter_ne.
    + intros row rec y Hn Hr (Hno & _ & q & Hq & Hal).
      destruct (mark_ended_rows _ _ _ _ _ _ _ _ Hm Hn) as [Hold|(_ & _ & ? & ->)].
      * rewrite Hcur in Hold. injection Hold as <-. rewrite Hrec in Hr. injection Hr as <-. congruence.
      * apply row_record_ended_row in Hr as [_ [? Hs]]. congruence.
    + intros y (_ & _ & q & Hq & Hal). congruence.
  - split_and!; try done. by eapply mark_ended_db_ok.
Qed.

Lemma reconcile_records_loop f now rs a a' res :
  looping alive sub rs0 db0 rs a -> reconcile_records alive f now rs a = (a', res) ->
  same_cfg a a' /\ ag_host a' = ag_host a /\ db_ok sub alive (ag_db a') /\
  (res = Ok tt -> looping alive sub rs0 db0 [] a').
Proof.
  revert a. induction rs as [|r rs IH]; intros a L; cbn [reconcile_records].
  { intros [= <- <-]. split_and!; try done. apply (lp_ok _ _ _ _ _ _ L). }
  destruct (reconcile_record _ _ _ _ _) as [a1 [[]|e]] eqn:E;
    destruct (reconcile_record_loop _ _ _ _ _ _ _ L E) as (Hc & Hh & Hok & Hl).
  - intros Hrest. destruct (IH a1 (Hl eq_refl) Hrest) as (Hc' & Hh' & Hok' & Hl').
    split_and!; [by etrans|congruence|done|done].
  - intros [= <- <-]. by split_and!.
Qed.
End reconcile_loop.

(** ** Sweeping *)

Lemma clean_up_frees busy node x h :
  busy <= CGROUP_POLL_ATTEMPTS -> id_free node x (clean_up (undo_ok busy) node x h).
Proof.
  intros Hb. rewrite (clean_up_spec busy node x h Hb).
  split; simpl; [apply lookup_delete_eq|set_solver|apply remove_tree_idemp|apply lookup_delete_eq].
Qed.

(** A process that is in no cgroup but its VM's. *)
Definition sole_cgroup (h : Host) (x : Ipv4Addr) (p : ProcessId) : Prop :=
  forall cg ps, ho_cgroups h !! cg = Some ps -> pr_pid p ∈ ps -> cg = cgroup_of (host_id x).
Lemma elem_of_held vms x :
  x ∈ held_addresses vms <-> exists n e, vms !! n = Some e /\ entry_vm_address e = Some x.
Proof.
  unfold held_addresses. rewrite list_elem_of_omap. split.
  - intros (e & [n Hn]%elem_of_values & Hx). eauto.
  - intros (n & e & Hn & Hx). exists e. split; [|done]. apply elem_of_values. eauto.
Qed.

(** Whatever its undos answer, a sweep starts nothing. *)
Lemma sweep_owner_calm u held sub node owner h : calm node h (sweep_owner u held sub node h owner).
Proof.
  unfold sweep_owner. destruct (vm_address_with_low16 sub owner); [|done].
  case_bool_decide; [done|apply calm_clean_up].
Qed.
Lemma sweep_calm u held sub node owners h : calm node h (foldl (sweep_owner u held sub node) h owners).
Proof.
  revert h. induction owners as [|o owners IH]; intros h; [done|]. simpl.
  etrans; [apply sweep_owner_calm|apply IH].
Qed.

Section sweep.
Context (busy : nat) (held : list Ipv4Addr) (sub : Subnet) (node : NodeConfig).
Context (Hbusy : busy <= CGROUP_POLL_ATTEMPTS) (Hsub : subnet_wf sub).

Lemma sweep_frees x owners h :
  x ∈ vm_addresses sub -> x ∉ held -> low16 x ∈ owners \/ id_free node x h ->
  id_free node x (foldl (sweep_owner (undo_ok busy) held sub node) h owners).
Proof.
  intros Hx Hh. revert h. induction owners as [|o owners IH]; intros h Hor; simpl.
  { destruct Hor as [Hn|]; [by apply not_elem_of_nil in Hn|done]. }
  apply IH. destruct Hor as [[<-|Hin]%elem_of_cons|F]; [right|by left|right].
  - unfold sweep_owner. assert (vm_address_with_low16 sub (low16 x) = Some x) as ->.
    { apply vm_address_with_low16_spec; [done|by apply N.mod_lt|done]. }
    rewrite bool_decide_false by done. by apply clean_up_frees.
  - eapply calm_free; [apply sweep_owner_calm|done].
Qed.
Lemma sweep_owner_keeps x p owner h :
  x ∈ held -> x ∈ vm_addresses sub -> is_running h p = true -> sole_cgroup h x p ->
  let h' := sweep_owner (undo_ok busy) held sub node h owner in
  is_running h' p = true /\ sole_cgroup h' x p.
Proof.
  intros Hh Hx Hr Hs. unfold sweep_owner. destruct (vm_address_with_low16 sub owner) as [y|] eqn:Hy; [|done].
  case_bool_decide as Hy'; [done|]. cbv zeta. rewrite clean_up_spec by done. split.
  - revert Hr. unfold is_running. rewrite !bool_decide_eq_true. cbn [ho_procs]. intros Hr.
    apply map_lookup_filter_Some. split; [done|]. simpl. intros Hin.
    destruct (ho_cgroups h !! cgroup_of (host_id y)) as [ps|] eqn:E; [|by apply not_elem_of_empty in Hin].
    simpl in Hin. pose proof (Hs _ _ E Hin) as Hid%cgroup_of_inj.
    apply (host_id_inj sub) in Hid; [by subst|done| |done].
    revert Hy. unfold vm_address_with_low16. case_match eqn:Hb; [|done]. intros [= <-].
    apply elem_of_vm_addresses. apply andb_true_iff in Hb as [?%N.leb_le ?%N.ltb_lt]. lia.
  - intros cg ps. cbn [ho_cgroups]. intros [_ Hl]%lookup_delete_Some Hin.
    apply lookup_fmap_Some in Hl as (ps0 & <- & Hl). apply (Hs _ _ Hl). set_solver.
Qed.
Lemma sweep_keeps x p owners h :
  x ∈ held -> x ∈ vm_addresses sub -> is_running h p = true -> sole_cgroup h x p ->
  is_running (foldl (sweep_owner (undo_ok busy) held sub node) h owners) p = true.
Proof.
  intros Hh Hx. revert h. induction owners as [|o owners IH]; intros h Hr Hs; [done|]. simpl.
  destruct (sweep_owner_keeps x p o h Hh Hx Hr Hs). by apply IH.
Qed.
End sweep.

Lemma sweep_host_state_frees busy a x :
  busy <= CGROUP_POLL_ATTEMPTS -> subnet_wf (ag_subnet a) -> x ∈ vm_addresses (ag_subnet a) ->
  x ∉ held_addresses (ag_vms a) ->
  id_free (ag_node a) x (ag_host (sweep_host_state (undo_ok busy) a)).
Proof.
  intros Hb Hs Hx Hh. simpl. apply sweep_frees; try done.
  destruct (decide (low16 x ∈ elements (host_state_owners (ag_node a) (ag_host a)))) as [?|Hn];
    [by left|right].
  apply id_free_iff. intros St. apply Hn, elem_of_elements. by apply owners_complete.
Qed.

(** ** The database and the registry *)

(** Every VM on record as running whose process is there is a running VM of
    the registry; an Ended VM's row names no VM address. *)
Record dlink (a : Agent) : Prop := {
  dl_live : forall n row r x, db_vms (ag_db a) !! n = Some row -> row_record n row = Some r ->
    live (is_running (ag_host a)) r x -> linked a n r x;
  dl_ended : forall n row r, db_vms (ag_db a) !! n = Some row -> row_record n row = Some r ->
    is_Some (vi_ended (rec_info r)) -> vi_vm_address (rec_info r) = None;
}.

Definition on_record (db : Db) (p : ProcessId) : Prop :=
  exists n row r, db_vms db !! n = Some row /\ row_record n row = Some r /\ rec_process r = Some p.
(** A process that starts isn't one on record. *)
Definition ids_fresh (db : Db) (h h' : Host) : Prop :=
  forall p, on_record db p -> is_running h' p = true -> is_running h p = true.

Lemma calm_running node h h' p : calm node h h' -> is_running h' p = true -> is_running h p = true.
Proof.
  intros C. unfold is_running. rewrite !bool_decide_eq_true. apply (cm_procs _ _ _ C).
Qed.
Lemma live_back db h h' n row r x :
  ids_fresh db h h' -> db_vms db !! n = Some row -> row_record n row = Some r ->
  live (is_running h') r x -> live (is_running h) r x.
Proof.
  intros Hf Hn Hr (He & Hx & p & Hp & Ha). split_and!; try done. exists p. split; [done|].
  apply Hf; [|done]. by exists n, row, r.
Qed.
Lemma calm_fresh node db h h' : calm node h h' -> ids_fresh db h h'.
Proof. intros C p _. by eapply calm_running. Qed.

(** The registry's live records have distinct VM addresses. *)
Lemma dlink_db_ok a tasks :
  areg a tasks -> dlink a -> db_ok (ag_subnet a) (is_running (ag_host a)) (ag_db a).
Proof.
  intros R []. split; [| |exact dl_ended0].
  - intros n m row row' r r' x Hn Hm Hr Hr' L L'.
    destruct (dl_live0 _ _ _ _ Hn Hr L) as (t & v & p & q & (i & l & Hv & Hx) & _).
    destruct (dl_live0 _ _ _ _ Hm Hr' L') as (t' & v' & p' & q' & (i' & l' & Hv' & Hx') & _).
    by apply (rg_addr _ _ _ _ _ R _ _ _ _ x Hv Hv').
  - intros n row r x Hn Hr L.
    destruct (dl_live0 _ _ _ _ Hn Hr L) as (t & v & p & q & (i & l & Hv & Hx) & _).
    by apply (rg_sub _ _ _ _ _ R _ _ _ Hv).
Qed.

(** Rows that stay, or become an Ended VM's. *)
Definition rows_from (db db' : Db) : Prop :=
  forall n row, db_vms db' !! n = Some row ->
    db_vms db !! n = Some row \/ exists e row0, row = ended_row e row0.
Lemma rows_from_same db db' : db_vms db' = db_vms db -> rows_from db db'.
Proof. intros He n row. rewrite He. by left. Qed.
Lemma rows_from_mark f n e db db' r : mark_ended f n e db = (db', r) -> rows_from db db'.
Proof.
  intros Hm m row Hrow. destruct (mark_ended_rows _ _ _ _ _ _ _ _ Hm Hrow) as [?|(_ & _ & ?)]; eauto.
Qed.
Lemma rows_from_ended db db' :
  rows_from db db' ->
  (forall n row r, db_vms db !! n = Some row -> row_record n row = Some r ->
     is_Some (vi_ended (rec_info r)) -> vi_vm_address (rec_info r) = None) ->
  forall n row r, db_vms db' !! n = Some row -> row_record n row = Some r ->
    is_Some (vi_ended (rec_info r)) -> vi_vm_address (rec_info r) = None.
Proof.
  intros Hf Hd n row r Hn Hr Hs. destruct (Hf _ _ Hn) as [?|(e & row0 & ->)]; [by eapply Hd|].
  by apply row_record_ended_row in Hr as [? _].
Qed.

(** The links of the names an event leaves alone. *)
Lemma dlink_keep a a' :
  rows_from (ag_db a) (ag_db a') -> ids_fresh (ag_db a) (ag_host a) (ag_host a') ->
  (forall n row r x, db_vms (ag_db a) !! n = Some row -> row_record n row = Some r ->
     live (is_running (ag_host a')) r x -> linked a n r x -> linked a' n r x) ->
  dlink a -> dlink a'.
Proof.
  intros Hf Hi Hk []. split; [|by eapply rows_from_ended].
  intros n row r x Hn Hr L. destruct (Hf _ _ Hn) as [Hn'|(e & row0 & ->)].
  - apply (Hk _ _ _ _ Hn' Hr L), (dl_live0 _ _ _ _ Hn' Hr). by eapply live_back.
  - apply row_record_ended_row in Hr as [_ [? Hs]]. destruct L as (He & _). congruence.
Qed.
(** Nothing starts or ends. *)
Definition same_runs (a a' : Agent) : Prop :=
  ag_sups a' = ag_sups a /\ forall n t x, runs a' n t x <-> runs a n t x.
Lemma same_runs_dlink a a' :
  same_runs a a' -> rows_from (ag_db a) (ag_db a') -> ids_fresh (ag_db a) (ag_host a) (ag_host a') ->
  dlink a -> dlink a'.
Proof.
  intros [Hs Hr] Hf Hi. apply dlink_keep; [done..|].
  intros n row r x _ _ _ (t & v & p & q & H1 & H2 & H3). exists t, v, p, q. rewrite Hr, Hs. done.
Qed.
Lemma quiet_dlink a a' : quiet a a' -> rows_from (ag_db a) (ag_db a') -> dlink a -> dlink a'.
Proof.
  intros (_ & Hs & Hr & C) Hf. apply same_runs_dlink; [by split|done|by eapply calm_fresh].
Qed.

Lemma remove_app_vms ports f name ms db : db_vms (remove_app ports f name ms db).1.2 = db_vms db.
Proof.
  unfold remove_app. destruct (find_first _ _); [|done]. unfold delete_machine_app.
  destruct f; [done|]. by destruct (start_tunnel _ _ _) as [ms1 r].
Qed.
Lemma add_app_vms ports ports' f req ms db : db_vms (add_app ports ports' f req ms db).1.2 = db_vms db.
Proof.
  unfold add_app. destruct (has_app _ _); [done|]. destruct (machine_app_with_host _ _); [done|].
  destruct (ms_entries ms !! _); [|done]. destruct (start_tunnel _ _ _) as [ms1 [m1|e]]; [|done].
  unfold insert_machine_app. destruct f; [by destruct (start_tunnel _ _ _)|].
  destruct (db_machine_apps db !! _); [by destruct (start_tunnel _ _ _)|done].
Qed.
Lemma mexec_vms ev ms db : db_vms (mexec (ms, db) ev).2 = db_vms db.
Proof.
  destruct ev; cbn [mexec]; try done.
  - apply add_app_vms.
  - apply remove_app_vms.
  - unfold machines_add. destruct (add_checks _ _ _) as [[[tg rec] pk]|e]; [|done].
    destruct (write_known_hosts _ _ _) as [ms1 [[]|e]]; [|done]. destruct (ao_login o); [done|].
    unfold insert_machine. destruct (ao_store o); [done|]. destruct (db_machines db !! _); [done|].
    by destruct (connect _ _ _ _ _) as [ms2 [[]|e]].
  - unfold machines_remove. destruct (ms_entries ms !! name); [|done]. case_bool_decide; [|done].
    unfold delete_machine. by destruct f.
Qed.

Section dsteps.
Context {a : Agent} {tasks : list Task}.
Context (Hsub : subnet_wf (ag_subnet a)) (R : areg a tasks) (D : dlink a).

Lemma dlink_started i t info log v p a' :
  tasks !! i = Some t -> vi_vm_address info = Some (task_address t) -> vm_process v = Some p ->
  ag_vms a' = <[task_name t := Running info log (ag_next a)]> (ag_vms a) ->
  ag_sups a' = <[ag_next a := (task_name t, v)]> (ag_sups a) ->
  db_vms (ag_db a') = <[task_name t := running_row info log p]> (db_vms (ag_db a)) ->
  ids_fresh (ag_db a) (ag_host a) (ag_host a') -> dlink a'.
Proof.
  intros Hi Hx Hp Hvms Hsups Hdb Hfresh.
  destruct (rg_task _ _ _ _ _ R t) as [Ht _]; [by eapply list_elem_of_lookup_2|].
  assert (Hb : (task_address t < 2 ^ 32)%N).
  { apply (vm_address_bound _ Hsub). by apply (rg_sub _ _ _ _ _ R _ _ _ Ht). }
  split.
  - intros n row r x. rewrite Hdb. intros [[<- <-]|[Hne Hn]]%lookup_insert_Some Hr L.
    + apply row_record_running_row in Hr as Hr'. destruct Hr' as [Ha He]. rewrite Hx in Ha. simpl in Ha.
      rewrite ipv4_parse_display in Ha by done. pose proof L as (_ & Hx' & q & Hq & _).
      assert (x = task_address t) as -> by congruence.
      exists (ag_next a), v, q, p. split_and!; try done.
      * exists info, log. by rewrite Hvms, lookup_insert_eq.
      * by rewrite Hsups, lookup_insert_eq.
      * apply (row_record_process _ _ _ _ Hr) in Hq. simpl in Hq. injection Hq as Hq. lia.
    + destruct (dl_live _ D _ _ _ _ Hn Hr (live_back _ _ _ _ _ _ _ Hfresh Hn Hr L))
        as (s & w & q & q' & (i' & l' & Hv & Hy) & Hs & Hq).
      exists s, w, q, q'. split_and!; try naive_solver.
      * exists i', l'. by rewrite Hvms, lookup_insert_ne.
      * rewrite Hsups, lookup_insert_ne; [done|]. intros <-. apply (rg_next _ _ _ _ _ R) in Hs. lia.
  - intros n row r. rewrite Hdb. intros [[<- <-]|[Hne Hn]]%lookup_insert_Some Hr Hs.
    + apply row_record_running_row in Hr as [_ He]. rewrite He in Hs. by apply is_Some_None in Hs.
    + by eapply (dl_ended _ D).
Qed.

(** A start or wake that failed runs nothing. *)
Lemma back_same_runs i t e a' :
  tasks !! i = Some t -> ag_sups a' = ag_sups a -> ag_vms a' = partial_alter (fun _ => e) (task_name t) (ag_vms a) ->
  match e with Some (Running _ _ _) => False | _ => True end -> same_runs a a'.
Proof.
  intros Hi Hs Hv He. destruct (rg_task _ _ _ _ _ R t) as [Ht _]; [by eapply list_elem_of_lookup_2|].
  split; [done|]. apply (runs_other _ _ (task_name t) e); [done|done|]. by rewrite Ht.
Qed.
Lemma forget_start_same_runs i t h db :
  tasks !! i = Some (TStart t) ->
  same_runs a (forget_start (stt_name t) (stt_replaced t) (sp_console_log (stt_spec t))
    (set_ag_host h (set_ag_db db a))).
Proof.
  intros Hi. apply (back_same_runs i (TStart t) ((fun r => EndedVm (rp_info r) (rp_log r)) <$> stt_replaced t)); try done.
  - simpl. destruct (stt_replaced t); simpl; [|done]. by rewrite insert_delete_eq.
  - by destruct (stt_replaced t).
Qed.

Lemma start_vm_dlink u i t o f now :
  tasks !! i = Some (TStart t) ->
  ids_fresh (ag_db a) (ag_host a) (ag_host (start_vm o u f now t a).1) ->
  dlink (start_vm o u f now t a).1.
Proof.
  intros Hi. unfold start_vm.
  destruct (vm_start o u (ag_node a) (stt_spec t) (ag_host a)) as [h [v|e]] eqn:Hs.
  2: { intros Hf. pose proof (forget_start_same_runs i t h (ag_db a) Hi) as Q.
       rewrite set_ag_db_same in Q. eapply same_runs_dlink; [exact Q|by apply rows_from_same|done|done]. }
  destruct (adopted_process _ _ _ _ (vm_start_adopted _ _ _ _ _ _ _ Hs)) as [p Hp].
  rewrite Hp. unfold insert_running. destruct f as [e|].
  - intros Hf. pose proof (forget_start_same_runs i t (vm_destroy u v h) (ag_db a) Hi) as Q.
    eapply same_runs_dlink; [exact Q|by apply rows_from_same|done|done].
  - cbn [fst]. set (info := started_info _ _ _ _ _ _).
    set (a1 := match vi_route info with Some _ => _ | None => _ end). intros Hfresh.
    assert (Hcfg : ag_vms a1 = ag_vms a /\ ag_sups a1 = ag_sups a /\ ag_next a1 = ag_next a /\
      db_vms (ag_db a1) = <[stt_name t := running_row info (sp_console_log (stt_spec t)) p]> (db_vms (ag_db a))).
    { unfold a1. destruct (stt_replaced t), (vi_route info); unfold get_certificate;
        repeat case_match; by split_and!. }
    destruct Hcfg as (Hvms & Hsups & Hnext & Hdb).
    apply (dlink_started i (TStart t) info (sp_console_log (stt_spec t)) v p); try done;
      simpl; by rewrite ?Hvms, ?Hsups, ?Hnext, ?Hdb.
Qed.

Lemma wake_task_dlink u i t o f f_mark now :
  tasks !! i = Some (TWake t) ->
  ids_fresh (ag_db a) (ag_host a) (ag_host (wake_task o u f f_mark now t a).1) ->
  dlink (wake_task o u f f_mark now t a).1.
Proof.
  intros Hi.
  enough (HH : ids_fresh (ag_db a) (ag_host a) (ag_host (finish_wake o u f f_mark now t a).1) ->
    dlink (finish_wake o u f f_mark now t a).1).
  { unfold wake_task. destruct (finish_wake _ _ _ _ _ _ _) as [a' [[r|e]|]]; [| |exact HH];
      intros Hf; destruct (HH Hf) as [Hl He]; (split; [exact Hl|exact He]). }
  unfold finish_wake.
  destruct (vm_wake o u (ag_node a) (wkt_spec t) (ag_host a)) as [h [v|e]] eqn:Hs.
  2: { intros Hf. apply (same_runs_dlink a); [|by apply rows_from_same|done|done].
       by apply (back_same_runs i (TWake t) (Some (EndedVm (rp_info (wkt_parked t)) (rp_log (wkt_parked t))))). }
  destruct (adopted_process _ _ _ _ (vm_wake_adopted _ _ _ _ _ _ _ Hs)) as [p Hp].
  rewrite Hp. unfold insert_running. destruct f as [e|].
  - destruct (mark_ended _ _ _ _) as [db' rm] eqn:Hm. cbn [fst]. intros Hf.
    apply (same_runs_dlink a); [|simpl; by eapply rows_from_mark|done|done].
    by apply (back_same_runs i (TWake t) (Some (EndedVm (ended_info (rp_info (wkt_parked t))
      (mkEnded now Forced)) (rp_log (wkt_parked t))))).
  - cbn [fst]. intros Hfresh.
    by apply (dlink_started i (TWake t) (started_info (wkt_name t) (ws_vm_address (wkt_spec t))
      (ws_mem_mib (wkt_spec t)) (ws_vcpus (wkt_spec t)) now (vi_route (rp_info (wkt_parked t))))
      (ws_console_log (wkt_spec t)) v p).
Qed.

(** Each supervisor knows its VMM and the process on record. *)
Definition sup_vms (a : Agent) : Prop :=
  forall t n v, ag_sups a !! t = Some (n, v) ->
    exists p vmm, vm_process v = Some p /\ vm_vmm v = Some vmm /\ vmm_pid vmm = pr_pid p.
Lemma supervisor_ends_dlink u env evs f now t :
  sup_vms a -> ids_fresh (ag_db a) (ag_host a) (ag_host (supervisor_ends env u evs f now t a).1) ->
  dlink (supervisor_ends env u evs f now t a).1.
Proof.
  intros H. unfold supervisor_ends. destruct (ag_sups a !! t) as [[n v]|] eqn:Ht; [|done].
  destruct (H _ _ _ Ht) as (p & vmm & Hp & Hv & Hpid). destruct (no_sup _ R _ _ _ Ht) as (i & l & Hn).
  unfold supervise. rewrite Hv.
  destruct (run_until_ended _ _ _ _ _) as [[h rs] [reason|]] eqn:He; [|done]. cbn [fst] in *.
  apply run_until_ended_spec in He as [Hdead _].
  unfold record_end. cbn [ag_vms set_ag_sups set_ag_host ag_db].
  rewrite Hn. destruct (mark_ended _ _ _ _) as [db r] eqn:Hm. intros Hfresh.
  apply (dlink_keep a); [simpl; by eapply rows_from_mark|done| |done].
  simpl. intros m row rec y Hrow Hrec (_ & _ & q0 & Hq0 & Hal) (s & w & q & q' & (i' & l' & Hm' & Hy) & Hs & Hw & Hq & Hqq).
  destruct (decide (m = n)) as [->|Hne].
  - exfalso. assert (s = t) as -> by congruence. assert (w = v) as -> by congruence.
    unfold is_running in Hal. apply bool_decide_eq_true in Hal.
    apply (cm_procs _ _ _ (calm_teardown (ag_node a) u v h)) in Hal.
    assert (pr_pid q0 = vmm_pid vmm) as Heq by congruence. rewrite Heq in Hal. congruence.
  - exists s, w, q, q'. split_and!; try done.
    + exists i', l'. split; [|done]. simpl. by rewrite lookup_insert_ne, lookup_delete_ne.
    + simpl. rewrite lookup_delete_ne; [done|]. intros <-. congruence.
Qed.
End dsteps.

Lemma hinv_sup_vms a : hinv a -> sup_vms a.
Proof. intros H t n v Ht. destruct (hv_sups _ H _ _ _ Ht) as (x & _ & p & vmm & ? & ? & ? & _). by exists p, vmm. Qed.

(** ** Every running VM is on record *)

(** The record of a running VM: its VM address, log and process. *)
Definition records (i : VmInfo) (l : string) (p : ProcessId) (n : string) (row : VmRow) : Prop :=
  (forall r, row_record n row = Some r ->
    vi_ended (rec_info r) = None /\ vi_vm_address (rec_info r) = vi_vm_address i /\ rec_log r = l /\
    exists q, rec_process r = Some q /\ (sql_time (pr_start_time p) -> q = p)) /\
  (running_wf i p -> row_record n row = Some {| rec_info := i; rec_log := l; rec_process := Some p |}).
Definition drec (a : Agent) : Prop :=
  forall n i l t v p, ag_vms a !! n = Some (Running i l t) -> ag_sups a !! t = Some (n, v) ->
    vm_process v = Some p -> exists row, db_vms (ag_db a) !! n = Some row /\ records i l p n row.

Lemma records_running_row n info log p :
  vi_name info = n -> (forall x, vi_vm_address info = Some x -> (x < 2 ^ 32)%N) ->
  records info log p n (running_row info log p).
Proof.
  intros <- Hb. split; [|apply row_record_running]. intros r Hr. apply row_record_running_row in Hr as Hr'. destruct Hr' as [Ha He].
  split; [done|]. split.
  { rewrite Ha. destruct (vi_vm_address info) as [x|]; [|done]. rsimpl. apply ipv4_parse_display. by apply Hb. }
  unfold row_record in Hr. apply bind_Some in Hr as (pid & Hpid & Hr).
  repeat (apply bind_Some in Hr as (? & _ & Hr)). injection Hr as <-. cbn [rec_log rec_process].
  split; [done|]. unfold running_row in *; cbn [row_pid row_pid_start] in *.
  unfold get_uint_opt, get_uint in Hpid. destruct (_ && _); [|done]. injection Hpid as <-.
  rewrite N2Z.id. cbn [opt_zip]. rsimpl. eexists. split; [done|]. intros Ht. rewrite from_to_sql by done.
  by destruct p.
Qed.

(** The names an event leaves running, on the rows it leaves alone. *)
Lemma drec_keep a a' :
  (forall n i l t v, ag_vms a' !! n = Some (Running i l t) -> ag_sups a' !! t = Some (n, v) ->
     ag_vms a !! n = Some (Running i l t) /\ ag_sups a !! t = Some (n, v) /\
     db_vms (ag_db a') !! n = db_vms (ag_db a) !! n) ->
  drec a -> drec a'.
Proof.
  intros Hk D n i l t v p Hn Ht Hp. destruct (Hk _ _ _ _ _ Hn Ht) as (Hn' & Ht' & ->). by eapply D.
Qed.

(** A database change to one name that isn't running. *)
Definition row_change (n : string) (db db' : Db) : Prop :=
  forall m, m <> n -> db_vms db' !! m = db_vms db !! m.
Lemma drec_put a a' n e :
  ag_vms a' = partial_alter (fun _ => e) n (ag_vms a) ->
  match e with Some (Running _ _ _) => False | _ => True end ->
  ag_sups a' ⊆ ag_sups a -> row_change n (ag_db a) (ag_db a') -> drec a -> drec a'.
Proof.
  intros Hv He Hs Hr. apply drec_keep. intros m i l t v. rewrite Hv.
  destruct (decide (m = n)) as [->|Hne].
  - rewrite lookup_partial_alter_eq. intros ->. done.
  - rewrite lookup_partial_alter_ne by done. intros Hm Ht. split_and!; [done| |by apply Hr].
    by eapply lookup_weaken.
Qed.
Lemma drec_same a a' :
  ag_vms a' = ag_vms a -> ag_sups a' = ag_sups a -> db_vms (ag_db a') = db_vms (ag_db a) ->
  drec a -> drec a'.
Proof. intros Hv Hs Hd. apply drec_keep. intros n i l t v. by rewrite Hv, Hs, Hd. Qed.
Lemma mark_ended_change f n e db : row_change n db (mark_ended f n e db).1.
Proof. intros m Hm. unfold mark_ended. destruct f; [done|]. simpl. by rewrite lookup_alter_ne. Qed.

Section rsteps.
Context {a : Agent} {tasks : list Task}.
Context (Hsub : subnet_wf (ag_subnet a)) (R : areg a tasks) (D : drec a).

Lemma drec_started i t info log v p a' :
  tasks !! i = Some t -> vi_name info = task_name t ->
  vi_vm_address info = Some (task_address t) -> vm_process v = Some p ->
  ag_vms a' = <[task_name t := Running info log (ag_next a)]> (ag_vms a) ->
  ag_sups a' = <[ag_next a := (task_name t, v)]> (ag_sups a) ->
  db_vms (ag_db a') = <[task_name t := running_row info log p]> (db_vms (ag_db a)) -> drec a'.
Proof.
  intros Hi Hname Hx Hp Hvms Hsups Hdb m i' l' t' v' p'. rewrite Hvms, Hsups, Hdb.
  destruct (rg_task _ _ _ _ _ R t) as [Ht _]; [by eapply list_elem_of_lookup_2|].
  intros [[<- [= <- <- <-]]|[Hne Hm]]%lookup_insert_Some.
  - rewrite !lookup_insert_eq. intros [= <-]. rewrite Hp. intros [= <-]. eexists. split; [done|].
    apply records_running_row; [done|]. intros x. rewrite Hx. intros [= <-].
    apply (vm_address_bound _ Hsub). by apply (rg_sub _ _ _ _ _ R _ _ _ Ht).
  - intros [[<- [= <- _]]|[_ Ht']]%lookup_insert_Some; [done|]. rewrite lookup_insert_ne by done. by eapply D.
Qed.

Lemma start_vm_drec i t o u f now :
  tasks !! i = Some (TStart t) -> drec (start_vm o u f now t a).1.
Proof.
  intros Hi. unfold start_vm. destruct (vm_start _ _ _ _ _) as [h [v|e]] eqn:Hs.
  2: { apply (drec_put a _ (stt_name t) ((fun r => EndedVm (rp_info r) (rp_log r)) <$> stt_replaced t));
         [|by destruct (stt_replaced t)|done|done|done].
       simpl. destruct (stt_replaced t); simpl; [|done]. by rewrite insert_delete_eq. }
  destruct (adopted_process _ _ _ _ (vm_start_adopted _ _ _ _ _ _ _ Hs)) as [p Hp].
  rewrite Hp. unfold insert_running. destruct f as [e|].
  - apply (drec_put a _ (stt_name t) ((fun r => EndedVm (rp_info r) (rp_log r)) <$> stt_replaced t));
      [|by destruct (stt_replaced t)|done|done|done].
    simpl. destruct (stt_replaced t); simpl; [|done]. by rewrite insert_delete_eq.
  - cbn [fst]. set (info := started_info _ _ _ _ _ _).
    apply (drec_started i (TStart t) info (sp_console_log (stt_spec t)) v p); try done;
      destruct (stt_replaced t), (vi_route info); unfold get_certificate; repeat case_match; done.
Qed.
Lemma wake_task_drec i t o u f f_mark now :
  tasks !! i = Some (TWake t) -> drec (wake_task o u f f_mark now t a).1.
Proof.
  intros Hi. enough (HH : drec (finish_wake o u f f_mark now t a).1).
  { unfold wake_task. destruct (finish_wake _ _ _ _ _ _ _) as [a' [[r|e]|]]; exact HH. }
  unfold finish_wake. destruct (vm_wake _ _ _ _ _) as [h [v|e]] eqn:Hs.
  2: { by apply (drec_put a _ (wkt_name t) (Some (EndedVm (rp_info (wkt_parked t)) (rp_log (wkt_parked t))))). }
  destruct (adopted_process _ _ _ _ (vm_wake_adopted _ _ _ _ _ _ _ Hs)) as [p Hp].
  rewrite Hp. unfold insert_running. destruct f as [e|].
  - pose proof (mark_ended_change f_mark (wkt_name t) (mkEnded now Forced) (ag_db a)) as Hc.
    destruct (mark_ended _ _ _ _) as [db' rm]. cbn [fst] in *.
    by apply (drec_put a _ (wkt_name t) (Some (EndedVm (ended_info (rp_info (wkt_parked t))
      (mkEnded now Forced)) (rp_log (wkt_parked t))))).
  - by apply (drec_started i (TWake t) (started_info (wkt_name t) (ws_vm_address (wkt_spec t))
      (ws_mem_mib (wkt_spec t)) (ws_vcpus (wkt_spec t)) now (vi_route (rp_info (wkt_parked t))))
      (ws_console_log (wkt_spec t)) v p).
Qed.
Lemma supervisor_ends_drec env u evs f now t : drec (supervisor_ends env u evs f now t a).1.
Proof.
  unfold supervisor_ends. destruct (ag_sups a !! t) as [[n v]|] eqn:Ht; [|done].
  destruct (supervise _ _ _ _ _) as [[h rs] [reason|]]; [|done]. cbn [fst].
  unfold record_end. cbn [ag_vms set_ag_sups set_ag_host ag_db].
  destruct (no_sup _ R _ _ _ Ht) as (i & l & Hn). rewrite Hn.
  pose proof (mark_ended_change f n (mkEnded now reason) (ag_db a)) as Hc.
  destruct (mark_ended _ _ _ _) as [db r]. cbn [fst] in Hc.
  apply (drec_put a _ n (Some (EndedVm (ended_info i (mkEnded now reason)) l))); try done.
  - simpl. by rewrite insert_delete_eq.
  - simpl. apply delete_subseteq.
Qed.
End rsteps.

(** ** Through every event *)

Definition undo_fine (u : UndoOutcome) : Prop :=
  exists busy, busy <= CGROUP_POLL_ATTEMPTS /\ u = undo_ok busy.

(** What the kernel, and the agent's own numbers, promise an event: fewer
    than 2^32 requests in flight, process identities and pids not given
    twice, teardown's commands working, and parks going where [park_send]
    says. *)
Definition ev_ok (s : Sys) (ev : SysEvent) : Prop :=
  let a := sy_agent s in
  (N.of_nat (length (sy_leases s)) < 2 ^ 32)%N /\
  ids_fresh (ag_db a) (ag_host a) (ag_host (sy_agent (sys_step ev s))) /\
  match ev with
  | SStarted _ o u _ _ => undo_fine u /\ spawn_fresh (ag_host a) (sf_host o)
  | SWoken _ o u _ _ _ => undo_fine u /\ spawn_fresh (ag_host a) (wf_host o)
  | SEnded t _ u evs _ _ => undo_fine u /\
      forall into o, EvStop (StopPark into o) ∈ evs ->
        exists n v, ag_sups a !! t = Some (n, v) /\ into = snapshot_of a n
  | _ => True
  end.

Record sinv (s : Sys) : Prop := {
  si_sub : subnet_wf (ag_subnet (sy_agent s));
  si_out : forall n, outside (ag_node (sy_agent s)) (snapshot_of (sy_agent s) n);
  si_reg : areg (sy_agent s) (sy_tasks s);
  si_traf : traf (sy_agent s) (sy_claims s) (sy_leases s);
  si_host : hinv (sy_agent s);
  si_db : dlink (sy_agent s);
  si_rec : drec (sy_agent s);
}.

Lemma sinv_cfg s s' :
  same_cfg (sy_agent s) (sy_agent s') -> sinv s ->
  areg (sy_agent s') (sy_tasks s') -> traf (sy_agent s') (sy_claims s') (sy_leases s') ->
  hinv (sy_agent s') -> dlink (sy_agent s') -> drec (sy_agent s') -> sinv s'.
Proof.
  intros (Hn & Hs & Hp & _) [] R T H D E. split; try done.
  - by rewrite Hs.
  - unfold snapshot_of. rewrite Hn, Hp. exact si_out0.
Qed.

(** An event of the quiet kind, whatever it does to tasks and claims. *)
Lemma sinv_quiet s s' :
  sinv s -> quiet (sy_agent s) (sy_agent s') ->
  rows_from (ag_db (sy_agent s)) (ag_db (sy_agent s')) ->
  areg (sy_agent s') (sy_tasks s') -> traf (sy_agent s') (sy_claims s') (sy_leases s') ->
  drec (sy_agent s') -> sinv s'.
Proof.
  intros I Q Hf R T E. apply (sinv_cfg s); try done; [apply Q| |].
  - by eapply quiet_hinv; [|apply (si_host _ I)].
  - by eapply quiet_dlink; [| |apply (si_db _ I)].
Qed.

(** Which events are quiet. *)
(** Removing deletes rows, and a Machine-backed App has none. *)
Lemma agent_remove_rows ports f_app f_dir f name a :
  rows_from (ag_db a) (ag_db (agent_remove ports f_app f_dir f name a).1).
Proof.
  unfold agent_remove.
  pose proof (remove_app_vms ports f_app name (ag_machines a) (ag_db a)) as Hv.
  destruct (remove_app _ _ _ _ _) as [[ms db] [[]|e]]; simpl in Hv |- *; try by apply rows_from_same.
  destruct (ag_vms a !! name) as [[| |info log]|]; try by apply rows_from_same.
  destruct (if is_parked info then f_dir else None); [by apply rows_from_same|].
  assert (Hdb : forall b : bool, ag_db (if b then set_ag_host (set_dirs (remove_tree
    (snapshot_of (set_ag_machines ms (set_ag_db db a)) name) (ho_dirs (ag_host a)))
    (ag_host a)) (set_ag_machines ms (set_ag_db db a))
    else set_ag_machines ms (set_ag_db db a)) = db) by by intros [].
  rewrite Hdb. unfold store_delete. destruct f; simpl; [by apply rows_from_same|].
  intros n row. simpl. intros [_ Hn]%lookup_delete_Some. left. by rewrite <- Hv.
Qed.
Lemma run_on_machine_rows ports ports' f req a :
  rows_from (ag_db a) (ag_db (run_on_machine ports ports' f req a).1).
Proof.
  unfold run_on_machine.
  destruct (_ ≫= _); [|by apply rows_from_same].
  pose proof (add_app_vms ports ports' f req (ag_machines a) (ag_db a)) as Hv.
  destruct (add_app _ _ _ _ _ _) as [[ms db] [info|e]]; simpl in Hv |- *; [|by apply rows_from_same].
  unfold get_certificate. destruct (_ && _); by apply rows_from_same.
Qed.

Lemma sys_step_quiet ev s :
  match ev with SStarted _ _ _ _ _ | SWoken _ _ _ _ _ _ | SEnded _ _ _ _ _ _ => False | _ => True end ->
  quiet (sy_agent s) (sy_agent (sys_step ev s)) /\
  rows_from (ag_db (sy_agent s)) (ag_db (sy_agent (sys_step ev s))).
Proof.
  intros Hev. assert (Hid : quiet (sy_agent s) (sy_agent s) /\
    rows_from (ag_db (sy_agent s)) (ag_db (sy_agent s))) by (split; [by split_and!|by apply rows_from_same]).
  assert (Ho : forall a', only_traffic (sy_agent s) a' -> quiet (sy_agent s) a' /\
    rows_from (ag_db (sy_agent s)) (ag_db a')).
  { intros a' Ho. split; [by apply only_traffic_quiet|]. destruct Ho as [m ->]. by apply rows_from_same. }
  destruct ev; try done; cbn [sys_step]; unfold on_agent.
  - pose proof (run_vm_quiet open run (sy_agent s)) as Q.
    assert (ag_db (run_vm open run (sy_agent s)).1 = ag_db (sy_agent s)) as Hd.
    { unfold run_vm. destruct (_ ≫= _) as [[guest file]|e]; [|done]. cbn [new_log_path].
      by destruct (reserve_checks _ _). }
    destruct (run_vm open run (sy_agent s)) as [a' [t|e]]; simpl in *;
      (split; [done|apply rows_from_same; by rewrite Hd]).
  - pose proof (wake_vm_quiet name (sy_agent s)) as Q.
    assert (ag_db (wake_vm name (sy_agent s)).1 = ag_db (sy_agent s)) as Hd
      by (unfold wake_vm; by destruct (_ ≫= _) as [[p x]|e]).
    destruct (wake_vm name (sy_agent s)) as [a' [t|e]]; simpl in *;
      (split; [done|apply rows_from_same; by rewrite Hd]).
  - unfold claim_park. destruct (ag_vms (sy_agent s) !! name) as [[]|]; try done.
    destruct (claim_take _ _) as [a'|] eqn:E; [|done]. apply Ho. by eapply claim_take_only.
  - pose proof (claim_idle_only now (entries_of (ag_vms (sy_agent s))) (sy_agent s)) as Hc.
    unfold idle_tick. destruct (claim_idle _ _ _) as [a' c]. by apply Ho.
  - destruct (sy_claims s !! i) as [[t idle]|]; [|done]. apply Ho. unfold park_done, claim_drop.
    destruct (_ && _); by eexists.
  - pose proof (step_for_only host (sy_agent s)) as Hc.
    destruct (step_for host (sy_agent s)) as [a' st]. apply Ho in Hc. repeat case_match; done.
  - destruct (sy_leases s !! i) as [t|]; [|done]. apply Ho. by eexists.
  - split; [apply agent_remove_quiet|apply agent_remove_rows].
  - split; [apply run_on_machine_quiet|apply run_on_machine_rows].
  - pose proof (mexec_vms ev (ag_machines (sy_agent s)) (ag_db (sy_agent s))) as Hv.
    destruct (mexec _ _) as [ms db]. split; [by split_and!|]. by apply rows_from_same.
  - split; [apply renew_tick_quiet|]. cbn [sy_agent].
    destruct (renew_tick_shape (sy_agent s)) as [m ->]. by apply rows_from_same.
  - destruct (_ && _); [|done]. split; [|by apply rows_from_same]. split_and!; try done. simpl.
    etrans; [|apply calm_remove_empty_cgroup]. etrans; [apply calm_remove_empty_dir|].
    etrans; apply calm_remove_empty_dir.
Qed.

Lemma sys_step_drec ev s :
  match ev with SStarted _ _ _ _ _ | SWoken _ _ _ _ _ _ | SEnded _ _ _ _ _ _ => False | _ => True end ->
  drec (sy_agent s) -> drec (sy_agent (sys_step ev s)).
Proof.
  intros Hev D. assert (Ho : forall a', only_traffic (sy_agent s) a' -> drec a').
  { intros a' [m ->]. by apply (drec_same (sy_agent s)). }
  destruct ev; try done; cbn [sys_step]; unfold on_agent.
  - unfold run_vm. destruct (_ ≫= _) as [[guest file]|e]; [|done]. cbn [new_log_path].
    destruct (reserve_checks _ _) as [x|e]; [|done].
    by apply (drec_put (sy_agent s) _ (rq_name run) (Some (Starting x (path_join (ag_logs_dir (sy_agent s))
      (log_file_name (rq_name run) (ag_next_log (sy_agent s)))) (rq_route run)))).
  - unfold wake_vm. destruct (_ ≫= _) as [[p x]|e]; [|done].
    by apply (drec_put (sy_agent s) _ name (Some (Starting x (rp_log p) (vi_route (rp_info p))))).
  - unfold claim_park. destruct (ag_vms (sy_agent s) !! name) as [[]|]; try done.
    destruct (claim_take _ _) as [a'|] eqn:E; [|done]. apply Ho. by eapply claim_take_only.
  - pose proof (claim_idle_only now (entries_of (ag_vms (sy_agent s))) (sy_agent s)) as Hc.
    unfold idle_tick. destruct (claim_idle _ _ _) as [a' c]. by apply Ho.
  - destruct (sy_claims s !! i) as [[t idle]|]; [|done]. apply Ho. unfold park_done, claim_drop.
    destruct (_ && _); by eexists.
  - pose proof (step_for_only host (sy_agent s)) as Hc.
    destruct (step_for host (sy_agent s)) as [a' st]. apply Ho in Hc. repeat case_match; done.
  - destruct (sy_leases s !! i) as [t|]; [|done]. apply Ho. by eexists.
  - cbn [sy_agent]. unfold agent_remove.
    pose proof (remove_app_vms ports f_app name (ag_machines (sy_agent s)) (ag_db (sy_agent s))) as Hv.
    destruct (remove_app _ _ _ _ _) as [[ms db] [[]|e]]; simpl in Hv |- *;
      try by apply (drec_same (sy_agent s)).
    destruct (ag_vms (sy_agent s) !! name) as [[| |info log]|] eqn:Hn; try by apply (drec_same (sy_agent s)).
    destruct (if is_parked info then f_dir else None); [by apply (drec_same (sy_agent s))|].
    unfold store_delete. destruct f; [by destruct (is_parked info); apply (drec_same (sy_agent s))|].
    destruct (is_parked info); (apply (drec_put (sy_agent s) _ name None); try done);
      intros m Hm; simpl; rewrite lookup_delete_ne by done; by rewrite Hv.
  - cbn [sy_agent]. unfold run_on_machine. destruct (_ ≫= _); [|done].
    pose proof (add_app_vms ports ports' f req (ag_machines (sy_agent s)) (ag_db (sy_agent s))) as Hv.
    destruct (add_app _ _ _ _ _ _) as [[ms db] [info|e]]; simpl in Hv |- *;
      [|by apply (drec_same (sy_agent s))].
    unfold get_certificate. destruct (_ && _); by apply (drec_same (sy_agent s)).
  - pose proof (mexec_vms ev (ag_machines (sy_agent s)) (ag_db (sy_agent s))) as Hv.
    destruct (mexec _ _) as [ms db]. by apply (drec_same (sy_agent s)).
  - cbn [sy_agent]. destruct (renew_tick_shape (sy_agent s)) as [m ->]. by apply (drec_same (sy_agent s)).
  - destruct (_ && _); [|done]. by apply (drec_same (sy_agent s)).
Qed.

Lemma sys_step_sinv ev s :
  ev_ok s ev -> sinv s -> sinv (sys_step ev s) /\ same_cfg (sy_agent s) (sy_agent (sys_step ev s)).
Proof.
  intros (Hlen & Hfresh & Hok) I. pose proof I as [].
  pose proof (sys_step_reg ev s si_reg0) as R.
  pose proof (sys_step_traf ev s Hlen si_reg0 si_traf0) as T.
  assert (Hquiet : match ev with SStarted _ _ _ _ _ | SWoken _ _ _ _ _ _ | SEnded _ _ _ _ _ _ => False
                   | _ => True end ->
    sinv (sys_step ev s) /\ same_cfg (sy_agent s) (sy_agent (sys_step ev s))).
  { intros Hev. destruct (sys_step_quiet ev s Hev) as [Q Hf].
    split; [|apply Q]. apply (sinv_quiet s); try done. by apply sys_step_drec. }
  destruct ev; try (by apply Hquiet); cbn [sys_step] in *; unfold on_agent in *.
  - destruct (sy_tasks s !! i) as [[t|t]|] eqn:Hi; [|done|done].
    destruct Hok as [(busy & Hb & ->) Hspawn].
    destruct (start_vm_hinv busy si_sub0 si_reg0 si_host0 Hb i t o f now Hi Hspawn) as [H C].
    split; [|done]. apply (sinv_cfg s); try done; [by apply (start_vm_dlink si_sub0 si_reg0 si_db0 _ i)|by eapply start_vm_drec].
  - destruct (sy_tasks s !! i) as [[t|t]|] eqn:Hi; [done| |done].
    destruct Hok as [(busy & Hb & ->) Hspawn].
    destruct (wake_task_hinv busy si_sub0 si_reg0 si_host0 Hb i t o f f_mark now Hi Hspawn) as [H C].
    split; [|done]. apply (sinv_cfg s); try done; [by apply (wake_task_dlink si_sub0 si_reg0 si_db0 _ i)|by eapply wake_task_drec].
  - destruct Hok as [(busy & Hb & ->) Hparks].
    assert (Hout : forall n v, ag_sups (sy_agent s) !! t = Some (n, v) ->
      parks_outside (ag_node (sy_agent s)) evs).
    { intros n v _ into o Hin. destruct (Hparks _ _ Hin) as (n' & v' & _ & ->). apply si_out0. }
    destruct (supervisor_ends_hinv busy si_host0 Hb env evs f now t Hout) as [H C].
    split; [|done]. apply (sinv_cfg s); try done; [by apply (supervisor_ends_dlink si_reg0); [|apply hinv_sup_vms|]|by eapply supervisor_ends_drec].
Qed.

(** ** Whatever fails

    The registry, its supervisors and the database need nothing of teardown,
    of the pids new VMMs get, or of where parks go: only that a process
    identity on record isn't given again. *)
Record rinv (s : Sys) : Prop := {
  ri_sub : subnet_wf (ag_subnet (sy_agent s));
  ri_reg : areg (sy_agent s) (sy_tasks s);
  ri_sups : sup_vms (sy_agent s);
  ri_db : dlink (sy_agent s);
}.

Lemma like_adopted_vmm node x log v :
  like_adopted node x log v -> exists p vmm, vm_process v = Some p /\ vm_vmm v = Some vmm /\ vmm_pid vmm = pr_pid p.
Proof. intros (pid & st & Hv & Hp & _). by exists (mkProcessId pid st), (Child pid). Qed.
Lemma sup_vms_insert a a' t n v :
  (exists p vmm, vm_process v = Some p /\ vm_vmm v = Some vmm /\ vmm_pid vmm = pr_pid p) ->
  ag_sups a' = <[t := (n, v)]> (ag_sups a) -> sup_vms a -> sup_vms a'.
Proof. intros Hv Hs S t' n' v'. rewrite Hs. intros [[_ [= _ <-]]|[_ Ht]]%lookup_insert_Some; [done|by eapply S]. Qed.

Lemma start_vm_sups o u f now t a :
  sup_vms a -> sup_vms (start_vm o u f now t a).1 /\ same_cfg a (start_vm o u f now t a).1.
Proof.
  intros S. unfold start_vm. destruct (vm_start _ _ _ _ _) as [h [v|e]] eqn:Hs; [|by split].
  pose proof (vm_start_adopted _ _ _ _ _ _ _ Hs) as Had. destruct (adopted_process _ _ _ _ Had) as [p ->].
  apply like_adopted_vmm in Had. destruct (insert_running _ _ _ _ _) as [db [[]|e]]; [|by split].
  cbn [fst]. set (info := started_info _ _ _ _ _ _). set (a1 := match vi_route info with Some _ => _ | None => _ end).
  assert (Hcfg : same_cfg a a1 /\ ag_sups a1 = ag_sups a).
  { unfold a1. destruct (stt_replaced t), (vi_route info); unfold get_certificate; repeat case_match; by split_and!. }
  destruct Hcfg as [Hcfg Hsups]. split; [|exact Hcfg]. eapply (sup_vms_insert a); [done| |done].
  simpl. by rewrite Hsups.
Qed.
Lemma wake_task_sups o u f f_mark now t a :
  sup_vms a -> sup_vms (wake_task o u f f_mark now t a).1 /\ same_cfg a (wake_task o u f f_mark now t a).1.
Proof.
  intros S. enough (HH : sup_vms (finish_wake o u f f_mark now t a).1 /\ same_cfg a (finish_wake o u f f_mark now t a).1).
  { unfold wake_task. by destruct (finish_wake _ _ _ _ _ _ _) as [a' [[r|e]|]]. }
  unfold finish_wake. destruct (vm_wake _ _ _ _ _) as [h [v|e]] eqn:Hs; [|by split].
  pose proof (vm_wake_adopted _ _ _ _ _ _ _ Hs) as Had. destruct (adopted_process _ _ _ _ Had) as [p ->].
  apply like_adopted_vmm in Had. destruct (insert_running _ _ _ _ _) as [db [[]|e]].
  - split; [|done]. by eapply (sup_vms_insert a).
  - destruct (mark_ended _ _ _ _) as [db' rm]. by split.
Qed.
Lemma supervisor_ends_sups env u evs f now t a :
  sup_vms a -> sup_vms (supervisor_ends env u evs f now t a).1 /\ same_cfg a (supervisor_ends env u evs f now t a).1.
Proof.
  intros S. unfold supervisor_ends. destruct (ag_sups a !! t) as [[n v]|]; [|by split].
  destruct (supervise _ _ _ _ _) as [[h rs] [reason|]]; [|by split]. cbn [fst].
  unfold record_end. cbn [ag_vms set_ag_sups set_ag_host ag_db].
  assert (Hd : forall t' n' v', delete t (ag_sups a) !! t' = Some (n', v') -> exists p vmm,
    vm_process v' = Some p /\ vm_vmm v' = Some vmm /\ vmm_pid vmm = pr_pid p)
    by (intros t' n' v' [_ Ht]%lookup_delete_Some; by eapply S).
  destruct (ag_vms a !! n) as [[| |]|]; try destruct (mark_ended _ _ _ _) as [db r]; by split.
Qed.

Lemma sys_step_rinv ev s :
  ids_fresh (ag_db (sy_agent s)) (ag_host (sy_agent s)) (ag_host (sy_agent (sys_step ev s))) ->
  rinv s -> rinv (sys_step ev s) /\ same_cfg (sy_agent s) (sy_agent (sys_step ev s)).
Proof.
  intros Hfresh []. pose proof (sys_step_reg ev s ri_reg0) as R.
  assert (Hall : sup_vms (sy_agent (sys_step ev s)) /\ same_cfg (sy_agent s) (sy_agent (sys_step ev s)) ->
    dlink (sy_agent (sys_step ev s)) ->
    rinv (sys_step ev s) /\ same_cfg (sy_agent s) (sy_agent (sys_step ev s))).
  { intros [S C] D. split; [|exact C]. split; try done. destruct C as (_ & -> & _). done. }
  assert (Hid : sup_vms (sy_agent s) /\ same_cfg (sy_agent s) (sy_agent s)) by done.
  destruct ev; try (match goal with |- rinv (sys_step ?ev s) /\ _ =>
      destruct (sys_step_quiet ev s ltac:(exact I)) as [Q Hf] end;
    apply Hall; [split; [|apply Q]; destruct Q as (_ & Hs & _); unfold sup_vms; by rewrite Hs|
      by eapply quiet_dlink]).
  - cbn [sys_step] in *. unfold on_agent in *. destruct (sy_tasks s !! i) as [[t|t]|] eqn:Hi;
      apply Hall; try done; [apply start_vm_sups, ri_sups0|by apply (start_vm_dlink ri_sub0 ri_reg0 ri_db0 _ i)].
  - cbn [sys_step] in *. unfold on_agent in *. destruct (sy_tasks s !! i) as [[t|t]|] eqn:Hi;
      apply Hall; try done; [apply wake_task_sups, ri_sups0|by apply (wake_task_dlink ri_sub0 ri_reg0 ri_db0 _ i)].
  - cbn [sys_step] in *. unfold on_agent in *. apply Hall; [apply supervisor_ends_sups, ri_sups0|].
    by apply (supervisor_ends_dlink ri_reg0).
Qed.

(** ** Starting again *)

Lemma running_calm_db_ok node sub h h' db :
  calm node h h' -> db_ok sub (is_running h) db -> db_ok sub (is_running h') db.
Proof.
  intros C D. apply (db_ok_sub sub (is_running h) _ db); [| |done].
  - intros n row r x Hn Hr (He & Hx & p & Hp & Ha). exists row, r.
    split; [done|]. split; [done|]. split; [done|]. split; [done|]. exists p. split; [done|].
    by eapply calm_running.
  - apply (do_ended _ _ _ D).
Qed.

Section boot.
Context (sd fc jl kn : string) (gid : N) (sub : Subnet) (ca : option string) (acme : bool).
Context (Hsub : subnet_wf sub).

(** The file names in the logs directory. *)
Definition logs_in (h : Host) : list string :=
  omap (strip_prefix (path_join sd "logs" +:+ "/")) (map_to_list (ho_logs h)).*1.
Definition boot_agent (db : Db) (h : Host) : Agent :=
  agent_new sd fc jl kn gid sub ca acme (logs_in h) db h.

Lemma boot_looping db rs h host' :
  loaded db rs -> db_ok sub (is_running h) db ->
  looping (is_running h) sub rs db rs (set_ag_host host' (boot_agent db h)).
Proof.
  intros Hl D. split; try done.
  - apply (agent_new_reg sd fc jl kn gid sub ca acme (logs_in h) db h).
  - split; simpl; try done; try (intros t Hin; by apply not_elem_of_nil in Hin).
    + intros t. split; [intros Hin; by apply not_elem_of_nil in Hin|by intros (? & ? & _)].
    + constructor.
  - apply Hl.
  - intros n row r x Hn Hr _. left. destruct Hl as (_ & Hin & _).
    apply list_elem_of_fmap. exists r. split; [|by eapply Hin]. symmetry. by eapply row_record_name.
  - intros n row r x p Hn Hr _ _. left. destruct Hl as (_ & Hin & _).
    apply list_elem_of_fmap. exists r. split; [|by eapply Hin]. symmetry. by eapply row_record_name.
Qed.

Lemma snapshots_outside db h n : outside (ag_node (boot_agent db h)) (snapshot_of (boot_agent db h) n).
Proof.
  intros y. unfold snapshot_of, boot_agent, agent_new. cbn [ag_parked_dir ag_node].
  unfold jail_dir. cbn [nc_jail_base]. unfold jail_base.
  apply not_true_is_false. unfold under. rewrite orb_true_iff. intros Hu.
  assert (exists r, path_join (path_join sd "parked") n =
    path_join (path_join (path_join sd "jail") "firecracker") (host_id y) +:+ r) as [r Hr].
  { destruct Hu as [Heq|[r Hr]%starts_with_true].
    - apply bool_decide_eq_true in Heq. exists "". by rewrite Heq, str_app_nil_r.
    - exists ("/" +:+ r). by rewrite Hr, str_app_assoc. }
  unfold path_join in Hr. destruct sd as [|c s]; cbn [is_empty String.append] in Hr; [discriminate Hr|].
  injection Hr as Hr. rewrite !str_app_assoc in Hr. apply (inj _) in Hr. discriminate Hr.
Qed.

(** Once every record is through and what nobody owns is swept, the registry
    is as it always is, whatever the sweep's undos answered. *)
Lemma swept_rinv u rs db h a2 :
  is_running (ag_host a2) = is_running h -> looping (is_running h) sub rs db [] a2 ->
  rinv (sys_new (sweep_host_state u a2)).
Proof.
  intros Hrun Hl. assert (Hsub2 : ag_subnet a2 = sub) by apply (lp_sub _ _ _ _ _ _ Hl).
  pose proof (sweep_calm u (held_addresses (ag_vms a2)) (ag_subnet a2) (ag_node a2)
    (elements (host_state_owners (ag_node a2) (ag_host a2))) (ag_host a2)) as C3.
  change (foldl _ _ _) with (ag_host (sweep_host_state u a2)) in C3.
  split; cbn [sy_agent sy_tasks sys_new].
  - simpl. by rewrite Hsub2.
  - apply (lp_reg _ _ _ _ _ _ Hl).
  - intros t n v Ht. destruct (lp_sups _ _ _ _ _ _ Hl _ _ _ Ht) as (x & p & log & Hr & ->).
    by exists p, (Adopted p (cgroup_of (host_id x))).
  - split; [|apply (do_ended _ _ _ (lp_ok _ _ _ _ _ _ Hl))]. intros n row rec x Hn Hrec Hlv.
    assert (Hlv' : live (is_running h) rec x).
    { destruct Hlv as (He & Hx & p & Hp & Ha). split_and!; try done. exists p. split; [done|].
      rewrite <- Hrun. by eapply calm_running. }
    destruct (lp_live _ _ _ _ _ _ Hl _ _ _ _ Hn Hrec Hlv') as [Hin|Hk]; [|done].
    by apply not_elem_of_nil in Hin.
Qed.
Lemma swept_sinv busy rs db h a2 :
  loaded db rs -> same_cfg (boot_agent db h) a2 -> is_running (ag_host a2) = is_running h ->
  looping (is_running h) sub rs db [] a2 ->
  busy <= CGROUP_POLL_ATTEMPTS ->
  sinv (sys_new (sweep_host_state (undo_ok busy) a2)).
Proof.
  intros El Hc Hrun Hl Hb. assert (Hsub2 : ag_subnet a2 = sub) by apply (lp_sub _ _ _ _ _ _ Hl).
  split; cbn [sy_agent sy_tasks sy_claims sy_leases sys_new].
  - simpl. by rewrite Hsub2.
  - destruct Hc as (Hn & _ & Hp & _). intros n. unfold snapshot_of. simpl. rewrite Hn, Hp.
    apply (snapshots_outside db h n).
  - apply (lp_reg _ _ _ _ _ _ Hl).
  - eapply traf_same; [|apply (lp_traf _ _ _ _ _ _ Hl)]. by split_and!.
  - split.
    + intros x Hx Hno. simpl in Hx. apply (sweep_host_state_frees busy a2 x); try done; [by rewrite Hsub2|].
      intros (n & e & Hn & Ha)%elem_of_held. destruct e as [y l rt|i l t|i l]; [| |done].
      * apply (rg_starting _ _ _ _ _ (lp_reg _ _ _ _ _ _ Hl)) in Hn. by apply not_elem_of_nil in Hn.
      * apply (Hno n t). exists i, l. done.
    + intros t n v Ht. destruct (lp_sups _ _ _ _ _ _ Hl _ _ _ Ht) as (x & p & log & Hr & ->).
      exists x. split; [done|]. exists p, (Adopted p (cgroup_of (host_id x))). split_and!; try done.
      right. done.
  - apply (ri_db _ (swept_rinv (undo_ok busy) rs db h a2 Hrun Hl)).
  - intros n i l t v p Hn Ht Hp. simpl in Hn, Ht.
    destruct (rg_wf _ _ _ _ _ (lp_reg _ _ _ _ _ _ Hl) _ _ Hn) as (_ & [x Hx] & _).
    destruct (lp_from _ _ _ _ _ _ Hl _ _ _ Hn Hx) as (rec & Hin & Hname & Hlv).
    destruct El as (_ & _ & Hrow & _). destruct (Hrow rec Hin) as (row & Hr1 & Hr2).
    rewrite Hname in Hr1, Hr2. pose proof Hlv as (He & _ & q & Hq & _).
    destruct (lp_adopted _ _ _ _ _ _ Hl _ _ _ _ _ Hr1 Hr2 Hlv Hq) as [Hno|(t' & H1 & H2 & H3)];
      [by apply not_elem_of_nil in Hno|].
    rewrite Hn in H1. injection H1 as -> -> ->. rewrite Ht in H2. injection H2 as ->.
    injection Hp as <-. exists row. split; [done|]. split.
    + intros rec' Hrec'. assert (rec' = rec) as -> by congruence. split_and!; try done. exists q. done.
    + intros _. rewrite Hr2. destruct rec. simpl in *. by subst.
Qed.
(** And the VMs that live are taken back, alive. *)
Lemma swept_adopted busy rs db h a2 n row rec x p :
  db_ok sub (is_running h) db -> is_running (ag_host a2) = is_running h ->
  (sole_cgroup h x p -> sole_cgroup (ag_host a2) x p) -> looping (is_running h) sub rs db [] a2 ->
  busy <= CGROUP_POLL_ATTEMPTS ->
  db_vms db !! n = Some row -> row_record n row = Some rec -> live (is_running h) rec x -> rec_process rec = Some p ->
  adopted (sweep_host_state (undo_ok busy) a2) n row rec x p /\
  (sole_cgroup h x p -> is_running (ag_host (sweep_host_state (undo_ok busy) a2)) p = true).
Proof.
  intros D Hrun Hcg Hl Hb Hn Hrec Hlv Hp. assert (Hsub2 : ag_subnet a2 = sub) by apply (lp_sub _ _ _ _ _ _ Hl).
  destruct (lp_adopted _ _ _ _ _ _ Hl _ _ _ _ _ Hn Hrec Hlv Hp) as [Hno|Had];
    [by apply not_elem_of_nil in Hno|]. split; [exact Had|]. intros Hsole.
  destruct Had as (t & Ht & _). pose proof Hlv as (_ & Hx & q & Hq & Ha).
  rewrite Hp in Hq. injection Hq as <-.
  cbn [ag_host sweep_host_state set_ag_host]. rewrite Hsub2.
  apply (sweep_keeps busy (held_addresses (ag_vms a2)) sub (ag_node a2) Hb Hsub x p).
  - apply elem_of_held. by do 2 eexists.
  - by eapply (do_subnet _ _ _ D).
  - by rewrite Hrun.
  - by apply Hcg.
Qed.

(** [reconcile], opened up: it fails, with the database's live VMs as they
    were, or every record is through and the sweep comes. *)
Lemma reconcile_swept o now db h a' r :
  db_ok sub (is_running h) db -> reconcile o now (boot_agent db h) = (a', r) ->
  same_cfg (boot_agent db h) a' /\ db_ok sub (is_running (ag_host a')) (ag_db a') /\
  (r = Ok tt -> exists rs a2, loaded db rs /\ a' = sweep_host_state (ro_undo o) a2 /\
     same_cfg (boot_agent db h) a2 /\ is_running (ag_host a2) = is_running h /\
     (forall x p, sole_cgroup h x p -> sole_cgroup (ag_host a2) x p) /\ looping (is_running h) sub rs db [] a2).
Proof.
  intros D. unfold reconcile. cbn [ag_db boot_agent agent_new].
  fold (boot_agent db h).
  destruct (store_load (ro_load o) db) as [rs|e] eqn:El; [|by intros [= <- <-]].
  apply store_load_loaded in El. destruct (ro_logs o); [by intros [= <- <-]|].
  destruct (ro_parked o); [by intros [= <- <-]|].
  set (a1 := remove_unowned_snapshots _ _ _) in *.
  assert (L : looping (is_running h) sub rs db rs a1) by by apply boot_looping.
  change (is_running (ag_host a1)) with (is_running h).
  destruct (reconcile_records _ _ _ _ _) as [a2 r2] eqn:Er.
  destruct (reconcile_records_loop (is_running h) sub rs db El D _ _ _ _ _ _ L Er) as (Hc & Hh & Hok & Hl).
  assert (Hrun : is_running (ag_host a2) = is_running h) by by rewrite Hh.
  destruct r2 as [[]|e]; intros [= <- <-]; [|split_and!; [done|by rewrite Hrun|done]].
  specialize (Hl eq_refl). split_and!; [done| |].
  { simpl. eapply running_calm_db_ok; [apply (sweep_calm (ro_undo o))|]. by rewrite Hrun. }
  intros _. exists rs, a2. split_and!; try done. by rewrite Hh.
Qed.
Lemma reconcile_rinv o now db h a' r :
  db_ok sub (is_running h) db -> reconcile o now (boot_agent db h) = (a', r) ->
  same_cfg (boot_agent db h) a' /\ db_ok sub (is_running (ag_host a')) (ag_db a') /\
  (r = Ok tt -> rinv (sys_new a')).
Proof.
  intros D Er. destruct (reconcile_swept _ _ _ _ _ _ D Er) as (Hc & Hok & Hs). split_and!; [done..|].
  intros ->. destruct (Hs eq_refl) as (rs & a2 & _ & -> & _ & Hrun & _ & Hl). by eapply swept_rinv.
Qed.
Lemma reconcile_sinv o now db h a' r :
  undo_fine (ro_undo o) -> db_ok sub (is_running h) db ->
  reconcile o now (boot_agent db h) = (a', r) ->
  same_cfg (boot_agent db h) a' /\ db_ok sub (is_running (ag_host a')) (ag_db a') /\
  (r = Ok tt -> sinv (sys_new a') /\
     forall n row rec x p, db_vms db !! n = Some row -> row_record n row = Some rec ->
       live (is_running h) rec x -> rec_process rec = Some p ->
       adopted a' n row rec x p /\ (sole_cgroup h x p -> is_running (ag_host a') p = true)).
Proof.
  intros (busy & Hb & Hu) D Er. destruct (reconcile_swept _ _ _ _ _ _ D Er) as (Hc & Hok & Hs). split_and!; [done..|].
  intros ->. destruct (Hs eq_refl) as (rs & a2 & El & -> & Hc2 & Hrun & Hcg & Hl). rewrite Hu.
  split; [by apply (swept_sinv busy rs db h)|]. intros n row rec x p. apply (swept_adopted busy rs); try done. apply Hcg.
Qed.

(** ** The Node, its agent up or down *)

Record AgentNode := mkAgentNode { nd_up : bool; nd_sys : Sys }.
Definition nd_agent (nd : AgentNode) : Agent := sy_agent (nd_sys nd).

Inductive NodeEvent :=
| NStep (ev : SysEvent)
(** the agent is gone, with its tasks, and the host has become [h] *)
| NDown (h : Host)
(** an agent starts: [reconcile], then [Machines::restore] *)
| NBoot (o : ReconcileOutcome) (f_machines f_apps : fault) (f_known : string -> write_fault)
    (ports : string -> nat -> result string (list N)) (now : N).

(** One agent at a time: while one is up, another's [NBoot] is refused, as
    [refuse_if_already_running] refuses it while the first one's socket is
    there. (An agent that shuts down removes its socket before its VMs have
    finished starting, and a second one can start meanwhile; that overlap is
    [AgentRun.second_agent_while_the_first_drains], and is not in these
    histories.) *)
Definition node_step (ev : NodeEvent) (nd : AgentNode) : AgentNode :=
  match ev with
  | NStep ev => if nd_up nd then mkAgentNode true (sys_step ev (nd_sys nd)) else nd
  | NDown h => mkAgentNode false (sys_new (set_ag_host h (nd_agent nd)))
  | NBoot o f_machines f_apps f_known ports now =>
      if nd_up nd then nd (* refuse_if_already_running *)
      else
        let '(a, r) := reconcile o now (boot_agent (ag_db (nd_agent nd)) (ag_host (nd_agent nd))) in
        match r, load_machines f_machines (ag_db a), load_machine_apps f_apps (ag_db a) with
        | Ok _, Ok records, Ok apps =>
            mkAgentNode true
              (sys_new (set_ag_machines (restore f_known ports records apps (ag_machines a)) a))
        | _, _, _ => mkAgentNode false (sys_new a)
        end
  end.
Definition node_run (evs : list NodeEvent) (nd : AgentNode) : AgentNode :=
  foldl (fun nd ev => node_step ev nd) nd evs.

(** What any history of a Node keeps to: a process identity on record isn't
    given to another process. *)
Definition node_ev_fair (nd : AgentNode) (ev : NodeEvent) : Prop :=
  let fresh h' := ids_fresh (ag_db (nd_agent nd)) (ag_host (nd_agent nd)) h' in
  match ev with
  | NStep ev => fresh (ag_host (sy_agent (sys_step ev (nd_sys nd))))
  | NDown h => fresh h
  | NBoot _ _ _ _ _ _ => True
  end.
Fixpoint node_evs_fair (nd : AgentNode) (evs : list NodeEvent) : Prop :=
  match evs with
  | [] => True
  | ev :: evs => node_ev_fair nd ev /\ node_evs_fair (node_step ev nd) evs
  end.
(** And one in which, besides, [ev_ok] holds of each event. *)
Definition node_ev_ok (nd : AgentNode) (ev : NodeEvent) : Prop :=
  match ev with
  | NStep ev => ev_ok (nd_sys nd) ev
  | NDown h => ids_fresh (ag_db (nd_agent nd)) (ag_host (nd_agent nd)) h
  | NBoot o _ _ _ _ _ => undo_fine (ro_undo o)
  end.
Fixpoint node_evs_ok (nd : AgentNode) (evs : list NodeEvent) : Prop :=
  match evs with
  | [] => True
  | ev :: evs => node_ev_ok nd ev /\ node_evs_ok (node_step ev nd) evs
  end.

(** A Node before its first agent. *)
Definition node_new (h : Host) : AgentNode :=
  mkAgentNode false (sys_new (boot_agent (mkDb None None ∅ ∅ ∅) h)).

Definition ninv (nd : AgentNode) : Prop :=
  if nd_up nd then sinv (nd_sys nd) /\ ag_subnet (nd_agent nd) = sub
  else db_ok sub (is_running (ag_host (nd_agent nd))) (ag_db (nd_agent nd)).

(** The same of histories that are only fair. *)
Definition nrinv (nd : AgentNode) : Prop :=
  if nd_up nd then rinv (nd_sys nd) /\ ag_subnet (nd_agent nd) = sub
  else db_ok sub (is_running (ag_host (nd_agent nd))) (ag_db (nd_agent nd)).
Lemma db_ok_fresh db h h' :
  ids_fresh db h h' -> db_ok sub (is_running h) db -> db_ok sub (is_running h') db.
Proof.
  intros Hf D. apply (db_ok_sub sub (is_running h) _ db); [| |done].
  - intros n row r x Hn Hr L. exists row, r. split; [done|]. split; [done|]. by eapply live_back.
  - apply (do_ended _ _ _ D).
Qed.
Lemma node_step_rinv ev nd : node_ev_fair nd ev -> nrinv nd -> nrinv (node_step ev nd).
Proof.
  intros Hok I. destruct ev as [ev|h|o f1 f2 fk ports now]; cbn [node_step node_ev_fair] in *.
  - unfold nrinv in I |- *. destruct (nd_up nd) eqn:Hup; [|by rewrite Hup]. destruct I as [I Hs].
    cbn [nd_up nd_sys nd_agent]. destruct (sys_step_rinv ev _ Hok I) as [I' (_ & Hs' & _)].
    split; [done|]. unfold nd_agent in *. cbn [nd_sys]. congruence.
  - unfold nrinv in I |- *. cbn [nd_up nd_agent nd_sys sys_new sy_agent ag_host ag_db set_ag_host].
    eapply db_ok_fresh; [exact Hok|]. destruct (nd_up nd); [|done]. destruct I as [I <-].
    eapply dlink_db_ok; [apply (ri_reg _ I)|apply (ri_db _ I)].
  - destruct (nd_up nd) eqn:Hup; [done|]. unfold nrinv in I. rewrite Hup in I.
    destruct (reconcile o now _) as [a r] eqn:Er.
    destruct (reconcile_rinv _ _ _ _ _ _ I Er) as ((_ & Hs & _) & D & Hi).
    destruct r as [[]|e]; [|exact D].
    destruct (load_machines f1 (ag_db a)) as [rs|e1], (load_machine_apps f2 (ag_db a)) as [apps|e2];
      try exact D.
    split; [|exact Hs]. destruct (Hi eq_refl) as [H1 H2 H3 [H4 H5]]. by split.
Qed.
Lemma node_run_rinv evs nd : node_evs_fair nd evs -> nrinv nd -> nrinv (node_run evs nd).
Proof.
  revert nd. induction evs as [|ev evs IH]; intros nd; [done|]. intros [H1 H2] I.
  by apply IH, node_step_rinv.
Qed.
Lemma node_step_inv ev nd : node_ev_ok nd ev -> ninv nd -> ninv (node_step ev nd).
Proof.
  intros Hok I. destruct ev as [ev|h|o f1 f2 fk ports now]; cbn [node_step node_ev_ok] in *.
  - unfold ninv in I |- *. destruct (nd_up nd) eqn:Hup; [|by rewrite Hup]. destruct I as [I Hs].
    cbn [nd_up nd_sys nd_agent]. destruct (sys_step_sinv ev _ Hok I) as [I' (_ & Hs' & _)].
    split; [done|]. unfold nd_agent in *. cbn [nd_sys]. congruence.
  - unfold ninv in I |- *. cbn [nd_up nd_agent nd_sys sys_new sy_agent ag_host ag_db set_ag_host].
    assert (D : db_ok sub (is_running (ag_host (nd_agent nd))) (ag_db (nd_agent nd))).
    { destruct (nd_up nd); [|done]. destruct I as [I <-]. eapply dlink_db_ok; [apply (si_reg _ I)|apply (si_db _ I)]. }
    by eapply db_ok_fresh.
  - destruct (nd_up nd) eqn:Hup; [done|]. unfold ninv in I. rewrite Hup in I.
    destruct (reconcile o now _) as [a r] eqn:Er.
    destruct (reconcile_sinv _ _ _ _ _ _ Hok I Er) as ((_ & Hs & _) & D & Hi).
    destruct r as [[]|e]; [|exact D].
    destruct (load_machines f1 (ag_db a)) as [rs|e1], (load_machine_apps f2 (ag_db a)) as [apps|e2];
      try exact D.
    destruct (Hi eq_refl) as [Hi' _]. split; [|exact Hs].
    destruct Hi' as [H1 H2 H3 H4 [H5 H6] [H7 H8] H9]. split; try done.
    eapply traf_same; [|exact H4]. by split_and!.
Qed.

Lemma node_run_inv evs nd : node_evs_ok nd evs -> ninv nd -> ninv (node_run evs nd).
Proof.
  revert nd. induction evs as [|ev evs IH]; intros nd; [done|]. intros [H1 H2] I.
  by apply IH, node_step_inv.
Qed.
Lemma node_new_inv h : ninv (node_new h).
Proof. split; simpl; intros; simplify_map_eq. Qed.
Lemma node_new_rinv h : nrinv (node_new h).
Proof. apply node_new_inv. Qed.
End boot.
