(* ===== verification/AgentProps.v ===== *)
(** * What the Node agent guarantees

    The agent's properties, over everything that can happen to a Node from
    before its first agent on: requests, starts, wakes, parks and ends in
    any order, faults of the database and the host, and the agent going
    down and starting again. *)

From S2P Require Import Prelude RustStr Proto Subnet Store Validate Vm VmLaws VmEnd Machine.
From S2P Require Import MachineLaws Edge Agent AgentSys AgentHost AgentBoot.

Section props.
Context (sd fc jl kn : string) (gid : N) (sub : Subnet) (ca : option string) (acme : bool).
Local Abbreviation run := (node_run sd fc jl kn gid sub ca acme).
Local Abbreviation new := (node_new sd fc jl kn gid sub ca acme).
Local Abbreviation evs_fair := (node_evs_fair sd fc jl kn gid sub ca acme).
Local Abbreviation evs_ok := (node_evs_ok sd fc jl kn gid sub ca acme).

Lemma reached_sinv evs h :
  subnet_wf sub -> evs_ok (new h) evs -> nd_up (run evs (new h)) = true ->
  sinv (nd_sys (run evs (new h))) /\ ag_subnet (nd_agent (run evs (new h))) = sub.
Proof.
  intros Hsub Hok Hup.
  pose proof (node_run_inv sd fc jl kn gid sub ca acme Hsub evs (new h) Hok
    (node_new_inv sd fc jl kn gid sub ca acme h)) as I.
  unfold ninv in I. by rewrite Hup in I.
Qed.

(** C2: No two VMs share a VM address. On a Node that has one agent at a time
    (an agent that starts while an earlier one still drains is not in these
    histories, see [AgentRun.second_agent_while_the_first_drains]) and where no
    process identity on record is given to another process, and across
    every run, start, wake, park, end, removal and agent restart in any order,
    whatever the database, the host, Firecracker and the undos answer: while
    the agent is up, two entries of the registry that hold the same address
    are the same entry, and every address held is one of the Node subnet's VM
    addresses, never its network, Node or broadcast address. *)
Theorem vm_addresses_exclusive evs h :
  subnet_wf sub -> evs_fair (new h) evs -> nd_up (run evs (new h)) = true ->
  let vms := ag_vms (nd_agent (run evs (new h))) in
  (forall n m e e' x, vms !! n = Some e -> vms !! m = Some e' ->
     entry_vm_address e = Some x -> entry_vm_address e' = Some x -> n = m) /\
  (forall n e x, vms !! n = Some e -> entry_vm_address e = Some x -> x ∈ vm_addresses sub).
Proof.
  intros Hsub Hok Hup vms. pose proof (node_run_rinv sd fc jl kn gid sub ca acme Hsub evs (new h) Hok
    (node_new_rinv sd fc jl kn gid sub ca acme h)) as Hi.
  unfold nrinv in Hi. rewrite Hup in Hi. destruct Hi as [I Hs]. pose proof (ri_reg _ I) as R. split.
  - apply (rg_addr _ _ _ _ _ R).
  - intros n e x Hn Hx. rewrite <- Hs. by apply (rg_sub _ _ _ _ _ R _ _ _ Hn).
Qed.

(** C3: Nothing is left on the Node of an address no VM holds: whenever the
    agent is up, a VM address of the subnet that no entry holds, Starting or
    Running, has no namespace, link, jail or cgroup named after it, whatever
    failed starts, wakes, parks, crashes and restarts came before. It is so of
    histories with one agent at a time in which every undo works (the code
    only warns of one that doesn't, and leaves its object to the next agent's
    sweep), new VMMs get process ids nothing has, and each start, wake and
    end is one step: while one is under way its entry holds its address, and
    this says nothing of that. *)
Theorem no_host_state_left evs h x :
  subnet_wf sub -> evs_ok (new h) evs -> nd_up (run evs (new h)) = true ->
  let a := nd_agent (run evs (new h)) in
  x ∈ vm_addresses sub -> x ∉ held_addresses (ag_vms a) -> id_free (ag_node a) x (ag_host a).
Proof.
  intros Hsub Hok Hup a Hx Hno. destruct (reached_sinv evs h Hsub Hok Hup) as [I Hs].
  apply (hv_free _ (si_host _ I)).
  - fold (nd_agent (run evs (new h))). by rewrite Hs.
  - intros n t (i & l & Hn & Hi). apply Hno, elem_of_held. by exists n, (Running i l t).
Qed.

(** C5: Every VM is somebody's: a start or wake is under way for exactly the
    entries that are Starting, one each, and a supervisor task runs for
    exactly the entries that are Running, one each, so no VM is left
    unsupervised and no entry is left Starting with nobody to finish it. *)
Theorem every_vm_is_owned evs h :
  subnet_wf sub -> evs_ok (new h) evs -> nd_up (run evs (new h)) = true ->
  let s := nd_sys (run evs (new h)) in
  let a := sy_agent s in
  (forall n, (exists x l r, ag_vms a !! n = Some (Starting x l r)) <-> n ∈ task_name <$> sy_tasks s) /\
  NoDup (task_name <$> sy_tasks s) /\
  (forall n t, (exists v, ag_sups a !! t = Some (n, v)) <-> exists i l, ag_vms a !! n = Some (Running i l t)).
Proof.
  intros Hsub Hok Hup s a. destruct (reached_sinv evs h Hsub Hok Hup) as [I _].
  pose proof (si_reg _ I) as R. split_and!.
  - intros n. split.
    + intros (x & l & r & Hn). by apply (rg_starting _ _ _ _ _ R _ _ _ _ Hn).
    + intros (t & -> & Hin)%list_elem_of_fmap. destruct (rg_task _ _ _ _ _ R t Hin) as [Ht _].
      by do 3 eexists.
  - apply (rg_nodup _ _ _ _ _ R).
  - intros n t. apply (rg_sups _ _ _ _ _ R).
Qed.

(** C7: Parking and the edge keep out of each other's way: a VM is marked as
    being parked exactly while one park claim on it is held, its counter is
    the number of requests in flight to it, and while the idle parker holds
    its claim no request is in flight to it at all. *)
Theorem parks_and_requests_apart evs h :
  subnet_wf sub -> evs_ok (new h) evs -> nd_up (run evs (new h)) = true ->
  let s := nd_sys (run evs (new h)) in
  let traffic := ag_traffic (sy_agent s) in
  NoDup (sy_claims s).*1 /\
  (forall t, t ∈ (sy_claims s).*1 <-> exists tr, traffic !! t = Some tr /\ tr_parking tr = true) /\
  (forall t tr, traffic !! t = Some tr -> tr_in_flight tr = wrap32 (leases_of t (sy_leases s))) /\
  (forall t, (t, true) ∈ sy_claims s -> t ∉ sy_leases s).
Proof.
  intros Hsub Hok Hup s traffic. destruct (reached_sinv evs h Hsub Hok Hup) as [I _].
  destruct (si_traf _ I). by split_and!.
Qed.

(** C4: VMs outlive the agent. Take any running VM, and let the agent go down,
    however it does, and start again: if the VM's process is still the one
    that runs, the agent that starts has the VM Running under the same name
    with the same record, VM address, Route and console log, a supervisor
    that holds that very process, and the process is still running after
    the sweep of what no VM owns. *)
Theorem vms_outlive_the_agent evs h n i l t v p x h' o f1 f2 fk ports now :
  subnet_wf sub -> evs_ok (new h) evs -> nd_up (run evs (new h)) = true ->
  let a := nd_agent (run evs (new h)) in
  let nd' := run [NDown h'; NBoot o f1 f2 fk ports now] (run evs (new h)) in
  let a' := nd_agent nd' in
  ag_vms a !! n = Some (Running i l t) -> vi_vm_address i = Some x ->
  ag_sups a !! t = Some (n, v) -> vm_process v = Some p -> running_wf i p ->
  ids_fresh (ag_db a) (ag_host a) h' -> undo_fine (ro_undo o) ->
  is_running h' p = true -> sole_cgroup h' x p -> nd_up nd' = true ->
  exists t', ag_vms a' !! n = Some (Running i l t') /\
    ag_sups a' !! t' = Some (n, adopt (ag_node a') x p l) /\
    is_running (ag_host a') p = true.
Proof.
  intros Hsub Hok Hup a nd' a' Hn Hx Ht Hp Hwf Hf Hu Hr Hs Hup'.
  destruct (reached_sinv evs h Hsub Hok Hup) as [I Hsub'].
  destruct (si_rec _ I n i l t v p Hn Ht Hp) as (row & Hrow & _ & Hrec). specialize (Hrec Hwf).
  pose proof (node_step_inv sd fc jl kn gid sub ca acme Hsub (NDown h') _ Hf
    (node_run_inv sd fc jl kn gid sub ca acme Hsub evs (new h) Hok
       (node_new_inv sd fc jl kn gid sub ca acme h))) as D.
  revert Hup'. subst a' nd' a. generalize dependent (run evs (new h)). intros nd.
  intros. revert Hup'. cbn [node_run foldl node_step nd_up nd_agent nd_sys sy_agent sys_new ag_db ag_host set_ag_host].
  destruct (reconcile o now _) as [a' r] eqn:Er.
  destruct (reconcile_sinv sd fc jl kn gid sub ca acme Hsub o now _ h' a' r Hu D Er) as (_ & _ & Had).
  destruct r as [[]|e]; [|done]. repeat case_match; try done. intros _.
  assert (Hlv : live (is_running h') {| rec_info := i; rec_log := l; rec_process := Some p |} x).
  { split; [apply Hwf|]. split; [done|]. by exists p. }
  destruct (proj2 (Had eq_refl) n row _ x p Hrow Hrec Hlv eq_refl) as ((t' & H1 & H2 & _) & H3).
  exists t'. split; [exact H1|]. split; [exact H2|]. by apply H3.
Qed.
End props.

(** ** A Node for examples *)

Definition ex_subnet : Subnet := mkSubnet (ipv4_new 10 77 0 0) 29.
Lemma ex_subnet_wf : subnet_wf ex_subnet.
Proof. split; [simpl; lia|by vm_compute|by vm_compute]. Qed.
Definition ex_host : Host := mkHost {["cirro-0003" := []]} {["cirro-0003"]} ∅ ∅ ∅ ∅ false.
Definition ex_request (name host : string) : RunRequest :=
  mkRunRequest name "/home/u/rootfs.ext4" 512 1 ["/bin/app"] [] None None
    (Some (mkRoute host 80 (Some 60%N))).
Definition ex_boot : NodeEvent :=
  NBoot (mkReconcileOutcome None None (fun _ => None) None (fun _ => None) (fun _ => None) (undo_ok 0))
    None None (fun _ => None) (fun _ _ => Ok []) 1000.
Definition ex_run (name host : string) : NodeEvent :=
  NStep (SRun (Opened "rootfs bytes") (ex_request name host)).
Definition ex_started (nft : fault) : NodeEvent :=
  NStep (SStarted 0 (example_start nft) (undo_ok 3) None 1001).
Definition ex_steps (evs : list NodeEvent) (nd : AgentNode) : AgentNode :=
  node_run "/var/lib/cirro" "/fc" "/jailer" "/vmlinux" 990 ex_subnet None false evs nd.
Definition ex_new : AgentNode :=
  node_new "/var/lib/cirro" "/fc" "/jailer" "/vmlinux" 990 ex_subnet None false ex_host.

Lemma ids_fresh_empty db h h' : db_vms db = ∅ -> ids_fresh db h h'.
Proof. intros He p (n & row & r & Hn & _). by rewrite He, lookup_empty in Hn. Qed.

Lemma undo_fine_ok busy : busy <= CGROUP_POLL_ATTEMPTS -> undo_fine (undo_ok busy).
Proof. exists busy. done. Qed.

(** Boot, run a VM, and see it start (or fail). *)
Lemma ex_evs_ok nft :
  node_evs_ok "/var/lib/cirro" "/fc" "/jailer" "/vmlinux" 990 ex_subnet None false ex_new
    [ex_boot; ex_run "web" "web.test"; ex_started nft].
Proof.
  cbn [node_evs_ok]. split_and!; [apply undo_fine_ok; unfold CGROUP_POLL_ATTEMPTS; lia| | |done].
  - unfold ex_run. cbn [node_ev_ok]. split_and!; [by vm_compute| |done].
    apply ids_fresh_empty. by vm_compute.
  - unfold ex_started. cbn [node_ev_ok]. split_and!; [by vm_compute| | |].
    + apply ids_fresh_empty. by vm_compute.
    + apply undo_fine_ok. unfold CGROUP_POLL_ATTEMPTS. lia.
    + intros args pid st [= <- <-]. split; [by vm_compute|].
      intros i ps Hi. by vm_compute in Hi.
Qed.

(** Undos that fail, and a start under one. *)
Definition ex_undo_fails : UndoOutcome := mkUndoOutcome (fun _ => Some "busy") 0 (Some "busy").
Definition ex_fair_events : list NodeEvent :=
  [NBoot (mkReconcileOutcome None None (fun _ => None) None (fun _ => None) (fun _ => None) ex_undo_fails)
     None None (fun _ => None) (fun _ _ => Ok []) 1000;
   ex_run "web" "web.test"; NStep (SStarted 0 (example_start (Some "no nft")) ex_undo_fails None 1001);
   ex_run "api" "api.test"].
Lemma ex_fair :
  node_evs_fair "/var/lib/cirro" "/fc" "/jailer" "/vmlinux" 990 ex_subnet None false ex_new ex_fair_events.
Proof.
  unfold ex_fair_events. cbn [node_evs_fair]. split_and!; [done| | | |done];
    unfold node_ev_fair, ex_run; apply ids_fresh_empty; by vm_compute.
Qed.

Lemma vm_addresses_exclusive_witness :
  ipv4_new 10 77 0 2 ∈ vm_addresses ex_subnet.
Proof.
  refine (proj2 (vm_addresses_exclusive "/var/lib/cirro" "/fc" "/jailer" "/vmlinux" 990 ex_subnet None
    false ex_fair_events ex_host ex_subnet_wf ex_fair _) "api" _ _ _ _).
  - vm_compute. reflexivity.
  - vm_compute. reflexivity.
  - vm_compute. reflexivity.
Defined.

Lemma no_host_state_left_witness :
  id_free (ag_node (nd_agent (ex_steps [ex_boot; ex_run "web" "web.test"; ex_started (Some "no nft")] ex_new)))
    (ipv4_new 10 77 0 2)
    (ag_host (nd_agent (ex_steps [ex_boot; ex_run "web" "web.test"; ex_started (Some "no nft")] ex_new))).
Proof.
  refine (no_host_state_left "/var/lib/cirro" "/fc" "/jailer" "/vmlinux" 990 ex_subnet None
    false [ex_boot; ex_run "web" "web.test"; ex_started (Some "no nft")] ex_host (ipv4_new 10 77 0 2)
    ex_subnet_wf (ex_evs_ok _) _ _ _).
  - vm_compute. reflexivity.
  - apply (bool_decide_unpack _). vm_compute. exact I.
  - apply (bool_decide_unpack _). vm_compute. exact I.
Defined.

Lemma every_vm_is_owned_witness :
  exists v, ag_sups (nd_agent (ex_steps [ex_boot; ex_run "web" "web.test"; ex_started None] ex_new)) !! 0%nat
    = Some ("web", v).
Proof.
  refine (proj2 (proj2 (proj2 (every_vm_is_owned "/var/lib/cirro" "/fc" "/jailer" "/vmlinux" 990 ex_subnet None
    false [ex_boot; ex_run "web" "web.test"; ex_started None] ex_host ex_subnet_wf (ex_evs_ok None) _))
    "web" 0%nat) _).
  - vm_compute. reflexivity.
  - eexists _, _. vm_compute. reflexivity.
Defined.

(** A request on its way to the VM, and then a park of it claimed. *)
Definition ex_busy_events : list NodeEvent :=
  [ex_boot; ex_run "web" "web.test"; ex_started None; NStep (SLook "web.test"); NStep (SClaim "web")].
Lemma ids_fresh_same db h h' : h' = h -> ids_fresh db h h'.
Proof. by intros -> p. Qed.
Lemma ex_busy_ok :
  node_evs_ok "/var/lib/cirro" "/fc" "/jailer" "/vmlinux" 990 ex_subnet None false ex_new ex_busy_events.
Proof.
  pose proof (ex_evs_ok None) as Hok. unfold ex_busy_events. cbn [node_evs_ok] in *.
  destruct Hok as (H1 & H2 & H3 & _). split; [exact H1|]. split; [exact H2|]. split; [exact H3|].
  split; [|split; [|exact I]]; (split; [vm_compute; reflexivity|]; split; [|exact I]);
    (apply ids_fresh_same; vm_compute; reflexivity).
Qed.

Lemma parks_and_requests_apart_witness :
  let s := nd_sys (ex_steps ex_busy_events ex_new) in
  sy_claims s = [(0%nat, false)] /\ sy_leases s = [0%nat] /\
  exists tr, ag_traffic (sy_agent s) !! 0%nat = Some tr /\ tr_parking tr = true /\ tr_in_flight tr = 1%N.
Proof.
  destruct (parks_and_requests_apart "/var/lib/cirro" "/fc" "/jailer" "/vmlinux" 990 ex_subnet None
    false ex_busy_events ex_host ex_subnet_wf ex_busy_ok ltac:(vm_compute; reflexivity)) as (_ & Hp & Hc & _).
  assert (Hcl : sy_claims (nd_sys (ex_steps ex_busy_events ex_new)) = [(0%nat, false)]) by (vm_compute; reflexivity).
  assert (Hls : sy_leases (nd_sys (ex_steps ex_busy_events ex_new)) = [0%nat]) by (vm_compute; reflexivity).
  intros s. subst s. rewrite Hcl, Hls. split; [reflexivity|]. split; [reflexivity|].
  destruct (proj1 (Hp 0%nat)) as (tr & Htr & Hpk).
  - change (0%nat ∈ (sy_claims (nd_sys (ex_steps ex_busy_events ex_new))).*1). rewrite Hcl. constructor.
  - exists tr. split; [exact Htr|]. split; [exact Hpk|]. rewrite (Hc 0%nat tr Htr).
    change (wrap32 (leases_of 0%nat (sy_leases (nd_sys (ex_steps ex_busy_events ex_new)))) = 1%N).
    rewrite Hls. vm_compute. reflexivity.
Defined.

(** The Node with its VM up, its record, its console log and its supervisor's
    VM. *)
Definition ex_up : AgentNode := ex_steps [ex_boot; ex_run "web" "web.test"; ex_started None] ex_new.
Definition ex_info : VmInfo :=
  started_info "web" (ipv4_new 10 77 0 2) 512 1 1001 (rq_route (ex_request "web" "web.test")).
Definition ex_vm : Vm := default (adopt (ag_node (nd_agent ex_up)) LOCALHOST (mkProcessId 0 0) "")
  (snd <$> ag_sups (nd_agent ex_up) !! 0%nat).
Definition ex_process : ProcessId := default (mkProcessId 0 0) (vm_process ex_vm).
Definition ex_log : string := from_option entry_log "" (ag_vms (nd_agent ex_up) !! "web").

Lemma ex_running_wf : running_wf ex_info ex_process.
Proof.
  assert (ex_process = mkProcessId 4242 99) as -> by (vm_compute; reflexivity).
  split; [|done..]. split_and!; try done; intros ? [= <-]; [done|]. split; [done|]. by intros ? [= <-].
Qed.

Lemma ex_sole : sole_cgroup (ag_host (nd_agent ex_up)) (ipv4_new 10 77 0 2) ex_process.
Proof.
  intros cg ps Hcg Hin.
  assert (Hall : map_Forall (fun cg ps => pr_pid ex_process ∉ ps \/ cg = cgroup_of (host_id (ipv4_new 10 77 0 2)))
    (ho_cgroups (ag_host (nd_agent ex_up)))) by (apply (bool_decide_unpack _); vm_compute; exact I).
  destruct (Hall cg ps Hcg) as [H|H]; [destruct (H Hin)|exact H].
Qed.

Lemma vms_outlive_the_agent_witness :
  exists t',
    ag_vms (nd_agent (ex_steps [NDown (ag_host (nd_agent ex_up)); ex_boot] ex_up)) !! "web"
      = Some (Running ex_info ex_log t').
Proof.
  destruct (vms_outlive_the_agent "/var/lib/cirro" "/fc" "/jailer" "/vmlinux" 990 ex_subnet None
    false [ex_boot; ex_run "web" "web.test"; ex_started None] ex_host "web" ex_info ex_log 0%nat ex_vm ex_process
    (ipv4_new 10 77 0 2) (ag_host (nd_agent ex_up))
    (mkReconcileOutcome None None (fun _ => None) None (fun _ => None) (fun _ => None) (undo_ok 0))
    None None (fun _ => None) (fun _ _ => Ok []) 1000 ex_subnet_wf (ex_evs_ok None))
    as (t' & Ht & _).
  - vm_compute. reflexivity.
  - vm_compute. reflexivity.
  - vm_compute. reflexivity.
  - vm_compute. reflexivity.
  - vm_compute. reflexivity.
  - exact ex_running_wf.
  - by intros p _.
  - apply undo_fine_ok. unfold CGROUP_POLL_ATTEMPTS. lia.
  - vm_compute. reflexivity.
  - exact ex_sole.
  - vm_compute. reflexivity.
  - exists t'. exact Ht.
Defined.

(** ** Hostnames *)

Definition ex_start (pid : N) : StartOutcome :=
  mkStartOutcome
    (mkHostOutcome None (None, None) None None None None (fun _ => Ok (pid, Some (pid + 1000)%N)) (true, true)
       (mkBatch 0 None) (mkBatch 0 None) None None [mkSocketPoll true None] None)
    None None None None None None None None
    [(None, mkHandshake None None (Some (Ok "OK 52")) None None)] None None.
Definition ex_started_as (i : nat) (pid now : N) : NodeEvent :=
  NStep (SStarted i (ex_start pid) (undo_ok 0) None now).
Definition ex_ended (t : nat) (now : N) : NodeEvent :=
  NStep (SEnded t (mkSupEnv false None None None None) (undo_ok 0) [EvEnded None] None now).

(** The App [a] served [web.test] and ended; while it starts again with
    another hostname, [b] takes [web.test]; [a]'s start fails, and [a] is run
    with [web.test] again. *)
Definition clash_events : list NodeEvent :=
  [ex_boot; ex_run "a" "web.test"; ex_started_as 0 41 1001; ex_ended 0 1002;
   ex_run "a" "other.test"; ex_run "b" "web.test"; ex_started_as 1 42 1003; ex_started (Some "no nft");
   ex_run "a" "web.test"; ex_started_as 0 43 1005].

(** Hostnames are not always unique: [run_vm] refuses a hostname only if
    the first entry with it, by name, is another App's. When a start that
    gave up its App's hostname fails, [forget_start] puts the Ended entry
    back without asking whether the hostname has been taken since, and from
    then on the App can be run with it: two Apps run with one hostname, and
    the edge only ever reaches the first. *)
Theorem hostname_taken_twice :
  let a := nd_agent (ex_steps clash_events ex_new) in
  exists i j l m t u,
    ag_vms a !! "a" = Some (Running i l t) /\ ag_vms a !! "b" = Some (Running j m u) /\
    rt_host <$> vi_route i = Some "web.test" /\ rt_host <$> vi_route j = Some "web.test" /\
    exists port, (step_for "web.test" a).2 = Answer (Upstream (ipv4_new 10 77 0 2) port (Some t)) /\
      vi_vm_address i = Some (ipv4_new 10 77 0 2).
Proof. vm_compute. do 6 eexists. repeat split. eexists. repeat split. Qed.
