(* ===== verification/AgentServe.v ===== *)
(** * How the Node agent serves

    The agent towards its callers: which VM the edge's requests reach, how
    a request waits for a start or a wake, what a run reserves, which
    requests get to a handler, and what shutting down lets happen. *)

From S2P Require Import Prelude RustStr Proto Subnet Store Validate Vm VmLaws VmEnd Machine.
From S2P Require Import MachineLaws Edge Agent AgentSys AgentHost AgentBoot AgentProps.

(** ** Routing *)

Lemma app_with_host_some vms host name e :
  app_with_host vms host = Some (name, e) ->
  vms !! name = Some e /\ exists r, entry_route e = Some r /\ rt_host r = host.
Proof.
  unfold app_with_host. intros [Hin Hp]%find_first_elem. apply elem_of_entries in Hin.
  split; [done|]. simpl in Hp. destruct (entry_route e) as [r|]; [|done].
  exists r. split; [done|]. by apply bool_decide_eq_true in Hp.
Qed.
Lemma step_for_upstream host a a' address port lease :
  step_for host a = (a', Answer (Upstream address port lease)) ->
  match lease with
  | None => address = LOCALHOST /\ machines_resolve (ag_machines a) host = Some (ToPort port) /\ a' = a
  | Some t =>
      machines_resolve (ag_machines a) host = None /\
      a' = set_ag_traffic (alter inflight_start t (ag_traffic a)) a /\
      exists name i l r, ag_vms a !! name = Some (Running i l t) /\
        vi_vm_address i = Some address /\ vi_route i = Some r /\ rt_host r = host /\ rt_port r = port /\
        from_option tr_parking false (ag_traffic a !! t) = false
  end.
Proof.
  unfold step_for. destruct (machines_resolve _ _) as [[p|why]|]; [by intros [= <- <- <- <-]|done|].
  destruct (app_with_host _ _) as [[name [|i l t|i l]]|] eqn:Ha; try done; [|by destruct (is_parked i)].
  apply app_with_host_some in Ha as (Hn & r & Hr & Hh). simpl in Hr.
  destruct (from_option _ _ _) eqn:Hp; [done|].
  destruct (vi_vm_address i) as [x|] eqn:Hx; [|done]. rewrite Hr. intros [= <- <- <- <-].
  split; [done|]. split; [done|]. by exists name, i, l, r.
Qed.

Section served.
Context (sd fc jl kn : string) (gid : N) (sub : Subnet) (ca : option string) (acme : bool).
Local Abbreviation run := (node_run sd fc jl kn gid sub ca acme).
Local Abbreviation new := (node_new sd fc jl kn gid sub ca acme).
Local Abbreviation evs_ok := (node_evs_ok sd fc jl kn gid sub ca acme).

(** The edge only ever sends a request to a VM that can answer it. When a
    look for a hostname leads to a VM, that VM is Running with that hostname
    in its Route, supervised, and nobody is parking it; the request goes to
    its own VM address, one of the subnet's, at its Route's port; the lease
    it holds is the VM's, counted before the look is over, so that the idle
    parker won't take the VM while the request is in flight. *)
Theorem requests_reach_live_vms evs h host a' address port t :
  subnet_wf sub -> evs_ok (new h) evs -> nd_up (run evs (new h)) = true ->
  let s := nd_sys (run evs (new h)) in
  let a := sy_agent s in
  (N.of_nat (length (sy_leases s)) + 1 < 2 ^ 32)%N ->
  step_for host a = (a', Answer (Upstream address port (Some t))) ->
  exists name i l r v tr,
    ag_vms a !! name = Some (Running i l t) /\ vi_route i = Some r /\ rt_host r = host /\
    rt_port r = port /\ vi_vm_address i = Some address /\ address ∈ vm_addresses sub /\
    ag_sups a !! t = Some (name, v) /\ (t ∉ (sy_claims s).*1) /\
    ag_traffic a' !! t = Some tr /\ tr_in_flight tr = (leases_of t (sy_leases s) + 1)%N /\
    forall now idle, idle_for now idle tr = false.
Proof.
  intros Hsub Hok Hup s a Hlen Hs. destruct (reached_sinv sd fc jl kn gid sub ca acme evs h Hsub Hok Hup) as [I Hsub'].
  fold s in I. fold a in I.
  apply step_for_upstream in Hs as (_ & -> & name & i & l & r & Hn & Hx & Hr & Hh & Hp & Hpark).
  pose proof (si_reg _ I) as R. pose proof (si_traf _ I) as T.
  destruct (proj2 (rg_sups _ _ _ _ _ R t name)) as [v Hv]; [by do 2 eexists|].
  destruct (tf_sups _ _ _ T _ _ Hv) as [tr Htr]. fold a in Htr. rewrite Htr in Hpark. simpl in Hpark.
  assert (Hc : tr_in_flight tr = leases_of t (sy_leases s)).
  { rewrite (tf_count _ _ _ T _ _ Htr). apply N.mod_small. unfold leases_of.
    pose proof (count_of_le t (sy_leases s)). lia. }
  exists name, i, l, r, v, (inflight_start tr). split_and!; try done.
  - rewrite <- Hsub'. by eapply (rg_sub _ _ _ _ _ R _ _ _ Hn).
  - rewrite (tf_claims _ _ _ T). fold a. intros (tr' & Htr' & Hp'). simplify_eq. congruence.
  - simpl. by rewrite lookup_alter_eq, Htr.
  - simpl. rewrite Hc. apply N.mod_small. unfold leases_of. pose proof (count_of_le t (sy_leases s)). lia.
  - intros now idle. unfold idle_for. simpl. unfold wrap32. rewrite Hc, N.mod_small.
    + destruct (N.eqb_spec (leases_of t (sy_leases s) + 1) 0); [lia|done].
    + unfold leases_of. pose proof (count_of_le t (sy_leases s)). lia.
Qed.
End served.

(** ** Holding requests *)

(** A look whose wake worked, and one that the deadline ends. *)
Definition woke (look : Look) : bool := match lo_wake look with Some (Ok _) => true | _ => false end.
Definition overdue (look : Look) : bool :=
  negb (lo_settled look) && match lo_wake look with None => true | _ => false end.

(** What a look may ask to wake: a parked App of that hostname. *)
Definition parked_for (host name : string) (a : Agent) : Prop :=
  exists i l r, ag_vms a !! name = Some (EndedVm i l) /\ is_parked i = true /\
    vi_route i = Some r /\ rt_host r = host.
Lemma step_for_wake host a name : (step_for host a).2 = Wake name -> parked_for host name a.
Proof.
  unfold step_for. destruct (machines_resolve _ _) as [[p|why]|]; [done|done|].
  destruct (app_with_host _ _) as [[n [|i l t|i l]]|] eqn:Ha; try done.
  - destruct (from_option _ _ _); [done|]. destruct (vi_vm_address i), (vi_route i); done.
  - destruct (is_parked i) eqn:Hp; [|done]. intros [= <-].
    apply app_with_host_some in Ha as (Hn & r & Hr & Hh). by exists i, l, r.
Qed.

Lemma resolve_tried host why looks : (resolve host (Some why) looks).1 = [].
Proof.
  revert why. induction looks as [|look looks IH]; intros why; [done|]. cbn [resolve].
  destruct (step_for host (lo_agent look)).2 as [r|name [|]|name]; [done| | |done];
    (destruct (lo_settled look); [apply IH|done]).
Qed.
Lemma resolve_asks host tried looks name :
  name ∈ (resolve host tried looks).1 -> exists look, look ∈ looks /\ parked_for host name (lo_agent look).
Proof.
  revert tried. induction looks as [|look looks IH]; intros tried; [by intros ?%not_elem_of_nil|].
  assert (Hlater : forall tried, name ∈ (resolve host tried looks).1 ->
    exists look', look' ∈ look :: looks /\ parked_for host name (lo_agent look')).
  { intros tr Hin. destruct (IH tr Hin) as (look' & ? & ?). exists look'. split; [by right|done]. }
  cbn [resolve]. destruct (step_for host (lo_agent look)).2 as [r|n hold|n] eqn:Es.
  - by intros ?%not_elem_of_nil.
  - destruct (lo_settled look); [apply Hlater|by intros ?%not_elem_of_nil].
  - destruct tried; [by intros ?%not_elem_of_nil|].
    assert (Hnow : name = n -> exists look', look' ∈ look :: looks /\ parked_for host name (lo_agent look')).
    { intros ->. exists look. split; [by left|by apply step_for_wake]. }
    destruct (lo_wake look) as [[x|e]|]; [|destruct (_ =? _)%N|].
    + specialize (Hlater None). destruct (resolve host None looks). intros [?|?]%elem_of_cons; [by apply Hnow|by apply Hlater].
    + specialize (Hlater (Some (Some (ae_error e)))). destruct (resolve host (Some _) looks).
      intros [?|?]%elem_of_cons; [by apply Hnow|by apply Hlater].
    + by intros ->%list_elem_of_singleton; apply Hnow.
    + by intros ->%list_elem_of_singleton; apply Hnow.
Qed.
Lemma resolve_wakes host looks :
  length (resolve host None looks).1 <= 1 + length (filter (fun l => woke l = true) looks).
Proof.
  induction looks as [|look looks IH]; [simpl; lia|]. cbn [resolve]. rewrite filter_cons.
  assert (Hw : forall x, lo_wake look = Some (Ok x) -> woke look = true) by (unfold woke; by intros x ->).
  destruct (step_for host (lo_agent look)).2 as [r|n [|]|n]; [simpl; lia| | |].
  - destruct (lo_settled look); [|simpl; lia]. rewrite resolve_tried. simpl. lia.
  - destruct (lo_settled look); [|simpl; lia]. case_decide; simpl; lia.
  - destruct (lo_wake look) as [[x|e]|]; [|destruct (_ =? _)%N; [|simpl; lia]|simpl; lia].
    + rewrite decide_True by eauto. destruct (resolve host None looks). simpl in *. lia.
    + pose proof (resolve_tried host (Some (ae_error e)) looks) as Ht.
      destruct (resolve host (Some _) looks). simpl in *. subst. simpl. lia.
Qed.
Lemma resolve_answer host tried looks res :
  (resolve host tried looks).2 = Some res ->
  (exists look, look ∈ looks /\ (step_for host (lo_agent look)).2 = Answer res) \/
  exists why, res = Unavailable why.
Proof.
  revert tried. induction looks as [|look looks IH]; intros tried; [done|].
  assert (Hlater : forall tried, (resolve host tried looks).2 = Some res ->
    (exists look', look' ∈ look :: looks /\ (step_for host (lo_agent look')).2 = Answer res) \/
    exists why, res = Unavailable why).
  { intros tr Hin. destruct (IH tr Hin) as [(look' & ? & ?)|?]; [left|by right].
    exists look'. split; [by right|done]. }
  cbn [resolve]. destruct (step_for host (lo_agent look)).2 as [r|n hold|n] eqn:Es.
  - intros [= ->]. left. exists look. split; [by left|done].
  - destruct (lo_settled look); [apply Hlater|]. intros [= <-]. eauto.
  - destruct tried; [intros [= <-]; eauto|].
    destruct (lo_wake look) as [[x|e]|]; [|destruct (_ =? _)%N|].
    + specialize (Hlater None). by destruct (resolve host None looks).
    + specialize (Hlater (Some (Some (ae_error e)))). by destruct (resolve host (Some _) looks).
    + intros [= <-]; eauto.
    + intros [= <-]; eauto.
Qed.
Lemma resolve_deadline host tried looks :
  (exists look, look ∈ looks /\ overdue look = true) -> is_Some (resolve host tried looks).2.
Proof.
  revert tried. induction looks as [|look looks IH]; intros tried (d & Hin & Hd); [by apply not_elem_of_nil in Hin|].
  cbn [resolve]. destruct (overdue look) eqn:Ho.
  - unfold overdue in Ho. apply andb_prop in Ho as [Hs%negb_true_iff Hw]. rewrite Hs.
    destruct (lo_wake look); [done|].
    destruct (step_for host (lo_agent look)).2 as [r|n hold|n]; [eauto|eauto|]. destruct tried; eauto.
  - assert (Hl : forall tried, is_Some (resolve host tried looks).2).
    { intros tr. apply IH. apply elem_of_cons in Hin as [->|Hin]; [congruence|eauto]. }
    destruct (step_for host (lo_agent look)).2 as [r|n hold|n]; [eauto| |].
    + destruct (lo_settled look); eauto.
    + destruct tried; [eauto|]. destruct (lo_wake look) as [[x|e]|]; [|destruct (_ =? _)%N|]; eauto.
      * specialize (Hl None). by destruct (resolve host None looks).
      * specialize (Hl (Some (Some (ae_error e)))). by destruct (resolve host (Some _) looks).
Qed.

(** C16: A request for an App that isn't running is held, never lost and never
    a storm of wakes: it only ever asks to wake parked Apps with its own
    hostname; it asks again only after a wake that worked, so a failed wake
    is not retried, however many looks it takes; it is answered as soon as
    a wait passes its deadline; and its answer is either "unavailable" or
    what some look of it found. *)
Theorem held_requests_answered host looks :
  let '(ws, answer) := resolve host None looks in
  (forall name, name ∈ ws -> exists look, look ∈ looks /\ parked_for host name (lo_agent look)) /\
  length ws <= 1 + length (filter (fun l => woke l = true) looks) /\
  ((exists look, look ∈ looks /\ overdue look = true) -> is_Some answer) /\
  (forall res, answer = Some res ->
     (exists look, look ∈ looks /\ (step_for host (lo_agent look)).2 = Answer res) \/
     exists why, res = Unavailable why).
Proof.
  pose proof (resolve_asks host None looks) as H1. pose proof (resolve_wakes host looks) as H2.
  pose proof (resolve_deadline host None looks) as H3. pose proof (resolve_answer host None looks) as H4.
  destruct (resolve host None looks) as [ws answer]. by split_and!.
Qed.

(** ** Running *)

Lemma free_vm_address_lowest a x :
  free_vm_address a = Ok x ->
  (x ∉ held_addresses (ag_vms a)) /\
  forall y, y ∈ vm_addresses (ag_subnet a) -> (y < x)%N -> y ∈ held_addresses (ag_vms a).
Proof.
  unfold free_vm_address. intros (l1 & l2 & Hl & Hp & Hall)%ok_or_ok%find_first_some.
  apply negb_true_iff, bool_decide_eq_false in Hp. split; [done|]. intros y [j Hj]%list_elem_of_lookup Hlt.
  assert (Hx : vm_addresses (ag_subnet a) !! length l1 = Some x) by (rewrite Hl; by apply list_lookup_middle).
  destruct (decide (j < length l1)) as [Hjl|Hjl].
  - rewrite Hl, lookup_app_l in Hj by done. rewrite Forall_forall in Hall.
    specialize (Hall y (list_elem_of_lookup_2 _ _ _ Hj)). by apply negb_false_iff, bool_decide_eq_true in Hall.
  - destruct (decide (j = length l1)) as [->|]; [pose proof (eq_trans (eq_sym Hx) Hj) as [= ->]; by apply N.lt_irrefl in Hlt|].
    pose proof (vm_addresses_sorted _ _ _ _ _ Hx Hj ltac:(lia)). destruct (N.lt_irrefl x). by etrans.
Qed.

(** C17: A run reserves exactly what it says, or nothing. When a run is
    accepted the agent isn't shutting down, the name is free or an Ended
    VM's that isn't parked, no Machine-backed App has the name or the
    hostname, the VM gets the lowest VM address no entry holds, and a
    console log with a new number; that one entry, now Starting, is all
    that changes. When it is refused at most a log number is used up. *)
Theorem run_reserves_or_refuses open run a a' r :
  run_vm open run a = (a', r) ->
  let name := rq_name run in
  let a1 := set_ag_next_log (wrap64 (ag_next_log a + 1)) a in
  match r with
  | Err _ => a' = a \/ a' = a1
  | Ok task =>
      let x := sp_vm_address (stt_spec task) in
      let log := path_join (ag_logs_dir a) (log_file_name name (ag_next_log a)) in
      a' = put_vm name (Starting x log (rq_route run)) a1 /\
      sp_console_log (stt_spec task) = log /\ name_ok name = true /\ ag_shutting_down a = false /\
      match ag_vms a !! name with
      | None => stt_replaced task = None
      | Some (EndedVm i l) => is_parked i = false /\ stt_replaced task = Some (mkReplaced i l)
      | _ => False
      end /\
      has_app (ms_entries (ag_machines a)) name = false /\
      (forall route, rq_route run = Some route ->
         machine_app_with_host (ms_entries (ag_machines a)) (rt_host route) = None) /\
      x ∈ vm_addresses (ag_subnet a) /\ (x ∉ held_addresses (ag_vms a)) /\
      (forall y, y ∈ vm_addresses (ag_subnet a) -> (y < x)%N -> y ∈ held_addresses (ag_vms a))
  end.
Proof.
  intros Hr name a1. unfold run_vm in Hr.
  destruct (_ ≫= _) as [[guest file]|e] eqn:Hc; [|injection Hr as <- <-; by left].
  apply bind_ok in Hc as (g & Hname & _). unfold run_checks in Hname.
  apply bind_ok in Hname as ([] & Hname%validate_name_ok & _).
  unfold new_log_path in Hr. fold a1 in Hr. fold name in Hr, Hname.
  destruct (reserve_checks run a1) as [x|e] eqn:Hs; [|injection Hr as <- <-; by right].
  injection Hr as <- <-. cbn [stt_spec sp_vm_address sp_console_log stt_replaced].
  pose proof (reserve_checks_ok _ _ _ Hs) as (Hf & Hsd & He). unfold reserve_checks in Hs.
  apply bind_ok in Hs as (_ & _ & Hs). apply bind_ok in Hs as (_ & Happ%fail_if_ok & Hs).
  apply bind_ok in Hs as ([] & Hhost & _). fold name in Happ, He. change (ag_vms a1) with (ag_vms a) in *.
  split_and!; try done.
  - by destruct (ag_vms a !! name) as [[]|].
  - intros route Hro. rewrite Hro in Hhost. by destruct (machine_app_with_host _ _).
  - apply (free_vm_address_ok _ _ Hf).
  - apply (free_vm_address_lowest _ _ Hf).
  - apply (free_vm_address_lowest _ _ Hf).
Qed.

(** ** Requests *)

(** The VM a handler is given, and whether it needs the VM to be the Node's. *)
Definition action_vm (act : Action) : option (string * bool) :=
  match act with
  | ToStop name _ | ToPark name | ToWake name | ToLogs name _ => Some (name, true)
  | ToRemove name => Some (name, false)
  | _ => None
  end.
Lemma route_request_vm req segments a name own :
  action_vm (route_request req segments a) = Some (name, own) ->
  exists rest, segments = "vms" :: name :: rest /\ (own = true -> length rest = 1).
Proof.
  unfold route_request, from_body.
  repeat match goal with
    |- action_vm (match ?x with _ => _ end) = _ -> _ => destruct x; try discriminate 1 end;
    intros [= <- <-]; by eexists.
Qed.
Lemma route_request_machine req segments a name :
  route_request req segments a = ToRemoveMachine name -> segments = ["machines"; name].
Proof.
  unfold route_request, from_body.
  repeat match goal with |- match ?x with _ => _ end = _ -> _ => destruct x; try discriminate 1 end;
    by intros [= <-].
Qed.

(** No handler is ever given a name it could be tricked with. Whatever the
    method, the path and the body of a request, a handler for a VM or a
    Machine gets a name of 1 to 32 lowercase letters, digits and hyphens, so
    one that holds no slash or dot and can't lead out of the directories it
    is used in; and stops, parks, wakes and logs are refused for
    Machine-backed Apps, which only a removal accepts. *)
Theorem handlers_get_valid_names req a :
  (forall name own, action_vm (handle req a) = Some (name, own) ->
     name_ok name = true /\ (own = true -> has_app (ms_entries (ag_machines a)) name = false)) /\
  (forall name, handle req a = ToRemoveMachine name -> name_ok name = true).
Proof.
  unfold handle. set (segments := str_split _ _). cbv zeta. destruct (_ ≫= _) as [[]|e] eqn:Hc; [|done].
  apply bind_ok in Hc as ([] & Hvm & Hc). apply bind_ok in Hc as ([] & Hm & Hc). split.
  - intros name own (rest & Hs & Hown)%route_request_vm. rewrite Hs in Hvm, Hc.
    apply validate_name_ok in Hvm. split; [done|]. intros Ho. specialize (Hown Ho).
    destruct rest as [|action [|]]; try done. by apply fail_if_ok in Hc.
  - intros name Hs%route_request_machine. rewrite Hs in Hm. by apply validate_name_ok in Hm.
Qed.

(** ** Shutting down *)

Definition kept_down (a a' : Agent) : Prop := ag_shutting_down a' = ag_shutting_down a.
Lemma run_vm_down open run a :
  ag_shutting_down a = true -> exists e, (run_vm open run a).2 = Err e /\ kept_down a (run_vm open run a).1.
Proof.
  intros Hd. unfold run_vm. destruct (_ ≫= _) as [[guest file]|e]; [|by eexists].
  unfold new_log_path, reserve_checks. cbn [ag_shutting_down set_ag_next_log]. rewrite Hd. by eexists.
Qed.
Lemma wake_vm_down name a :
  ag_shutting_down a = true -> exists e, (wake_vm name a).2 = Err e /\ kept_down a (wake_vm name a).1.
Proof. intros Hd. unfold wake_vm. rewrite Hd. by eexists. Qed.

(** The operations that leave [shutting_down] alone, by their branches. *)
Ltac solve_down :=
  unfold kept_down; repeat case_match; simplify_eq; simpl; try done.
Lemma start_vm_down o u f now t a : kept_down a (start_vm o u f now t a).1.
Proof. unfold start_vm, forget_start, start_supervising, get_certificate. solve_down. Qed.
Lemma wake_task_down o u f f_mark now t a : kept_down a (wake_task o u f f_mark now t a).1.
Proof. unfold wake_task, finish_wake, start_supervising. solve_down. Qed.
Lemma supervisor_ends_down env u evs f now t a : kept_down a (supervisor_ends env u evs f now t a).1.
Proof. unfold supervisor_ends, record_end. solve_down. Qed.
Lemma only_traffic_down a a' : only_traffic a a' -> kept_down a a'.
Proof. by intros [m ->]. Qed.
Lemma claim_park_down name a : kept_down a (claim_park name a a).1.
Proof.
  unfold claim_park. solve_down. by eapply only_traffic_down, claim_take_only.
Qed.
Lemma agent_remove_down ports f1 f2 f3 name a : kept_down a (agent_remove ports f1 f2 f3 name a).1.
Proof. unfold agent_remove. solve_down. Qed.
Lemma run_on_machine_down ports ports' f req a : kept_down a (run_on_machine ports ports' f req a).1.
Proof. unfold run_on_machine, get_certificate. solve_down. Qed.
Lemma renew_tick_down a : kept_down a (renew_tick a).
Proof.
  unfold renew_tick. generalize (renew_hosts a). intros hosts. revert a.
  induction hosts as [|host hosts IH]; intros a; [done|]. simpl. unfold kept_down. rewrite IH.
  unfold get_certificate. solve_down.
Qed.

Lemma delete_elem {A} (l : list A) i x : x ∈ delete i l -> x ∈ l.
Proof.
  rewrite !list_elem_of_lookup. intros [j Hj]. rewrite list_lookup_delete in Hj. case_decide; eauto.
Qed.
(** After it, [shutting_down] stays, and tasks only finish. *)
Definition shut (s s' : Sys) : Prop :=
  ag_shutting_down (sy_agent s') = true /\ forall t, t ∈ sy_tasks s' -> t ∈ sy_tasks s.
Lemma sys_step_shut ev s : ag_shutting_down (sy_agent s) = true -> shut s (sys_step ev s).
Proof.
  intros Hd. assert (Hsame : forall a' cl le, kept_down (sy_agent s) a' ->
    shut s (mkSys a' (sy_tasks s) cl le)) by (intros a' cl le H; split; [by simpl; rewrite H|done]).
  assert (Hdel : forall a' i cl le, kept_down (sy_agent s) a' -> shut s (mkSys a' (delete i (sy_tasks s)) cl le))
    by (intros a' i cl le H; split; [by simpl; rewrite H|intros t; apply delete_elem]).
  destruct ev; cbn [sys_step]; unfold on_agent.
  - destruct (run_vm_down open run (sy_agent s) Hd) as (e & He & Hk).
    destruct (run_vm _ _ _) as [a' r]. simpl in He. subst r. by apply Hsame.
  - destruct (sy_tasks s !! i) as [[t|t]|]; [|done..]. apply Hdel, start_vm_down.
  - destruct (wake_vm_down name (sy_agent s) Hd) as (e & He & Hk).
    destruct (wake_vm _ _) as [a' r]. simpl in He. subst r. by apply Hsame.
  - destruct (sy_tasks s !! i) as [[t|t]|]; [done| |done]. apply Hdel, wake_task_down.
  - apply Hsame, supervisor_ends_down.
  - pose proof (claim_park_down name (sy_agent s)) as Hk.
    destruct (claim_park _ _ _) as [a' [t|e]]; by apply Hsame.
  - pose proof (only_traffic_down _ _ (claim_idle_only now (entries_of (ag_vms (sy_agent s))) (sy_agent s))) as Hk.
    unfold idle_tick. destruct (claim_idle _ _ _) as [a' l]. by apply Hsame.
  - destruct (sy_claims s !! i) as [[t b]|]; [|done]. apply Hsame. unfold park_done, claim_drop. solve_down.
  - pose proof (only_traffic_down _ _ (step_for_only host (sy_agent s))) as Hk.
    destruct (step_for _ _) as [a' st]. solve_down; by apply Hsame.
  - destruct (sy_leases s !! i); [|done]. by apply Hsame.
  - apply Hsame, agent_remove_down.
  - apply Hsame, run_on_machine_down.
  - destruct (mexec _ _) as [ms db]. by apply Hsame.
  - apply Hsame, renew_tick_down.
  - by apply Hsame.
  - case_match; [by apply Hsame|done].
Qed.
Lemma sys_run_shut evs s : ag_shutting_down (sy_agent s) = true -> shut s (sys_run evs s).
Proof.
  revert s. induction evs as [|ev evs IH]; intros s Hd; [done|].
  destruct (sys_step_shut ev s Hd) as [H1 H2]. destruct (IH _ H1) as [H3 H4]. split; [done|]. eauto.
Qed.

(** Once the agent starts to shut down nothing new starts. Whatever comes
    after, the only starts and wakes under way are ones that already were,
    and every run and wake is refused, so the shutdown, which waits for
    those to settle, isn't put off for ever and leaves no VM half started. *)
Theorem nothing_starts_after_shutdown evs s :
  let s' := sys_run evs (sys_step SShutdown s) in
  (forall t, t ∈ sy_tasks s' -> t ∈ sy_tasks s) /\
  (forall open run, exists e, (run_vm open run (sy_agent s')).2 = Err e) /\
  (forall name, exists e, (wake_vm name (sy_agent s')).2 = Err e).
Proof.
  destruct (sys_run_shut evs (sys_step SShutdown s) eq_refl) as [Hd Ht]. split; [exact Ht|]. split.
  - intros open run. destruct (run_vm_down open run _ Hd) as (e & He & _). by exists e.
  - intros name. destruct (wake_vm_down name _ Hd) as (e & He & _). by exists e.
Qed.

Lemma requests_reach_live_vms_witness :
  exists name i l t,
    ag_vms (nd_agent ex_up) !! name = Some (Running i l t) /\
    vi_vm_address i = Some (ipv4_new 10 77 0 2).
Proof.
  destruct (requests_reach_live_vms "/var/lib/cirro" "/fc" "/jailer" "/vmlinux" 990 ex_subnet None false
    [ex_boot; ex_run "web" "web.test"; ex_started None] ex_host "web.test"
    (step_for "web.test" (nd_agent ex_up)).1 (ipv4_new 10 77 0 2) 80 0%nat ex_subnet_wf (ex_evs_ok None))
    as (name & i & l & r & v & tr & H1 & _ & _ & _ & H2 & _).
  - vm_compute. reflexivity.
  - vm_compute. reflexivity.
  - vm_compute. reflexivity.
  - exists name, i, l, 0%nat. exact (conj H1 H2).
Defined.

Lemma run_reserves_or_refuses_witness :
  (run_vm (Opened "rootfs bytes") (ex_request "api" "api.test") (nd_agent ex_up)).1
    = put_vm "api" (Starting (ipv4_new 10 77 0 3) "/var/lib/cirro/logs/api.1.log"
        (Some (mkRoute "api.test" 80 (Some 60%N))))
        (set_ag_next_log (wrap64 (ag_next_log (nd_agent ex_up) + 1)) (nd_agent ex_up)).
Proof.
  refine (proj1 (run_reserves_or_refuses (Opened "rootfs bytes") (ex_request "api" "api.test") (nd_agent ex_up)
    _ (Ok (mkStartTask "api" (mkVmSpec (ipv4_new 10 77 0 3) "/home/u/rootfs.ext4" "rootfs bytes" 512 1
      (mkGuestConfig "/bin/app" [] [] None None) "/var/lib/cirro/logs/api.1.log")
      (Some (mkRoute "api.test" 80 (Some 60%N))) None)) _)).
  vm_compute. reflexivity.
Defined.
