(* ===== verification/Image.v ===== *)
(** * Images: layers to a root filesystem

    cirro-image's [lib.rs]: an image's layers merged into one tree by the
    OCI layer rules, the tree written as a tar in path order, and an ext4
    image made of it. The tar and gzip crates and [mke2fs] are parameters:
    what they answer. *)

From S2P Require Import Prelude RustStr.
Local Open Scope string_scope.

(** ** UTF-8

    [str::from_utf8], as a scan over bytes: one lead byte and its
    continuation bytes at a time, without overlong forms, surrogates or
    anything past U+10FFFF. *)
Definition byte_in (lo hi : N) (c : ascii) : bool :=
  let n := N_of_ascii c in ((lo <=? n) && (n <=? hi))%N.
Definition is_cont : ascii -> bool := byte_in 128 191.
Fixpoint is_utf8 (s : string) : bool :=
  match s with
  | EmptyString => true
  | String a s1 =>
      if byte_in 0 127 a then is_utf8 s1
      else
        match s1 with
        | EmptyString => false
        | String b s2 =>
            if byte_in 194 223 a then is_cont b && is_utf8 s2
            else
              match s2 with
              | EmptyString => false
              | String c s3 =>
                  if byte_in 224 239 a then
                    (if byte_in 224 224 a then byte_in 160 191 b
                     else if byte_in 237 237 a then byte_in 128 159 b else is_cont b)
                    && is_cont c && is_utf8 s3
                  else
                    match s3 with
                    | EmptyString => false
                    | String d s4 =>
                        byte_in 240 244 a &&
                        (if byte_in 240 240 a then byte_in 144 191 b
                         else if byte_in 244 244 a then byte_in 128 143 b else is_cont b)
                        && is_cont c && is_cont d && is_utf8 s4
                    end
              end
        end
  end.

(** ** Tar entries

    What the tar crate tells of an entry. A header's numbers are parsed
    when asked for, which can fail. *)
Inductive EntryType :=
| TRegular | TContinuous | TDirectory | TSymlink | TLink | TChar | TBlock | TFifo
| TOther (kind : string).
#[export] Instance EntryType_eq_dec : EqDecision EntryType.
Proof. solve_decision. Defined.
Definition type_debug (t : EntryType) : string :=
  match t with
  | TRegular => "Regular" | TContinuous => "Continuous" | TDirectory => "Directory"
  | TSymlink => "Symlink" | TLink => "Link" | TChar => "Char" | TBlock => "Block" | TFifo => "Fifo"
  | TOther kind => kind
  end.
Record Header := mkHeader {
  hd_type : EntryType;
  hd_size : result string N;
  hd_mode : result string N;
  hd_uid : result string N;
  hd_gid : result string N;
  hd_mtime : result string N;
}.
(** [Header::new_gnu] with its type, mode and size set. *)
Definition new_header (t : EntryType) (mode size : N) : Header :=
  mkHeader t (Ok size) (Ok mode) (Ok 0%N) (Ok 0%N) (Ok 0%N).
Definition set_size (n : N) (h : Header) : Header :=
  mkHeader (hd_type h) (Ok n) (hd_mode h) (hd_uid h) (hd_gid h) (hd_mtime h).

Record TarEntry := mkTarEntry {
  te_path : result string string;
  te_link : result string (option string);
  te_header : Header;
  te_position : N;
}.

(** ** The tree *)

(** [Source]: where one entry of the final tree comes from. *)
Record Source := mkSource {
  src_layer : nat;
  src_header : Header;
  src_data : N;
  src_link : option string;
}.
(** [Flattened]; each layer with the bytes of its uncompressed copy. *)
Record Flattened := mkFlattened {
  fl_layers : list string;
  fl_tree : gmap string Source;
}.
Definition src_type (s : Source) : EntryType := hd_type (src_header s).

Definition image_err (context e : string) : string := context +:+ ": " +:+ e.

(** [split] and [join]. *)
Definition split (path : string) : string * string :=
  match rsplit_once "/" path with Some p => p | None => (EmptyString, path) end.
Definition join (dir name : string) : string :=
  if is_empty dir then name else dir +:+ "/" +:+ name.

(** [Flattened::remove_children], on the tree: the keys from [dir/] on, while
    they start with it. *)
Definition remove_children {V} (dir : string) (tree : gmap string V) : gmap string V :=
  if is_empty dir then ∅
  else
    let prefix := dir +:+ "/" in
    let from := skip_while (fun e => negb (bool_decide (String.le prefix e.1))) (entries_of tree) in
    let children := (take_while (fun e => starts_with prefix e.1) from).*1 in
    foldl (fun tree child => delete child tree) tree children.
(** [Flattened::remove]. *)
Definition remove_path {V} (path : string) (tree : gmap string V) : gmap string V :=
  remove_children path (delete path tree).

(** The whiteouts of a layer, which hide what is below it. *)
Definition apply_whiteout {V} (tree : gmap string V) (path : string) : gmap string V :=
  let '(dir, name) := split path in
  if bool_decide (name = ".wh..wh..opq") then remove_children dir tree
  else
    match strip_prefix ".wh." name with
    | Some hidden => remove_path (join dir hidden) tree
    | None => tree
    end.
Definition is_whiteout (path : string) : bool := starts_with ".wh." (split path).2.
Definition supported (t : EntryType) : bool := match t with TOther _ => false | _ => true end.

Section image.
(** [Path::display], lossy where a path isn't UTF-8; the tar crate on a
    layer's bytes; and the gzip decoder. *)
Context (path_display : string -> string).
Context (archive : string -> result string (list (result string TarEntry))).
Context (gunzip : string -> result string string).

(** [normalise]: [Path::components] are the parts between slashes without
    empty ones; [.] and the root say nothing. *)
Fixpoint normal_parts (path : string) (parts : list string) : result string (list string) :=
  match parts with
  | [] => Ok []
  | part :: parts =>
      if bool_decide (part = "") || bool_decide (part = ".") then normal_parts path parts
      else if bool_decide (part = "..") then Err (path_display path +:+ " leaves the image root")
      else if is_utf8 part then rest ← normal_parts path parts; Ok (part :: rest)
      else Err (path_display path +:+ " isn't UTF-8")
  end.
Definition normalise (path : string) : result string string :=
  parts ← normal_parts path (str_split "/" path);
  Ok (str_join "/" parts).

(** The first loop of [Flattened::apply]: the entries of layer [i]. *)
Fixpoint read_entries (i : nat) (entries : list (result string TarEntry))
    : result string (list (string * Source)) :=
  match entries with
  | [] => Ok []
  | entry :: entries =>
      entry ← map_err (image_err "read an entry") entry;
      path ← map_err (image_err "read a path") (te_path entry);
      path ← normalise path;
      link ← map_err (image_err ("read " +:+ path +:+ "'s link")) (te_link entry);
      rest ← read_entries i entries;
      Ok ((path, mkSource i (te_header entry) (te_position entry) link) :: rest)
  end.

(** Its last loop: one entry over the tree. *)
Definition insert_entry (path : string) (source : Source) (tree : gmap string Source)
    : result string (gmap string Source) :=
  if is_whiteout path then Ok tree
  else
    let kind := src_type source in
    _ ← fail_if (negb (supported kind)) (path +:+ ": unsupported tar entry type " +:+ type_debug kind);
    _ ← (if bool_decide (kind = TLink) then normalise (default "" (src_link source)) else Ok "");
    if is_empty path then Ok tree
    else
      let was_dir := match tree !! path with
                     | Some s => bool_decide (src_type s = TDirectory)
                     | None => false
                     end in
      let tree := if negb (bool_decide (kind = TDirectory)) || negb was_dir
                  then remove_children path tree else tree in
      Ok (<[path := source]> tree).
Fixpoint insert_entries (entries : list (string * Source)) (tree : gmap string Source)
    : result string (gmap string Source) :=
  match entries with
  | [] => Ok tree
  | (path, source) :: entries => tree ← insert_entry path source tree; insert_entries entries tree
  end.

(** [Flattened::apply]; [f] is the answer to opening the copy. *)
Definition apply_layer (f : fault) (i : nat) (fl : Flattened) : result string Flattened :=
  _ ← map_err (image_err "open") (fault_result f);
  entries ← map_err (image_err "read") (archive (default "" (fl_layers fl !! i)));
  entries ← read_entries i entries;
  let tree := foldl apply_whiteout (fl_tree fl) entries.*1 in
  tree ← insert_entries entries tree;
  Ok (mkFlattened (fl_layers fl) tree).

(** [decompress]: what a layer's copy holds. [ly_read] are the layer's
    bytes, [ly_out] and [ly_copy] the answers to making and filling the
    copy. *)
Record Layer := mkLayer {
  ly_path : string;
  ly_read : result string string;
  ly_out : fault;
  ly_copy : fault;
  ly_open : fault;
}.
Definition str_first (n : nat) (s : string) : string := String.substring 0 n s.
Definition gzip_magic : string := String (ascii_of_nat 31) (String (ascii_of_nat 139) "").
Definition zstd_magic : string :=
  String (ascii_of_nat 40) (String (ascii_of_nat 181) (String (ascii_of_nat 47) (String (ascii_of_nat 253) ""))).
Definition decompress (l : Layer) : result string string :=
  let context := "layer " +:+ path_display (ly_path l) in
  bytes ← map_err (image_err context) (ly_read l);
  _ ← map_err (image_err "create scratch layer") (fault_result (ly_out l));
  let magic := str_first 4 bytes in
  plain ←
    (if starts_with gzip_magic magic then map_err (image_err context) (gunzip bytes)
     else if bool_decide (magic = zstd_magic) then
       Err (context +:+ ": zstd-compressed layers aren't supported yet")
     else Ok bytes);
  _ ← map_err (image_err context) (fault_result (ly_copy l));
  Ok plain.

(** [Flattened::open]; [f] is the answer to making the scratch dir. *)
Fixpoint open_layers (i : nat) (layers : list Layer) (fl : Flattened) : result string Flattened :=
  match layers with
  | [] => Ok fl
  | layer :: layers =>
      plain ← decompress layer;
      let fl := mkFlattened (fl_layers fl ++ [plain]) (fl_tree fl) in
      fl ← map_err (image_err ("layer " +:+ dec (N.of_nat i + 1))) (apply_layer (ly_open layer) i fl);
      open_layers (S i) layers fl
  end.
Definition open_image (f : fault) (layers : list Layer) : result string Flattened :=
  _ ← map_err (image_err "create the scratch dir") (fault_result f);
  open_layers 0 layers (mkFlattened [] ∅).

(** [Flattened::paths], [Flattened::data] and [Flattened::read]; [f] is
    what opening the copy answers. *)
Definition paths (fl : Flattened) : list string := keys_of (fl_tree fl).
Definition data_of (f : fault) (fl : Flattened) (s : Source) : result string string :=
  _ ← fault_result f;
  size ← hd_size (src_header s);
  let layer := default "" (fl_layers fl !! src_layer s) in
  Ok (String.substring (N.to_nat (src_data s)) (N.to_nat size) layer).
Definition is_file (t : EntryType) : bool :=
  match t with TRegular | TContinuous => true | _ => false end.
Definition read_file (f : fault) (fl : Flattened) (path : string) : option string :=
  s ← fl_tree fl !! trim_start_matches "/" path;
  if is_file (src_type s) then ok (data_of f fl s) else None.

(** [Entry]: what the tree to write holds. *)
Inductive TreeEntry :=
| FromLayer (s : Source)
| FromGuest (contents : string) (mode : N)
| MadeDir.

Definition RESOLV_CONF : string := "nameserver 1.1.1.1" +:+ nl +:+ "nameserver 8.8.8.8" +:+ nl.
Definition tab : string := String (ascii_of_nat 9) "".
Definition HOSTS : string := "127.0.0.1" +:+ tab +:+ "localhost" +:+ nl +:+ "::1" +:+ tab +:+ "localhost" +:+ nl.

(** What is before each slash of a path. *)
Fixpoint parents_of (path : string) : list string :=
  match path with
  | EmptyString => []
  | String c path =>
      (if bool_decide (c = "/"%char) then [EmptyString] else []) ++ (String c <$> parents_of path)
  end.
(** [tree.entry(path).or_insert(Entry::Dir)]. *)
Definition or_dir (tree : gmap string TreeEntry) (path : string) : gmap string TreeEntry :=
  match tree !! path with Some _ => tree | None => <[path := MadeDir]> tree end.
(** [Flattened::with_guest_files]. *)
Definition with_guest_files (init : string) (fl : Flattened) : gmap string TreeEntry :=
  let tree := FromLayer <$> fl_tree fl in
  let tree := <["init" := FromGuest init 493]> tree in
  let tree := <["etc/resolv.conf" := FromGuest RESOLV_CONF 420]> tree in
  let tree := <["etc/hosts" := FromGuest HOSTS 420]> tree in
  let tree := foldl or_dir tree ["proc"; "sys"; "dev"] in
  foldl or_dir tree (mjoin (parents_of <$> keys_of tree)).

(** A tar entry as written: its path and header, and its data or link. *)
Inductive Payload := PData (bytes : string) | PLink (target : string).
Record TarOut := mkTarOut { to_path : string; to_header : Header; to_payload : Payload }.

(** The first loop of [Flattened::write_tar]: what is written, the hard
    links put off, and the bytes counted. [f_append] is the answer to each
    append, [f_data] to each copy opened. *)
Fixpoint write_entries (f_append f_data : string -> fault) (fl : Flattened)
    (entries : list (string * TreeEntry)) (out : list TarOut) (links : list (string * Source)) (bytes : N)
    : result string (list TarOut * list (string * Source) * N) :=
  match entries with
  | [] => Ok (out, links, bytes)
  | (path, entry) :: entries =>
      let bytes := wrap64 (bytes + 4096) in
      let put header payload n :=
        _ ← fault_result (f_append path);
        write_entries f_append f_data fl entries (out ++ [mkTarOut path header payload]) links
          (wrap64 (bytes + n)) in
      match entry with
      | MadeDir => put (new_header TDirectory 493 0) (PData "") 0%N
      | FromGuest contents mode => put (new_header TRegular mode (str_len contents)) (PData contents) (str_len contents)
      | FromLayer s =>
          let header := src_header s in
          match hd_type header with
          | TLink => write_entries f_append f_data fl entries out (links ++ [(path, s)]) bytes
          | TSymlink => put header (PLink (default "" (src_link s))) 0%N
          | TRegular | TContinuous =>
              size ← hd_size header;
              data ← data_of (f_data path) fl s;
              put header (PData data) size
          | _ => put (set_size 0 header) (PData "") 0%N
          end
      end
  end.
(** Its second loop: the hard links, each with its target's metadata. *)
Fixpoint write_links (f_append : string -> fault) (tree : gmap string TreeEntry)
    (links : list (string * Source)) (out : list TarOut) : result string (list TarOut) :=
  match links with
  | [] => Ok out
  | (path, s) :: links =>
      target ← normalise (default "" (src_link s));
      header ←
        match tree !! target with
        | Some (FromLayer t) =>
            mode ← hd_mode (src_header t);
            uid ← hd_uid (src_header t);
            gid ← hd_gid (src_header t);
            mtime ← hd_mtime (src_header t);
            let h := src_header s in
            Ok (mkHeader (hd_type h) (hd_size h) (Ok mode) (Ok uid) (Ok gid) (Ok mtime))
        | Some (FromGuest _ mode) =>
            let h := src_header s in
            Ok (mkHeader (hd_type h) (hd_size h) (Ok mode) (Ok 0%N) (Ok 0%N) (hd_mtime h))
        | Some MadeDir | None =>
            Err (path +:+ " is a hard link to " +:+ target +:+ ", which isn't a file in the image")
        end;
      _ ← fault_result (f_append path);
      write_links f_append tree links (out ++ [mkTarOut path header (PLink target)])
  end.
(** [Flattened::write_tar]. *)
Definition write_tar (f_create : fault) (f_append f_data : string -> fault) (f_flush : fault)
    (fl : Flattened) (tree : gmap string TreeEntry) : result string (list TarOut * N) :=
  _ ← fault_result f_create;
  '(out, links, bytes) ← write_entries f_append f_data fl (entries_of tree) [] [] 0;
  out ← write_links f_append tree links out;
  _ ← fault_result f_flush;
  Ok (out, bytes).

(** [parse_mke2fs_version] and [check_mke2fs]; the version is what
    [mke2fs -V] printed, if it ran. *)
Definition parse_mke2fs_version (text : string) : option (N * N * N) :=
  line ← head (str_lines text);
  version ← split_whitespace line !! 1%nat;
  let parts := parse_uint u32_max <$> str_split "." version in
  major ← parts !! 0%nat; major ← major;
  minor ← parts !! 1%nat; minor ← minor;
  patch ← default (Some 0%N) (parts !! 2%nat);
  Some (major, minor, patch).
Definition MIN_MKE2FS : N * N * N := (1, 47, 1)%N.
Definition version_le (a b : N * N * N) : bool :=
  let '(a1, a2, a3) := a in
  let '(b1, b2, b3) := b in
  ((a1 <? b1) || ((a1 =? b1) && ((a2 <? b2) || ((a2 =? b2) && (a3 <=? b3)))))%N.
Definition version_str (v : N * N * N) : string :=
  let '(a, b, c) := v in dec a +:+ "." +:+ dec b +:+ "." +:+ dec c.
Definition check_mke2fs (ran : result string string) : result string unit :=
  text ← map_err (image_err "run mke2fs (install e2fsprogs 1.47.1 or later)") ran;
  let found := parse_mke2fs_version text in
  if match found with Some v => version_le MIN_MKE2FS v | None => false end then Ok tt
  else Err ("building images needs e2fsprogs " +:+ version_str MIN_MKE2FS
    +:+ " or later (mke2fs -d with a tarball); found "
    +:+ from_option version_str "an unrecognised version" found).

(** [Flattened::build_ext4]: the tar [mke2fs] was given and the image's
    size; the second part is what is left at [dest]. *)
Record BuildOutcome := mkBuildOutcome {
  bo_version : result string string;
  bo_create_tar : fault;
  bo_append : string -> fault;
  bo_data : string -> fault;
  bo_flush : fault;
  bo_create : fault;
  bo_set_len : fault;
  (** [mke2fs]: that it ran, and what it said if it failed *)
  bo_run : result string (option string);
}.
Definition ext4_size (bytes : N) : N := N.max (wrap64 (bytes + bytes / 4)) 67108864.
Definition build_ext4 (o : BuildOutcome) (init dest : string) (before : option (list TarOut * N))
    (fl : Flattened) : result string unit * option (list TarOut * N) :=
  match
    (_ ← check_mke2fs (bo_version o);
     '(tar, bytes) ← map_err (image_err "write the rootfs tar")
       (write_tar (bo_create_tar o) (bo_append o) (bo_data o) (bo_flush o) fl (with_guest_files init fl));
     _ ← map_err (image_err ("create " +:+ path_display dest)) (fault_result (bo_create o));
     Ok (tar, bytes))
  with
  | Err e => (Err e, before)
  | Ok (tar, bytes) =>
      let size := ext4_size bytes in
      match bo_set_len o with
      | Some e => (Err (image_err ("size " +:+ path_display dest) e), Some ([], 0%N))
      | None =>
          match bo_run o with
          | Err e => (Err (image_err "run mke2fs" e), Some ([], size))
          | Ok (Some stderr) => (Err ("mke2fs failed: " +:+ trim stderr), None)
          | Ok None => (Ok tt, Some (tar, size))
          end
      end
  end.
End image.
