(* ===== verification/ImageLaws.v ===== *)
(** * Images: what flattening keeps

    The lookups of [Image]'s tree operations, the layer rules as a function
    of a path alone, the invariants of a flattened image, and the order of
    the tar a root filesystem is made of. *)

From S2P Require Import Prelude RustStr Image.
Local Open Scope string_scope.

(** ** Byte order *)

Lemma str_le_cons a s b t :
  String.le (String a s) (String b t) <-> (N_of_ascii a < N_of_ascii b)%N \/ (a = b /\ String.le s t).
Proof.
  unfold String.le, String.leb. cbn [String.compare]. unfold Ascii.compare.
  destruct (N.compare_spec (N_of_ascii a) (N_of_ascii b)) as [Heq|Hlt|Hgt].
  - apply (f_equal ascii_of_N) in Heq. rewrite !ascii_N_embedding in Heq. subst.
    split; [by right|]. intros [?|[_ H]]; [lia|done].
  - split; [by left|done].
  - split; [done|]. intros [?|[-> _]]; lia.
Qed.
Lemma str_le_nil s : String.le "" s.
Proof. by destruct s. Qed.
Lemma str_le_prefix p r : String.le p (p +:+ r).
Proof.
  induction p as [|a p IH]; [apply str_le_nil|]. rewrite str_app_cons, str_le_cons. by right.
Qed.
(** Between a prefix and a string that has it, every string has it. *)
Lemma str_le_between p k r : String.le p k -> String.le k (p +:+ r) -> starts_with p k = true.
Proof.
  rewrite starts_with_true. revert k. induction p as [|a p IH]; intros k Hp Hk; [by exists k|].
  destruct k as [|b k]; [done|]. rewrite str_app_cons, str_le_cons in *.
  destruct Hp as [Hp|[-> Hp]]; [destruct Hk as [?|[-> _]]; lia|].
  destruct Hk as [?|[_ Hk]]; [lia|]. destruct (IH k Hp Hk) as [r' ->]. by exists r'.
Qed.

(** ** Removing a subtree *)

(** Whether a path is below a directory; everything is below the root. *)
Definition inside (dir path : string) : bool := is_empty dir || starts_with (dir +:+ "/") path.

Section remove_children.
Context {V : Type} (prefix : string).
Implicit Types (l : list (string * V)).

Lemma elem_of_take_run l e :
  StronglySorted key_le l -> Forall (fun e => String.le prefix e.1) l ->
  e ∈ take_while (fun e => starts_with prefix e.1) l <-> e ∈ l /\ starts_with prefix e.1 = true.
Proof.
  induction 1 as [|x l Hs IH Hle]; intros Hall.
  { simpl. rewrite elem_of_nil. by split; [|intros [? _]]. }
  apply Forall_cons in Hall as [Hx Hall]. simpl. destruct (starts_with prefix x.1) eqn:Hp.
  - rewrite !elem_of_cons, IH by done. naive_solver.
  - rewrite elem_of_nil, elem_of_cons. split; [done|]. intros [[->|Hin] He]; [congruence|].
    rewrite Forall_forall in Hle. pose proof (Hle _ Hin) as Hxe. unfold key_le in Hxe.
    apply starts_with_true in He as [r Hr]. rewrite Hr in Hxe.
    by rewrite (str_le_between _ _ _ Hx Hxe) in Hp.
Qed.
Lemma elem_of_range_run l e :
  StronglySorted key_le l ->
  e ∈ take_while (fun e => starts_with prefix e.1)
        (skip_while (fun e => negb (bool_decide (String.le prefix e.1))) l)
  <-> e ∈ l /\ starts_with prefix e.1 = true.
Proof.
  induction 1 as [|x l Hs IH Hle]; [simpl; rewrite elem_of_nil; by split; [|intros [? _]]|].
  cbn [skip_while].
  case_bool_decide as Hx; cbn [negb].
  - apply elem_of_take_run; [by constructor|]. constructor; [done|].
    eapply Forall_impl; [exact Hle|]. intros y Hy. unfold key_le in Hy. by etrans.
  - rewrite IH, elem_of_cons. split; [naive_solver|]. intros [[->|Hin] He]; [|done].
    apply starts_with_true in He as [r Hr]. destruct Hx. rewrite Hr. apply str_le_prefix.
Qed.
End remove_children.

Lemma foldl_delete {V} (ks : list string) (m : gmap string V) k :
  foldl (fun m k => delete k m) m ks !! k = if bool_decide (k ∈ ks) then None else m !! k.
Proof.
  revert m. induction ks as [|x ks IH]; intros m; [done|]. simpl. rewrite IH.
  destruct (decide (k = x)) as [->|Hne].
  - rewrite lookup_delete_eq. rewrite (bool_decide_true (x ∈ x :: ks)) by left. by case_match.
  - rewrite lookup_delete_ne by done. rewrite (bool_decide_ext (k ∈ x :: ks) (k ∈ ks)); [done|].
    rewrite elem_of_cons. naive_solver.
Qed.

Lemma remove_children_lookup {V} (dir : string) (tree : gmap string V) k :
  remove_children dir tree !! k = if inside dir k then None else tree !! k.
Proof.
  unfold remove_children, inside. destruct (is_empty dir) eqn:Hd; [done|]. cbn [orb].
  rewrite foldl_delete. set (p := dir +:+ "/").
  assert (Hin : k ∈ (take_while (fun e => starts_with p e.1)
    (skip_while (fun e => negb (bool_decide (String.le p e.1))) (entries_of tree))).*1
    <-> is_Some (tree !! k) /\ starts_with p k = true).
  { rewrite list_elem_of_fmap. split.
    - intros ([k2 v] & -> & Hin). apply elem_of_range_run in Hin as [Hin Hp]; [|apply entries_of_sorted].
      apply elem_of_entries in Hin. eauto.
    - intros [[v Hv] Hp]. exists (k, v). split; [done|].
      apply elem_of_range_run; [apply entries_of_sorted|]. split; [by apply elem_of_entries|done]. }
  case_bool_decide as Hk; rewrite Hin in Hk.
  - by destruct Hk as [_ ->].
  - destruct (starts_with p k); [|done]. destruct (tree !! k) eqn:Hv; [|done]. destruct Hk. eauto.
Qed.

(** [remove_children] takes exactly the subtree: its walk of the keys from
    [dir/] on, which stops at the first that isn't below [dir], does what
    filtering the whole tree would, for every tree and directory. *)
Theorem remove_children_filter {V} (dir : string) (tree : gmap string V) :
  remove_children dir tree = filter (fun e => inside dir e.1 = false) tree.
Proof.
  apply map_eq. intros k. rewrite remove_children_lookup. destruct (inside dir k) eqn:Hi; symmetry.
  - apply map_lookup_filter_None. right. intros v _. simpl. by rewrite Hi.
  - destruct (tree !! k) as [v|] eqn:Hv; [by apply map_lookup_filter_Some|].
    apply map_lookup_filter_None. by left.
Qed.

(** ** The layer rules, one path at a time *)

(** Whether the whiteout [w] hides [path] in the layers below. *)
Definition hides (path w : string) : bool :=
  let '(dir, name) := split w in
  if bool_decide (name = ".wh..wh..opq") then inside dir path
  else
    match strip_prefix ".wh." name with
    | Some hidden => bool_decide (path = join dir hidden) || inside (join dir hidden) path
    | None => false
    end.
(** The entries a layer puts in the tree. *)
Definition real (e : string * Source) : bool := negb (is_whiteout e.1) && negb (is_empty e.1).
(** What is left at [path] of the layers below, under a layer's whiteouts. *)
Definition unhidden (ws : list string) (below : string -> option Source) (path : string) : option Source :=
  if existsb (hides path) ws then None else below path.
(** An entry that takes the place of what the layers below have inside its
    path: one that is no directory, or a directory where they have something
    that is none. A directory over a directory, listed by them or only
    implied by what they have in it, merges with it. *)
Definition is_dir_entry (s : option Source) : bool :=
  match s with Some s => bool_decide (src_type s = TDirectory) | None => false end.
Definition replaces (below : string -> option Source) (path : string) (e : string * Source) : bool :=
  inside e.1 path &&
  (negb (bool_decide (src_type e.2 = TDirectory)) ||
   match below e.1 with Some s => negb (bool_decide (src_type s = TDirectory)) | None => false end).
(** A layer's entries over the layers below, as a function of the path. *)
Definition overlay (below : string -> option Source) (entries : list (string * Source)) (path : string)
    : option Source :=
  let below := unhidden entries.*1 below in
  let entries := filter (fun e => real e = true) entries in
  match find_first (fun e => bool_decide (e.1 = path)) entries with
  | Some e => Some e.2
  | None => if existsb (replaces below path) entries then None else below path
  end.
(** A layer as tools write them: no path twice, and no directory after what
    is in it. *)
Definition ordered (es : list (string * Source)) : bool :=
  (fix go es :=
     match es with
     | [] => true
     | e :: es => forallb (fun e' => negb (bool_decide (e'.1 = e.1)) && negb (inside e'.1 e.1)) es && go es
     end) es.
Definition layer_ok (es : list (string * Source)) : bool := ordered (filter (fun e => real e = true) es).
(** A layer, over layers that have no path but the [known] ones, lists no
    directory that the layers below only imply. *)
Definition lists_no_implied (below : string -> option Source) (known : list string) (es : list (string * Source)) : bool :=
  let below := unhidden es.*1 below in
  forallb (fun e =>
    negb (bool_decide (src_type e.2 = TDirectory)) || bool_decide (is_Some (below e.1)) ||
    forallb (fun p => negb (inside e.1 p) || bool_decide (below p = None)) known)
    (filter (fun e => real e = true) es).
(** Layers as tools write them, the lowest first. *)
Fixpoint layers_ok (below : string -> option Source) (known : list string) (Es : list (list (string * Source))) : bool :=
  match Es with
  | [] => true
  | es :: Es => layer_ok es && lists_no_implied below known es && layers_ok (overlay below es) (known ++ es.*1)%list Es
  end.
(** What the code takes a subtree away for: any entry but a directory over a
    listed directory. *)
Definition clears (below : string -> option Source) (path : string) (e : string * Source) : bool :=
  inside e.1 path && negb (bool_decide (src_type e.2 = TDirectory) && is_dir_entry (below e.1)).

Lemma apply_whiteout_lookup {V} w (tree : gmap string V) k :
  apply_whiteout tree w !! k = if hides k w then None else tree !! k.
Proof.
  unfold apply_whiteout, hides. destruct (split w) as [dir name].
  case_bool_decide; [apply remove_children_lookup|].
  destruct (strip_prefix ".wh." name) as [hidden|]; [|done]. unfold remove_path.
  rewrite remove_children_lookup. case_bool_decide as Hk; cbn [orb].
  - subst. rewrite lookup_delete_eq. by case_match.
  - by rewrite lookup_delete_ne.
Qed.
Lemma whiteouts_lookup (ws : list string) (tree : gmap string Source) k :
  foldl apply_whiteout tree ws !! k = unhidden ws (fun p => tree !! p) k.
Proof.
  unfold unhidden. revert tree. induction ws as [|w ws IH]; intros tree; [done|]. simpl.
  rewrite IH, apply_whiteout_lookup. by destruct (hides k w), (existsb (hides k) ws).
Qed.

(** One entry over the tree. *)
Lemma insert_entry_lookup pd path source tree tree' k :
  insert_entry pd path source tree = Ok tree' ->
  tree' !! k =
    if real (path, source) then
      if bool_decide (path = k) then Some source
      else if clears (fun p => tree !! p) k (path, source) then None else tree !! k
    else tree !! k.
Proof.
  unfold insert_entry, real. cbn [fst]. destruct (is_whiteout path); [by intros [= <-]|]. cbn [negb andb].
  intros H. apply bind_ok in H as (_ & _ & H). apply bind_ok in H as (_ & _ & H).
  destruct (is_empty path); [by injection H as <-|]. cbn [negb]. injection H as <-.
  destruct (decide (path = k)) as [->|Hk].
  { rewrite (bool_decide_true (k = k)) by done. apply lookup_insert_eq. }
  rewrite (bool_decide_false (path = k)), lookup_insert_ne by done.
  unfold clears. cbn [fst snd]. unfold is_dir_entry.
  rewrite <- negb_andb. destruct (negb _) eqn:Hr; cbn [andb].
  - rewrite remove_children_lookup. by destruct (inside path k).
  - by rewrite andb_false_r.
Qed.

Lemma inside_trans a b c : inside a b = true -> inside b c = true -> inside a c = true.
Proof.
  unfold inside. destruct (is_empty a) eqn:Ha; [done|]. cbn [orb].
  rewrite starts_with_true. intros [r ->]. assert (is_empty ((a +:+ "/") +:+ r) = false) as ->.
  { destruct a; done. }
  cbn [orb]. rewrite !starts_with_true. intros [r' ->]. exists (r +:+ "/" +:+ r').
  by rewrite !str_app_assoc.
Qed.
Lemma clears_kept T0 T1 k q s e :
  T1 e.1 = (if clears T0 e.1 (q, s) then None else T0 e.1) ->
  clears T0 k (q, s) = false -> clears T1 k e = clears T0 k e.
Proof.
  intros HT Hk. unfold clears at 1 2. destruct (inside e.1 k) eqn:Hi; [|done]. cbn [andb].
  rewrite HT. destruct (clears T0 e.1 (q, s)) eqn:Hr; [|done]. exfalso.
  unfold clears in Hr, Hk. cbn [fst snd] in *. apply andb_prop in Hr as [Hq Hd].
  by rewrite (inside_trans _ _ _ Hq Hi), Hd in Hk.
Qed.
Lemma existsb_ext_in {A} (f g : A -> bool) l : (forall x, In x l -> f x = g x) -> existsb f l = existsb g l.
Proof.
  induction l as [|x l IH]; intros H; [done|]. simpl. rewrite H by by left. f_equal.
  apply IH. intros y Hy. apply H. by right.
Qed.
Lemma forallb_ext_all {A} (f g : A -> bool) l : (forall x, f x = g x) -> forallb f l = forallb g l.
Proof. intros H. induction l as [|x l IH]; [done|]. simpl. by rewrite H, IH. Qed.
Lemma find_path_none (es : list (string * Source)) k :
  find_first (fun e => bool_decide (e.1 = k)) es = None <-> Forall (fun e => e.1 <> k) es.
Proof.
  rewrite find_first_none. apply Forall_iff. intros e. by rewrite bool_decide_eq_false.
Qed.

(** The lookups of the last loop, in a layer as tools write them. *)
Lemma insert_entries_lookup pd es tree tree' k :
  layer_ok es = true -> insert_entries pd es tree = Ok tree' ->
  tree' !! k =
    match find_first (fun e => bool_decide (e.1 = k)) (filter (fun e => real e = true) es) with
    | Some e => Some e.2
    | None => if existsb (clears (fun p => tree !! p) k) (filter (fun e => real e = true) es)
              then None else tree !! k
    end.
Proof.
  unfold layer_ok. revert tree. induction es as [|[q s] es IH]; intros tree Hok; cbn [insert_entries].
  { by intros [= <-]. }
  intros (t1 & H1 & H2)%bind_ok. pose proof (insert_entry_lookup pd q s tree t1) as HT.
  destruct (real (q, s)) eqn:Hreal.
  2: { rewrite filter_cons_False in Hok |- * by congruence. rewrite (IH t1 Hok H2), (HT k H1).
       erewrite existsb_ext_in; [done|]. intros e _. unfold clears. by rewrite (HT e.1 H1). }
  rewrite filter_cons_True in Hok |- * by done. cbn [ordered] in Hok.
  apply andb_prop in Hok as [Hall Hok]. rewrite (IH t1 Hok H2).
  set (rs := filter _ es) in *. rewrite forallb_forall in Hall. cbn [find_first existsb fst].
  assert (Hne : forall e, In e rs -> e.1 <> q /\ inside e.1 q = false).
  { intros e He. apply Hall in He as [Ha%negb_true_iff Hb%negb_true_iff]%andb_prop.
    by apply bool_decide_eq_false in Ha. }
  destruct (decide (q = k)) as [->|Hqk].
  - rewrite (bool_decide_true (k = k)) by done.
    assert (find_first (fun e => bool_decide (e.1 = k)) rs = None) as ->.
    { apply find_path_none, Forall_forall. intros e He. apply list_elem_of_In in He. by apply Hne. }
    assert (existsb (clears (fun p => t1 !! p) k) rs = false) as ->.
    { apply not_true_is_false. intros (e & He & Hr)%existsb_exists.
      unfold clears in Hr. destruct (Hne e He) as [_ Hi]. by rewrite Hi in Hr. }
    rewrite (HT k H1), bool_decide_true by done. done.
  - rewrite (bool_decide_false (q = k)) by done. case_match; [done|].
    rewrite (HT k H1), bool_decide_false by done.
    destruct (clears (fun p => tree !! p) k (q, s)) eqn:Hr; cbn [orb]; [by case_match|].
    erewrite existsb_ext_in; [done|]. intros e He. apply (clears_kept _ _ _ q s); [|done].
    rewrite (HT e.1 H1), bool_decide_false; [done|]. intros ->. by destruct (Hne e He).
Qed.

(** In layers as tools write them that is what the layer rules take away. *)
Lemma clears_replaces below known es k :
  (forall p, is_Some (below p) -> p ∈ known) -> lists_no_implied below known es = true ->
  let below := unhidden es.*1 below in
  (if existsb (clears below k) (filter (fun e => real e = true) es) then None else below k)
  = (if existsb (replaces below k) (filter (fun e => real e = true) es) then None else below k).
Proof.
  intros Hk Hok below'. unfold lists_no_implied in Hok. rewrite forallb_forall in Hok. fold below' in Hok.
  assert (Hk' : forall p, is_Some (below' p) -> p ∈ known).
  { intros p. unfold below', unhidden. case_match; [by intros []|apply Hk]. }
  destruct (existsb (replaces below' k) _) eqn:Hr.
  { apply existsb_exists in Hr as (e & He & [Hi Hx]%andb_prop).
    assert (existsb (clears below' k) (filter (fun e => real e = true) es) = true) as ->; [|done].
    apply existsb_exists. exists e. split; [done|]. unfold clears, is_dir_entry. rewrite Hi. cbn [andb].
    destruct (bool_decide (src_type e.2 = TDirectory)); [|done]. cbn [negb orb] in Hx. destruct (below' e.1); [exact Hx|done]. }
  destruct (existsb (clears below' k) _) eqn:Hc; [|done].
  apply existsb_exists in Hc as (e & He & [Hi Hx]%andb_prop).
  assert (Hre : replaces below' k e = false).
  { apply not_true_is_false. intros Hre. eapply not_true_iff_false; [exact Hr|]. apply existsb_exists. by exists e. }
  unfold replaces in Hre. rewrite Hi in Hre. cbn [andb] in Hre. specialize (Hok e He). unfold is_dir_entry in Hx.
  destruct (bool_decide (src_type e.2 = TDirectory)); [|done]. cbn [negb orb andb] in *.
  destruct (below' e.1) as [s|]; [by rewrite Hre in Hx|]. rewrite bool_decide_false in Hok by (by intros []).
  cbn [orb] in Hok. rewrite forallb_forall in Hok.
  destruct (below' k) as [s|] eqn:Hs; [|done]. exfalso. assert (Hin : In k known) by (apply list_elem_of_In, Hk'; by rewrite Hs).
  specialize (Hok k Hin). by rewrite Hi, Hs in Hok.
Qed.
Lemma overlay_known below (known : list string) es :
  (forall p, is_Some (below p) -> p ∈ known) -> forall p, is_Some (overlay below es p) -> p ∈ (known ++ es.*1)%list.
Proof.
  intros Hk p. unfold overlay. destruct (find_first _ _) as [e|] eqn:Hf; intros Hp; apply elem_of_app.
  - right. apply find_first_some in Hf as (l1 & l2 & Hl & He & _). apply bool_decide_eq_true in He as <-.
    assert (Hin : e ∈ filter (fun e => real e = true) es) by (rewrite Hl; set_solver).
    apply list_elem_of_filter in Hin as [_ Hin]. by apply list_elem_of_fmap_2.
  - left. apply Hk. destruct (existsb _ _) in Hp; [by destruct Hp|]. revert Hp. unfold unhidden. by case_match.
Qed.

(** [overlay] only looks at what the layers below answer. *)
#[export] Instance overlay_proper : Proper (pointwise_relation _ eq ==> eq ==> pointwise_relation _ eq) overlay.
Proof.
  intros f g Hfg es _ <- k. unfold overlay. cbv zeta.
  assert (Hu : forall p, unhidden es.*1 f p = unhidden es.*1 g p) by (intros p; unfold unhidden; by rewrite Hfg).
  rewrite Hu. erewrite (existsb_ext_in (replaces _ k)); [done|]. intros e _. unfold replaces. by rewrite Hu.
Qed.
Lemma foldl_overlay_proper Es f g k : (forall p, f p = g p) -> foldl overlay f Es k = foldl overlay g Es k.
Proof.
  revert f g. induction Es as [|es Es IH]; intros f g H; [apply H|]. simpl. apply IH.
  intros p. by apply overlay_proper.
Qed.

Section flatten.
Context (pd : string -> string).
Context (archive : string -> result string (list (result string TarEntry))).
Context (gunzip : string -> result string string).

(** The entries of each layer, as its tar holds them. *)
Fixpoint image_entries (i : nat) (layers : list Layer) : result string (list (list (string * Source))) :=
  match layers with
  | [] => Ok []
  | layer :: layers =>
      plain ← decompress pd gunzip layer;
      raw ← archive plain;
      es ← read_entries pd i raw;
      rest ← image_entries (S i) layers;
      Ok (es :: rest)
  end.

Lemma map_err_ok {E E' T} (f : E -> E') (r : result E T) t : map_err f r = Ok t <-> r = Ok t.
Proof. destruct r; naive_solver. Qed.

(** A layer applied, opened up. *)
Lemma apply_layer_ok f i fl fl' :
  apply_layer pd archive f i fl = Ok fl' ->
  exists raw es, archive (default "" (fl_layers fl !! i)) = Ok raw /\ read_entries pd i raw = Ok es /\
    insert_entries pd es (foldl apply_whiteout (fl_tree fl) es.*1) = Ok (fl_tree fl') /\
    fl_layers fl' = fl_layers fl.
Proof.
  unfold apply_layer. intros H. apply bind_ok in H as ([] & _ & H).
  apply bind_ok in H as (raw & Hraw%map_err_ok & H). apply bind_ok in H as (es & Hes & H).
  apply bind_ok in H as (tree & Ht & H). injection H as <-. by exists raw, es.
Qed.
Lemma apply_layer_overlay f i fl fl' raw es known k :
  apply_layer pd archive f i fl = Ok fl' -> archive (default "" (fl_layers fl !! i)) = Ok raw ->
  read_entries pd i raw = Ok es -> layer_ok es = true -> (forall p, is_Some (fl_tree fl !! p) -> p ∈ known) ->
  lists_no_implied (fun p => fl_tree fl !! p) known es = true ->
  fl_tree fl' !! k = overlay (fun p => fl_tree fl !! p) es k.
Proof.
  intros (raw' & es' & H1 & H2 & Hi & _)%apply_layer_ok Hraw Hes Hok Hkn Himp.
  rewrite Hraw in H1. injection H1 as <-. rewrite Hes in H2. injection H2 as <-.
  rewrite (insert_entries_lookup _ _ _ _ k Hok Hi). unfold overlay. cbv zeta.
  rewrite <- (clears_replaces _ known _ _ Hkn Himp), whiteouts_lookup.
  erewrite (existsb_ext_in (clears _ k)); [done|].
  intros e _. unfold clears. by rewrite whiteouts_lookup.
Qed.
Lemma layers_ok_proper Es f g known : (forall p, f p = g p) -> layers_ok f known Es = layers_ok g known Es.
Proof.
  revert f g known. induction Es as [|es Es IH]; intros f g known Hfg; [done|]. cbn [layers_ok].
  rewrite (IH (overlay f es) (overlay g es)) by (intros p; by apply overlay_proper). do 2 f_equal.
  unfold lists_no_implied. cbv zeta.
  assert (Hu : forall p, unhidden es.*1 f p = unhidden es.*1 g p) by (intros p; unfold unhidden; by rewrite Hfg).
  apply forallb_ext_all. intros e. rewrite Hu. f_equal. apply forallb_ext_all. intros p. by rewrite Hu.
Qed.

Lemma open_layers_overlay i layers fl fl' known :
  open_layers pd archive gunzip i layers fl = Ok fl' -> length (fl_layers fl) = i ->
  (forall p, is_Some (fl_tree fl !! p) -> p ∈ known) ->
  exists Es, image_entries i layers = Ok Es /\
    (layers_ok (fun p => fl_tree fl !! p) known Es = true ->
     forall k, fl_tree fl' !! k = foldl overlay (fun p => fl_tree fl !! p) Es k).
Proof.
  revert i fl known. induction layers as [|layer layers IH]; intros i fl known; cbn [open_layers image_entries].
  { intros [= <-] _ _. exists []. done. }
  intros (plain & -> & H)%bind_ok Hi Hkn. apply bind_ok in H as (fl1 & Ha%map_err_ok & H).
  pose proof (apply_layer_ok _ _ _ _ Ha) as (raw & es & Hraw & Hes & _ & Hl).
  pose proof (fun Hok Himp k => apply_layer_overlay _ _ _ _ _ _ known k Ha Hraw Hes Hok Hkn Himp) as Hov.
  cbn [fl_layers fl_tree] in *. rewrite <- Hi, list_lookup_middle in Hraw by done. simpl in Hraw.
  destruct (decide (layer_ok es = true /\ lists_no_implied (fun p => fl_tree fl !! p) known es = true)) as [[Hok Himp]|Hno].
  - destruct (IH (S i) fl1 (known ++ es.*1)%list H) as (Es & HEs & Htree); [rewrite Hl, length_app; simpl; lia| |].
    { intros p. rewrite (Hov Hok Himp). by apply overlay_known. }
    exists (es :: Es). rsimpl. rewrite Hraw. rsimpl. rewrite Hes. rsimpl. rewrite HEs. split; [done|].
    cbn [layers_ok foldl]. intros [_ Hoks]%andb_prop k. rewrite Htree.
    + apply foldl_overlay_proper. intros p. by apply Hov.
    + rewrite <- Hoks. apply layers_ok_proper. intros p. by apply Hov.
  - destruct (IH (S i) fl1 (elements (dom (fl_tree fl1))) H) as (Es & HEs & _); [rewrite Hl, length_app; simpl; lia| |].
    { intros p. by rewrite elem_of_elements, elem_of_dom. }
    exists (es :: Es). rsimpl. rewrite Hraw. rsimpl. rewrite Hes. rsimpl. rewrite HEs. split; [done|].
    cbn [layers_ok]. intros [[Hok Himp]%andb_prop _]%andb_prop. by destruct Hno.
Qed.

(** C29: Flattening an image is what the OCI layer rules say, path by path.
    Over layers as tools write them (in each, no path twice and no directory
    after what is in it; and none lists a directory which the layers below
    have only by what is in it, where the code deviates:
    [unlisted_directory_is_emptied]), what the tree holds at a path is a
    function of that path alone: the topmost layer's entry for it, or what
    is below unless that layer hides it (a whiteout of it or of a directory
    above it, or an opaque directory above it) or replaces it (an entry
    above it that is no directory, or a directory in the place of something
    that is none); a directory over a directory merges with it. *)
Theorem flatten_refines_layers f layers fl :
  open_image pd archive gunzip f layers = Ok fl ->
  exists Es, image_entries 0 layers = Ok Es /\
    (layers_ok (fun _ => None) [] Es = true ->
     forall path, fl_tree fl !! path = foldl overlay (fun _ => None) Es path).
Proof.
  unfold open_image. intros H. apply bind_ok in H as ([] & _ & H).
  destruct (open_layers_overlay _ _ _ _ [] H eq_refl) as (Es & HEs & Ht).
  { intros p. cbn [fl_tree]. rewrite lookup_empty. by intros []. }
  exists Es. split; [done|].
  intros Hok path. rewrite Ht; [by apply foldl_overlay_proper|]. rewrite <- Hok. by apply layers_ok_proper.
Qed.

(** ** What a flattened image is *)

Definition part_ok (part : string) : bool :=
  negb (bool_decide (part = "")) && negb (bool_decide (part = ".")) && negb (bool_decide (part = "..")).
(** A path relative to the root that can't leave it. *)
Definition normal_path (path : string) : bool := forallb part_ok (str_split "/" path).

Lemma str_split_join c parts :
  parts <> [] -> Forall (fun p => str_contains c p = false) parts ->
  str_split c (str_join (String c "") parts) = parts.
Proof.
  induction parts as [|p [|p' parts] IH]; intros Hne Hall; [done| |]; apply Forall_cons in Hall as [Hp Hall].
  - by apply str_split_single.
  - cbn [str_join]. change (String c "" +:+ ?t) with (String c t).
    rewrite str_split_app by done. f_equal. by apply IH.
Qed.
Lemma normal_parts_ok path parts out :
  normal_parts pd path parts = Ok out -> Forall (fun p => str_contains "/" p = false) parts ->
  Forall (fun p => part_ok p = true /\ str_contains "/" p = false) out.
Proof.
  revert out. induction parts as [|p parts IH]; intros out; cbn [normal_parts]; [by intros [= <-]|].
  intros H [Hp Hall]%Forall_cons. destruct (bool_decide (p = "")) eqn:H1; [by apply IH|].
  destruct (bool_decide (p = ".")) eqn:H2; [by apply IH|]. cbn [orb] in H.
  destruct (bool_decide (p = "..")) eqn:H3; [done|]. destruct (is_utf8 p); [|done].
  apply bind_ok in H as (rest & Hr & H). injection H as <-. constructor; [|by apply IH].
  unfold part_ok. by rewrite H1, H2, H3.
Qed.
Lemma normalise_ok path q : normalise pd path = Ok q -> q = "" \/ normal_path q = true.
Proof.
  unfold normalise. intros (parts & Hp & [= <-])%bind_ok.
  pose proof (normal_parts_ok _ _ _ Hp (str_split_pieces _ _)) as Hall.
  destruct parts as [|p parts]; [by left|right]. unfold normal_path. rewrite str_split_join; [|done|].
  - apply forallb_forall. intros x Hx%list_elem_of_In. rewrite Forall_forall in Hall. by apply Hall.
  - eapply Forall_impl; [exact Hall|]. by intros x [_ ?].
Qed.

(** What is in the tree of [n] layers. *)
Definition entry_ok (n : nat) (path : string) (s : Source) : Prop :=
  normal_path path = true /\ is_whiteout path = false /\ supported (src_type s) = true /\
  src_layer s < n /\
  (src_type s = TLink -> is_Some (ok (normalise pd (default "" (src_link s))))).

Lemma read_entries_ok i raw es :
  read_entries pd i raw = Ok es ->
  Forall (fun e => (e.1 = "" \/ normal_path e.1 = true) /\ src_layer e.2 = i) es.
Proof.
  revert es. induction raw as [|r raw IH]; intros es; cbn [read_entries]; [by intros [= <-]|].
  intros H. apply bind_ok in H as (entry & _ & H). apply bind_ok in H as (p & _ & H).
  apply bind_ok in H as (q & Hq%normalise_ok & H). apply bind_ok in H as (link & _ & H).
  apply bind_ok in H as (rest & Hrest & H). injection H as <-. constructor; [done|by apply IH].
Qed.
Lemma insert_entry_ok n path source tree tree' :
  insert_entry pd path source tree = Ok tree' -> path = "" \/ normal_path path = true -> src_layer source < n ->
  map_Forall (entry_ok n) tree -> map_Forall (entry_ok n) tree'.
Proof.
  intros H Hp Hn Hall k s. rewrite (insert_entry_lookup _ _ _ _ _ k H). revert H. unfold insert_entry, real.
  cbn [fst]. destruct (is_whiteout path) eqn:Hw; [intros _; apply Hall|]. cbn [negb andb].
  intros H. apply bind_ok in H as ([] & Hs%fail_if_ok%negb_false_iff & H).
  apply bind_ok in H as (x & Hl & _). destruct (is_empty path) eqn:He; [apply Hall|]. cbn [negb].
  destruct (bool_decide (path = k)) eqn:Hk.
  2: { destruct (clears _ _ _); [done|apply Hall]. }
  apply bool_decide_eq_true in Hk. intros [= <-]. subst k. destruct Hp as [->|Hp]; [done|]. split_and!; try done.
  intros Hk. rewrite Hk, bool_decide_true in Hl by done. rewrite Hl. by eexists.
Qed.
Lemma insert_entries_ok n es tree tree' :
  insert_entries pd es tree = Ok tree' ->
  Forall (fun e => (e.1 = "" \/ normal_path e.1 = true) /\ src_layer e.2 < n) es ->
  map_Forall (entry_ok n) tree -> map_Forall (entry_ok n) tree'.
Proof.
  revert tree. induction es as [|[q s] es IH]; intros tree; cbn [insert_entries]; [by intros [= <-]|].
  intros (t1 & H1 & H2)%bind_ok [[Hq Hs] Hall]%Forall_cons Ht. apply (IH t1 H2 Hall).
  by eapply insert_entry_ok.
Qed.
Lemma open_layers_ok i layers fl fl' :
  open_layers pd archive gunzip i layers fl = Ok fl' -> length (fl_layers fl) = i ->
  map_Forall (entry_ok i) (fl_tree fl) ->
  length (fl_layers fl') = i + length layers /\ map_Forall (entry_ok (length (fl_layers fl'))) (fl_tree fl').
Proof.
  revert i fl. induction layers as [|layer layers IH]; intros i fl; cbn [open_layers].
  { intros [= <-] Hi Hall. rewrite Hi. split; [simpl; lia|done]. }
  intros (plain & _ & H)%bind_ok Hi Hall. apply bind_ok in H as (fl1 & Ha%map_err_ok & H).
  destruct (apply_layer_ok _ _ _ _ Ha) as (raw & es & _ & Hes & Hins & Hl). cbn [fl_layers fl_tree] in *.
  destruct (IH (S i) fl1 H) as [Hlen Hok].
  - rewrite Hl, length_app. simpl. lia.
  - eapply insert_entries_ok; [exact Hins| |].
    + eapply Forall_impl; [exact (read_entries_ok _ _ _ Hes)|]. intros e [? ?]. split; [done|lia].
    + intros k s. rewrite whiteouts_lookup. unfold unhidden. case_match; [done|].
      intros (? & ? & ? & ? & ?)%Hall. split_and!; try done. lia.
  - split; [simpl; lia|done].
Qed.

(** C30: Nothing in a flattened image can name a place outside it: whatever the
    layers hold, every path of the tree is relative, without empty, [.] or
    [..] parts, and isn't a whiteout's; its entry is of a kind that can be
    written, from one of the image's layers; and a hard link's target stays
    in the image too. *)
Theorem flattened_paths_stay_inside f layers fl path s :
  open_image pd archive gunzip f layers = Ok fl -> fl_tree fl !! path = Some s ->
  length (fl_layers fl) = length layers /\ entry_ok (length layers) path s.
Proof.
  unfold open_image. intros H Hs. apply bind_ok in H as ([] & _ & H).
  destruct (open_layers_ok _ _ _ _ H eq_refl (map_Forall_empty _)) as [Hl Hok].
  simpl in Hl. rewrite Hl in Hok. split; [done|]. by apply Hok.
Qed.
End flatten.

(** ** Images for examples *)

Definition ex_header (t : EntryType) : Header := new_header t 420 0.
Definition ex_entry (path : string) (t : EntryType) : result string TarEntry :=
  Ok (mkTarEntry (Ok path) (Ok None) (ex_header t) 0).
Definition ex_layer (plain : string) : Layer := mkLayer plain (Ok plain) None None None.
(** Two layers: the second hides one file of the first and adds one. *)
Definition ex_archive (plain : string) : result string (list (result string TarEntry)) :=
  if bool_decide (plain = "base") then
    Ok [ex_entry "./" TDirectory; ex_entry "./app/" TDirectory; ex_entry "./app/old" TRegular;
        ex_entry "./app/keep" TRegular]
  else if bool_decide (plain = "top") then
    Ok [ex_entry "app" TDirectory; ex_entry "app/.wh.old" TRegular; ex_entry "app/new" TRegular]
  else if bool_decide (plain = "bare") then Ok [ex_entry "app/bin" TRegular]
  else Ok [ex_entry "app" TDirectory].
Definition ex_open (layers : list string) : result string Flattened :=
  open_image id ex_archive Ok None (ex_layer <$> layers).
Definition ex_image : Flattened := match ex_open ["base"; "top"] with Ok fl => fl | Err _ => mkFlattened [] ∅ end.

Lemma flatten_refines_layers_witness :
  exists Es, image_entries id ex_archive Ok 0 (ex_layer <$> ["base"; "top"]) = Ok Es /\
    fl_tree ex_image !! "app/old" = foldl overlay (fun _ => None) Es "app/old" /\
    fl_tree ex_image !! "app/new" = foldl overlay (fun _ => None) Es "app/new".
Proof.
  destruct (flatten_refines_layers id ex_archive Ok None (ex_layer <$> ["base"; "top"]) ex_image) as (Es & HEs & H).
  - vm_compute. reflexivity.
  - assert (Hok : layers_ok (fun _ => None) [] Es = true).
    { vm_compute in HEs. injection HEs as <-. vm_compute. reflexivity. }
    exists Es. split; [exact HEs|]. split; apply (H Hok).
Defined.
Lemma flattened_paths_stay_inside_witness :
  normal_path "app/keep" = true.
Proof.
  refine (proj1 (proj2 (flattened_paths_stay_inside id ex_archive Ok None (ex_layer <$> ["base"; "top"]) ex_image
    "app/keep" (mkSource 0 (ex_header TRegular) 0 None) _ _))).
  - vm_compute. reflexivity.
  - vm_compute. reflexivity.
Defined.

(** Layers may leave out the directories their files are in, and the tree
    to write makes up for those. But a later layer that lists such a
    directory takes it for a new one, and everything the lower layers have
    in it is gone. *)
Theorem unlisted_directory_is_emptied :
  exists fl below, ex_open ["bare"] = Ok below /\ is_Some (fl_tree below !! "app/bin") /\
    ex_open ["bare"; "dir"] = Ok fl /\ fl_tree fl !! "app/bin" = None /\ is_Some (fl_tree fl !! "app").
Proof.
  eexists _, _. split; [vm_compute; reflexivity|]. split; [by eexists; vm_compute|].
  split; [vm_compute; reflexivity|]. split; [by vm_compute|]. by eexists; vm_compute.
Qed.
