(* ===== verification/ImageTar.v ===== *)
(** * Images: the tree and the tar that are written

    What [with_guest_files] adds, and the order [write_tar] writes in. *)

From S2P Require Import Prelude RustStr Image ImageLaws.


(** ** Parents *)

Lemma elem_of_parents q p : q ∈ parents_of p <-> exists r, p = q +:+ "/" +:+ r.
Proof.
  revert q. induction p as [|c p IH]; intros q; cbn [parents_of].
  { rewrite elem_of_nil. split; [done|]. intros [r Hr]. by destruct q. }
  rewrite elem_of_app, list_elem_of_fmap. split.
  - intros [Hq|(q' & -> & [r ->]%IH)].
    + case_bool_decide; [|by apply not_elem_of_nil in Hq]. apply list_elem_of_singleton in Hq as ->. subst.
      by exists p.
    + by exists r.
  - intros [r Hr]. destruct q as [|d q].
    + injection Hr as -> ->. left. rewrite bool_decide_true by done. by apply list_elem_of_singleton.
    + injection Hr as -> ->. right. exists q. split; [done|]. apply IH. by exists r.
Qed.
Lemma parents_trans a b c : a ∈ parents_of b -> b ∈ parents_of c -> a ∈ parents_of c.
Proof.
  rewrite !elem_of_parents. intros [r ->] [r' ->]. exists (r +:+ "/" +:+ r'). by rewrite !str_app_assoc.
Qed.
Lemma parent_before q p : q ∈ parents_of p -> String.le q p /\ q <> p.
Proof.
  intros [r ->]%elem_of_parents. split; [apply str_le_prefix|]. intros He.
  apply (f_equal String.length) in He. rewrite !str_length_app in He. simpl in He. lia.
Qed.

(** ** The tree to write *)

Lemma or_dir_lookup ps tree k :
  foldl or_dir tree ps !! k =
    match tree !! k with
    | Some e => Some e
    | None => if bool_decide (k ∈ ps) then Some MadeDir else None
    end.
Proof.
  revert tree. induction ps as [|p ps IH]; intros tree; simpl.
  { by destruct (tree !! k). }
  rewrite IH.
  unfold or_dir. destruct (decide (k = p)) as [->|Hne].
  - rewrite (bool_decide_true (p ∈ p :: ps)) by left.
    destruct (tree !! p) eqn:Hp; [by rewrite Hp|by rewrite lookup_insert_eq].
  - rewrite (bool_decide_ext (k ∈ p :: ps) (k ∈ ps)) by (rewrite elem_of_cons; naive_solver).
    destruct (tree !! p); [done|]. by rewrite lookup_insert_ne.
Qed.

(** The tree with the guest's files, before the parents are made. *)
Definition guest_tree (init : string) (fl : Flattened) : gmap string TreeEntry :=
  foldl or_dir (<["etc/hosts" := FromGuest HOSTS 420]> (<["etc/resolv.conf" := FromGuest RESOLV_CONF 420]>
    (<["init" := FromGuest init 493]> (FromLayer <$> fl_tree fl)))) ["proc"; "sys"; "dev"].
Lemma elem_of_all_parents (tree : gmap string TreeEntry) k :
  k ∈ mjoin (parents_of <$> keys_of tree) <-> exists p, is_Some (tree !! p) /\ k ∈ parents_of p.
Proof.
  rewrite list_elem_of_join. split.
  - intros (l & Hk & (p & -> & Hp)%list_elem_of_fmap). exists p. by rewrite <- elem_of_keys.
  - intros (p & Hp%elem_of_keys & Hk). exists (parents_of p). split; [done|]. apply list_elem_of_fmap. eauto.
Qed.
Lemma with_guest_files_some init fl k :
  is_Some (with_guest_files init fl !! k) <->
  is_Some (guest_tree init fl !! k) \/ exists p, is_Some (guest_tree init fl !! p) /\ k ∈ parents_of p.
Proof.
  change (with_guest_files init fl) with (foldl or_dir (guest_tree init fl)
    (mjoin (parents_of <$> keys_of (guest_tree init fl)))).
  rewrite or_dir_lookup, <- elem_of_all_parents. destruct (guest_tree init fl !! k); [naive_solver|].
  case_bool_decide; [naive_solver|]. split; [by intros [? ?]|]. intros [[? ?]|?]; done.
Qed.
Lemma with_guest_files_closed init fl p q :
  is_Some (with_guest_files init fl !! p) -> q ∈ parents_of p -> is_Some (with_guest_files init fl !! q).
Proof.
  rewrite !with_guest_files_some. intros [Hp|(p' & Hp' & Hpp)] Hq; right; [by exists p|].
  exists p'. split; [done|]. by eapply parents_trans.
Qed.
Definition guest_files (init : string) : list (string * TreeEntry) :=
  [("init", FromGuest init 493); ("etc/resolv.conf", FromGuest RESOLV_CONF 420);
   ("etc/hosts", FromGuest HOSTS 420)].
Lemma with_guest_files_guest init fl k e :
  (k, e) ∈ guest_files init -> with_guest_files init fl !! k = Some e.
Proof.
  intros Hin. change (with_guest_files init fl) with (foldl or_dir (guest_tree init fl)
    (mjoin (parents_of <$> keys_of (guest_tree init fl)))).
  rewrite or_dir_lookup. unfold guest_tree. rewrite or_dir_lookup.
  repeat (apply elem_of_cons in Hin as [[= -> ->]|Hin]; [by simplify_map_eq|]).
  by apply not_elem_of_nil in Hin.
Qed.

(** ** The order of the tar *)

Definition hard_link (e : TreeEntry) : bool :=
  match e with FromLayer s => bool_decide (src_type s = TLink) | _ => false end.
Definition put_off (entries : list (string * TreeEntry)) : list (string * Source) :=
  omap (fun e => match e.2 with
                 | FromLayer s => if bool_decide (src_type s = TLink) then Some (e.1, s) else None
                 | _ => None
                 end) entries.
Definition written (entries : list (string * TreeEntry)) : list string :=
  (filter (fun e => hard_link e.2 = false) entries).*1.

Section tar.
Context (pd : string -> string).

Lemma write_entries_paths fa fd fl entries out links bytes out' links' bytes' :
  write_entries fa fd fl entries out links bytes = Ok (out', links', bytes') ->
  to_path <$> out' = (to_path <$> out) ++ written entries /\ links' = links ++ put_off entries.
Proof.
  revert out links bytes. induction entries as [|[p e] entries IH]; intros out links bytes; cbn [write_entries].
  { intros [= <- <- <-]. by rewrite !app_nil_r. }
  unfold written, put_off. rewrite filter_cons. cbn [omap list_omap fst snd]. cbv zeta.
  assert (Hput : forall header payload n,
    (_ ← fault_result (fa p);
     write_entries fa fd fl entries (out ++ [mkTarOut p header payload]) links (wrap64 (wrap64 (bytes + 4096) + n)))
    = Ok (out', links', bytes') ->
    to_path <$> out' = ((to_path <$> out) ++ p :: written entries)%list /\ links' = links ++ put_off entries).
  { intros header payload n (_ & _ & [H1 H2]%IH)%bind_ok. split; [|done].
    rewrite H1, fmap_app. by rewrite <- app_assoc. }
  destruct e as [s|c m|]; cbn [hard_link]; [|by rewrite decide_True; [apply Hput|]..].
  unfold src_type. destruct (hd_type (src_header s)) eqn:Ht; cbn [bool_decide];
    try (rewrite bool_decide_false by done); try (rewrite decide_True by done);
    try (by apply Hput).
  - intros (size & _ & H)%bind_ok. apply bind_ok in H as (data & _ & H). by eapply Hput.
  - intros (size & _ & H)%bind_ok. apply bind_ok in H as (data & _ & H). by eapply Hput.
  - rewrite bool_decide_true by done. rewrite decide_False by done. intros [H1 H2]%IH.
    split; [done|]. rewrite H2, <- app_assoc. done.
Qed.

(** The hard links: what each is written as. *)
Definition link_out (tree : gmap string TreeEntry) (l : string * Source) (o : TarOut) : Prop :=
  to_path o = l.1 /\ exists target e, to_payload o = PLink target /\
    normalise pd (default "" (src_link l.2)) = Ok target /\ tree !! target = Some e.
Lemma write_links_out fa tree links out out' :
  write_links pd fa tree links out = Ok out' ->
  exists more, out' = out ++ more /\ Forall2 (link_out tree) links more.
Proof.
  revert out. induction links as [|[p s] links IH]; intros out; cbn [write_links].
  { intros [= <-]. exists []. by rewrite app_nil_r. }
  intros (target & Ht & H)%bind_ok. apply bind_ok in H as (header & Hh & H).
  apply bind_ok in H as (_ & _ & (more & -> & Hall)%IH). exists (mkTarOut p header (PLink target) :: more).
  split; [by rewrite <- app_assoc|]. constructor; [|done]. split; [done|].
  destruct (tree !! target) as [e|] eqn:He; [|done]. by exists target, e.
Qed.

Lemma link_out_paths tree ls os : Forall2 (link_out tree) ls os -> to_path <$> os = ls.*1.
Proof. induction 1 as [|l o ls os [Ho _] Hall IH]; [done|]. rewrite !fmap_cons. by rewrite Ho, IH. Qed.
Lemma put_off_cons p e entries :
  put_off ((p, e) :: entries) =
    match e with
    | FromLayer s => if bool_decide (src_type s = TLink) then (p, s) :: put_off entries else put_off entries
    | _ => put_off entries
    end.
Proof. destruct e as [s|c m|]; [|done..]. unfold put_off. simpl. by case_bool_decide. Qed.
Lemma put_off_paths entries :
  (put_off entries).*1 = (filter (fun e => hard_link e.2 = true) entries).*1.
Proof.
  induction entries as [|[p e] entries IH]; [done|]. rewrite filter_cons, put_off_cons.
  destruct e as [s|c m|]; cbn [hard_link snd]; [|done..].
  case_bool_decide; [rewrite decide_True by done|by rewrite decide_False].
  by rewrite !fmap_cons, IH.
Qed.
Lemma written_sorted entries :
  StronglySorted key_le entries -> StronglySorted String.le (written entries).
Proof.
  unfold written. induction 1 as [|[p e] l Hs IH Hall]; [constructor|]. rewrite filter_cons.
  case_decide; [|done]. simpl. constructor; [done|]. apply Forall_fmap, Forall_forall.
  intros x [_ Hx]%list_elem_of_filter. rewrite Forall_forall in Hall. apply (Hall x Hx).
Qed.
Lemma elem_of_written (tree : gmap string TreeEntry) q :
  q ∈ written (entries_of tree) <-> exists e, tree !! q = Some e /\ hard_link e = false.
Proof.
  unfold written. rewrite list_elem_of_fmap. split.
  - intros ([p e] & -> & [He Hin]%list_elem_of_filter). apply elem_of_entries in Hin. eauto.
  - intros (e & Hq%elem_of_entries & He). exists (q, e). by rewrite list_elem_of_filter.
Qed.

Lemma filter_split {A} (p : A -> bool) l :
  filter (fun x => p x = false) l ++ filter (fun x => p x = true) l ≡ₚ l.
Proof.
  induction l as [|x l IH]; [done|]. rewrite !filter_cons. destruct (p x) eqn:Hx; simpl.
  - rewrite <- Permutation_middle. by constructor.
  - by constructor.
Qed.
Lemma sorted_lookup {A} (R : relation A) l i j a b :
  StronglySorted R l -> l !! i = Some a -> l !! j = Some b -> i < j -> R a b.
Proof.
  intros Hs. revert i j. induction Hs as [|x l Hs IH Hall]; intros i j; [done|].
  destruct j as [|j]; [lia|]. destruct i as [|i]; simpl.
  - intros [= ->] Hj _. rewrite Forall_forall in Hall. by eapply Hall, list_elem_of_lookup_2.
  - intros Hi Hj Hij. apply (IH i j); [done|done|lia].
Qed.
(** In a sorted list, what is before a value is at an index before it. *)
Lemma sorted_index_lt (l : list string) i j p q :
  StronglySorted String.le l -> l !! i = Some q -> l !! j = Some p -> String.le q p -> q <> p -> i < j.
Proof.
  intros Hs Hi Hj Hle Hne. destruct (decide (i < j)) as [|Hij]; [done|]. exfalso. apply Hne.
  destruct (decide (i = j)) as [->|]; [congruence|]. apply (anti_symm String.le); [done|].
  eapply (sorted_lookup String.le); [exact Hs|exact Hj|exact Hi|lia].
Qed.

(** All that is written: the tree in path order but for its hard links, then
    those. *)
Lemma write_tar_split fc fa fd ff fl tree out bytes :
  write_tar pd fc fa fd ff fl tree = Ok (out, bytes) ->
  exists out1 more, out = out1 ++ more /\ to_path <$> out1 = written (entries_of tree) /\
    Forall2 (link_out tree) (put_off (entries_of tree)) more /\
    to_path <$> out = written (entries_of tree) ++ (put_off (entries_of tree)).*1 /\
    to_path <$> out ≡ₚ keys_of tree.
Proof.
  intros H. unfold write_tar in H. apply bind_ok in H as (_ & _ & H).
  apply bind_ok in H as ([[out1 links] b] & [Hp Hl]%write_entries_paths & H).
  apply bind_ok in H as (out' & (more & -> & Hall)%write_links_out & H).
  apply bind_ok in H as (_ & _ & H). injection H as <- <-. simpl in Hp, Hl. subst links.
  assert (Hpaths : to_path <$> out1 ++ more = written (entries_of tree) ++ (put_off (entries_of tree)).*1).
  { by rewrite fmap_app, Hp, (link_out_paths _ _ _ Hall). }
  exists out1, more. split_and!; try done. rewrite Hpaths, put_off_paths. unfold written, keys_of.
  rewrite <- fmap_app. apply fmap_Permutation, filter_split.
Qed.

(** The tar a root filesystem is made of can be unpacked as it is read.
    It holds every path of the tree once; a directory comes before what is
    in it, and the file a hard link names before the link, unless that is
    itself a hard link, which all come last; and the guest's own files are
    in it, with every directory above them. *)
Theorem tar_is_in_order fc fa fd ff init fl out bytes :
  let tree := with_guest_files init fl in
  write_tar pd fc fa fd ff fl tree = Ok (out, bytes) ->
  let paths := to_path <$> out in
  paths ≡ₚ keys_of tree /\
  (forall k e, (k, e) ∈ guest_files init -> tree !! k = Some e) /\
  (forall j p q, paths !! j = Some p -> q ∈ parents_of p ->
     exists e, tree !! q = Some e /\
       (hard_link e = false -> exists i, i < j /\ paths !! i = Some q)) /\
  (forall j p e, paths !! j = Some p -> tree !! p = Some e -> hard_link e = true ->
     exists target e', to_payload <$> out !! j = Some (PLink target) /\ tree !! target = Some e' /\
       (hard_link e' = false -> exists i, i < j /\ paths !! i = Some target)).
Proof.
  intros tree H paths. destruct (write_tar_split _ _ _ _ _ _ _ _ H) as (out1 & more & -> & Hp & Hall & Hpaths & Hperm).
  fold paths in Hpaths, Hperm.
  assert (Hfirst : forall j q e, tree !! q = Some e -> hard_link e = false ->
    length (written (entries_of tree)) <= j -> exists i, i < j /\ paths !! i = Some q).
  { intros j q e Hq He Hj. assert (q ∈ written (entries_of tree)) as [i Hi]%list_elem_of_lookup
      by (apply elem_of_written; eauto).
    exists i. pose proof (lookup_lt_Some _ _ _ Hi). split; [lia|].
    rewrite Hpaths. by apply lookup_app_l_Some. }
  split_and!; [done|..].
  - intros k e. apply with_guest_files_guest.
  - intros j p q Hj Hq. assert (Hin : is_Some (tree !! p)).
    { rewrite <- elem_of_keys, <- Hperm. by eapply list_elem_of_lookup_2. }
    destruct (with_guest_files_closed _ _ _ _ Hin Hq) as [e He]. exists e. split; [done|]. intros Hh.
    destruct (decide (j < length (written (entries_of tree)))) as [Hlt|Hge]; [|apply (Hfirst j q e); [done..|lia]].
    assert (q ∈ written (entries_of tree)) as [i Hi]%list_elem_of_lookup by (apply elem_of_written; eauto).
    rewrite Hpaths, lookup_app_l in Hj by done. destruct (parent_before _ _ Hq) as [Hle Hne].
    exists i. split; [|rewrite Hpaths; by apply lookup_app_l_Some].
    eapply sorted_index_lt; [apply written_sorted, entries_of_sorted|done..].
  - intros j p e Hj He Hh.
    destruct (decide (j < length (written (entries_of tree)))) as [Hlt|Hge].
    { rewrite Hpaths, lookup_app_l in Hj by done. apply list_elem_of_lookup_2, elem_of_written in Hj.
      destruct Hj as (e' & He' & Hh'). congruence. }
    assert (Hlen : length out1 = length (written (entries_of tree))) by (rewrite <- Hp; by rewrite length_fmap).
    destruct (more !! (j - length out1)) as [o|] eqn:Ho.
    2: { exfalso. unfold paths in Hj. rewrite list_lookup_fmap, lookup_app_r, Ho in Hj by lia. done. }
    destruct (Forall2_lookup_r _ _ _ _ _ Hall Ho) as (l & _ & _ & target & e' & Hpay & _ & Ht).
    exists target, e'. split; [|split; [done|]].
    + rewrite lookup_app_r, Ho by lia. simpl. by rewrite Hpay.
    + intros Hh'. apply (Hfirst j target e'); [done..|lia].
Qed.
End tar.

(** ** Examples *)

Definition ex_write (fl : Flattened) : result string (list TarOut * N) :=
  write_tar id None (fun _ => None) (fun _ => None) None fl (with_guest_files "init bytes" fl).

Lemma tar_is_in_order_witness :
  exists out bytes, ex_write ex_image = Ok (out, bytes) /\
    to_path <$> out ≡ₚ keys_of (with_guest_files "init bytes" ex_image).
Proof.
  destruct (ex_write ex_image) as [[out bytes]|e] eqn:E; [|vm_compute in E; discriminate E].
  exists out, bytes. split; [reflexivity|].
  exact (proj1 (tar_is_in_order id None (fun _ => None) (fun _ => None) None "init bytes" ex_image out bytes E)).
Defined.

(** Hard links to a hard link: [a] to [b], and [b] to the file [c]. *)
Definition ex_links : Flattened :=
  let source t link := mkSource 0 (ex_header t) 0 link in
  mkFlattened [""] (<["a" := source TLink (Some "b")]> (<["b" := source TLink (Some "c")]>
    {["c" := source TRegular None]})).
(** Hard links come last, but in path order: one that names another hard
    link can be written before the one it names. *)
Theorem hard_link_before_its_target :
  exists out bytes, ex_write ex_links = Ok (out, bytes) /\
    (fun o => (to_path o, to_payload o)) <$> drop (length out - 2) out = [("a", PLink "b"); ("b", PLink "c")].
Proof.
  destruct (ex_write ex_links) as [[out bytes]|e] eqn:E; [|by vm_compute in E].
  exists out, bytes. split; [done|]. vm_compute in E. injection E as <- <-. by vm_compute.
Qed.
