(* ===== verification/RunConfig.v ===== *)
(** * What an image asks for when it runs

    cirro-image's [run_config.rs]: the command, the environment with its
    overrides and the user, by Docker's rules; and [cache.rs]'s
    [run_config], which takes them from an image's own config. *)

From S2P Require Import Prelude RustStr Image.

Record RunConfig := mkRunConfig {
  rc_entrypoint : list string;
  rc_cmd : list string;
  rc_env : list string;
  rc_workdir : option string;
  rc_user : option (N * N);
}.
Definition default_run_config : RunConfig := mkRunConfig [] [] [] None None.

(** [RunConfig::command]. *)
Definition command (c : RunConfig) (args : list string) : list string :=
  rc_entrypoint c ++ match args with [] => rc_cmd c | _ => args end.

(** [merge_env]: the key of an entry, and one override. *)
Definition env_key (entry : string) : string :=
  match split_once "=" entry with Some (k, _) => k | None => entry end.
Fixpoint override (merged : list string) (entry : string) : list string :=
  match merged with
  | [] => [entry]
  | e :: merged =>
      if bool_decide (env_key e = env_key entry) then entry :: merged else e :: override merged entry
  end.
Definition merge_env (env overrides : list string) : list string := foldl override env overrides.

(** [resolve_user]. The first line of a file with enough fields and the
    wanted one; its numbers may not parse. *)
Definition fields (text : string) : list (list string) := str_split ":" <$> str_lines text.
Definition field_is (n : nat) (s : string) (f : list string) : bool := bool_decide (f !! n = Some s).
Definition passwd_entry (passwd : option string) (matches : list string -> bool) : option (N * N) :=
  text ← passwd;
  f ← find_first (fun f => (4 <=? length f)%nat && matches f) (fields text);
  uid ← (f !! 2%nat) ≫= parse_uint u32_max;
  gid ← (f !! 3%nat) ≫= parse_uint u32_max;
  Some (uid, gid).
Definition group_entry (group : option string) (g : string) : option N :=
  text ← group;
  f ← find_first (fun f => (3 <=? length f)%nat && field_is 0 g f) (fields text);
  (f !! 2%nat) ≫= parse_uint u32_max.
Definition resolve_user (user : string) (passwd group : option string)
    : result string (option (N * N)) :=
  if is_empty user then Ok None
  else
    let '(user_part, group_part) :=
      match split_once ":" user with Some (u, g) => (u, Some g) | None => (user, None) end in
    '(uid, primary_gid) ←
      match parse_uint u32_max user_part with
      | Some uid => Ok (uid, from_option snd 0%N (passwd_entry passwd (field_is 2 user_part)))
      | None => ok_or (passwd_entry passwd (field_is 0 user_part))
                  ("the image's user " +:+ debug_str user_part +:+ " isn't in its /etc/passwd")
      end;
    gid ←
      match group_part with
      | None => Ok primary_gid
      | Some g =>
          if is_empty g then Ok primary_gid
          else
            match parse_uint u32_max g with
            | Some gid => Ok gid
            | None => ok_or (group_entry group g)
                        ("the image's group " +:+ debug_str g +:+ " isn't in its /etc/group")
            end
      end;
    Ok (Some (uid, gid)).

(** An OCI config's [config], and [cache.rs]'s [run_config]. [lossy] is
    [String::from_utf8_lossy]; [f] what opening a layer's copy answers. *)
Record OciConfig := mkOciConfig {
  oci_user : option string;
  oci_entrypoint : option (list string);
  oci_cmd : option (list string);
  oci_env : option (list string);
  oci_working_dir : option string;
}.
Definition run_config (lossy : string -> string) (f : fault) (config : option OciConfig) (fl : Flattened)
    : result string RunConfig :=
  match config with
  | None => Ok default_run_config
  | Some config =>
      let text path := lossy <$> read_file f fl path in
      user ← resolve_user (default "" (oci_user config)) (text "/etc/passwd") (text "/etc/group");
      Ok (mkRunConfig (default [] (oci_entrypoint config)) (default [] (oci_cmd config))
            (default [] (oci_env config))
            (d ← oci_working_dir config; if is_empty d then None else Some d) user)
  end.

(** ** Environments *)

(** The value of a key by the first entry, as [getenv] takes it, and by the
    last, as guest-init does. *)
Definition entry_value (key entry : string) : option string :=
  '(k, v) ← split_once "=" entry; if bool_decide (k = key) then Some v else None.
Definition env_first (env : list string) (key : string) : option string := find_map (entry_value key) env.
Definition env_last (env : list string) (key : string) : option string :=
  find_map (entry_value key) (reverse env).
Definition keys_once (env : list string) : Prop := NoDup (env_key <$> env).
Definition has_value (entry : string) : Prop := is_Some (split_once "=" entry).

Lemma entry_value_key key entry v : entry_value key entry = Some v -> env_key entry = key.
Proof.
  unfold entry_value, env_key. destruct (split_once "=" entry) as [[k w]|]; [|done]. simpl.
  by case_bool_decide.
Qed.
Lemma override_keys env entry :
  env_key <$> override env entry =
    if bool_decide (env_key entry ∈ env_key <$> env) then env_key <$> env
    else (env_key <$> env) ++ [env_key entry].
Proof.
  induction env as [|e env IH]; [done|]. cbn [override].
  destruct (decide (env_key e = env_key entry)) as [He|He].
  - rewrite !bool_decide_true; [by rewrite !fmap_cons, He|rewrite fmap_cons, He; by left|done].
  - rewrite (bool_decide_false _ He), !fmap_cons, IH. destruct (decide (env_key entry ∈ env_key <$> env)) as [Hin|Hin].
    + rewrite (bool_decide_true (env_key entry ∈ env_key <$> env)) by done. by rewrite bool_decide_true by by right.
    + rewrite (bool_decide_false (env_key entry ∈ env_key <$> env)) by done.
      rewrite bool_decide_false; [done|]. by intros [Heq|?]%elem_of_cons; [congruence|].
Qed.
Lemma override_once env entry : keys_once env -> keys_once (override env entry).
Proof.
  unfold keys_once. intros H. rewrite override_keys. case_bool_decide as Hin; [done|].
  apply NoDup_app. split_and!; [done| |apply NoDup_singleton].
  intros k Hk ->%list_elem_of_singleton. done.
Qed.
Lemma merge_env_once env overrides : keys_once env -> keys_once (merge_env env overrides).
Proof.
  unfold merge_env. revert env. induction overrides as [|o os IH]; intros env H; [done|].
  apply IH. by apply override_once.
Qed.

Lemma env_first_none env key : (key ∉ env_key <$> env) -> env_first env key = None.
Proof.
  intros H. apply find_map_none, Forall_forall. intros e He.
  destruct (entry_value key e) as [v|] eqn:Hv; [|done]. destruct H.
  apply list_elem_of_fmap. exists e. split; [|done]. symmetry. by eapply entry_value_key.
Qed.
Lemma env_first_app env env' key :
  env_first (env ++ env') key = match env_first env key with Some v => Some v | None => env_first env' key end.
Proof. unfold env_first. induction env as [|e env IH]; [done|]. simpl. by destruct (entry_value key e). Qed.
(** Once keys are unique, the first and the last entry are the same one. *)
Lemma env_last_first env key : keys_once env -> env_last env key = env_first env key.
Proof.
  unfold keys_once. induction env as [|e env IH]; [done|]. rewrite fmap_cons, NoDup_cons. intros [He Hn].
  unfold env_last. rewrite reverse_cons.
  change (env_first (reverse env ++ [e]) key = env_first (e :: env) key). rewrite env_first_app.
  change (env_first (reverse env) key) with (env_last env key). rewrite IH by done. cbn [env_first find_map].
  destruct (entry_value key e) as [v|] eqn:Hv.
  - rewrite env_first_none; [done|]. apply entry_value_key in Hv as <-. done.
  - change (find_map (entry_value key) env) with (env_first env key). by destruct (env_first env key).
Qed.

Lemma env_first_override env entry key :
  has_value entry -> keys_once env ->
  env_first (override env entry) key =
    match entry_value key entry with Some v => Some v | None => env_first env key end.
Proof.
  unfold keys_once. intros [[k v] Hk] Hn. assert (Hkey : env_key entry = k) by (unfold env_key; by rewrite Hk).
  assert (Hval : entry_value key entry = if bool_decide (k = key) then Some v else None)
    by (unfold entry_value; by rewrite Hk).
  induction env as [|e env IH]; cbn [override].
  { unfold env_first. cbn [find_map]. by destruct (entry_value key entry). }
  rewrite fmap_cons, NoDup_cons in Hn. destruct Hn as [He Hn]. rewrite Hkey in *.
  destruct (decide (env_key e = k)) as [Hek|Hek]; [rewrite (bool_decide_true _ Hek)|rewrite (bool_decide_false _ Hek)].
  - unfold env_first. cbn [find_map]. destruct (entry_value key entry) as [w|] eqn:Hw; [done|].
    destruct (entry_value key e) as [w|] eqn:Hwe; [|done]. apply entry_value_key in Hwe.
    rewrite bool_decide_true in Hval by congruence. congruence.
  - unfold env_first in *. cbn [find_map]. destruct (entry_value key e) as [w|] eqn:Hwe.
    + apply entry_value_key in Hwe. rewrite Hval, bool_decide_false by congruence. done.
    + by apply IH.
Qed.
(** The last override of a key wins, else the image's own entry. *)
Lemma env_first_merge env overrides key :
  Forall has_value overrides -> keys_once env ->
  env_first (merge_env env overrides) key =
    match env_last overrides key with Some v => Some v | None => env_first env key end.
Proof.
  intros Hall. revert env. induction Hall as [|o os Ho Hall IH]; intros env Hn; [done|].
  cbn [merge_env foldl]. rewrite IH by by apply override_once. rewrite env_first_override by done.
  unfold env_last. rewrite reverse_cons.
  change (find_map (entry_value key) (reverse os ++ [o])) with (env_first (reverse os ++ [o]) key).
  rewrite env_first_app. change (env_first (reverse os) key) with (find_map (entry_value key) (reverse os)).
  destruct (find_map _ (reverse os)); [done|]. unfold env_first at 2. cbn [find_map].
  by destruct (entry_value key o).
Qed.
