(* ===== verification/Trace.v ===== *)
(** * Operations that may be killed at any point

    An operation on some state, as the sequence of the states it shows from
    outside, one per call that changes them, and its end. What holds of every
    one of them holds wherever the process is killed. *)

From S2P Require Import Prelude.

Definition traceM (S T A : Type) : Type := S -> list T * S * result string A.

Section monad.
Context {S T : Type}.
#[global] Instance trace_ret : MRet (traceM S T) := fun _ a s => ([], s, Ok a).
#[global] Instance trace_bind : MBind (traceM S T) := fun _ _ k m s =>
  match m s with
  | (t, s, Ok a) => let '(t', s, r) := k a s in (t ++ t', s, r)
  | (t, s, Err e) => (t, s, Err e)
  end.
Definition lift {A} (r : result string A) : traceM S T A := fun s => ([], s, r).
Definition with_context {A} (context : string) (m : traceM S T A) : traceM S T A := fun s =>
  let '(t, s, r) := m s in (t, s, map_err (fun e => context +:+ ": " +:+ e) r).
(** The state, and one call that changes it. *)
Definition what_is : traceM S S S := fun s => ([], s, Ok s).
Definition show (g : S -> S) : traceM S S unit := fun s => ([g s], g s, Ok tt).
(** An operation on one part of the state. *)
Definition zoom {A} (get : S -> T) (set : T -> S -> S) (m : traceM T T A) : traceM S S A := fun s =>
  let '(t, p, r) := m (get s) in ((fun p => set p s) <$> t, set p s, r).
(** What a [Drop] does, whatever came before it. *)
Definition finally {A} (m : traceM S T A) (drop : traceM S T unit) : traceM S T A := fun s =>
  let '(t, s, r) := m s in
  let '(t', s, _) := drop s in
  (t ++ t', s, r).

(** ** Triples

    From a state where [P] holds, every state an operation shows keeps [I],
    and it ends with [Q]. *)
Section traced.
Context (view : S -> T) (I : T -> Prop).

Definition traced {A} (P : T -> Prop) (m : traceM S T A) (Q : result string A -> T -> Prop) : Prop :=
  forall s, P (view s) -> let '(t, s', r) := m s in Forall I t /\ Q r (view s').

Lemma traced_ret {A} (a : A) (P : T -> Prop) Q : (forall f, P f -> Q (Ok a) f) -> traced P (mret a) Q.
Proof. intros H s Hs. split; [constructor|by apply H]. Qed.
Lemma traced_lift {A} (r : result string A) (P : T -> Prop) Q : (forall f, P f -> Q r f) -> traced P (lift r) Q.
Proof. intros H s Hs. split; [constructor|by apply H]. Qed.
Lemma traced_bind {A B} P (m : traceM S T A) Q (k : A -> traceM S T B) R :
  traced P m Q -> (forall a, traced (Q (Ok a)) (k a) R) -> (forall e f, Q (Err e) f -> R (Err e) f) ->
  traced P (m ≫= k) R.
Proof.
  intros Hm Hk He s Hs. specialize (Hm s Hs). unfold mbind, trace_bind.
  destruct (m s) as [[t s'] [a|e]]; [|destruct Hm; split; [done|by apply He]].
  destruct Hm as [Ht Hq]. specialize (Hk a s' Hq). destruct (k a s') as [[t' s''] r].
  destruct Hk as [Ht' Hr]. split; [by apply Forall_app|done].
Qed.
Lemma traced_context {A} c P (m : traceM S T A) Q :
  traced P m (fun r => Q (map_err (fun e => c +:+ ": " +:+ e) r)) -> traced P (with_context c m) Q.
Proof. intros H s Hs. specialize (H s Hs). unfold with_context. by destruct (m s) as [[t s'] r]. Qed.
Lemma traced_finally {A} P (m : traceM S T A) Q drop R :
  traced P m Q -> (forall r, traced (Q r) drop (fun _ => R r)) -> traced P (finally m drop) R.
Proof.
  intros Hm Hd s Hs. specialize (Hm s Hs). unfold finally. destruct (m s) as [[t s'] r]. destruct Hm as [Ht Hq].
  specialize (Hd r s' Hq). destruct (drop s') as [[t' s''] r']. destruct Hd as [Ht' Hr].
  split; [by apply Forall_app|done].
Qed.
Lemma traced_weaken {A} (P P' : T -> Prop) (m : traceM S T A) (Q Q' : result string A -> T -> Prop) :
  traced P' m Q' -> (forall f, P f -> P' f) -> (forall r f, Q' r f -> Q r f) -> traced P m Q.
Proof.
  intros H HP HQ s Hs. specialize (H s (HP _ Hs)). destruct (m s) as [[t s'] r]. destruct H. auto.
Qed.

Lemma traced_pure {A} (phi : Prop) (P : T -> Prop) (m : traceM S T A) Q :
  (phi -> traced P m Q) -> traced (fun f => P f /\ phi) m Q.
Proof. intros H s [Hs Hp]. by apply (H Hp). Qed.

(** After a step that failed, whatever it left keeps the invariant. *)
Definition or_inv {A} (Q : A -> T -> Prop) (r : result string A) (f : T) : Prop :=
  I f /\ match r with Ok a => Q a f | Err _ => True end.
Lemma or_inv_err {A B} (Q : A -> T -> Prop) (R : B -> T -> Prop) e f : or_inv Q (Err e) f -> or_inv R (Err e) f.
Proof. by intros [? _]. Qed.
Lemma or_inv_ok {A} (Q : A -> T -> Prop) a f : I f -> Q a f -> I f /\ or_inv Q (Ok a) f.
Proof. unfold or_inv. auto. Qed.
End traced.
End monad.

(** The steps of a state that is shown as it is. *)
Section shown.
Context {S : Type} (I : S -> Prop).
Lemma traced_show (g : S -> S) (P : S -> Prop) Q :
  (forall s, P s -> I (g s) /\ Q (Ok tt) (g s)) -> traced id I P (show g) Q.
Proof. intros H s Hs. destruct (H s Hs). split; [by constructor|done]. Qed.
Lemma traced_what_is (P : S -> Prop) Q : (forall s, P s -> Q (Ok s) s) -> traced id I P what_is Q.
Proof. intros H s Hs. split; [constructor|by apply H]. Qed.
Lemma traced_zoom {T A} (get : S -> T) (set : T -> S -> S) (m : traceM T T A) (P : S -> Prop) Q :
  (forall s, P s -> let '(t, p, r) := m (get s) in Forall (fun p => I (set p s)) t /\ Q r (set p s)) ->
  traced id I P (zoom get set m) Q.
Proof.
  intros H s Hs. specialize (H s Hs). unfold zoom. destruct (m (get s)) as [[t p] r]. destruct H as [Ht Hq].
  split; [by apply Forall_fmap|done].
Qed.
End shown.

(** A run of an operation that ends without an error. *)
Section succ.
Context {S T : Type}.
Definition succ {A} (m : traceM S T A) (s : S) (a : A) (s' : S) : Prop := exists t, m s = (t, s', Ok a).
Lemma succ_bind {A B} (m : traceM S T A) (k : A -> traceM S T B) s a s1 b s2 :
  succ m s a s1 -> succ (k a) s1 b s2 -> succ (m ≫= k) s b s2.
Proof. intros [t E] [t' E']. unfold succ, mbind, trace_bind. rewrite E, E'. by eexists. Qed.
Lemma succ_bind_inv {A B} (m : traceM S T A) (k : A -> traceM S T B) s b s2 :
  succ (m ≫= k) s b s2 -> exists a s1, succ m s a s1 /\ succ (k a) s1 b s2.
Proof.
  intros [t E]. unfold mbind, trace_bind in E. destruct (m s) as [[t1 s1] [a|e]] eqn:Em; [|done].
  destruct (k a s1) as [[t2 s3] r] eqn:Ek. injection E as _ -> ->. exists a, s1. split; by eexists.
Qed.
Lemma succ_ret {A} (a : A) s : succ (mret a) s a s.
Proof. by eexists. Qed.
Lemma succ_lift {A} (a : A) s : succ (lift (Ok a)) s a s.
Proof. by eexists. Qed.
Lemma succ_any {A} (m : traceM S T A) s : is_ok (m s).2 = true -> exists a s', succ m s a s'.
Proof. unfold succ. destruct (m s) as [[t s'] [a|e]]; [eauto|done]. Qed.
End succ.
Lemma succ_show {S} (g : S -> S) s : succ (show g) s tt (g s).
Proof. by eexists. Qed.
Lemma succ_what_is {S} (s : S) : succ what_is s s s.
Proof. by eexists. Qed.
Lemma succ_zoom {S T A} (get : S -> T) (set : T -> S -> S) (m : traceM T T A) s a p :
  succ m (get s) a p -> succ (zoom get set m) s a (set p s).
Proof. intros [t E]. unfold succ, zoom. rewrite E. by eexists. Qed.
