(* ===== verification/GuestInit.v ===== *)
(** * guest-init, PID 1 of every VM

    [crates/guest-init]: how the app is launched ([launch.rs]), what the
    forked child does ([main.rs]'s [exec_app]), how the config is read, the
    boot up to there, and the single-threaded state machine of fork, reap and
    shutdown with the [SIGINT] handler running between any two of its
    steps. *)

From S2P Require Import Prelude RustStr Proto Validate Image RunConfig.

(** ** launch.rs *)

Definition DEFAULT_PATH : string := "/usr/local/sbin:/usr/local/bin:/usr/sbin:/usr/bin:/sbin:/bin".

Definition has_key (env : list string) (key : string) : bool :=
  existsb (fun e => match split_once "=" e with Some (k, _) => bool_decide (k = key) | None => false end) env.
Definition app_env (env : list string) : list string :=
  env ++ (if has_key env "PATH" then [] else ["PATH=" +:+ DEFAULT_PATH])
      ++ (if has_key env "HOME" then [] else ["HOME=/"]).

Definition lookup (env : list string) (key : string) : option string :=
  find_map (fun e => '(k, v) ← split_once "=" e; if bool_decide (k = key) then Some v else None)
    (reverse env).

(** [Path::new(dir).join(exec)] for a non-empty [dir] and an [exec] with no
    slash. *)
Definition dir_join (dir exec : string) : string :=
  if ends_with "/" dir then dir +:+ exec else dir +:+ "/" +:+ exec.
Definition resolve (exec path : string) (is_executable : string -> bool) : option string :=
  if str_contains "/" exec then Some exec
  else find_first is_executable
         ((fun dir => dir_join dir exec) <$> filter (fun dir => is_empty dir = false) (str_split ":" path)).

(** ** The child: [exec_app]

    [Config] of config.rs is the [GuestConfig] the agent sends. The child's
    own attributes, and what replaces its image when [execve] succeeds. *)

Record Child := mkChild {
  ch_cwd : string;
  ch_groups : list N;
  ch_gid : N;
  ch_uid : N;
  ch_image : option (string * list string * list string);
}.
Definition child_of_init : Child := mkChild "/" [] 0 0 None.

(** What the kernel answers each call, and which files it lets the child
    run. *)
Record ExecOutcome := mkExecOutcome {
  xo_chdir : fault;
  xo_setgroups : fault;
  xo_setgid : fault;
  xo_setuid : fault;
  xo_is_executable : Child -> string -> bool;
  xo_execve : fault;
}.
Definition set_cwd (d : string) (c : Child) : Child :=
  mkChild d (ch_groups c) (ch_gid c) (ch_uid c) (ch_image c).
Definition set_groups (g : list N) (c : Child) : Child :=
  mkChild (ch_cwd c) g (ch_gid c) (ch_uid c) (ch_image c).
Definition set_gid (g : N) (c : Child) : Child :=
  mkChild (ch_cwd c) (ch_groups c) g (ch_uid c) (ch_image c).
Definition set_uid (u : N) (c : Child) : Child :=
  mkChild (ch_cwd c) (ch_groups c) (ch_gid c) u (ch_image c).
Definition set_image (i : string * list string * list string) (c : Child) : Child :=
  mkChild (ch_cwd c) (ch_groups c) (ch_gid c) (ch_uid c) (Some i).

(** The child's steps: its attributes are kept whether a step failed or
    not, and a failure is [exec_app]'s own return. *)
Definition childM (A : Type) : Type := Child -> Child * result string A.
#[global] Instance child_ret : MRet childM := fun _ a c => (c, Ok a).
#[global] Instance child_bind : MBind childM := fun _ _ k m c =>
  match m c with (c, Ok a) => k a c | (c, Err e) => (c, Err e) end.
Definition child_try (f : fault) (g : Child -> Child) : childM unit := fun c =>
  match f with Some e => (c, Err e) | None => (g c, Ok tt) end.
Definition child_lift {A} (r : result string A) : childM A := fun c => (c, r).
Definition child_map_err {A} (f : string -> string) (m : childM A) : childM A := fun c =>
  let '(c, r) := m c in (c, map_err f r).

(** [CString::new] over a list: the first string with a NUL byte fails it. *)
Definition to_cstrings (items : list string) : result string (list string) :=
  match find_first (str_contains nul) items with
  | Some s => Err ("NUL byte in " +:+ debug_str s)
  | None => Ok items
  end.

Definition switch_user (o : ExecOutcome) (user : User) : childM unit :=
  child_map_err
    (fun e => "switch to user " +:+ dec (us_uid user) +:+ ":" +:+ dec (us_gid user) +:+ ": " +:+ e)
    (_ ← child_try (xo_setgroups o) (set_groups [us_gid user]);
     _ ← child_try (xo_setgid o) (set_gid (us_gid user));
     child_try (xo_setuid o) (set_uid (us_uid user))).

Definition exec_app (o : ExecOutcome) (config : GuestConfig) : childM unit :=
  let env := app_env (gc_env config) in
  _ ← match gc_workdir config with
      | Some dir => child_map_err (fun e => "chdir " +:+ dir +:+ ": " +:+ e) (child_try (xo_chdir o) (set_cwd dir))
      | None => mret tt
      end;
  _ ← match gc_user config with Some user => switch_user o user | None => mret tt end;
  let path := default "" (lookup env "PATH") in
  file ← (fun c => (c, ok_or (resolve (gc_exec config) path (xo_is_executable o c)) ("not found on PATH " +:+ path)));
  argv ← child_lift (to_cstrings (gc_exec config :: gc_args config));
  envp ← child_lift (to_cstrings env);
  _ ← child_lift (fail_if (str_contains nul file) "NUL byte in the resolved path");
  child_try (xo_execve o) (set_image (file, argv, envp)).

(** ** Reading the config over vsock

    [accept] and the [read]s answer one call each; a panic of PID 1 is an
    error here. *)

Inductive Errno := EINTR | ECHILD | Other (e : string).
Inductive ReadAnswer := Read (bytes : string) | ReadErr (e : Errno).

Definition errno_display (e : Errno) : string :=
  match e with
  | EINTR => "EINTR: Interrupted system call"
  | ECHILD => "ECHILD: No child processes"
  | Other e => e
  end.

(** The read loop; running out of answers is a read that still blocks. *)
Fixpoint read_all (config_json : string) (reads : list ReadAnswer) : option (result string string) :=
  match reads with
  | [] => None
  | Read "" :: _ => Some (Ok config_json)
  | Read bytes :: reads => read_all (config_json +:+ bytes) reads
  | ReadErr EINTR :: reads => read_all config_json reads
  | ReadErr e :: _ => Some (Err ("read vsock config: " +:+ errno_display e))
  end.
Definition read_config_from_vsock (utf8 : string -> bool) (parse_config : string -> result string GuestConfig)
    (accept : result Errno unit) (reads : list ReadAnswer) : option (result string GuestConfig) :=
  match accept with
  | Err e => Some (Err ("accept vsock config connection: " +:+ errno_display e))
  | Ok _ =>
      r ← read_all "" reads;
      Some (bytes ← r;
            _ ← fail_if (negb (utf8 bytes)) "vsock config is valid UTF-8";
            map_err (fun e => "parse config: " +:+ e) (parse_config bytes))
  end.

(** ** Before the config

    [main] up to where it waits for its config: where it is, what it has
    mounted, whether the kernel turns Ctrl-Alt-Del into a [SIGINT], whether
    there is a handler for it, what the handler recorded, whether a request
    came, and whether the kernel dropped one. A panic of PID 1 and a reset
    both end the VM. *)

Inductive EarlyPc := Mounting | SettingCad | Installing | Announcing | Listening | Ready | Ended.
Record Early := mkEarly {
  ea_pc : EarlyPc;
  ea_mounts : list string;
  ea_soft_cad : bool;
  ea_handler : bool;
  ea_SHUTDOWN_PENDING : bool;
  ea_asked : bool;
  ea_dropped : bool;
}.
Definition power_on : Early := mkEarly Mounting [] false false false false false.
Definition set_ea_pc (pc : EarlyPc) (e : Early) : Early :=
  mkEarly pc (ea_mounts e) (ea_soft_cad e) (ea_handler e) (ea_SHUTDOWN_PENDING e) (ea_asked e) (ea_dropped e).

(** [/proc] and [/sys] are needed, [/dev] is not. *)
Definition mount_pseudo_filesystems (f_proc f_sys f_dev : fault) (e : Early) : Early :=
  match f_proc, f_sys with
  | None, None =>
      mkEarly SettingCad (ea_mounts e ++ "/proc" :: "/sys" :: (if bool_decide (f_dev = None) then ["/dev"] else []))
        (ea_soft_cad e) (ea_handler e) (ea_SHUTDOWN_PENDING e) (ea_asked e) (ea_dropped e)
  | _, _ => set_ea_pc Ended e
  end.
(** [install_shutdown_request_handler]'s two calls. *)
Definition set_cad_enabled (f : fault) (e : Early) : Early :=
  if bool_decide (f = None)
  then mkEarly Installing (ea_mounts e) true (ea_handler e) (ea_SHUTDOWN_PENDING e) (ea_asked e) (ea_dropped e)
  else set_ea_pc Ended e.
Definition install_handler (f : fault) (e : Early) : Early :=
  if bool_decide (f = None)
  then mkEarly Announcing (ea_mounts e) (ea_soft_cad e) true (ea_SHUTDOWN_PENDING e) (ea_asked e) (ea_dropped e)
  else set_ea_pc Ended e.
(** The boot marker, and [read_config_from_vsock] up to its [accept]. *)
Definition announce (f_flush : fault) (e : Early) : Early :=
  set_ea_pc (if bool_decide (f_flush = None) then Listening else Ended) e.
Definition listen_for_config (f_socket f_bind f_listen : fault) (e : Early) : Early :=
  match f_socket, f_bind, f_listen with
  | None, None, None => set_ea_pc Ready e
  | _, _, _ => set_ea_pc Ended e
  end.
(** A shutdown request: the kernel resets the machine at once, or sends PID 1
    a [SIGINT], which runs the handler, or is dropped where there is none. *)
Definition ctrl_alt_del (e : Early) : Early :=
  if negb (ea_soft_cad e)
  then mkEarly Ended (ea_mounts e) false (ea_handler e) (ea_SHUTDOWN_PENDING e) true (ea_dropped e)
  else mkEarly (ea_pc e) (ea_mounts e) true (ea_handler e) (ea_SHUTDOWN_PENDING e || ea_handler e) true
         (ea_dropped e || negb (ea_handler e)).

Inductive early_step : Early -> Early -> Prop :=
| early_mount e f_proc f_sys f_dev : ea_pc e = Mounting -> early_step e (mount_pseudo_filesystems f_proc f_sys f_dev e)
| early_cad e f : ea_pc e = SettingCad -> early_step e (set_cad_enabled f e)
| early_handler e f : ea_pc e = Installing -> early_step e (install_handler f e)
| early_announce e f : ea_pc e = Announcing -> early_step e (announce f e)
| early_listen e f_socket f_bind f_listen : ea_pc e = Listening -> early_step e (listen_for_config f_socket f_bind f_listen e)
| early_press e : ea_pc e <> Ended -> early_step e (ctrl_alt_del e).

(** ** Fork, reap, shut down

    Where [main] is, and the guest's processes: a pid names the process that
    holds it until [waitpid] reaps it, after which a later process may get
    the same pid. [g_procs] maps each pid in use to the process holding it;
    [g_next] is the next process' identity. *)

Inductive Pc :=
| Accepting | Reading | Forking
| Storing (app : N) | Checking (app : N) | Waiting (app : N) | Clearing (app : N)
| Off | Panicked.

Record Guest := mkGuest {
  g_pc : Pc;
  g_APP_PID : N;
  g_SHUTDOWN_PENDING : bool;
  g_procs : gmap N N;
  g_next : N;
  (** Which processes were sent [SIGTERM], which one is the app, whether it
      was reaped, and whether a request came before that. *)
  g_signalled : list N;
  g_app : option N;
  g_reaped : bool;
  g_asked : bool;
}.
(** [main] as it waits for its config; [boot] when nobody asked for anything. *)
Definition entered (e : Early) : Guest :=
  mkGuest Accepting 0 (ea_SHUTDOWN_PENDING e) ∅ 0 [] None false (ea_asked e).
Definition boot : Guest := mkGuest Accepting 0 false ∅ 0 [] None false false.

Definition set_pc (pc : Pc) (g : Guest) : Guest :=
  mkGuest pc (g_APP_PID g) (g_SHUTDOWN_PENDING g) (g_procs g) (g_next g) (g_signalled g) (g_app g) (g_reaped g) (g_asked g).

(** [kill(pid, SIGTERM)]: an error, for a pid nobody holds, is ignored. *)
Definition forward_shutdown (pid : N) (g : Guest) : Guest :=
  match g_procs g !! pid with
  | Some i => mkGuest (g_pc g) (g_APP_PID g) (g_SHUTDOWN_PENDING g) (g_procs g) (g_next g)
                (g_signalled g ++ [i]) (g_app g) (g_reaped g) (g_asked g)
  | None => g
  end.
Definition ask (g : Guest) : Guest :=
  mkGuest (g_pc g) (g_APP_PID g) (g_SHUTDOWN_PENDING g) (g_procs g) (g_next g) (g_signalled g) (g_app g)
    (g_reaped g) (g_asked g || negb (g_reaped g)).
Definition handle_sigint (g : Guest) : Guest :=
  let pid := g_APP_PID g in
  if (0 <? pid)%N then forward_shutdown pid g
  else mkGuest (g_pc g) pid true (g_procs g) (g_next g) (g_signalled g) (g_app g) (g_reaped g) (g_asked g).

(** A new process gets a pid nobody holds. *)
Definition spawn (pid : N) (g : Guest) : Guest :=
  mkGuest (g_pc g) (g_APP_PID g) (g_SHUTDOWN_PENDING g) (<[pid := g_next g]> (g_procs g)) (g_next g + 1)%N
    (g_signalled g) (g_app g) (g_reaped g) (g_asked g).
(** [spawn_configured_app] in the parent. *)
Definition spawn_configured_app (pid : N) (g : Guest) : Guest :=
  let g' := spawn pid g in
  mkGuest (Storing pid) (g_APP_PID g') (g_SHUTDOWN_PENDING g') (g_procs g') (g_next g') (g_signalled g')
    (Some (g_next g)) (g_reaped g') (g_asked g').
Definition store_app_pid (pid : N) (pc : Pc) (g : Guest) : Guest :=
  mkGuest pc pid (g_SHUTDOWN_PENDING g) (g_procs g) (g_next g) (g_signalled g) (g_app g) (g_reaped g) (g_asked g).
(** [if SHUTDOWN_PENDING { forward_shutdown(app) }]. *)
Definition forward_pending (app : N) (g : Guest) : Guest :=
  set_pc (Waiting app) (if g_SHUTDOWN_PENDING g then forward_shutdown app g else g).
(** One [waitpid(-1)] of [reap_until_no_children], by its answer. *)
Definition reap (app pid : N) (g : Guest) : Guest :=
  mkGuest (if bool_decide (pid = app) then Clearing app else Waiting app)
    (g_APP_PID g) (g_SHUTDOWN_PENDING g) (delete pid (g_procs g)) (g_next g) (g_signalled g) (g_app g)
    (g_reaped g || bool_decide (g_procs g !! pid = g_app g)) (g_asked g).

(** [main], one step at a time, its signal handler, and the guest's other
    processes. A signal that lands while [accept] blocks makes it fail, as
    the handler is installed without [SA_RESTART]; a config that can't be
    read, or an app that can't be forked, ends PID 1 too. *)
Inductive step : Guest -> Guest -> Prop :=
| step_accept g : g_pc g = Accepting -> step g (set_pc Reading g)
| step_read g : g_pc g = Reading -> step g (set_pc Forking g)
| step_panic g : g_pc g = Reading \/ g_pc g = Forking -> step g (set_pc Panicked g)
| step_fork g pid : g_pc g = Forking -> (1 < pid)%N -> g_procs g !! pid = None ->
    step g (spawn_configured_app pid g)
| step_store g app : g_pc g = Storing app -> step g (store_app_pid app (Checking app) g)
| step_check g app : g_pc g = Checking app -> step g (forward_pending app g)
| step_wait g app pid : g_pc g = Waiting app -> is_Some (g_procs g !! pid) -> step g (reap app pid g)
| step_wait_eintr g app : g_pc g = Waiting app -> step g g
| step_clear g app : g_pc g = Clearing app -> step g (store_app_pid 0 (Waiting app) g)
| step_echild g app : g_pc g = Waiting app -> g_procs g = ∅ -> step g (set_pc Off g)
| step_accept_eintr g : g_pc g = Accepting -> step g (set_pc Panicked (handle_sigint (ask g)))
| step_sigint g : g_pc g <> Off -> g_pc g <> Panicked -> step g (handle_sigint (ask g))
| step_other g pid : g_pc g <> Off -> g_procs g <> ∅ -> (1 < pid)%N -> g_procs g !! pid = None ->
    step g (spawn pid g).

(** ** What holds of every run *)

Definition forked (app i : N) (g : Guest) : Prop :=
  g_app g = Some i /\ (0 < app)%N /\ (i < g_next g)%N /\
  (forall q j, g_procs g !! q = Some j -> (j < g_next g)%N) /\
  (forall q, g_procs g !! q = Some i -> q = app /\ g_reaped g = false).
Definition running (app i : N) (g : Guest) : Prop :=
  forked app i g /\ g_reaped g = false /\ g_procs g !! app = Some i.
Definition told (i : N) (g : Guest) : Prop := g_asked g = true -> i ∈ g_signalled g.
Definition guest_inv (g : Guest) : Prop :=
  match g_pc g with
  | Accepting | Reading | Forking | Panicked =>
      g_APP_PID g = 0%N /\ g_app g = None /\ g_reaped g = false /\ g_procs g = ∅ /\
      (g_asked g = true -> g_SHUTDOWN_PENDING g = true)
  | Storing app => exists i, running app i g /\ g_APP_PID g = 0%N /\
      (g_asked g = true -> g_SHUTDOWN_PENDING g = true)
  | Checking app => exists i, running app i g /\ g_APP_PID g = app /\
      (g_asked g = true -> g_SHUTDOWN_PENDING g = true \/ i ∈ g_signalled g)
  | Waiting app => exists i, told i g /\
      (running app i g /\ g_APP_PID g = app \/ forked app i g /\ g_reaped g = true /\ g_APP_PID g = 0%N)
  | Clearing app => exists i, told i g /\ forked app i g /\ g_reaped g = true
  | Off => exists i, told i g /\ g_app g = Some i
  end.

Lemma handle_sigint_keeps g :
  g_pc (handle_sigint g) = g_pc g /\ g_APP_PID (handle_sigint g) = g_APP_PID g /\
  g_procs (handle_sigint g) = g_procs g /\ g_next (handle_sigint g) = g_next g /\
  g_app (handle_sigint g) = g_app g /\ g_reaped (handle_sigint g) = g_reaped g /\
  g_asked (handle_sigint g) = g_asked g /\ g_signalled g ⊆ g_signalled (handle_sigint g).
Proof.
  unfold handle_sigint, forward_shutdown. destruct (0 <? _)%N; [|by split_and!].
  destruct (g_procs g !! _); split_and!; try done. apply list_subseteq_app_l. done.
Qed.
Lemma handle_sigint_pending g : g_APP_PID g = 0%N -> g_SHUTDOWN_PENDING (handle_sigint g) = true.
Proof. unfold handle_sigint. by intros ->. Qed.
Lemma handle_sigint_live g i :
  (0 < g_APP_PID g)%N -> g_procs g !! g_APP_PID g = Some i ->
  g_signalled (handle_sigint g) = g_signalled g ++ [i].
Proof.
  intros H Hi. unfold handle_sigint, forward_shutdown. apply N.ltb_lt in H as ->. by rewrite Hi.
Qed.

(** Properties of where the app is carry over what a handler run changes. *)
Lemma forked_same app i g g' :
  g_app g' = g_app g -> g_next g' = g_next g -> g_procs g' = g_procs g -> g_reaped g' = g_reaped g ->
  forked app i g -> forked app i g'.
Proof. unfold forked. by intros -> -> -> ->. Qed.
Lemma running_same app i g g' :
  g_app g' = g_app g -> g_next g' = g_next g -> g_procs g' = g_procs g -> g_reaped g' = g_reaped g ->
  running app i g -> running app i g'.
Proof. unfold running, forked. by intros -> -> -> ->. Qed.

Lemma forked_spawn app i pid g : g_procs g !! pid = None -> forked app i g -> forked app i (spawn pid g).
Proof.
  intros Hp (Ha & H0 & Hi & Hlt & Huq). split_and!; simpl; [done|done|lia| |].
  - intros q j [[<- <-]|[? ?%Hlt]]%lookup_insert_Some; lia.
  - intros q [[<- ?]|[? ?]]%lookup_insert_Some; [lia|by apply Huq].
Qed.
Lemma running_spawn app i pid g : g_procs g !! pid = None -> running app i g -> running app i (spawn pid g).
Proof.
  intros Hp (Hf & Hr & Ha). split_and!; [by apply forked_spawn|done|]. simpl.
  rewrite lookup_insert_ne; [done|]. intros ->. congruence.
Qed.

Lemma guest_inv_sigint g : g_pc g <> Off -> g_pc g <> Panicked -> guest_inv g -> guest_inv (handle_sigint (ask g)).
Proof.
  intros Hoff Hpan H. destruct (handle_sigint_keeps (ask g)) as (E1 & E2 & E3 & E4 & E5 & E6 & E7 & Hsub).
  pose proof (handle_sigint_pending (ask g)) as Hpend. pose proof (handle_sigint_live (ask g)) as Hlive.
  revert H. unfold guest_inv. rewrite E1. simpl. destruct (g_pc g) as [| | |app|app|app|app| |] eqn:Hpc; try done.
  1-3: rewrite E2, E3, E5, E6; naive_solver.
  - intros (i & Hr & H0 & _). exists i. rewrite E2. split_and!; [by apply (running_same app i g)|done|naive_solver].
  - intros (i & Hr & H0 & Hask). exists i. rewrite E2. split_and!; [by apply (running_same app i g)|done|].
    intros _. right. destruct Hr as ((_ & Hpos & _) & _ & Hp). rewrite (Hlive i); [set_solver|simpl; lia|].
    simpl. by rewrite H0.
  - intros (i & Ht & [[Hr H0]|(Hf & Hr & H0)]).
    + exists i. split; [|left; rewrite E2; split; [by apply (running_same app i g)|done]].
      intros _. destruct Hr as ((_ & Hpos & _) & _ & Hp). rewrite (Hlive i); [set_solver|simpl; lia|].
      simpl. by rewrite H0.
    + exists i. split; [|right; rewrite E2, E6; split_and!; [by apply (forked_same app i g)|done..]].
      unfold told. rewrite E7. simpl. rewrite Hr, orb_false_r. intros ?%Ht. set_solver.
  - intros (i & Ht & Hf & Hr). exists i. rewrite E6. split_and!; [|by apply (forked_same app i g)|done].
    unfold told. rewrite E7. simpl. rewrite Hr, orb_false_r. intros ?%Ht. set_solver.
Qed.

Lemma guest_inv_reap g app pid :
  g_pc g = Waiting app -> is_Some (g_procs g !! pid) -> guest_inv g -> guest_inv (reap app pid g).
Proof.
  intros Hpc [j Hj] H. unfold guest_inv in H. rewrite Hpc in H. destruct H as (i & Ht & Hw).
  assert (Hf : forked app i g) by (destruct Hw as [[[? _] _]|[? _]]; done).
  assert (Hf' : g_reaped (reap app pid g) = true \/ j <> i -> forked app i (reap app pid g)).
  { intros Hd. destruct Hf as (Ha & H0 & Hi & Hlt & Huq). split_and!; simpl; [done..| |].
    - intros q k [? ?%Hlt]%lookup_delete_Some. done.
    - intros q [Hne Hq]%lookup_delete_Some. destruct (Huq q Hq) as [-> ?]. split; [done|].
      rewrite Hj, bool_decide_false; [by rewrite orb_false_r|]. rewrite Ha. intros [= ->].
      by destruct (Huq pid Hj). }
  unfold guest_inv. simpl. destruct (decide (pid = app)) as [->|Hne].
  - rewrite bool_decide_true by done. exists i. split; [done|].
    assert (g_reaped (reap app app g) = true) as Hr.
    { simpl. destruct Hw as [[(_ & _ & Hp) _]|(_ & -> & _)]; [|done].
      destruct Hf as (-> & _). rewrite Hp, bool_decide_true by done. apply orb_true_r. }
    split; [apply Hf'; by left|done].
  - rewrite bool_decide_false by done. exists i. split; [done|].
    assert (j <> i). { intros ->. destruct Hf as (_ & _ & _ & _ & Huq). by destruct (Huq _ Hj). }
    assert (Hr : g_reaped (reap app pid g) = g_reaped g).
    { simpl. destruct Hf as (-> & _). rewrite Hj, bool_decide_false by congruence. by rewrite orb_false_r. }
    destruct Hw as [[(_ & Hr' & Hp) H0]|(_ & Hr' & H0)]; [left|right].
    + split; [|done]. split_and!; [apply Hf'; by right|exact (eq_trans Hr Hr')|]. simpl. by rewrite lookup_delete_ne.
    + split_and!; [apply Hf'; by right|exact (eq_trans Hr Hr')|done].
Qed.

Lemma step_inv g g' : step g g' -> guest_inv g -> guest_inv g'.
Proof.
  intros Hs H. destruct Hs as [g Hpc|g Hpc|g Hpc|g pid Hpc Hp Hn|g app Hpc|g app Hpc|g app pid Hpc Hp|g app Hpc|g app Hpc
    |g app Hpc Hp|g Hpc|g Ho Hp|g pid Ho Hp H1 Hn].
  - unfold guest_inv in *. rewrite Hpc in H. done.
  - unfold guest_inv in *. rewrite Hpc in H. done.
  - unfold guest_inv in *. by destruct Hpc as [Hpc|Hpc]; rewrite Hpc in H.
  - unfold guest_inv in *. rewrite Hpc in H. simpl. destruct H as (H0 & Ha & Hr & He & Hask).
    exists (g_next g). split_and!; [|done..]. unfold running, forked. simpl. rewrite He.
    split_and!; [done|lia|lia| | |done|apply lookup_insert_eq].
    + intros q j [[<- <-]|[_ ?]]%lookup_insert_Some; [lia|done].
    + intros q [[<- _]|[_ ?]]%lookup_insert_Some; done.
  - unfold guest_inv in *. rewrite Hpc in H. destruct H as (i & Hr & H0 & Hask). exists i. split_and!; [done|done|auto].
  - unfold guest_inv in H. rewrite Hpc in H. destruct H as (i & Hr & H0 & Hask). exists i.
    pose proof Hr as (_ & _ & Hp). unfold forward_pending, forward_shutdown. rewrite Hp.
    destruct (g_SHUTDOWN_PENDING g); (split; [|by left]).
    + intros _. simpl. set_solver.
    + intros Ha. by destruct (Hask Ha).
  - by apply guest_inv_reap.
  - done.
  - unfold guest_inv in *. rewrite Hpc in H. destruct H as (i & Ht & Hf & Hr). exists i. split; [done|]. by right.
  - unfold guest_inv in *. rewrite Hpc in H. destruct H as (i & Ht & Hw). exists i. split; [done|].
    by destruct Hw as [[[[? _] _] _]|[[? _] _]].
  - assert (Hi : guest_inv (handle_sigint (ask g))) by (apply guest_inv_sigint; congruence).
    unfold guest_inv in *. destruct (handle_sigint_keeps (ask g)) as (E1 & _). rewrite E1 in Hi. simpl in *.
    by rewrite Hpc in Hi.
  - by apply guest_inv_sigint.
  - unfold guest_inv in *. simpl. destruct (g_pc g) as [| | |app|app|app|app| |]; try naive_solver.
    + destruct H as (i & Hr & H0 & Hask). exists i. split_and!; [by apply running_spawn|done..].
    + destruct H as (i & Hr & H0 & Hask). exists i. split_and!; [by apply running_spawn|done..].
    + destruct H as (i & Ht & Hw). exists i. split; [done|]. destruct Hw as [[? ?]|(? & ? & ?)]; [left|right].
      * split; [by apply running_spawn|done].
      * split_and!; [by apply forked_spawn|done..].
    + destruct H as (i & Ht & Hf & Hr). exists i. split_and!; [done|by apply forked_spawn|done].
Qed.

(** Once the kernel sends a [SIGINT] that a handler takes, every request is
    either recorded or was dropped before. *)
Definition early_inv (e : Early) : Prop :=
  match ea_pc e with
  | Mounting => ea_soft_cad e = false /\ ea_handler e = false /\ ea_asked e = false /\ ea_mounts e = []
  | SettingCad => ea_soft_cad e = false /\ ea_handler e = false /\ ea_asked e = false /\
      "/proc" ∈ ea_mounts e /\ "/sys" ∈ ea_mounts e
  | Installing => ea_soft_cad e = true /\ ea_handler e = false /\ (ea_asked e = true -> ea_dropped e = true) /\
      "/proc" ∈ ea_mounts e /\ "/sys" ∈ ea_mounts e
  | Announcing | Listening | Ready => ea_soft_cad e = true /\ ea_handler e = true /\
      (ea_asked e = true -> ea_SHUTDOWN_PENDING e = true \/ ea_dropped e = true) /\
      "/proc" ∈ ea_mounts e /\ "/sys" ∈ ea_mounts e
  | Ended => True
  end.
Lemma early_step_inv e e' : early_step e e' -> early_inv e -> early_inv e'.
Proof.
  intros Hs. destruct Hs as [e f_proc f_sys f_dev Hpc|e f Hpc|e f Hpc|e f Hpc|e f_socket f_bind f_listen Hpc|e Hpc]; unfold early_inv.
  - rewrite Hpc. unfold mount_pseudo_filesystems. destruct f_proc, f_sys; try done. simpl.
    intros (? & ? & ? & ->). set_solver.
  - rewrite Hpc. unfold set_cad_enabled. destruct (bool_decide _); simpl; [|done]. intros (? & ? & Ha & ? & ?).
    by rewrite Ha.
  - rewrite Hpc. unfold install_handler. destruct (bool_decide _); simpl; [|done]. naive_solver.
  - rewrite Hpc. unfold announce. by destruct (bool_decide _).
  - rewrite Hpc. unfold listen_for_config. by destruct f_socket, f_bind, f_listen.
  - unfold ctrl_alt_del. destruct (ea_pc e), (ea_soft_cad e); simpl; try done; intros; destruct_and!; split_and!; try done; try congruence.
    all: intros _; repeat match goal with H : ea_handler _ = _ |- _ => rewrite H end; rewrite ?orb_true_r; auto.
Qed.
Lemma early_inv_reached e : rtc early_step power_on e -> early_inv e.
Proof.
  intros H. assert (Hi : early_inv power_on) by done. induction H; eauto using early_step_inv.
Qed.

(** A run of [main] in which the kernel dropped no request. *)
Definition reachable (g : Guest) : Prop :=
  exists e, rtc early_step power_on e /\ ea_pc e = Ready /\ ea_dropped e = false /\ rtc step (entered e) g.
Lemma reachable_inv g : reachable g -> guest_inv g.
Proof.
  intros (e & He & Hpc & Hd & H). apply early_inv_reached in He. unfold early_inv in He. rewrite Hpc in He.
  remember (entered e) as g0 eqn:Hg. assert (Hi : guest_inv g0).
  { rewrite Hg. split_and!; [done..|]. simpl. intros Ha. destruct He as (_ & _ & Hp & _).
    destruct (Hp Ha) as [?|?]; [done|congruence]. }
  clear Hg. induction H; [done|]. eauto using step_inv.
Qed.
(** A boot that nothing disturbs, and runs from it. *)
Lemma quiet_boot : rtc early_step power_on (mkEarly Ready ["/proc"; "/sys"; "/dev"] true true false false false).
Proof.
  eapply rtc_l; [by apply (early_mount _ None None None)|]. eapply rtc_l; [by apply (early_cad _ None)|].
  eapply rtc_l; [by apply (early_handler _ None)|]. eapply rtc_l; [by apply (early_announce _ None)|].
  eapply rtc_l; [by apply (early_listen _ None None None)|]. apply rtc_refl.
Qed.
Lemma reachable_boot g : rtc step boot g -> reachable g.
Proof. intros H. eexists. split; [apply quiet_boot|]. by split_and!. Qed.

Lemma signals_only_the_app g g' j :
  guest_inv g -> step g g' -> (forall app, g_pc g <> Clearing app) -> j ∈ g_signalled g' ->
  j ∈ g_signalled g \/ g_app g = Some j.
Proof.
  intros Hi Hs Hc Hj.
  assert (Hfwd : forall app g1, g_procs g1 = g_procs g -> g_signalled g1 = g_signalled g ->
    (forall k, g_procs g !! app = Some k -> g_app g = Some k) ->
    j ∈ g_signalled (forward_shutdown app g1) -> j ∈ g_signalled g \/ g_app g = Some j).
  { intros app g1 E1 E2 Happ. unfold forward_shutdown. rewrite E1. destruct (g_procs g !! app) as [k|] eqn:Hk.
    - simpl. rewrite E2, elem_of_app, list_elem_of_singleton. intros [?| ->]; auto.
    - rewrite E2. auto. }
  assert (Hsig : j ∈ g_signalled (handle_sigint (ask g)) -> j ∈ g_signalled g \/ g_app g = Some j).
  { unfold handle_sigint. simpl. destruct (N.ltb_spec 0 (g_APP_PID g)); [|simpl; auto].
    apply Hfwd; [done|done|]. intros k Hk. unfold guest_inv in Hi.
    destruct (g_pc g) as [| | |app|app|app|app| |] eqn:Hpc; try by destruct (Hc app).
    all: destruct_and?; try lia.
    - destruct Hi as (i & _ & ? & _). lia.
    - destruct Hi as (i & (Hf & _ & Hp) & H0 & _). destruct Hf as (-> & _). congruence.
    - destruct Hi as (i & _ & [[(Hf & _ & Hp) H0]|(_ & _ & ?)]); [|lia]. destruct Hf as (-> & _). congruence.
    - destruct Hi as (i & _ & Ha). exfalso. inversion Hs; destruct_or?; congruence. }
  destruct Hs as [g Hpc|g Hpc|g Hpc|g pid Hpc Hp Hn|g app Hpc|g app Hpc|g app pid Hpc Hp|g app Hpc|g app Hpc
    |g app Hpc Hp|g Hpc|g Ho Hp|g pid Ho Hp H1 Hn]; auto.
  unfold forward_pending in Hj. simpl in Hj. destruct (g_SHUTDOWN_PENDING g); [|by left].
  apply (Hfwd app g) in Hj; [done|done|done|]. intros k Hk. unfold guest_inv in Hi. rewrite Hpc in Hi.
  destruct Hi as (i & ((-> & _) & _ & Hp) & _). congruence.
Qed.

(** C27: In a guest that got as far as starting its app (a request while
    [accept] waits for the configuration ends PID 1 instead,
    [request_before_config_panics]), a host's shutdown request reaches it:
    once guest-init waits for its children or powers off, a request that came
    at whatever point of [main] before the app was reaped has sent the app
    [SIGTERM], but for one that landed between the two calls that take the
    kernel's own reset away and install the handler
    ([request_lost_before_handler]). And a step from any state but
    [Clearing], the moment between reaping the app and forgetting its pid
    ([late_request_hits_reused_pid]), signals no process other than the
    app. *)
Theorem shutdown_request_reaches_app g i :
  reachable g -> g_app g = Some i ->
  ((exists app, g_pc g = Waiting app) \/ g_pc g = Off -> g_asked g = true -> i ∈ g_signalled g) /\
  (forall g' j, step g g' -> (forall app, g_pc g <> Clearing app) -> j ∈ g_signalled g' ->
    j ∈ g_signalled g \/ j = i).
Proof.
  intros Hr Ha. pose proof (reachable_inv g Hr) as Hi. split.
  - unfold guest_inv in Hi. intros [[app Hpc]|Hpc] Hask; rewrite Hpc in Hi.
    + destruct Hi as (j & Ht & [[[[? _] _] _]|[[? _] _]]); simplify_eq; by apply Ht.
    + destruct Hi as (j & Ht & ?). simplify_eq. by apply Ht.
  - intros g' j Hs Hc Hj. destruct (signals_only_the_app g g' j) as [|]; auto. right. congruence.
Qed.

(** A request that lands between the fork and [APP_PID]'s store. *)
Definition early_request : Guest :=
  forward_pending 2 (store_app_pid 2 (Checking 2) (handle_sigint (ask
    (spawn_configured_app 2 (set_pc Forking (set_pc Reading boot)))))).
Lemma early_request_reachable : reachable early_request.
Proof.
  apply reachable_boot. unfold early_request.
  eapply rtc_l; [apply step_accept; reflexivity|]. eapply rtc_l; [apply step_read; reflexivity|].
  eapply rtc_l; [apply (step_fork _ 2); reflexivity|]. eapply rtc_l; [apply step_sigint; discriminate|].
  eapply rtc_l; [apply step_store; reflexivity|]. eapply rtc_l; [apply step_check; reflexivity|]. apply rtc_refl.
Qed.
Lemma shutdown_request_reaches_app_witness : g_signalled early_request = [0%N] /\ 0%N ∈ g_signalled early_request.
Proof.
  split; [vm_compute; reflexivity|].
  apply (proj1 (shutdown_request_reaches_app early_request 0 early_request_reachable eq_refl));
    [left; exists 2%N|]; reflexivity.
Defined.

(** A request between the two calls of [install_shutdown_request_handler] is
    lost: the kernel no longer resets the machine, and PID 1 has no handler
    for the signal it sends instead, so [main] goes on as if nobody had
    asked. *)
Theorem request_lost_before_handler :
  exists e, rtc early_step power_on e /\ ea_pc e = Ready /\ ea_asked e = true /\ ea_SHUTDOWN_PENDING e = false.
Proof.
  exists (mkEarly Ready ["/proc"; "/sys"; "/dev"] true true false true true). split; [|done].
  eapply rtc_l; [by apply (early_mount _ None None None)|]. eapply rtc_l; [by apply (early_cad _ None)|].
  eapply rtc_l; [by apply early_press|].
  eapply rtc_l; [by apply (early_handler _ None)|]. eapply rtc_l; [by apply (early_announce _ None)|].
  eapply rtc_l; [by apply (early_listen _ None None None)|]. apply rtc_refl.
Qed.

(** A request while [accept] blocks ends PID 1, where the read loop waits
    again and the handler's own record of the request would have been used
    once the app was forked. *)
Theorem request_before_config_panics :
  (exists g, reachable g /\ g_pc g = Panicked /\ g_SHUTDOWN_PENDING g = true /\ g_app g = None) /\
  (forall utf8 parse reads, read_config_from_vsock utf8 parse (Err EINTR) reads =
    Some (Err "accept vsock config connection: EINTR: Interrupted system call")).
Proof.
  split; [|done]. exists (set_pc Panicked (handle_sigint (ask boot))). split_and!; [apply reachable_boot|done..].
  eapply rtc_l; [by apply step_accept_eintr|]. apply rtc_refl.
Qed.

(** A pid that is taken again before [APP_PID] is cleared gets the app's
    [SIGTERM]. *)
Definition reused_pid : Guest :=
  handle_sigint (ask (spawn 2 (reap 2 2 (spawn 3 (forward_pending 2 (store_app_pid 2 (Checking 2)
    (spawn_configured_app 2 (set_pc Forking (set_pc Reading boot))))))))).
Theorem late_request_hits_reused_pid :
  reachable reused_pid /\ g_app reused_pid = Some 0%N /\ g_signalled reused_pid = [2%N].
Proof.
  split; [|done]. apply reachable_boot. unfold reused_pid.
  eapply rtc_l; [apply step_accept; reflexivity|]. eapply rtc_l; [apply step_read; reflexivity|].
  eapply rtc_l; [apply (step_fork _ 2); reflexivity|]. eapply rtc_l; [apply step_store; reflexivity|].
  eapply rtc_l; [apply step_check; reflexivity|].
  eapply rtc_l; [apply (step_other _ 3); try reflexivity; discriminate|].
  eapply rtc_l; [apply (step_wait _ 2 2); [reflexivity|eexists; reflexivity]|].
  eapply rtc_l; [apply (step_other _ 2); try reflexivity; discriminate|].
  eapply rtc_l; [apply step_sigint; discriminate|]. apply rtc_refl.
Qed.

(** ** The read loop *)

(** Interrupts between the reads change nothing. *)
Definition not_interrupted (a : ReadAnswer) : Prop := a <> ReadErr EINTR.
#[global] Instance not_interrupted_dec a : Decision (not_interrupted a).
Proof. destruct a as [|[]]; [left|right|left|left]; unfold not_interrupted; congruence. Defined.
Lemma read_all_interrupts acc reads : read_all acc reads = read_all acc (filter not_interrupted reads).
Proof.
  revert acc. induction reads as [|a reads IH]; intros acc; [done|].
  destruct (decide (not_interrupted a)) as [Ha|Ha].
  - rewrite filter_cons_True by done. destruct a as [[|c s]|[]]; cbn [read_all]; auto; by destruct Ha.
  - rewrite filter_cons_False by done. destruct a as [|[]]; try by destruct Ha. simpl. apply IH.
Qed.
Lemma read_all_chunks acc chunks reads :
  Forall (fun c => c <> EmptyString) chunks ->
  read_all acc ((Read <$> chunks) ++ Read "" :: reads) = Some (Ok (acc +:+ foldr String.append "" chunks)).
Proof.
  intros Hall. revert acc. induction Hall as [|c chunks Hc Hall IH]; intros acc; simpl.
  { by rewrite str_app_nil_r. }
  destruct c; [done|]. by rewrite IH, str_app_assoc.
Qed.
