(* ===== verification/GuestExec.v ===== *)
(** * What reaches the app

    Theorems that follow a run request from the command line's overrides
    ([merge_env] of cirro-image), through the agent's checks
    ([guest_config]), to the process guest-init's child becomes
    ([exec_app]). *)

From S2P Require Import Prelude RustStr Proto Validate Image RunConfig GuestInit.

(** ** The environment *)

(** Docker's defaults. *)
Definition default_env (key : string) : option string :=
  if bool_decide (key = "PATH") then Some DEFAULT_PATH
  else if bool_decide (key = "HOME") then Some "/" else None.

Lemma lookup_env_last env key : lookup env key = env_last env key.
Proof. done. Qed.
Lemma has_key_first env key : has_key env key = bool_decide (is_Some (env_first env key)).
Proof.
  induction env as [|e env IH].
  - symmetry. apply bool_decide_false. intros [? [=]].
  - change (has_key (e :: env) key) with
      (match split_once "=" e with Some (k, _) => bool_decide (k = key) | None => false end || has_key env key).
    rewrite IH. unfold env_first. cbn [find_map]. destruct (entry_value key e) as [v|] eqn:Hv; unfold entry_value in Hv;
      destruct (split_once "=" e) as [[k w]|]; simpl in Hv; try done.
    + destruct (bool_decide (k = key)); [|done]. done.
    + by destruct (bool_decide (k = key)).
Qed.
Lemma has_key_false env key :
  Forall has_value env -> has_key env key = false -> key ∉ env_key <$> env.
Proof.
  rewrite has_key_first, bool_decide_eq_false. intros Hall Hn (e & -> & He)%list_elem_of_fmap.
  apply Hn. rewrite Forall_forall in Hall. destruct (Hall e He) as [[k v] Hk].
  destruct (env_first env (env_key e)) eqn:Hf; [by eexists|]. apply find_map_none in Hf.
  rewrite Forall_forall in Hf. specialize (Hf e He). unfold entry_value, env_key in Hf. rewrite Hk in Hf.
  revert Hf. rsimpl. rewrite bool_decide_true by done. done.
Qed.

Lemma env_first_app_env env key :
  env_first (app_env env) key = match env_first env key with Some v => Some v | None => default_env key end.
Proof.
  unfold app_env. rewrite env_first_app. destruct (env_first env key) eqn:Hf; [done|].
  rewrite env_first_app. unfold default_env.
  assert (Hk : forall k, k = key -> has_key env k = false).
  { intros k ->. rewrite has_key_first, bool_decide_false; [done|]. rewrite Hf. by intros [? ?]. }
  destruct (decide (key = "PATH")) as [->|Hp].
  { by rewrite Hk. }
  rewrite (bool_decide_false (key = "PATH")) by done.
  replace (env_first (if has_key env "PATH" then [] else ["PATH=" +:+ DEFAULT_PATH]) key) with (@None string).
  2:{ destruct (has_key env "PATH"); [done|]. unfold env_first, entry_value. simpl.
      by rewrite bool_decide_false by congruence. }
  destruct (decide (key = "HOME")) as [->|Hh].
  { by rewrite Hk. }
  rewrite (bool_decide_false (key = "HOME")) by done.
  destruct (has_key env "HOME"); [done|]. unfold env_first, entry_value. simpl.
  by rewrite bool_decide_false by congruence.
Qed.

Lemma keys_once_snoc env e : keys_once env -> (env_key e ∉ env_key <$> env) -> keys_once (env ++ [e]).
Proof.
  unfold keys_once. intros Hn Hk. rewrite fmap_app. apply NoDup_app. split_and!; [done| |apply NoDup_singleton].
  intros k Hin ->%list_elem_of_singleton. done.
Qed.
Lemma app_env_once env : Forall has_value env -> keys_once env -> keys_once (app_env env).
Proof.
  intros Hall Hn. unfold app_env. rewrite (assoc_L (++)).
  assert (H : keys_once (env ++ (if has_key env "PATH" then [] else ["PATH=" +:+ DEFAULT_PATH]))).
  { destruct (has_key env "PATH") eqn:Hp; [by rewrite app_nil_r|].
    apply keys_once_snoc; [done|]. exact (has_key_false env "PATH" Hall Hp). }
  destruct (has_key env "HOME") eqn:Hh; [by rewrite app_nil_r|]. apply keys_once_snoc; [done|].
  change (env_key "HOME=/") with "HOME". rewrite fmap_app, not_elem_of_app.
  split; [exact (has_key_false env "HOME" Hall Hh)|].
  destruct (has_key env "PATH"); [apply not_elem_of_nil|]. intros H'%list_elem_of_singleton. discriminate H'.
Qed.

Lemma override_values env entry : has_value entry -> Forall has_value env -> Forall has_value (override env entry).
Proof.
  intros He. induction 1 as [|e env H Hall IH]; simpl; [by repeat constructor|].
  destruct (bool_decide _); by constructor.
Qed.
Lemma merge_env_values env overrides :
  Forall has_value overrides -> Forall has_value env -> Forall has_value (merge_env env overrides).
Proof.
  intros Ho. unfold merge_env. revert env. induction Ho as [|o os H Ho IH]; intros env He; [done|].
  apply IH. by apply override_values.
Qed.

(** an image's variables and the command line's overrides reach the app
    by Docker's rules: when the image sets each variable once, the app reads
    for every key the last override of it, else the image's value, else
    Docker's default; and it is the same value whether the reader takes the
    first entry of its environment, as [getenv] does, or the last, as
    guest-init's own [PATH] lookup does. *)
Theorem overrides_reach_the_app env overrides key :
  keys_once env -> Forall has_value env -> Forall has_value overrides ->
  let seen := app_env (merge_env env overrides) in
  lookup seen key = env_first seen key /\
  env_first seen key =
    match env_last overrides key with
    | Some v => Some v
    | None => match env_first env key with Some v => Some v | None => default_env key end
    end.
Proof.
  intros Hn Hv Ho seen. split.
  - rewrite lookup_env_last. apply env_last_first, app_env_once; [by apply merge_env_values|].
    by apply merge_env_once.
  - unfold seen. rewrite env_first_app_env, env_first_merge by done. by destruct (env_last overrides key).
Qed.
Lemma overrides_reach_the_app_witness :
  lookup (app_env (merge_env ["A=1"; "PATH=/bin"] ["A=2"; "B=x=y"; "A=3"])) "A" = Some "3".
Proof.
  rewrite (proj1 (overrides_reach_the_app ["A=1"; "PATH=/bin"] ["A=2"; "B=x=y"; "A=3"] "A"
    ltac:(apply (bool_decide_unpack _); vm_compute; exact I)
    ltac:(repeat constructor; eexists; reflexivity) ltac:(repeat constructor; eexists; reflexivity))).
  vm_compute. reflexivity.
Defined.

(** With a variable set twice, the override replaces only the first entry,
    and guest-init looks at the last one. *)
Theorem override_of_repeated_key_is_split :
  let seen := app_env (merge_env ["PATH=/a"; "PATH=/b"] ["PATH=/c"]) in
  env_first seen "PATH" = Some "/c" /\ lookup seen "PATH" = Some "/b".
Proof. done. Qed.

(** ** The process *)

Lemma child_bind_ok {A B} (m : childM A) (k : A -> childM B) c c' b :
  (m ≫= k) c = (c', Ok b) <-> exists c1 a, m c = (c1, Ok a) /\ k a c1 = (c', Ok b).
Proof. unfold mbind, child_bind. destruct (m c) as [c1 [a|e]]; naive_solver. Qed.
Lemma child_try_ok f g c c' u : child_try f g c = (c', Ok u) <-> f = None /\ c' = g c.
Proof. unfold child_try. destruct f, u; naive_solver. Qed.
Lemma child_lift_ok {A} (r : result string A) c c' a : child_lift r c = (c', Ok a) <-> r = Ok a /\ c' = c.
Proof. unfold child_lift. naive_solver. Qed.
Lemma child_map_err_ok {A} f (m : childM A) c c' a : child_map_err f m c = (c', Ok a) <-> m c = (c', Ok a).
Proof. unfold child_map_err. destruct (m c) as [c1 [x|e]]; naive_solver. Qed.
Lemma to_cstrings_ok items argv :
  to_cstrings items = Ok argv <-> argv = items /\ Forall (fun s => str_contains nul s = false) items.
Proof.
  unfold to_cstrings. destruct (find_first _ items) eqn:Hf.
  - split; [done|]. intros [_ Hall]. apply find_first_elem in Hf as [Hin Hc].
    rewrite Forall_forall in Hall. by rewrite Hall in Hc.
  - apply find_first_none in Hf. naive_solver.
Qed.

(** The child a config asks for, before its image. *)
Definition asked_child (config : GuestConfig) (c : Child) : Child :=
  let c := match gc_workdir config with Some d => set_cwd d c | None => c end in
  match gc_user config with
  | Some u => set_uid (us_uid u) (set_gid (us_gid u) (set_groups [us_gid u] c))
  | None => c
  end.

Lemma chdir_ok o config c c1 u :
  match gc_workdir config with
  | Some dir => child_map_err (fun e => "chdir " +:+ dir +:+ ": " +:+ e) (child_try (xo_chdir o) (set_cwd dir))
  | None => mret tt
  end c = (c1, Ok u) <->
  (is_Some (gc_workdir config) -> xo_chdir o = None) /\
  c1 = match gc_workdir config with Some d => set_cwd d c | None => c end.
Proof.
  destruct u, (gc_workdir config) as [d|].
  - rewrite child_map_err_ok, child_try_ok. split; [naive_solver|]. intros [H ->]. split; [by apply H|done].
  - unfold mret, child_ret. split; [intros [= ->]; split; [by intros [? ?]|done]|by intros [_ ->]].
Qed.
Lemma user_ok o config c c1 u :
  match gc_user config with Some user => switch_user o user | None => mret tt end c = (c1, Ok u) <->
  (is_Some (gc_user config) -> xo_setgroups o = None /\ xo_setgid o = None /\ xo_setuid o = None) /\
  c1 = match gc_user config with
       | Some u => set_uid (us_uid u) (set_gid (us_gid u) (set_groups [us_gid u] c))
       | None => c
       end.
Proof.
  destruct u, (gc_user config) as [us|].
  - unfold switch_user. rewrite child_map_err_ok. split.
    + intros H. apply child_bind_ok in H as (c2 & [] & [H1 ->]%child_try_ok & H).
      apply child_bind_ok in H as (c3 & [] & [H2 ->]%child_try_ok & [H3 ->]%child_try_ok). done.
    + intros [H ->]. destruct H as (? & ? & ?); [by eexists|].
      apply child_bind_ok. do 2 eexists. split; [by apply child_try_ok|].
      apply child_bind_ok. do 2 eexists. split; by apply child_try_ok.
  - unfold mret, child_ret. split; [intros [= ->]; split; [by intros [? ?]|done]|by intros [_ ->]].
  Unshelve. all: exact tt.
Qed.

(** Exactly when the child becomes the app, and what it is then. *)
Lemma exec_app_ok o config c c' :
  exec_app o config c = (c', Ok tt) <->
  (is_Some (gc_workdir config) -> xo_chdir o = None) /\
  (is_Some (gc_user config) -> xo_setgroups o = None /\ xo_setgid o = None /\ xo_setuid o = None) /\
  xo_execve o = None /\
  exists file,
    resolve (gc_exec config) (default "" (lookup (app_env (gc_env config)) "PATH"))
      (xo_is_executable o (asked_child config c)) = Some file /\
    Forall (fun s => str_contains nul s = false) (file :: gc_exec config :: gc_args config ++ app_env (gc_env config)) /\
    c' = set_image (file, gc_exec config :: gc_args config, app_env (gc_env config)) (asked_child config c).
Proof.
  unfold exec_app, asked_child. split.
  - intros H. apply child_bind_ok in H as (c1 & [] & [Hw ->]%chdir_ok & H).
    apply child_bind_ok in H as (c2 & [] & [Hu ->]%user_ok & H).
    apply child_bind_ok in H as (c3 & file & [= <- Hf%ok_or_ok] & H).
    apply child_bind_ok in H as (c4 & argv & [[-> [Ha1 Ha2]%Forall_cons]%to_cstrings_ok ->]%child_lift_ok & H).
    apply child_bind_ok in H as (c5 & envp & [[-> He]%to_cstrings_ok ->]%child_lift_ok & H).
    apply child_bind_ok in H as (c6 & [] & [Hn%fail_if_ok ->]%child_lift_ok & [Hx ->]%child_try_ok).
    split_and!; [done..|]. exists file. split_and!; [done| |done].
    constructor; [done|]. constructor; [done|]. by apply Forall_app.
  - intros (Hw & Hu & Hx & file & Hf & Hall & ->). rewrite !Forall_cons, Forall_app in Hall.
    destruct Hall as (Hn & Ha1 & Ha2 & He).
    apply child_bind_ok. do 2 eexists. split; [by apply chdir_ok|].
    apply child_bind_ok. do 2 eexists. split; [by apply user_ok|].
    apply child_bind_ok. do 2 eexists. split; [by rewrite Hf|].
    apply child_bind_ok. do 2 eexists. split.
    { apply child_lift_ok. split; [|done]. apply to_cstrings_ok. split; [done|by constructor]. }
    apply child_bind_ok. do 2 eexists. split; [by apply child_lift_ok; split; [apply to_cstrings_ok|]|].
    apply child_bind_ok. do 2 eexists. split; [by apply child_lift_ok; split; [apply fail_if_ok|]|].
    by apply child_try_ok.
  Unshelve. all: exact tt.
Qed.

(** ** What the agent accepted *)

Definition no_nul (s : string) : Prop := str_contains nul s = false.

Lemma split_once_no_nul c s a b : split_once c s = Some (a, b) -> no_nul s -> no_nul a /\ no_nul b.
Proof.
  intros [-> _]%split_once_some. unfold no_nul. rewrite str_contains_app. simpl.
  intros [Ha Hb]%orb_false_iff. split; [done|]. by destruct (decide (nul = c)).
Qed.
Lemma str_split_no_nul c s : no_nul s -> Forall no_nul (str_split c s).
Proof.
  unfold no_nul. induction s as [|d s IH]; simpl; [by repeat constructor|].
  destruct (decide (nul = d)) as [|Hd]; [done|]. intros Hs. specialize (IH Hs).
  destruct (decide (c = d)); [by constructor|].
  destruct (str_split c s) as [|w ws].
  - constructor; [|done]. simpl. by rewrite decide_False.
  - apply Forall_cons in IH as [Hw Hws]. constructor; [|done]. simpl. by rewrite decide_False.
Qed.
Lemma guest_config_no_nul run gc :
  guest_config run = Ok gc ->
  gc_exec gc :: gc_args gc = rq_command run /\ gc_env gc = rq_env run /\ gc_workdir gc = rq_workdir run /\
  gc_user gc = rq_user run /\ Forall no_nul (rq_command run) /\ Forall no_nul (rq_env run).
Proof.
  unfold guest_config. destruct (rq_command run) as [|exec args]; [done|]. rsimpl. intros H.
  destruct (is_empty exec || existsb _ _) eqn:Hc; [done|]. simpl in H. unfold check_env in H.
  destruct (find_first _ (rq_env run)) eqn:He; [done|]. 
  assert (Hgc : gc = {| gc_exec := exec; gc_args := args; gc_env := rq_env run;
    gc_workdir := rq_workdir run; gc_user := rq_user run |}).
  { destruct (rq_workdir run) as [d|]; [|by injection H]. destruct (negb (workdir_ok d)); [done|]. by injection H. }
  subst gc. split_and!; [done..| |].
  - apply orb_false_iff in Hc as [_ Hc]. apply Forall_forall. intros s Hs. unfold no_nul.
    destruct (str_contains nul s) eqn:Hn; [|done].
    assert (existsb (str_contains nul) (exec :: args) = true) as Ht; [|congruence].
    apply existsb_exists. exists s. split; [by apply list_elem_of_In|done].
  - apply find_first_none in He. eapply Forall_impl; [exact He|]. simpl. intros s Hs.
    apply negb_false_iff in Hs. unfold env_ok in Hs. apply andb_true_iff in Hs as [_ Hs].
    by apply negb_true_iff in Hs.
Qed.
Lemma app_env_no_nul env : Forall no_nul env -> Forall no_nul (app_env env).
Proof.
  intros H. unfold app_env. rewrite !Forall_app. split_and!; [done|destruct (has_key env "PATH")|destruct (has_key env "HOME")];
    repeat constructor.
Qed.
Lemma lookup_no_nul env key v : Forall no_nul env -> lookup env key = Some v -> no_nul v.
Proof.
  intros Hall (e & He & Hv)%find_map_elem. rewrite elem_of_reverse in He. rewrite Forall_forall in Hall.
  specialize (Hall e He). destruct (split_once "=" e) as [[k w]|] eqn:Hs; [|done]. simpl in Hv.
  destruct (bool_decide (k = key)); [|done]. injection Hv as <-. by apply split_once_no_nul in Hs as [_ ?].
Qed.
Lemma resolve_no_nul exec path p file :
  no_nul exec -> no_nul path -> resolve exec path p = Some file -> no_nul file.
Proof.
  intros He Hp. unfold resolve. destruct (str_contains "/" exec); [by intros [= <-]|].
  intros [(dir & -> & [_ Hin]%list_elem_of_filter)%list_elem_of_fmap _]%find_first_elem.
  apply (str_split_no_nul ":") in Hp. rewrite Forall_forall in Hp. specialize (Hp dir Hin).
  unfold no_nul, dir_join in *. destruct (ends_with "/" dir); rewrite !str_contains_app, Hp, He; done.
Qed.

(** C31: a run request the agent accepts starts the app exactly as asked: the
    child becomes the file its command names (by the [PATH] of the app's own
    environment), with the whole command as its arguments, the environment
    with Docker's defaults, in the working directory and as the user and
    group alone that were asked for, and its failures are only a command that
    is not found and what the kernel refuses: nothing the agent let through
    is refused by guest-init. *)
Theorem accepted_run_starts_the_app run gc o c c' :
  guest_config run = Ok gc ->
  exec_app o gc c = (c', Ok tt) <->
  (is_Some (rq_workdir run) -> xo_chdir o = None) /\
  (is_Some (rq_user run) -> xo_setgroups o = None /\ xo_setgid o = None /\ xo_setuid o = None) /\
  xo_execve o = None /\
  exists file,
    resolve (gc_exec gc) (default "" (lookup (app_env (rq_env run)) "PATH"))
      (xo_is_executable o (asked_child gc c)) = Some file /\
    ch_image c' = Some (file, rq_command run, app_env (rq_env run)) /\
    ch_cwd c' = default (ch_cwd c) (rq_workdir run) /\
    ch_uid c' = from_option us_uid (ch_uid c) (rq_user run) /\
    ch_gid c' = from_option us_gid (ch_gid c) (rq_user run) /\
    ch_groups c' = from_option (fun u => [us_gid u]) (ch_groups c) (rq_user run).
Proof.
  intros (Hcmd & Henv & Hwd & Hus & Hn & Hne)%guest_config_no_nul. rewrite exec_app_ok, <-Hwd, <-Hus, <-Henv, <-Hcmd in *.
  assert (Hc : forall file, c' = set_image (file, gc_exec gc :: gc_args gc, app_env (gc_env gc)) (asked_child gc c) <->
    ch_image c' = Some (file, gc_exec gc :: gc_args gc, app_env (gc_env gc)) /\
    ch_cwd c' = default (ch_cwd c) (gc_workdir gc) /\ ch_uid c' = from_option us_uid (ch_uid c) (gc_user gc) /\
    ch_gid c' = from_option us_gid (ch_gid c) (gc_user gc) /\
    ch_groups c' = from_option (fun u => [us_gid u]) (ch_groups c) (gc_user gc)).
  { intros file. unfold asked_child. destruct c' as [d g gi u i].
    destruct (gc_workdir gc), (gc_user gc); cbn; split; try (intros [= -> -> -> -> ->]; done);
      intros (-> & -> & -> & -> & ->); done. }
  setoid_rewrite Hc. split; intros (H1 & H2 & H3 & file & Hf & Hr); (split_and!; [done..|]); exists file.
  - split; [done|]. apply Hr.
  - split_and!; [done| |apply Hr..]. apply app_env_no_nul in Hne. apply Forall_cons in Hn as [He Ha].
    constructor; [|constructor; [done|by apply Forall_app]].
    eapply resolve_no_nul; [exact He| |exact Hf]. destruct (lookup _ "PATH") eqn:Hl; [|done].
    by eapply lookup_no_nul.
Qed.

Definition shell_run : RunRequest :=
  mkRunRequest "a" "/r" 128 1 ["sh"; "-c"; "x"] ["A=1"] (Some "/srv") (Some (mkUser 1000 100)) None.
Lemma accepted_run_starts_the_app_witness :
  exec_app (mkExecOutcome None None None None (fun _ p => bool_decide (p = "/bin/sh")) None)
    (mkGuestConfig "sh" ["-c"; "x"] ["A=1"] (Some "/srv") (Some (mkUser 1000 100))) child_of_init =
  (mkChild "/srv" [100%N] 100 1000 (Some ("/bin/sh", ["sh"; "-c"; "x"], app_env ["A=1"])), Ok tt).
Proof.
  apply (accepted_run_starts_the_app shell_run); [reflexivity|].
  split; [reflexivity|]. split; [repeat split|]. split; [reflexivity|]. exists "/bin/sh". repeat split.
Defined.
