(* ===== verification/Metrics.v ===== *)
(** * Metrics ([metrics.rs], and the agent's [sample] and [stats])

    Counters read from the kernel's files, the rates between two samples,
    and the last minute of them per VM. Files are what reading a path
    answers. Times are nanoseconds; [u64] sums wrap, as a release build's
    do. *)

From S2P Require Import Prelude RustStr Proto Subnet Store Validate Vm VmLaws VmEnd Machine.
From S2P Require Import MachineLaws Edge Agent AgentSys.
From Corelib Require Import SpecFloat.

Definition HISTORY : nat := 60.

(** ** I/O *)

Inductive ErrorKind := KNotFound | KInvalidData | KOther.
Record IoError := mkIoError { ie_kind : ErrorKind; ie_message : string }.
Definition invalid (message : string) : IoError := mkIoError KInvalidData message.

(** What the kernel's files hold: reading one, listing a directory, and
    whether a path is one. *)
Record Files := mkFiles {
  fi_read : string -> result IoError string;
  fi_dir : string -> result IoError (list (result IoError string));
  fi_is_dir : string -> bool;
}.
Definition read (fs : Files) (path : string) : result IoError string :=
  map_err (fun e => mkIoError (ie_kind e) ("read " +:+ path +:+ ": " +:+ ie_message e)) (fi_read fs path).

(** How [ParseIntError] reads, digit by digit as [u64::from_str] goes. *)
Fixpoint digits_error (acc : N) (s : string) : string :=
  match s with
  | EmptyString => ""
  | String c s =>
      match digit_value c with
      | Some d =>
          if (d <? 10)%N then
            if (acc * 10 + d <=? u64_max)%N then digits_error (acc * 10 + d) s
            else "number too large to fit in target type"
          else "invalid digit found in string"
      | None => "invalid digit found in string"
      end
  end.
Definition parse_int_error (s : string) : string :=
  match s with
  | EmptyString => "cannot parse integer from empty string"
  | String "+" EmptyString | String "-" EmptyString => "invalid digit found in string"
  | String "+" s => digits_error 0 s
  | s => digits_error 0 s
  end.
Definition number (text : string) : result IoError N :=
  ok_or (parse_uint u64_max (trim text)) (invalid (debug_str text +:+ ": " +:+ parse_int_error (trim text))).

Definition strip2 (name sep line : string) : option string := l ← strip_prefix name line; strip_prefix sep l.
Definition field (text name : string) : result IoError N :=
  v ← ok_or (find_map (strip2 name " ") (str_lines text)) (invalid ("no " +:+ name)); number v.

Definition io_value (prefix pair : string) : option N := v ← strip_prefix prefix pair; parse_uint u64_max v.
Definition io_pair (totals : N * N) (pair : string) : N * N :=
  match io_value "rbytes=" pair with
  | Some n => (wrap64 (totals.1 + n), totals.2)
  | None => match io_value "wbytes=" pair with
            | Some n => (totals.1, wrap64 (totals.2 + n))
            | None => totals
            end
  end.
Definition io_bytes (text : string) : N * N := foldl io_pair (0%N, 0%N) (split_whitespace text).

(** ** Samples *)

Record RunningVm := mkRunningVm { rv_name : string; rv_id : string }.
Record VmSample := mkVmSample {
  vs_cpu_usec : N;
  vs_memory_bytes : N;
  vs_io_read_bytes : N;
  vs_io_write_bytes : N;
  vs_rx_bytes : N;
  vs_tx_bytes : N;
}.
Record NodeSample := mkNodeSample {
  ns_cpu_busy_ticks : N;
  ns_cpu_total_ticks : N;
  ns_memory_total_bytes : N;
  ns_memory_available_bytes : N;
  ns_rx_bytes : N;
  ns_tx_bytes : N;
}.

Fixpoint numbers (words : list string) : result IoError (list N) :=
  match words with
  | [] => Ok []
  | w :: ws => n ← number w; ns ← numbers ws; Ok (n :: ns)
  end.
(** [kib]: one line of [/proc/meminfo]. *)
Definition kib_value (v : string) : option N :=
  k ← strip_suffix "kB" (trim v); parse_uint u64_max (trim k).
Definition kib (meminfo name : string) : result IoError N :=
  ok_or (v ← find_map (strip2 name ":") (str_lines meminfo); kib_value v)
    (invalid ("no " +:+ name +:+ " in /proc/meminfo")).

(** The loop over [sys/class/net]. *)
Definition is_node_interface (name : string) : bool :=
  negb (bool_decide (name = "lo")) && match parse_host_id name with Some _ => false | None => true end.
Fixpoint sum_interfaces (fs : Files) (net : string) (entries : list (result IoError string)) (rx tx : N)
    : result IoError (N * N) :=
  match entries with
  | [] => Ok (rx, tx)
  | Err e :: _ => Err e
  | Ok name :: entries =>
      if negb (is_node_interface name) then sum_interfaces fs net entries rx tx
      else
        let statistics := net +:+ "/" +:+ name +:+ "/statistics" in
        if negb (fi_is_dir fs statistics) then sum_interfaces fs net entries rx tx
        else
          rx_text ← read fs (statistics +:+ "/rx_bytes");
          n ← number rx_text;
          tx_text ← read fs (statistics +:+ "/tx_bytes");
          m ← number tx_text;
          sum_interfaces fs net entries (wrap64 (rx + n)) (wrap64 (tx + m))
  end.

Definition sum64 (ns : list N) : N := wrap64 (foldl N.add 0%N ns).
(** [Sampler::node], with the root of the files [root] ending in a slash. *)
Definition sample_node (root : string) (fs : Files) : result IoError NodeSample :=
  stat ← read fs (root +:+ "proc/stat");
  line ← ok_or (find_map (strip_prefix "cpu ") (str_lines stat)) (invalid "no cpu line in /proc/stat");
  ticks ← numbers (take 8 (split_whitespace line));
  match ticks with
  | [user; nice; system; idle; iowait; irq; softirq; steal] =>
      let busy := sum64 [user; nice; system; irq; softirq; steal] in
      meminfo ← read fs (root +:+ "proc/meminfo");
      let net := root +:+ "sys/class/net" in
      entries ← fi_dir fs net;
      '(rx, tx) ← sum_interfaces fs net entries 0 0;
      total ← kib meminfo "MemTotal";
      available ← kib meminfo "MemAvailable";
      Ok (mkNodeSample busy (sum64 [busy; idle; iowait]) (wrap64 (total * 1024)) (wrap64 (available * 1024)) rx tx)
  | _ => Err (invalid "a short cpu line in /proc/stat")
  end.

(** [Sampler::vm]. *)
Definition sample_vm (root : string) (fs : Files) (id : string) : result IoError VmSample :=
  let cgroup := parent_cgroup_under root +:+ "/" +:+ id in
  cpu_stat ← read fs (cgroup +:+ "/cpu.stat");
  cpu_usec ← field cpu_stat "usage_usec";
  memory ← read fs (cgroup +:+ "/memory.current");
  memory_bytes ← number memory;
  '(io_read, io_write) ←
    match read fs (cgroup +:+ "/io.stat") with
    | Ok text => Ok (io_bytes text)
    | Err e => match ie_kind e with KNotFound => Ok (0%N, 0%N) | _ => Err e end
    end;
  let veth := root +:+ "sys/class/net/" +:+ id +:+ "/statistics" in
  tx_text ← read fs (veth +:+ "/tx_bytes");
  rx ← number tx_text;
  rx_text ← read fs (veth +:+ "/rx_bytes");
  tx ← number rx_text;
  Ok (mkVmSample cpu_usec memory_bytes io_read io_write rx tx).

(** ** Rates *)

Definition f64_of_N (n : N) : f64 := binary_normalize 53 1024 (Z.of_N n) 0 false.
Definition f64_mul : f64 -> f64 -> f64 := SFmul 53 1024.
Definition f64_div : f64 -> f64 -> f64 := SFdiv 53 1024.

Definition as_micros (nanos : N) : N := (nanos / 1000)%N.
Definition as_millis (nanos : N) : N := (nanos / 1000000)%N.
Definition per_second (delta elapsed : N) : N :=
  let millis := N.max (as_millis elapsed) 1 in
  let v := (delta * 1000 / millis)%N in
  if (v <=? u64_max)%N then v else u64_max.

(** The trait [Sample]: [N.sub] is [saturating_sub]. *)
Class Sample (S R : Type) := rates_since : S -> S -> N -> R.
#[global] Instance vm_sample : Sample VmSample VmRates := fun self earlier elapsed =>
  let per_sec now earlier := per_second (now - earlier)%N elapsed in
  let cpu_usec := (vs_cpu_usec self - vs_cpu_usec earlier)%N in
  let elapsed_usec := f64_of_N (N.max (as_micros elapsed) 1) in
  {| vr_cpu_percent := f64_div (f64_mul (f64_of_N cpu_usec) (f64_of_N 100)) elapsed_usec;
     vr_memory_bytes := vs_memory_bytes self;
     vr_io_read_per_sec := per_sec (vs_io_read_bytes self) (vs_io_read_bytes earlier);
     vr_io_write_per_sec := per_sec (vs_io_write_bytes self) (vs_io_write_bytes earlier);
     vr_rx_per_sec := per_sec (vs_rx_bytes self) (vs_rx_bytes earlier);
     vr_tx_per_sec := per_sec (vs_tx_bytes self) (vs_tx_bytes earlier) |}.
#[global] Instance node_sample : Sample NodeSample NodeRates := fun self earlier elapsed =>
  let busy := (ns_cpu_busy_ticks self - ns_cpu_busy_ticks earlier)%N in
  let total := (ns_cpu_total_ticks self - ns_cpu_total_ticks earlier)%N in
  {| nr_cpu_percent := if (total =? 0)%N then f64_of_N 0
                       else f64_div (f64_mul (f64_of_N busy) (f64_of_N 100)) (f64_of_N total);
     nr_memory_used_bytes := (ns_memory_total_bytes self - ns_memory_available_bytes self)%N;
     nr_memory_total_bytes := ns_memory_total_bytes self;
     nr_rx_per_sec := per_second (ns_rx_bytes self - ns_rx_bytes earlier)%N elapsed;
     nr_tx_per_sec := per_second (ns_tx_bytes self - ns_tx_bytes earlier)%N elapsed |}.

(** ** Series *)

Record Series (S R : Type) := mkSeries { se_last : option (N * S); se_rates : list R }.
Arguments mkSeries {S R}.
Arguments se_last {S R}.
Arguments se_rates {S R}.
Definition series_default {T R : Type} : Series T R := mkSeries None [].
Definition pop_front {A} (l : list A) : list A := match l with [] => [] | _ :: l => l end.
Definition series_record `{Sample T R} (s : Series T R) (at_sample : N * T) : Series T R :=
  let '(at_, sample) := at_sample in
  mkSeries (Some (at_, sample))
    match se_last s with
    | None => se_rates s
    | Some (earlier_at, earlier) =>
        (if bool_decide (length (se_rates s) = HISTORY) then pop_front (se_rates s) else se_rates s)
          ++ [rates_since sample earlier (at_ - earlier_at)%N]
    end.

(** ** The recorder *)

Record Readings := mkReadings { rd_node : option NodeSample; rd_vms : list (string * option VmSample) }.
Record Recorder := mkRecorder {
  rc_node : Series NodeSample NodeRates;
  rc_vms : gmap string (Series VmSample VmRates);
}.
Definition recorder_default : Recorder := mkRecorder series_default ∅.

(** [Sampler::read]. *)
Definition sampler_read (root : string) (fs : Files) (vms : list RunningVm) : Readings :=
  mkReadings (ok (sample_node root fs)) ((fun vm => (rv_name vm, ok (sample_vm root fs (rv_id vm)))) <$> vms).

Definition record_vm (at_ : N) (vms : gmap string (Series VmSample VmRates)) (r : string * option VmSample)
    : gmap string (Series VmSample VmRates) :=
  match r.2 with
  | Some sample => <[r.1 := series_record (default series_default (vms !! r.1)) (at_, sample)]> vms
  | None => vms
  end.
(** [Recorder::record]. *)
Definition recorder_record (at_ : N) (readings : Readings) (r : Recorder) : Recorder :=
  mkRecorder
    match rd_node readings with
    | Some sample => series_record (rc_node r) (at_, sample)
    | None => rc_node r
    end
    (foldl (record_vm at_)
       (filter (fun kv => contains (rd_vms readings).*1 kv.1 = true) (rc_vms r)) (rd_vms readings)).
(** [Recorder::node] and [Recorder::vm]. *)
Definition recorder_node (r : Recorder) : list NodeRates := se_rates (rc_node r).
Definition recorder_vm (name : string) (r : Recorder) : list VmRates :=
  from_option se_rates [] (rc_vms r !! name).

(** ** The agent's part *)

(** The VMs [Agent::sample] reads. *)
Definition running_vms (a : Agent) : list RunningVm :=
  omap (fun info => mkRunningVm (vi_name info) <$> (host_id <$> vi_vm_address info)) (agent_list false a).
Definition agent_sample (at_ : N) (fs : Files) (a : Agent) (r : Recorder) : Recorder :=
  recorder_record at_ (sampler_read "/" fs (running_vms a)) r.
Definition agent_stats (now : N) (a : Agent) (r : Recorder) : Stats :=
  mkStats now (recorder_node r) ((fun info => mkVmStats info (recorder_vm (vi_name info) r)) <$> agent_list false a).

(** ** A series is the last minute of rates *)

(** The rates between each sample and the one before it. *)
Fixpoint all_rates `{Sample T R} (samples : list (N * T)) : list R :=
  match samples with
  | x :: ((y :: _) as rest) => rates_since y.2 x.2 (y.1 - x.1)%N :: all_rates rest
  | _ => []
  end.
Definition last_n {A} (n : nat) (l : list A) : list A := drop (length l - n) l.
Definition series_of `{Sample T R} (samples : list (N * T)) : Series T R :=
  foldl series_record series_default samples.

Lemma last_n_snoc {A} (n : nat) (l : list A) x :
  0 < n ->
  last_n n (l ++ [x]) =
    (if bool_decide (length (last_n n l) = n) then pop_front (last_n n l) else last_n n l) ++ [x].
Proof.
  intros Hn. unfold last_n. rewrite length_drop, length_app. simpl. destruct (decide (n <= length l)).
  - rewrite bool_decide_true by lia. replace (length l + 1 - n) with (S (length l - n)) by lia.
    rewrite drop_app_le by lia. f_equal.
    destruct (drop (length l - n) l) as [|y l'] eqn:Hd.
    { apply (f_equal length) in Hd. rewrite length_drop in Hd. simpl in Hd. lia. }
    simpl. replace (S (length l - n)) with (length l - n + 1) by lia. by rewrite <-drop_drop, Hd.
  - rewrite bool_decide_false by lia. replace (length l + 1 - n) with 0 by lia.
    by replace (length l - n) with 0 by lia.
Qed.

Section series.
Context `{Sample T R}.
Implicit Types samples : list (N * T).

Lemma all_rates_snoc samples x :
  all_rates (samples ++ [x]) =
    all_rates samples ++ match last samples with Some y => [rates_since x.2 y.2 (x.1 - y.1)%N] | None => [] end.
Proof.
  induction samples as [|a [|b rest] IH]; [done|done|]. cbn [app all_rates] in IH |- *. by rewrite IH.
Qed.
Lemma series_of_spec samples : series_of samples = mkSeries (last samples) (last_n HISTORY (all_rates samples)).
Proof.
  induction samples as [|x samples IH] using rev_ind; [done|].
  unfold series_of in *. rewrite foldl_app, IH. simpl. unfold series_record. destruct x as [at_ x]. simpl.
  rewrite last_snoc, all_rates_snoc. f_equal. destruct (last samples) as [[t y]|]; simpl; [|by rewrite app_nil_r].
  by rewrite last_n_snoc by (unfold HISTORY; lia).
Qed.
End series.

(** ** The recorder over a run of rounds *)

Record Round := mkRound { ro_at : N; ro_files : Files; ro_agent : Agent }.
Definition recorded (rounds : list Round) : Recorder :=
  foldl (fun r ro => agent_sample (ro_at ro) (ro_files ro) (ro_agent ro) r) recorder_default rounds.

(** Whether a VM was running in a round, and its sample then. *)
Definition running_in (name : string) (ro : Round) : bool :=
  contains (rv_name <$> running_vms (ro_agent ro)) name.
Definition sample_in (name : string) (ro : Round) : option (N * VmSample) :=
  vm ← find_first (fun v => bool_decide (rv_name v = name)) (running_vms (ro_agent ro));
  s ← ok (sample_vm "/" (ro_files ro) (rv_id vm));
  Some (ro_at ro, s).
Definition node_sample_in (ro : Round) : option (N * NodeSample) :=
  pair (ro_at ro) <$> ok (sample_node "/" (ro_files ro)).
(** The rounds since the VM was last not running. *)
Definition since_running (name : string) (rounds : list Round) : list Round :=
  reverse (take_while (running_in name) (reverse rounds)).

Lemma since_running_snoc name rounds ro :
  since_running name (rounds ++ [ro]) =
    if running_in name ro then since_running name rounds ++ [ro] else [].
Proof.
  unfold since_running. rewrite reverse_app, reverse_singleton. cbn [app take_while].
  destruct (running_in name ro); [|done]. by rewrite reverse_cons.
Qed.

Lemma foldl_record_vm_other at_ l vms name :
  name ∉ l.*1 -> foldl (record_vm at_) vms l !! name = vms !! name.
Proof.
  revert vms. induction l as [|[n s] l IH]; intros vms; [done|]. simpl. rewrite not_elem_of_cons. intros [Hn Hl].
  rewrite IH by done. unfold record_vm. simpl. destruct s; [|done]. by rewrite lookup_insert_ne.
Qed.
Lemma foldl_record_vm_in at_ l vms name s :
  NoDup l.*1 -> (name, s) ∈ l ->
  foldl (record_vm at_) vms l !! name = record_vm at_ vms (name, s) !! name.
Proof.
  revert vms. induction l as [|[n s'] l IH]; intros vms; [by intros _ ?%not_elem_of_nil|].
  rewrite fmap_cons, NoDup_cons. intros [Hn Hl] [[= -> ->]|Hin]%elem_of_cons.
  - simpl. by rewrite foldl_record_vm_other.
  - simpl. rewrite IH by done.
    assert (n <> name). { intros ->. apply Hn. apply list_elem_of_fmap. by exists (name, s). }
    unfold record_vm. simpl. destruct s, s'; rewrite ?lookup_insert_eq, ?lookup_insert_ne by done; done.
Qed.

Lemma agent_list_names a all :
  map_Forall entry_wf (ag_vms a) -> NoDup (vi_name <$> agent_list all a).
Proof.
  intros Hwf. unfold agent_list, values_of.
  assert (Hl : forall k e, (k, e) ∈ entries_of (ag_vms a) -> entry_wf k e).
  { intros k e He. apply elem_of_entries in He. by apply (Hwf k e). }
  pose proof (NoDup_keys_of (ag_vms a)) as Hnd. unfold keys_of in Hnd.
  induction (entries_of (ag_vms a)) as [|[k e] l IH]; [constructor|]. simpl in *.
  apply NoDup_cons in Hnd as [Hk Hnd].
  assert (Hsub : forall n, n ∈ vi_name <$> omap (fun e => match e with
                 | Running info _ _ => Some info
                 | EndedVm info _ => if all then Some info else None
                 | Starting _ _ _ => None
                 end) l.*2 -> n ∈ l.*1).
  { intros n (i & -> & (e' & Hin & Hi)%list_elem_of_omap)%list_elem_of_fmap.
    apply list_elem_of_fmap in Hin as ([k' e''] & -> & Hin). simpl in *.
    specialize (Hl k' e'' ltac:(by right)). apply list_elem_of_fmap. exists (k', e''). split; [|done]. simpl.
    destruct e'' as [| |]; try done; simpl in *; [|destruct all; [|done]]; simplify_eq; by destruct Hl. }
  assert (Hrest : NoDup (vi_name <$> omap (fun e => match e with
                 | Running info _ _ => Some info
                 | EndedVm info _ => if all then Some info else None
                 | Starting _ _ _ => None
                 end) l.*2)) by (apply IH; [intros; apply Hl; by right|done]).
  specialize (Hl k e ltac:(by left)).
  destruct e as [| |]; simpl in *; [done| |destruct all; [|done]];
    simpl; (constructor; [|done]); intros Hin%Hsub; destruct Hl as [Hn _]; rewrite Hn in Hin; done.
Qed.

Lemma running_vms_names a : map_Forall entry_wf (ag_vms a) -> NoDup (rv_name <$> running_vms a).
Proof.
  intros Hwf. pose proof (agent_list_names a false Hwf) as Hnd. unfold running_vms.
  induction (agent_list false a) as [|i l IH]; [constructor|]. rewrite fmap_cons, NoDup_cons in Hnd.
  destruct Hnd as [Hi Hnd]. simpl. destruct (vi_vm_address i) as [x|]; simpl; [|by apply IH].
  constructor; [|by apply IH]. contradict Hi.
  apply list_elem_of_fmap in Hi as (v & -> & (j & Hj & Hv)%list_elem_of_omap).
  apply list_elem_of_fmap. exists j. split; [|done]. destruct (vi_vm_address j); by simplify_eq/=.
Qed.

(** One round, for one VM: not running forgets it; running records its
    sample, if it had one. *)
Lemma agent_sample_vm name ro r :
  map_Forall entry_wf (ag_vms (ro_agent ro)) ->
  let r' := agent_sample (ro_at ro) (ro_files ro) (ro_agent ro) r in
  default series_default (rc_vms r' !! name) =
    if running_in name ro then
      match sample_in name ro with
      | Some s => series_record (default series_default (rc_vms r !! name)) s
      | None => default series_default (rc_vms r !! name)
      end
    else series_default.
Proof.
  intros Hwf. pose proof (running_vms_names _ Hwf) as Hnd. simpl.
  set (vms := running_vms (ro_agent ro)) in *.
  assert (Hnames : forall fs, ((fun vm => (rv_name vm, ok (sample_vm "/" fs (rv_id vm)))) <$> vms).*1 = rv_name <$> vms).
  { intros fs. rewrite <-list_fmap_compose. by apply list_fmap_ext. }
  rewrite Hnames. unfold running_in. fold vms. destruct (contains (rv_name <$> vms) name) eqn:Hc.
  - apply contains_spec, list_elem_of_fmap in Hc as (v & -> & Hv).
    assert (Hfind : find_first (fun u => bool_decide (rv_name u = rv_name v)) vms = Some v).
    { destruct (find_first _ vms) as [u|] eqn:Hu.
      - apply find_first_elem in Hu as [Hin Heq%bool_decide_eq_true]. f_equal.
        apply list_elem_of_lookup in Hin as [i Hi], Hv as [j Hj].
        assert (i = j) as ->; [|congruence]. eapply (NoDup_lookup (rv_name <$> vms)); [done|..];
          rewrite list_lookup_fmap; [by rewrite Hi|rewrite Hj; simpl; by rewrite Heq].
      - apply find_first_none in Hu. rewrite Forall_forall in Hu. specialize (Hu v Hv).
        by rewrite bool_decide_true in Hu. }
    unfold sample_in. fold vms. rewrite Hfind. simpl.
    rewrite (foldl_record_vm_in _ _ _ (rv_name v) (ok (sample_vm "/" (ro_files ro) (rv_id v)))).
    2: by rewrite Hnames.
    2: { apply list_elem_of_fmap. by exists v. }
    assert (Hold : filter (fun kv => contains (rv_name <$> vms) kv.1 = true) (rc_vms r) !! rv_name v = rc_vms r !! rv_name v).
    { destruct (rc_vms r !! rv_name v) as [s|] eqn:Hr.
      - apply map_lookup_filter_Some. split; [done|]. simpl. apply contains_spec, list_elem_of_fmap. by exists v.
      - apply map_lookup_filter_None. by left. }
    unfold record_vm. simpl. destruct (sample_vm _ _ _) as [s|e]; simpl; [|by rewrite Hold].
    by rewrite lookup_insert_eq, Hold.
  - rewrite foldl_record_vm_other.
    + rewrite (proj2 (map_lookup_filter_None _ _ _)); [done|]. right. intros s _. simpl. by rewrite Hc.
    + rewrite Hnames. intros Hin. apply contains_spec in Hin. congruence.
Qed.

Definition rounds_wf (rounds : list Round) : Prop :=
  Forall (fun ro => map_Forall entry_wf (ag_vms (ro_agent ro))) rounds.

Lemma recorded_vm name rounds :
  rounds_wf rounds ->
  default series_default (rc_vms (recorded rounds) !! name) =
    series_of (omap (sample_in name) (since_running name rounds)).
Proof.
  induction rounds as [|ro rounds IH] using rev_ind; [done|]. intros [Hwf [Hro _]%Forall_cons]%Forall_app.
  unfold recorded in *. rewrite foldl_app. cbn [foldl]. rewrite agent_sample_vm by done.
  rewrite since_running_snoc. destruct (running_in name ro); [|done]. rewrite IH by done.
  rewrite omap_app. cbn [omap list_omap]. destruct (sample_in name ro); [|by rewrite app_nil_r].
  unfold series_of. by rewrite foldl_app.
Qed.
Lemma recorded_node rounds : rc_node (recorded rounds) = series_of (omap node_sample_in rounds).
Proof.
  induction rounds as [|ro rounds IH] using rev_ind; [done|]. unfold recorded in *. rewrite foldl_app. cbn [foldl].
  rewrite omap_app. cbn [omap list_omap]. unfold node_sample_in. simpl. rewrite IH.
  destruct (sample_node _ _); simpl; [|by rewrite app_nil_r]. unfold series_of. by rewrite foldl_app.
Qed.

(** C40: what [cirro top] is told: after any rounds of sampling, the stats
    list exactly the running VMs, and each one's history, and the Node's, is
    the last [HISTORY] rates between consecutive samples, where a VM's
    samples are those taken since the last round that did not find it
    running: a VM begins afresh after one. *)
Theorem stats_are_the_last_minute now a rounds :
  rounds_wf rounds ->
  let stats := agent_stats now a (recorded rounds) in
  (vs_info <$> ss_vms stats) = agent_list false a /\
  ss_node stats = last_n HISTORY (all_rates (omap node_sample_in rounds)) /\
  Forall (fun vm => vs_history vm =
    last_n HISTORY (all_rates (omap (sample_in (vi_name (vs_info vm))) (since_running (vi_name (vs_info vm)) rounds))))
    (ss_vms stats).
Proof.
  intros Hwf stats. split_and!.
  - simpl. rewrite <-list_fmap_compose. apply list_fmap_id.
  - simpl. unfold recorder_node. by rewrite recorded_node, series_of_spec.
  - simpl. apply Forall_fmap, Forall_forall. intros i _. simpl.
    pose proof (recorded_vm (vi_name i) rounds Hwf) as Hr. unfold recorder_vm. rewrite series_of_spec in Hr.
    apply (f_equal se_rates) in Hr. simpl in Hr. rewrite <-Hr. by destruct (_ !! _).
Qed.

(** A VM sampled twice, a second apart. *)
Definition sampled_info : VmInfo := mkVmInfo "web" (Some (ipv4_new 10 77 1 2)) 128 1 0 None None.
Definition sampled_agent : Agent :=
  set_ag_vms {["web" := Running sampled_info "web.0.log" 0]}
    (agent_new "/s" "/f" "/j" "/k" 0 (mkSubnet (ipv4_new 10 77 0 0) 16) None false []
       (create_tables (mkDb None None ∅ ∅ ∅)) (mkHost ∅ ∅ ∅ ∅ ∅ ∅ false)).
Definition sampled_files (usec received : string) : Files := mkFiles
  (fun path =>
     if ends_with "cpu.stat" path then Ok ("usage_usec " +:+ usec +:+ nl +:+ "user_usec 1" +:+ nl)
     else if ends_with "memory.current" path then Ok ("4096" +:+ nl)
     else if ends_with "cirro-0102/statistics/tx_bytes" path then Ok (received +:+ nl)
     else if ends_with "cirro-0102/statistics/rx_bytes" path then Ok ("0" +:+ nl)
     else Err (mkIoError KNotFound "no such file"))
  (fun _ => Ok []) (fun _ => false).
Definition sampled_rounds : list Round :=
  [mkRound 1000000000 (sampled_files "1000000" "700") sampled_agent;
   mkRound 2000000000 (sampled_files "1500000" "2700") sampled_agent].
Lemma stats_are_the_last_minute_witness :
  ss_vms (agent_stats 0 sampled_agent (recorded sampled_rounds)) =
    [mkVmStats sampled_info
       (last_n HISTORY (all_rates (omap (sample_in "web") (since_running "web" sampled_rounds))))] /\
  (vr_rx_per_sec <$> all_rates (omap (sample_in "web") (since_running "web" sampled_rounds))) = [2000%N].
Proof.
  split; [|vm_compute; reflexivity].
  destruct (stats_are_the_last_minute 0 sampled_agent sampled_rounds) as (Hl & _ & Hh).
  { repeat constructor; apply map_Forall_singleton; repeat split; eexists; reflexivity. }
  assert (Hs : ss_vms (agent_stats 0 sampled_agent (recorded sampled_rounds)) =
    [mkVmStats sampled_info (recorder_vm "web" (recorded sampled_rounds))]) by reflexivity.
  rewrite Hs in Hh |- *. apply Forall_cons in Hh as [Hh _]. cbn [vs_history vs_info vi_name sampled_info] in Hh.
  rewrite Hh. reflexivity.
Defined.
