(* ===== verification/Api.v ===== *)
(** * The Node agent's control API ([crates/cirro-node/src/agent.rs])

    Requests on the agent's socket, from the bytes of a body to the answer:
    [read_json], what [handle]'s handlers do to the agent and answer at once,
    and what the others wait for: the end of the task that starts or wakes a
    VM, a park's reply, the end of a supervisor. Requests are numbered as
    they come, and any number are served at a time, between the agent's other
    events. *)

From S2P Require Import Prelude RustStr Proto Subnet Store Validate Vm VmLaws VmEnd Machine MachineKey.
From S2P Require Import MachineLaws Edge Agent AgentSys Metrics.

(** ** Bodies *)

(** [read_json]: [body] is what hyper reads, [from_slice] what serde makes of
    it. *)
Definition read_json {T} (from_slice : string -> result string T) (body : result string string)
    : result ApiError T :=
  bytes ← map_err (fun e => bad_request ("read request body: " +:+ e)) body;
  map_err (fun e => bad_request ("invalid request body: " +:+ e)) (from_slice bytes).

(** The bodies serde reads. *)
Record FromSlice := mkFromSlice {
  fs_run : string -> result string RunRequest;
  fs_stop : string -> result string StopRequest;
  fs_app : string -> result string MachineAppRequest;
  fs_scan : string -> result string string;
  fs_add : string -> result string AddMachine;
}.
(** A request as hyper gives it. *)
Record HttpRequest := mkHttpRequest {
  hr_method : Method;
  hr_path : string;
  hr_query : option string;
  hr_body : result string string;
}.
Definition api_request (fs : FromSlice) (req : HttpRequest) : ApiRequest :=
  mkApiRequest (hr_method req) (hr_path req) (default "" (hr_query req))
    (read_json (fs_run fs) (hr_body req)) (read_json (fs_stop fs) (hr_body req))
    (read_json (fs_app fs) (hr_body req)) (read_json (fs_scan fs) (hr_body req))
    (read_json (fs_add fs) (hr_body req)).

(** ** Serving *)

(** What a request still waits for: the task of a VM's start or wake; to send
    a park whose claim [traffic] it holds; the reply to it, or then the end of
    the supervisor [t] it went to; the end of the supervisor a stop went to. *)
Inductive Wait :=
| WTask (name : string)
| WParkClaimed (name : string) (traffic : nat)
| WParking (name : string) (traffic t : nat)
| WStop (name : string) (t : nat).

(** What a handler meets before it answers or waits: [rootfs_open] as a
    caller, free ports, the database, the file system and the SSH tools. *)
Record CallOutcome := mkCallOutcome {
  co_open : N -> N -> string -> RootfsOpen;
  co_ports : nat -> result string (list N);
  co_ports' : nat -> result string (list N);
  co_app : fault;
  co_dir : fault;
  co_store : fault;
  co_known : write_fault;
  co_log : option string;
  co_key : result ApiError string;
  co_scan : bool -> result string string;
  co_fingerprint : string -> result string string;
  co_add : AddOutcome;
  co_now : N;
}.

(** What the handler of an action does to the agent, before it waits. *)
Definition action_event (uid gid : N) (o : CallOutcome) (act : Action) : option SysEvent :=
  match act with
  | ToRun run => Some (SRun (co_open o uid gid (rq_rootfs run)) run)
  | ToWake name => Some (SWake name)
  | ToPark name => Some (SClaim name)
  | ToRemove name => Some (SRemove (co_ports o) (co_app o) (co_dir o) (co_store o) name)
  | ToRunOnMachine request => Some (SOnMachine (co_ports o) (co_ports' o) (co_store o) request)
  | ToAddMachine add => Some (SMachine (EAdd (co_add o) add))
  | ToRemoveMachine name => Some (SMachine (ERemove (co_store o) (co_known o) name))
  | Respond _ | ToStop _ _ | ToLogs _ _ | ToStats | ToSshKey | ToScan _ => None
  end.

(** What it answers at once, or waits for. *)
Inductive Reply := Answers (r : result ApiError ApiResponse) | Waits (w : Wait).
Definition waits {A} (wait : A -> Wait) (r : result ApiError A) : Reply :=
  match r with Ok x => Waits (wait x) | Err e => Answers (Err e) end.
Definition answers {A} (respond : A -> ApiResponse) (r : result ApiError A) : Reply :=
  Answers (x ← r; Ok (respond x)).
(** [park_vm]: the park itself runs on its own task, with the claim. *)
Definition park_vm (name : string) (a : Agent) : Reply := waits (WParkClaimed name) (claim_park name a a).2.
Definition action_reply (uid gid : N) (o : CallOutcome) (metrics : Recorder) (act : Action) (a : Agent) : Reply :=
  match act with
  | Respond r => Answers r
  | ToRun run => waits (fun task => WTask (stt_name task)) (run_vm (co_open o uid gid (rq_rootfs run)) run a).2
  | ToWake name => waits (fun task => WTask (wkt_name task)) (wake_vm name a).2
  | ToPark name => park_vm name a
  | ToStop name stop => waits (fun ts => WStop name ts.1) (stop_vm name stop a)
  | ToLogs name offset => Answers (agent_logs (co_log o) a name offset)
  | ToRemove name => Answers (agent_remove (co_ports o) (co_app o) (co_dir o) (co_store o) name a).2
  | ToRunOnMachine request => Answers (run_on_machine (co_ports o) (co_ports' o) (co_store o) request a).2
  | ToStats => Answers (Ok (json OK (BStats (agent_stats (co_now o) a metrics))))
  | ToSshKey => answers (fun key => mkApiResponse OK [("content-type", "text/plain")] (BText key)) (co_key o)
  | ToScan ssh => answers (fun key => json OK (BHostKey key)) (machines_scan (co_scan o) (co_fingerprint o) ssh)
  | ToAddMachine add =>
      answers (fun info => json CREATED (BMachine info))
        (machines_add (co_add o) add (ag_machines a) (ag_db a)).2
  | ToRemoveMachine name =>
      answers (fun _ => no_content) (machines_remove (co_store o) (co_known o) name (ag_machines a) (ag_db a)).2
  end.

(** The agent with its requests: what each asked for, what those under way
    wait for, whose clients went away meanwhile, and the answers sent. *)
Record ApiServer := mkApiServer {
  ap_sys : Sys;
  ap_metrics : Recorder;
  ap_next : nat;
  ap_asked : gmap nat Action;
  ap_waiting : gmap nat Wait;
  ap_gone : gset nat;
  ap_answers : gmap nat ApiResponse;
}.
Definition api_new (s : Sys) : ApiServer := mkApiServer s recorder_default 0 ∅ ∅ ∅ ∅.
Definition set_ap_sys (sys : Sys) (s : ApiServer) : ApiServer :=
  mkApiServer sys (ap_metrics s) (ap_next s) (ap_asked s) (ap_waiting s) (ap_gone s) (ap_answers s).
Definition set_ap_waiting (w : gmap nat Wait) (s : ApiServer) : ApiServer :=
  mkApiServer (ap_sys s) (ap_metrics s) (ap_next s) (ap_asked s) w (ap_gone s) (ap_answers s).

(** The end of [handle]: an answer, which nobody gets when the client is
    gone. *)
Definition finish (id : nat) (r : result ApiError ApiResponse) (s : ApiServer) : ApiServer :=
  mkApiServer (ap_sys s) (ap_metrics s) (ap_next s) (ap_asked s) (delete id (ap_waiting s)) (ap_gone s)
    (if bool_decide (id ∈ ap_gone s) then ap_answers s else <[id := api_response r]> (ap_answers s)).

(** A request comes. *)
Definition begin (uid gid : N) (req : ApiRequest) (o : CallOutcome) (s : ApiServer) : ApiServer :=
  let a := sy_agent (ap_sys s) in
  let act := handle req a in
  let id := ap_next s in
  let s' := mkApiServer (match action_event uid gid o act with Some ev => sys_step ev (ap_sys s) | None => ap_sys s end)
              (ap_metrics s) (S id) (<[id := act]> (ap_asked s)) (ap_waiting s) (ap_gone s) (ap_answers s) in
  match action_reply uid gid o (ap_metrics s) act a with
  | Answers r => finish id r s'
  | Waits w => set_ap_waiting (<[id := w]> (ap_waiting s')) s'
  end.

(** The task of a start or a wake that an event ends, and its answer. *)
Definition task_answer (ev : SysEvent) (s : Sys) : option (string * result ApiError ApiResponse) :=
  match ev with
  | SStarted i o u f now =>
      match sy_tasks s !! i with
      | Some (TStart task) => Some (stt_name task, start_answer (start_vm o u f now task (sy_agent s)).2)
      | _ => None
      end
  | SWoken i o u f f_mark now =>
      match sy_tasks s !! i with
      | Some (TWake task) => Some (wkt_name task, (wake_task o u f f_mark now task (sy_agent s)).2)
      | _ => None
      end
  | _ => None
  end.
Definition waits_for (name : string) (w : Wait) : bool :=
  match w with WTask n => bool_decide (n = name) | _ => false end.
Definition waiter (name : string) (waiting : gmap nat Wait) : option nat :=
  fst <$> find_first (fun e => waits_for name e.2) (map_to_list waiting).

(** The claim on a [Traffic], by its place. *)
Definition claim_at (t : nat) (claims : list (nat * bool)) : option nat :=
  fst <$> list_find (fun c => c.1 = t) claims.
(** A park's task is over: its claim is dropped, and it answers. *)
Definition park_over (id traffic : nat) (answer : result ApiError ApiResponse) (now : N) (s : ApiServer) : ApiServer :=
  finish id answer
    (set_ap_sys (match claim_at traffic (sy_claims (ap_sys s)) with
                 | Some i => sys_step (SParkDone i answer now) (ap_sys s)
                 | None => ap_sys s
                 end) s).

(** The agent's own events: all but what its handlers do, and the ends of
    parks that were asked for. *)
Definition own_event (s : Sys) (ev : SysEvent) : bool :=
  match ev with
  | SRun _ _ | SClaim _ | SRemove _ _ _ _ _ | SOnMachine _ _ _ _ => false
  | SMachine (EAddApp _ _ _ _) | SMachine (ERemoveApp _ _ _) | SMachine (EAdd _ _) | SMachine (ERemove _ _ _) => false
  | SParkDone i _ _ => match sy_claims s !! i with Some (_, idle) => idle | None => false end
  | _ => true
  end.

Inductive ApiEvent :=
| ARequest (uid gid : N) (req : ApiRequest) (o : CallOutcome)
| AOwn (ev : SysEvent)
| ASample (at_ : N) (fs : Files)
(** [park] is sent to the supervisor there is now; its reply *)
| AParkSends (id : nat) (now : N)
| AParkReplied (id : nat) (sent : bool) (reply : option (result string unit)) (now : N)
| AStopEnded (id : nat)
| AClientGone (id : nat).

(** A park that was made is answered once its supervisor has ended. *)
Definition park_waits (sent : bool) (reply : option (result string unit)) (t : nat) (a : Agent) : bool :=
  sent && match reply with Some (Ok _) => bool_decide (is_Some (ag_sups a !! t)) | _ => false end.

Definition api_step (ev : ApiEvent) (s : ApiServer) : ApiServer :=
  let a := sy_agent (ap_sys s) in
  match ev with
  | ARequest uid gid req o => begin uid gid req o s
  | AOwn ev =>
      if own_event (ap_sys s) ev then
        let s' := set_ap_sys (sys_step ev (ap_sys s)) s in
        match task_answer ev (ap_sys s) with
        | Some (name, r) =>
            match waiter name (ap_waiting s) with Some id => finish id r s' | None => s' end
        | None => s'
        end
      else s
  | ASample at_ fs =>
      mkApiServer (ap_sys s) (agent_sample at_ fs a (ap_metrics s)) (ap_next s) (ap_asked s) (ap_waiting s)
        (ap_gone s) (ap_answers s)
  | AParkSends id now =>
      match ap_waiting s !! id with
      | Some (WParkClaimed name traffic) =>
          match park_send name a with
          | Err e => park_over id traffic (Err e) now s
          | Ok (t, _) => set_ap_waiting (<[id := WParking name traffic t]> (ap_waiting s)) s
          end
      | _ => s
      end
  | AParkReplied id sent reply now =>
      match ap_waiting s !! id with
      | Some (WParking name traffic t) =>
          if park_waits sent reply t a then s else park_over id traffic (park_answer name sent reply a) now s
      | _ => s
      end
  | AStopEnded id =>
      match ap_waiting s !! id with
      | Some (WStop name t) =>
          if bool_decide (is_Some (ag_sups a !! t)) then s else finish id (ended_response a name) s
      | _ => s
      end
  | AClientGone id =>
      match ap_waiting s !! id with
      | Some w =>
          mkApiServer (ap_sys s) (ap_metrics s) (ap_next s) (ap_asked s)
            (match w with WStop _ _ => delete id (ap_waiting s) | _ => ap_waiting s end)
            ({[id]} ∪ ap_gone s) (ap_answers s)
      | None => s
      end
  end.
Definition api_run (evs : list ApiEvent) (s : ApiServer) : ApiServer := foldl (fun s ev => api_step ev s) s evs.
