(* ===== verification/ApiLaws.v ===== *)
(** * What the control API guarantees

    However requests and the agent's own events interleave: every request is
    answered once, unless its client goes away; one that waits, waits for
    something that is under way; and what an answer says is so when it is
    given. *)

From S2P Require Import Prelude RustStr Proto Subnet Store Validate Vm VmLaws VmEnd Machine MachineKey.
From S2P Require Import MachineLaws Edge Agent AgentSys AgentHost AgentBoot AgentProps Metrics Api.

(** ** What an event does to the agent *)

(** The event of the agent that a step of the API is, if any. *)
Definition park_over_event (traffic : nat) (answer : result ApiError ApiResponse) (now : N) (s : ApiServer)
    : option SysEvent :=
  (fun i => SParkDone i answer now) <$> claim_at traffic (sy_claims (ap_sys s)).
Definition api_sys_event (s : ApiServer) (ev : ApiEvent) : option SysEvent :=
  let a := sy_agent (ap_sys s) in
  match ev with
  | ARequest uid gid req o => action_event uid gid o (handle req a)
  | AOwn ev => if own_event (ap_sys s) ev then Some ev else None
  | AParkSends id now =>
      match ap_waiting s !! id with
      | Some (WParkClaimed name traffic) =>
          match park_send name a with Err e => park_over_event traffic (Err e) now s | Ok _ => None end
      | _ => None
      end
  | AParkReplied id sent reply now =>
      match ap_waiting s !! id with
      | Some (WParking name traffic t) =>
          if park_waits sent reply t a then None
          else park_over_event traffic (park_answer name sent reply a) now s
      | _ => None
      end
  | ASample _ _ | AStopEnded _ | AClientGone _ => None
  end.
Definition sys_step_opt (ev : option SysEvent) (s : Sys) : Sys :=
  match ev with Some ev => sys_step ev s | None => s end.

Lemma park_over_sys id traffic answer now s :
  ap_sys (park_over id traffic answer now s) = sys_step_opt (park_over_event traffic answer now s) (ap_sys s).
Proof. unfold park_over, park_over_event. by destruct (claim_at _ _). Qed.

(** The API drives the agent by its events, and by nothing else: whatever
    holds of every run of the agent holds of it behind its API. *)
Lemma api_step_sys ev s : ap_sys (api_step ev s) = sys_step_opt (api_sys_event s ev) (ap_sys s).
Proof.
  destruct ev as [uid gid req o|ev|at_ fs|id now|id sent reply now|id|id]; cbn [api_step api_sys_event].
  - unfold begin. by destruct (action_reply _ _ _ _ _ _).
  - destruct (own_event _ _); [|done]. destruct (task_answer _ _) as [[n r]|]; [|done].
    by destruct (waiter _ _).
  - done.
  - destruct (ap_waiting s !! id) as [[| | |]|]; try done.
    destruct (park_send _ _) as [[t x]|e]; [done|apply park_over_sys].
  - destruct (ap_waiting s !! id) as [[| | |]|]; try done.
    destruct (park_waits _ _ _ _); [done|apply park_over_sys].
  - destruct (ap_waiting s !! id) as [[| | |]|]; try done. by destruct (bool_decide _).
  - by destruct (ap_waiting s !! id) as [[| | |]|].
Qed.

Definition api_ok (s : ApiServer) (ev : ApiEvent) : Prop :=
  forall ev', api_sys_event s ev = Some ev' -> ev_ok (ap_sys s) ev'.
Fixpoint api_oks (s : ApiServer) (evs : list ApiEvent) : Prop :=
  match evs with [] => True | ev :: evs => api_ok s ev /\ api_oks (api_step ev s) evs end.

Lemma api_step_sinv ev s : api_ok s ev -> sinv (ap_sys s) -> sinv (ap_sys (api_step ev s)).
Proof.
  intros Hok I. rewrite api_step_sys. destruct (api_sys_event s ev) as [ev'|] eqn:E; [|done].
  apply (sys_step_sinv ev' _ (Hok _ E) I).
Qed.

(** ** Tasks and claims across an event *)

Lemma task_kept ev s t :
  areg (sy_agent s) (sy_tasks s) -> t ∈ sy_tasks s ->
  (forall r, task_answer ev s <> Some (task_name t, r)) -> t ∈ sy_tasks (sys_step ev s).
Proof.
  intros R Hin Hno. pose proof (rg_nodup _ _ _ _ _ R) as Hnd.
  assert (Hdel : forall i t', sy_tasks s !! i = Some t' -> task_name t <> task_name t' ->
    t ∈ delete i (sy_tasks s)).
  { intros i t' Hi Hne. by apply (proj2 (delete_task _ _ _ Hnd Hi)). }
  destruct ev; cbn [sys_step task_answer] in *; unfold on_agent; try done.
  - destruct (run_vm _ _ _) as [a [t'|e]]; [apply elem_of_app; by left|done].
  - destruct (sy_tasks s !! i) as [[t'|t']|] eqn:Hi; [|done|done]. apply (Hdel i _ Hi).
    intros Heq. simpl in Heq. eapply Hno. by rewrite Heq.
  - destruct (wake_vm _ _) as [a [t'|e]]; [apply elem_of_app; by left|done].
  - destruct (sy_tasks s !! i) as [[t'|t']|] eqn:Hi; [done| |done]. apply (Hdel i _ Hi).
    intros Heq. simpl in Heq. eapply Hno. by rewrite Heq.
  - destruct (claim_park _ _ _) as [a [t'|e]]; done.
  - destruct (idle_tick _ _); done.
  - destruct (sy_claims s !! i) as [[? ?]|]; done.
  - destruct (step_for _ _) as [a st]. repeat case_match; done.
  - destruct (sy_leases s !! i); done.
  - destruct (mexec _ _); done.
  - by case_match.
Qed.

(** A claim of a park that was asked for: taken by [SClaim], dropped by the
    [SParkDone] at its place, and no other event's business. *)
Lemma claims_kept ev s t :
  own_event s ev = true -> NoDup (sy_claims s).*1 ->
  (t, false) ∈ sy_claims (sys_step ev s) <-> (t, false) ∈ sy_claims s.
Proof.
  intros Ho Hnd. destruct ev; cbn [sys_step own_event] in *; unfold on_agent; try done.
  - by destruct (sy_tasks s !! i) as [[]|].
  - by destruct (wake_vm _ _) as [a [t'|e]].
  - by destruct (sy_tasks s !! i) as [[]|].
  - destruct (idle_tick _ _) as [a l]. simpl. rewrite elem_of_app, list_elem_of_fmap. split; [|by right].
    intros [([? ?] & ? & _)|?]; [simplify_eq|done].
  - destruct (sy_claims s !! i) as [[t' idle]|] eqn:Hi; [|done]. subst idle. cbn [sy_claims].
    pose proof (take_drop_middle _ _ _ Hi) as Heq. rewrite delete_take_drop. rewrite <- Heq at 3.
    rewrite !elem_of_app, elem_of_cons. naive_solver.
  - destruct (step_for _ _) as [a st]. repeat case_match; done.
  - by destruct (sy_leases s !! i).
  - by destruct (mexec _ _).
  - by case_match.
Qed.
Lemma claim_at_spec t (claims : list (nat * bool)) :
  NoDup claims.*1 -> (t, false) ∈ claims -> exists i, claim_at t claims = Some i /\ claims !! i = Some (t, false).
Proof.
  intros Hnd Hin. unfold claim_at.
  destruct (list_find _ claims) as [[i [t' b]]|] eqn:E.
  - apply list_find_Some in E as (Hi & Ht & _). simpl in Ht. subst t'. exists i. split; [done|].
    apply list_elem_of_lookup in Hin as [j Hj].
    assert (i = j) as ->; [|congruence].
    apply (NoDup_lookup claims.*1 i j t); [done|by rewrite list_lookup_fmap, Hi|by rewrite list_lookup_fmap, Hj].
  - apply list_find_None in E. rewrite Forall_forall in E. by destruct (E _ Hin).
Qed.

(** ** The requests under way *)

(** The claim a request holds. *)
Definition park_of (w : Wait) : option nat :=
  match w with WParkClaimed _ t | WParking _ t _ => Some t | _ => None end.
(** What a request that asked for [act] may wait for. *)
Definition asked_for (tasks : list Task) (act : Action) (w : Wait) : Prop :=
  match act, w with
  | ToRun run, WTask n => n = rq_name run /\
      exists task, TStart task ∈ tasks /\ stt_name task = n /\ sp_mem_mib (stt_spec task) = rq_mem_mib run /\
        sp_vcpus (stt_spec task) = rq_vcpus run /\ stt_route task = rq_route run
  | ToWake name, WTask n => n = name /\ exists task, TWake task ∈ tasks /\ wkt_name task = n
  | ToPark name, WParkClaimed n _ | ToPark name, WParking n _ _ => n = name
  | ToStop name _, WStop n _ => n = name
  | _, _ => False
  end.
Lemma asked_for_mono tasks tasks' act w :
  (forall t, t ∈ tasks -> w = WTask (task_name t) -> t ∈ tasks') -> asked_for tasks act w -> asked_for tasks' act w.
Proof.
  intros Hk. destruct act, w; simpl; try done.
  - intros (-> & task & Hin & Hn & ?). split; [done|]. exists task. split; [|done]. apply Hk; [done|]. simpl. congruence.
  - intros (-> & task & Hin & Hn). split; [done|]. exists task. split; [|done]. apply Hk; [done|]. simpl. congruence.
Qed.

(** Every request is under way, answered, or its client is gone, and only one
    of them; those under way wait for what is there, no two for the same task
    or claim, and no claim is held but by its park. *)
Record api_inv (s : ApiServer) : Prop := {
  av_sys : sinv (ap_sys s);
  av_asked : forall id, is_Some (ap_asked s !! id) <-> id < ap_next s;
  av_wait : forall id w, ap_waiting s !! id = Some w ->
    exists act, ap_asked s !! id = Some act /\ asked_for (sy_tasks (ap_sys s)) act w;
  av_open : forall id, id < ap_next s ->
    is_Some (ap_waiting s !! id) \/ is_Some (ap_answers s !! id) \/ id ∈ ap_gone s;
  av_once : forall id, is_Some (ap_answers s !! id) ->
    id < ap_next s /\ ap_waiting s !! id = None /\ id ∉ ap_gone s;
  av_gone : forall id, id ∈ ap_gone s -> id < ap_next s;
  av_tasks : forall id id' n, ap_waiting s !! id = Some (WTask n) -> ap_waiting s !! id' = Some (WTask n) -> id = id';
  av_parks : forall id id' w w' t, ap_waiting s !! id = Some w -> ap_waiting s !! id' = Some w' ->
    park_of w = Some t -> park_of w' = Some t -> id = id';
  av_claims : forall t, (t, false) ∈ sy_claims (ap_sys s) <->
    exists id w, ap_waiting s !! id = Some w /\ park_of w = Some t;
}.

Lemma av_lt s id w : api_inv s -> ap_waiting s !! id = Some w -> id < ap_next s.
Proof. intros I Hw. destruct (av_wait _ I _ _ Hw) as (act & Ha & _). apply (av_asked _ I). eauto. Qed.

(** The agent moves, and nothing a request waits for ends. *)
Lemma inv_sys s sys :
  api_inv s -> sinv sys ->
  (forall id t, ap_waiting s !! id = Some (WTask (task_name t)) -> t ∈ sy_tasks (ap_sys s) -> t ∈ sy_tasks sys) ->
  (forall t, (t, false) ∈ sy_claims sys <-> (t, false) ∈ sy_claims (ap_sys s)) ->
  api_inv (set_ap_sys sys s).
Proof.
  intros I Hs Ht Hc. destruct I. split; try done; cbn [ap_sys ap_waiting set_ap_sys].
  - intros id w Hw. destruct (av_wait0 _ _ Hw) as (act & Ha & Hf). exists act. split; [done|].
    eapply asked_for_mono; [|exact Hf]. intros t Hin ->. eauto.
  - intros t. by rewrite Hc.
Qed.

(** A request under way is answered, and what it waited for is over. *)
Lemma inv_finish s id w r sys :
  api_inv s -> ap_waiting s !! id = Some w -> sinv sys ->
  (forall id' t, id' <> id -> ap_waiting s !! id' = Some (WTask (task_name t)) -> t ∈ sy_tasks (ap_sys s) ->
     t ∈ sy_tasks sys) ->
  (forall t, (t, false) ∈ sy_claims sys <-> (t, false) ∈ sy_claims (ap_sys s) /\ park_of w <> Some t) ->
  api_inv (finish id r (set_ap_sys sys s)).
Proof.
  intros I Hw Hs Ht Hc. pose proof (av_lt _ _ _ I Hw) as Hlt. destruct I.
  split; try done; cbn [ap_sys ap_waiting ap_next ap_asked ap_gone ap_answers set_ap_sys finish].
  - intros id' w' [Hne Hw']%lookup_delete_Some. destruct (av_wait0 _ _ Hw') as (act & Ha & Hf).
    exists act. split; [done|]. eapply asked_for_mono; [|exact Hf]. intros t Hin ->. eauto.
  - intros id' Hid. destruct (decide (id' = id)) as [->|Hne].
    + right. case_bool_decide; [by right|left]. rewrite lookup_insert_eq. eauto.
    + rewrite lookup_delete_ne by done. destruct (av_open0 _ Hid) as [?|[?|?]]; [by left| |by right; right].
      right; left. case_bool_decide; [done|]. by rewrite lookup_insert_ne.
  - intros id' Ha. destruct (decide (id' = id)) as [->|Hne].
    + split; [done|]. split; [apply lookup_delete_eq|]. revert Ha. case_bool_decide; [|done].
      intros Ha. by destruct (av_once0 _ Ha) as (_ & ? & _); simplify_eq.
    + rewrite lookup_delete_ne by done. apply av_once0. revert Ha. case_bool_decide; [done|]. by rewrite lookup_insert_ne.
  - intros i j n [_ Hi]%lookup_delete_Some [_ Hj]%lookup_delete_Some. by eapply av_tasks0.
  - intros i j w1 w2 t [_ Hi]%lookup_delete_Some [_ Hj]%lookup_delete_Some. by eapply av_parks0.
  - intros t. rewrite Hc, av_claims0. split.
    + intros [(i & w' & Hi & Hp) Hne]. exists i, w'. split; [|done]. rewrite lookup_delete_ne; [done|].
      intros ->. by simplify_eq.
    + intros (i & w' & [Hne Hi]%lookup_delete_Some & Hp). split; [eauto|]. intros Hp'. by destruct Hne; eapply av_parks0.
Qed.

(** A request comes and is answered, or waits for something new. *)
Definition arrive (act : Action) (sys : Sys) (s : ApiServer) : ApiServer :=
  mkApiServer sys (ap_metrics s) (S (ap_next s)) (<[ap_next s := act]> (ap_asked s)) (ap_waiting s) (ap_gone s)
    (ap_answers s).
Lemma fresh_id s : api_inv s -> ap_waiting s !! ap_next s = None /\ ap_answers s !! ap_next s = None /\ ap_next s ∉ ap_gone s.
Proof.
  intros I. split_and!.
  - apply eq_None_not_Some. intros [w Hw]. apply (av_lt _ _ _ I) in Hw. lia.
  - apply eq_None_not_Some. intros Ha. destruct (av_once _ I _ Ha). lia.
  - intros Hg%(av_gone _ I). lia.
Qed.
Lemma asked_arrive s act id :
  api_inv s -> is_Some (<[ap_next s := act]> (ap_asked s) !! id) <-> id < S (ap_next s).
Proof.
  intros I. destruct (decide (id = ap_next s)) as [->|Hne].
  - rewrite lookup_insert_eq. split; [lia|eauto].
  - rewrite lookup_insert_ne, (av_asked _ I) by done. lia.
Qed.
Lemma inv_answered s act sys r :
  api_inv s -> sinv sys ->
  (forall t, t ∈ sy_tasks (ap_sys s) -> t ∈ sy_tasks sys) ->
  (forall t, (t, false) ∈ sy_claims sys <-> (t, false) ∈ sy_claims (ap_sys s)) ->
  api_inv (finish (ap_next s) r (arrive act sys s)).
Proof.
  intros I Hs Ht Hc. destruct (fresh_id _ I) as (Fw & Fa & Fg). pose proof (asked_arrive s act) as Has. pose proof I as [].
  split; try done; cbn [ap_sys ap_waiting ap_next ap_asked ap_gone ap_answers finish arrive];
    rewrite ?(delete_id _ _ Fw), ?bool_decide_false by done.
  - intros id. by apply Has.
  - intros id w Hw. destruct (av_wait0 _ _ Hw) as (act' & Ha & Hf). exists act'.
    split; [rewrite lookup_insert_ne; [done|]; intros <-; congruence|].
    eapply asked_for_mono; [|exact Hf]. eauto.
  - intros id Hid. destruct (decide (id = ap_next s)) as [->|Hne]; [right; left; rewrite lookup_insert_eq; eauto|].
    rewrite lookup_insert_ne by done. apply av_open0. lia.
  - intros id. destruct (decide (id = ap_next s)) as [->|Hne]; [intros _; split_and!; [lia|done|done]|].
    rewrite lookup_insert_ne by done. intros (? & ? & ?)%av_once0. split_and!; [lia|done|done].
  - intros id ?%av_gone0. lia.
  - exact av_tasks0.
  - exact av_parks0.
  - intros t. by rewrite Hc.
Qed.
Lemma inv_waits s act sys w :
  api_inv s -> sinv sys ->
  (forall t, t ∈ sy_tasks (ap_sys s) -> t ∈ sy_tasks sys) ->
  asked_for (sy_tasks sys) act w ->
  (forall n id, w = WTask n -> ap_waiting s !! id <> Some (WTask n)) ->
  (forall t, park_of w = Some t -> (t, false) ∉ sy_claims (ap_sys s)) ->
  (forall t, (t, false) ∈ sy_claims sys <-> (t, false) ∈ sy_claims (ap_sys s) \/ park_of w = Some t) ->
  api_inv (set_ap_waiting (<[ap_next s := w]> (ap_waiting (arrive act sys s))) (arrive act sys s)).
Proof.
  intros I Hs Ht Hf Hnt Hnp Hc. destruct (fresh_id _ I) as (Fw & Fa & Fg). pose proof (asked_arrive s act) as Has. pose proof I as [].
  assert (Hp : forall id w' t, ap_waiting s !! id = Some w' -> park_of w = Some t -> park_of w' <> Some t).
  { intros id w' t Hw' Hp Hp'. apply (Hnp t Hp), av_claims0. eauto. }
  split; try done; cbn [ap_sys ap_waiting ap_next ap_asked ap_gone ap_answers set_ap_waiting arrive].
  - intros id. by apply Has.
  - intros id w' [[<- <-]|[Hne Hw]]%lookup_insert_Some; [exists act; by rewrite lookup_insert_eq|].
    destruct (av_wait0 _ _ Hw) as (act' & Ha & Hf'). exists act'. rewrite lookup_insert_ne by done.
    split; [done|]. eapply asked_for_mono; [|exact Hf']. eauto.
  - intros id Hid. destruct (decide (id = ap_next s)) as [->|Hne]; [left; rewrite lookup_insert_eq; eauto|].
    rewrite lookup_insert_ne by done. apply av_open0. lia.
  - intros id Ha. destruct (av_once0 _ Ha) as (? & ? & ?). rewrite lookup_insert_ne by lia. split_and!; [lia|done|done].
  - intros id ?%av_gone0. lia.
  - intros i j n [[<- ->]|[? Hi]]%lookup_insert_Some [[<- ?]|[? Hj]]%lookup_insert_Some; try done.
    + by destruct (Hnt n j).
    + by destruct (Hnt n i).
    + by eapply av_tasks0.
  - intros i j w1 w2 t [[<- <-]|[? Hi]]%lookup_insert_Some [[<- <-]|[? Hj]]%lookup_insert_Some P1 P2; try done.
    + by destruct (Hp _ _ _ Hj P1).
    + by destruct (Hp _ _ _ Hi P2).
    + by eapply av_parks0.
  - intros t. rewrite Hc, av_claims0. split.
    + intros [(i & w' & Hi & ?)|?]; [exists i, w'|exists (ap_next s), w; by rewrite lookup_insert_eq].
      rewrite lookup_insert_ne; [done|]. intros <-. congruence.
    + intros (i & w' & [[<- <-]|[? Hi]]%lookup_insert_Some & ?); [by right|left; eauto].
Qed.

(** ** Through every step *)

Lemma run_vm_task open run a a' task :
  run_vm open run a = (a', Ok task) ->
  stt_name task = rq_name run /\ sp_mem_mib (stt_spec task) = rq_mem_mib run /\
  sp_vcpus (stt_spec task) = rq_vcpus run /\ stt_route task = rq_route run.
Proof.
  unfold run_vm. destruct (_ ≫= _) as [[guest file]|e]; [|done]. cbn [new_log_path].
  destruct (reserve_checks _ _); [|done]. by intros [= <- <-].
Qed.
Lemma wake_vm_task name a a' task : wake_vm name a = (a', Ok task) -> wkt_name task = name.
Proof. unfold wake_vm. destruct (_ ≫= _) as [[p x]|e]; [|done]. by intros [= <- <-]. Qed.

(** A task that was just spawned is nobody's yet. *)
Lemma task_waited s id n : api_inv s -> ap_waiting s !! id = Some (WTask n) -> n ∈ task_name <$> sy_tasks (ap_sys s).
Proof.
  intros I Hw. destruct (av_wait _ I _ _ Hw) as ([] & _ & Hf); simpl in Hf; try done.
  - destruct Hf as (_ & task & Hin & <- & _). apply list_elem_of_fmap. by exists (TStart task).
  - destruct Hf as (_ & task & Hin & <-). apply list_elem_of_fmap. by exists (TWake task).
Qed.
Lemma task_new tasks (t : Task) : NoDup (task_name <$> tasks ++ [t]) -> task_name t ∉ task_name <$> tasks.
Proof.
  rewrite fmap_app, NoDup_app. intros (_ & H & _) Hin. apply (H _ Hin). apply list_elem_of_here.
Qed.

(** What a handler does ends no task, and takes no claim but a park's. *)
Lemma action_tasks uid gid o act s t :
  t ∈ sy_tasks s -> t ∈ sy_tasks (sys_step_opt (action_event uid gid o act) s).
Proof.
  intros Hin. destruct act; cbn [action_event sys_step_opt sys_step]; unfold on_agent; try done.
  - destruct (run_vm _ _ _) as [a [task|e]]; [apply elem_of_app; by left|done].
  - by destruct (claim_park _ _ _) as [a [t'|e]].
  - destruct (wake_vm _ _) as [a [task|e]]; [apply elem_of_app; by left|done].
  - by destruct (mexec _ _).
  - by destruct (mexec _ _).
Qed.
Lemma action_claims uid gid o metrics act s :
  sy_claims (sys_step_opt (action_event uid gid o act) s)
  = match act, action_reply uid gid o metrics act (sy_agent s) with
    | ToPark _, Waits (WParkClaimed _ t) => (t, false) :: sy_claims s
    | _, _ => sy_claims s
    end.
Proof.
  destruct act; cbn [action_event action_reply sys_step_opt sys_step]; unfold on_agent, park_vm, waits; try done.
  - by destruct (run_vm _ _ _) as [a [task|e]].
  - by destruct (claim_park _ _ _) as [a [t'|e]].
  - by destruct (wake_vm _ _) as [a [task|e]].
  - by destruct (mexec _ _).
  - by destruct (mexec _ _).
Qed.

(** Only a park waits with a claim. *)
Lemma reply_park uid gid o metrics act a w t :
  action_reply uid gid o metrics act a = Waits w -> park_of w = Some t ->
  exists name, act = ToPark name /\ w = WParkClaimed name t.
Proof.
  destruct act; cbn [action_reply]; unfold park_vm, waits, answers; intros Hr Hp; try done.
  - destruct (run_vm _ _ _) as [a' [task|e]]; [|done]. by injection Hr as <-.
  - destruct (stop_vm _ _ _) as [[t' st]|e]; [|done]. by injection Hr as <-.
  - destruct (claim_park _ _ _) as [a' [t'|e]]; [|done]. injection Hr as <-. injection Hp as ->. eauto.
  - destruct (wake_vm _ _) as [a' [task|e]]; [|done]. by injection Hr as <-.
Qed.

Lemma begin_inv uid gid req o s :
  api_inv s -> sinv (sys_step_opt (action_event uid gid o (handle req (sy_agent (ap_sys s)))) (ap_sys s)) ->
  api_inv (begin uid gid req o s).
Proof.
  intros I. unfold begin. set (act := handle req _). clearbody act.
  set (sys := sys_step_opt _ _). intros Hs.
  pose proof (fun t => action_tasks uid gid o act (ap_sys s) t) as Ht. fold sys in Ht.
  pose proof (action_claims uid gid o (ap_metrics s) act (ap_sys s)) as Hc. fold sys in Hc.
  change (match action_event uid gid o act with Some ev => sys_step ev (ap_sys s) | None => ap_sys s end) with sys.
  destruct (action_reply uid gid o (ap_metrics s) act (sy_agent (ap_sys s))) as [r|w] eqn:Hr.
  { apply (inv_answered s act sys r I Hs); [done|]. intros t. rewrite Hc. destruct act; try done. by rewrite Hr. }
  apply (inv_waits s act sys w I Hs); [done|..].
  all: pose proof (rg_nodup _ _ _ _ _ (si_reg _ Hs)) as Hnd; pose proof (tf_nodup _ _ _ (si_traf _ Hs)) as Hnc.
  - subst sys. destruct act; cbn [action_reply] in Hr; unfold park_vm, waits, answers in Hr; try done.
    + destruct (run_vm _ _ _) as [a [task|e]] eqn:E; [|done]. injection Hr as <-. cbn [action_event sys_step_opt sys_step].
      rewrite E. destruct (run_vm_task _ _ _ _ _ E) as (Hn & ? & ? & ?). split; [done|].
      exists task. split; [apply elem_of_app; right; apply list_elem_of_here|done].
    + destruct (stop_vm _ _ _) as [[t st]|e]; [|done]. by injection Hr as <-.
    + destruct (claim_park _ _ _) as [a [t|e]]; [|done]. by injection Hr as <-.
    + destruct (wake_vm _ _) as [a [task|e]] eqn:E; [|done]. injection Hr as <-. cbn [action_event sys_step_opt sys_step].
      rewrite E. split; [by eapply wake_vm_task|].
      exists task. split; [apply elem_of_app; right; apply list_elem_of_here|done].
  - intros n id -> Hw%(task_waited s _ _ I). subst sys.
    destruct act; cbn [action_reply] in Hr; unfold park_vm, waits, answers in Hr; try done.
    + cbn [action_event sys_step_opt sys_step] in Hnd. destruct (run_vm _ _ _) as [a [task|e]]; [|done].
      injection Hr as <-. by apply (task_new _ (TStart task) Hnd).
    + by destruct (stop_vm _ _ _) as [[t st]|e].
    + by destruct (claim_park _ _ _) as [a [t|e]].
    + cbn [action_event sys_step_opt sys_step] in Hnd. destruct (wake_vm _ _) as [a [task|e]]; [|done].
      injection Hr as <-. by apply (task_new _ (TWake task) Hnd).
  - intros t Hp Hin. rewrite Hc in Hnc. destruct (reply_park _ _ _ _ _ _ _ _ Hr Hp) as (name & -> & ->).
    rewrite Hr in Hnc. apply NoDup_cons in Hnc as [Hnc _]. apply Hnc. apply list_elem_of_fmap. by exists (t, false).
  - intros t. rewrite Hc. destruct (park_of w) as [t'|] eqn:Hp.
    + destruct (reply_park _ _ _ _ _ _ _ _ Hr Hp) as (name & -> & ->). rewrite Hr, elem_of_cons. naive_solver.
    + destruct act; try naive_solver. rewrite Hr. by destruct w; naive_solver.
Qed.

Lemma waits_for_spec n w : waits_for n w = true <-> w = WTask n.
Proof. destruct w; simpl; [rewrite bool_decide_eq_true|..]; naive_solver. Qed.
Lemma waiter_some n m id : waiter n m = Some id -> m !! id = Some (WTask n).
Proof.
  unfold waiter. intros ([i w] & [Hin Hw]%find_first_elem & ->)%fmap_Some. simpl in *.
  apply waits_for_spec in Hw as ->. by apply elem_of_map_to_list in Hin.
Qed.
Lemma waiter_none n m id : waiter n m = None -> m !! id <> Some (WTask n).
Proof.
  unfold waiter. intros H%fmap_None Hw. apply find_first_none in H. rewrite Forall_forall in H.
  apply elem_of_map_to_list in Hw. specialize (H _ Hw). simpl in H. by rewrite bool_decide_true in H.
Qed.

Lemma own_inv ev s :
  api_inv s -> own_event (ap_sys s) ev = true -> sinv (sys_step ev (ap_sys s)) -> api_inv (api_step (AOwn ev) s).
Proof.
  intros I Ho Hs. cbn [api_step]. rewrite Ho. pose proof (si_reg _ (av_sys _ I)) as R.
  assert (Hc : forall t, (t, false) ∈ sy_claims (sys_step ev (ap_sys s)) <-> (t, false) ∈ sy_claims (ap_sys s)).
  { intros t. apply claims_kept; [done|]. apply (tf_nodup _ _ _ (si_traf _ (av_sys _ I))). }
  destruct (task_answer ev (ap_sys s)) as [[n r]|] eqn:Ha; [|].
  - destruct (waiter n (ap_waiting s)) as [id|] eqn:Hw.
    + apply waiter_some in Hw. apply (inv_finish s id (WTask n) r _ I Hw Hs).
      * intros id' t Hne Hw' Hin. apply task_kept; [done|done|]. intros r' Hr. rewrite Ha in Hr. simplify_eq.
        by destruct Hne; eapply av_tasks.
      * intros t. rewrite Hc. naive_solver.
    + apply (inv_sys s _ I Hs); [|done]. intros id t Hw' Hin. apply task_kept; [done|done|].
      intros r' Hr. rewrite Ha in Hr. simplify_eq. by apply (waiter_none _ _ id) in Hw.
  - apply (inv_sys s _ I Hs); [|done]. intros id t Hw' Hin. apply task_kept; [done|done|]. congruence.
Qed.

Lemma park_over_inv id w t answer now s :
  api_inv s -> ap_waiting s !! id = Some w -> park_of w = Some t ->
  sinv (sys_step_opt (park_over_event t answer now s) (ap_sys s)) -> api_inv (park_over id t answer now s).
Proof.
  intros I Hw Hp. unfold park_over, park_over_event.
  pose proof (tf_nodup _ _ _ (si_traf _ (av_sys _ I))) as Hnd.
  destruct (claim_at_spec t _ Hnd (proj2 (av_claims _ I t) ltac:(eauto))) as (i & -> & Hi). intros Hs.
  cbn [fmap option_fmap option_map sys_step_opt] in Hs.
  apply (inv_finish s id w answer _ I Hw Hs); cbn [sys_step]; rewrite Hi; [done|].
  intros t'. cbn [sy_claims]. rewrite (proj2 (claims_delete _ _ _ _ Hnd Hi)). naive_solver.
Qed.

(** A park goes on from its claim to its reply. *)
Lemma park_sends_inv id name traffic t s :
  api_inv s -> ap_waiting s !! id = Some (WParkClaimed name traffic) ->
  api_inv (set_ap_waiting (<[id := WParking name traffic t]> (ap_waiting s)) s).
Proof.
  intros I Hw. pose proof I as [].
  assert (Hl : forall i w, <[id := WParking name traffic t]> (ap_waiting s) !! i = Some w ->
    exists w', ap_waiting s !! i = Some w' /\ park_of w' = park_of w /\ (forall n, w = WTask n -> w' = w)).
  { intros i w [[<- <-]|[? Hi]]%lookup_insert_Some; [by eexists|by exists w]. }
  split; try done; cbn [ap_sys ap_waiting ap_next ap_asked ap_gone ap_answers set_ap_waiting].
  - intros i w [[<- <-]|[? Hi]]%lookup_insert_Some; [|by apply av_wait0].
    destruct (av_wait0 _ _ Hw) as (act & Ha & Hf). exists act. split; [done|]. by destruct act.
  - intros i Hi. destruct (decide (i = id)) as [->|]; [left; rewrite lookup_insert_eq; eauto|].
    rewrite lookup_insert_ne by done. by apply av_open0.
  - intros i Hi. destruct (av_once0 _ Hi) as (? & ? & ?). rewrite lookup_insert_ne; [done|]. intros <-. congruence.
  - intros i j n (w1 & H1 & _ & E1)%Hl (w2 & H2 & _ & E2)%Hl. rewrite (E1 n) in H1 by done. rewrite (E2 n) in H2 by done.
    by eapply av_tasks0.
  - intros i j w1 w2 t' (w1' & H1 & E1 & _)%Hl (w2' & H2 & E2 & _)%Hl. rewrite <- E1, <- E2. by eapply av_parks0.
  - intros t'. rewrite av_claims0. split.
    + intros (i & w & Hi & Hp). destruct (decide (i = id)) as [->|].
      * exists id, (WParking name traffic t). rewrite lookup_insert_eq. by simplify_eq.
      * exists i, w. by rewrite lookup_insert_ne.
    + intros (i & w & (w' & Hi & <- & _)%Hl & Hp). eauto.
Qed.

Lemma client_gone_inv id s : api_inv s -> api_inv (api_step (AClientGone id) s).
Proof.
  intros I. cbn [api_step]. destruct (ap_waiting s !! id) as [w|] eqn:Hw; [|done].
  pose proof (av_lt _ _ _ I Hw) as Hlt. pose proof I as [].
  set (m := match w with WStop _ _ => _ | _ => _ end).
  assert (Hm : forall i w', m !! i = Some w' -> ap_waiting s !! i = Some w').
  { intros i w'. subst m. destruct w; [done..|]. by intros [_ ?]%lookup_delete_Some. }
  assert (Hm' : forall i w', ap_waiting s !! i = Some w' -> i <> id \/ is_Some (park_of w') -> m !! i = Some w').
  { intros i w' Hi Hne. subst m. destruct w; [done..|]. rewrite lookup_delete_ne; [done|]. intros <-.
    simplify_eq. destruct Hne as [?|[? ?]]; done. }
  split; try done; cbn [ap_sys ap_waiting ap_next ap_asked ap_gone ap_answers].
  - intros i w' Hi%Hm. by apply av_wait0.
  - intros i Hi. destruct (decide (i = id)) as [->|]; [right; right; set_solver|].
    destruct (av_open0 _ Hi) as [[w' Hi']|[?|?]]; [left; exists w'; apply Hm'; auto|by right; left|right; right; set_solver].
  - intros i Hi. destruct (av_once0 _ Hi) as (? & Hn & ?). split_and!; [done| |].
    + apply eq_None_not_Some. intros [w' Hi'%Hm]. congruence.
    + intros [->%elem_of_singleton|?]%elem_of_union; [congruence|done].
  - intros i [->%elem_of_singleton|?]%elem_of_union; auto.
  - intros i j n Hi%Hm Hj%Hm. by eapply av_tasks0.
  - intros i j w1 w2 t Hi%Hm Hj%Hm. by eapply av_parks0.
  - intros t. rewrite av_claims0. split; intros (i & w' & Hi & Hp); exists i, w'; (split; [|done]); [|by apply Hm].
    apply Hm'; [done|]. right. eauto.
Qed.

Lemma set_ap_sys_id s : set_ap_sys (ap_sys s) s = s.
Proof. by destruct s. Qed.
Lemma api_step_inv ev s : api_ok s ev -> api_inv s -> api_inv (api_step ev s).
Proof.
  intros Hok I. pose proof (api_step_sinv ev s Hok (av_sys _ I)) as Hs. rewrite api_step_sys in Hs.
  destruct ev as [uid gid req o|ev|at_ fs|id now|id sent reply now|id|id]; cbn [api_sys_event] in Hs.
  - by apply begin_inv.
  - destruct (own_event (ap_sys s) ev) eqn:Ho; [by apply own_inv|]. cbn [api_step]. by rewrite Ho.
  - by destruct I.
  - cbn [api_step]. destruct (ap_waiting s !! id) as [[| | |]|] eqn:Hw; try done.
    destruct (park_send _ _) as [[t x]|e]; [by apply park_sends_inv|by eapply park_over_inv].
  - cbn [api_step]. destruct (ap_waiting s !! id) as [[| | |]|] eqn:Hw; try done.
    destruct (park_waits _ _ _ _); [done|by eapply park_over_inv].
  - cbn [api_step]. destruct (ap_waiting s !! id) as [[| | |]|] eqn:Hw; try done.
    destruct (bool_decide _); [done|]. rewrite <- (set_ap_sys_id s) at 2.
    apply (inv_finish s id _ _ _ I Hw Hs); [done|]. intros t'. naive_solver.
  - by apply client_gone_inv.
Qed.
Lemma api_run_inv evs s : api_oks s evs -> api_inv s -> api_inv (api_run evs s).
Proof. revert s. induction evs as [|ev evs IH]; intros s; [done|]. intros [H1 H2] I. by apply IH, api_step_inv. Qed.

(** ** What an answer says *)

Definition failed (r : ApiResponse) : Prop := exists e, ar_body r = BError e.
(** A VM runs as [info] says: it is registered, supervised, and recorded with
    the process that runs it. *)
Definition runs (a : Agent) (info : VmInfo) : Prop :=
  exists log t v p row x,
    ag_vms a !! vi_name info = Some (Running info log t) /\ ag_sups a !! t = Some (vi_name info, v) /\
    vm_process v = Some p /\ db_vms (ag_db a) !! vi_name info = Some row /\ records info log p (vi_name info) row /\
    vi_vm_address info = Some x /\ x ∈ vm_addresses (ag_subnet a) /\ vi_ended info = None.

(** What an answer to [act] says, with the agent as it was and as it is. *)
Definition says (act : Action) (r : ApiResponse) (a a' : Agent) : Prop :=
  match act with
  | ToRun run => exists info, r = json CREATED (BVm info) /\ vi_name info = rq_name run /\
      vi_mem_mib info = rq_mem_mib run /\ vi_vcpus info = rq_vcpus run /\ vi_route info = rq_route run /\ runs a' info
  | ToWake name => exists info, r = json CREATED (BVm info) /\ vi_name info = name /\ runs a' info
  | ToPark name | ToStop name _ => exists info log, r = json OK (BVm info) /\ ag_vms a' !! name = Some (EndedVm info log)
  | ToRemove name => r = no_content /\
      (has_app (ms_entries (ag_machines a)) name = true /\ db_machine_apps (ag_db a') !! name = None \/
       (exists info log, ag_vms a !! name = Some (EndedVm info log)) /\ ag_vms a' !! name = None /\
         db_vms (ag_db a') !! name = None)
  | ToLogs name offset => exists entry, ag_vms a !! name = Some entry /\
      ar_status r = OK /\
      get_all VM_STATE_HEADER (ar_headers r) = [match entry with EndedVm _ _ => "ended" | _ => "running" end] /\
      ar_body r = BText (str_take LOG_CHUNK (str_drop offset (default "" (ho_logs (ag_host a) !! entry_log entry))))
  | ToRunOnMachine request => exists info, r = json CREATED (BApp info) /\ mai_name info = mar_name request /\
      mai_machine info = mar_machine request /\ mai_route info = mar_route request /\
      is_Some (db_machine_apps (ag_db a') !! mar_name request) /\ ag_vms a' !! mar_name request = None
  | ToAddMachine add => exists info m, r = json CREATED (BMachine info) /\ mi_name info = am_name add /\
      ms_entries (ag_machines a') !! am_name add = Some m /\ mr_fingerprint (mc_record m) = am_host_key add /\
      is_Some (db_machines (ag_db a') !! am_name add)
  | ToRemoveMachine name => r = no_content /\ ms_entries (ag_machines a') !! name = None /\
      db_machines (ag_db a') !! name = None
  | Respond r' => r' = Ok r
  | ToStats | ToSshKey | ToScan _ => ar_status r = OK
  end.

Lemma failed_error e : failed (api_response (Err e)).
Proof. by eexists. Qed.
(** An answer that isn't an error's. *)
Lemma says_result act (r : result ApiError ApiResponse) a a' :
  (forall x, r = Ok x -> says act x a a') -> failed (api_response r) \/ says act (api_response r) a a'.
Proof. destruct r as [x|e]; [right; eauto|left; apply failed_error]. Qed.

Lemma runs_intro s info log t v p :
  sinv s -> ag_vms (sy_agent s) !! vi_name info = Some (Running info log t) ->
  ag_sups (sy_agent s) !! t = Some (vi_name info, v) -> vm_process v = Some p -> runs (sy_agent s) info.
Proof.
  intros I Hn Ht Hp. pose proof (si_reg _ I) as R.
  destruct (si_rec _ I _ _ _ _ _ _ Hn Ht Hp) as (row & Hrow & Hrec).
  destruct (rg_wf _ _ _ _ _ R _ _ Hn) as (_ & [x Hx] & He).
  exists log, t, v, p, row, x. split_and!; try done. by apply (rg_sub _ _ _ _ _ R _ _ _ Hn).
Qed.

(** The entry and the supervisor [start_supervising] makes. *)
Lemma start_supervising_running now info log v a :
  ag_vms (start_supervising now info log v a) !! vi_name info = Some (Running info log (ag_next a)) /\
  ag_sups (start_supervising now info log v a) !! ag_next a = Some (vi_name info, v).
Proof. unfold start_supervising. simpl. by rewrite !lookup_insert_eq. Qed.

Lemma start_vm_says o u f now task a a' x :
  start_vm o u f now task a = (a', Some (Ok x)) ->
  exists info log t v p, x = json CREATED (BVm info) /\ vi_name info = stt_name task /\
    vi_mem_mib info = sp_mem_mib (stt_spec task) /\ vi_vcpus info = sp_vcpus (stt_spec task) /\
    vi_route info = stt_route task /\
    ag_vms a' !! vi_name info = Some (Running info log t) /\ ag_sups a' !! t = Some (vi_name info, v) /\
    vm_process v = Some p.
Proof.
  unfold start_vm. destruct (vm_start _ _ _ _ _) as [h [v|e]]; [|done].
  destruct (vm_process v) as [p|] eqn:Hp; [|done]. destruct (insert_running _ _ _ _ _) as [db [[]|e]]; [|done].
  set (info := started_info _ _ _ _ _ _). set (a1 := match vi_route info with Some _ => _ | None => _ end).
  intros [= <- <-]. exists info, (sp_console_log (stt_spec task)), (ag_next a1), v, p.
  split_and!; try done; apply start_supervising_running.
Qed.
Lemma wake_task_says o u f f_mark now task a a' x :
  wake_task o u f f_mark now task a = (a', Ok x) ->
  exists info log t v p, x = json CREATED (BVm info) /\ vi_name info = wkt_name task /\
    ag_vms a' !! vi_name info = Some (Running info log t) /\ ag_sups a' !! t = Some (vi_name info, v) /\
    vm_process v = Some p.
Proof.
  unfold wake_task. destruct (finish_wake _ _ _ _ _ _ _) as [a1 [[x'|e]|]] eqn:Ef; [|done|done].
  intros [= <- <-]. revert Ef. unfold finish_wake. destruct (vm_wake _ _ _ _ _) as [h [v|e]]; [|done].
  destruct (vm_process v) as [p|] eqn:Hp; [|done]. destruct (insert_running _ _ _ _ _) as [db [[]|e]].
  2: by destruct (mark_ended _ _ _ _).
  set (info := started_info _ _ _ _ _ _). set (a2 := set_ag_host _ _).
  intros [= <- <-]. exists info, (ws_console_log (wkt_spec task)), (ag_next a2), v, p.
  split_and!; try done; apply start_supervising_running.
Qed.

(** ** Answers given at once *)

Lemma agent_logs_says f a name offset x :
  agent_logs f a name offset = Ok x -> says (ToLogs name offset) x a a.
Proof.
  unfold agent_logs. intros ([state log] & He & Hx)%bind_ok. apply bind_ok in Hx as (bytes & Hb & [= <-]).
  destruct (ag_vms a !! name) as [entry|] eqn:Hn; [|done]. cbn [says]. exists entry.
  assert (log = entry_log entry /\ state = match entry with EndedVm _ _ => "ended" | _ => "running" end) as [-> ->]
    by (destruct entry; by injection He as <- <-).
  split; [done|]. split; [done|]. split; [by destruct entry|]. cbn [ar_body]. do 2 f_equal.
  unfold read_log in Hb. destruct (ho_logs _ !! _) as [text|]; simpl in *.
  - destruct (_ <? _)%Z; [done|]. destruct f; [done|]. by injection Hb as <-.
  - injection Hb as <-. by destruct offset.
Qed.
Lemma agent_remove_says ports f_app f_dir f name a x :
  (agent_remove ports f_app f_dir f name a).2 = Ok x ->
  says (ToRemove name) x a (agent_remove ports f_app f_dir f name a).1.
Proof.
  unfold agent_remove. cbn [says].
  assert (Hrm : forall ms db b, remove_app ports f_app name (ag_machines a) (ag_db a) = (ms, db, Ok b) ->
    if b then has_app (ms_entries (ag_machines a)) name = true /\ db_machine_apps db !! name = None
    else True).
  { intros ms db b. unfold remove_app. destruct (find_first _ _) as [m|] eqn:Hf; [|by intros [= <- <- <-]].
    unfold delete_machine_app. destruct f_app; [done|]. destruct (start_tunnel _ _ _) as [ms' r].
    intros [= <- <- <-]. split; [|apply lookup_delete_eq]. apply has_app_spec.
    apply find_first_elem in Hf as [Hin Hm]. apply bool_decide_eq_true in Hm as [app Happ].
    apply elem_of_values in Hin as [k Hk].
    exists k, m, (app_route app). split; [done|]. unfold routes. by rewrite lookup_fmap, Happ. }
  destruct (remove_app _ _ _ _ _) as [[ms db] [[]|e]] eqn:Er; [|..|done].
  { intros [= <-]. split; [done|]. left. apply (Hrm _ _ true eq_refl). }
  cbn [ag_vms set_ag_machines set_ag_db]. destruct (ag_vms a !! name) as [[| |info log]|] eqn:Hn; try done.
  destruct (if is_parked info then f_dir else None); [done|].
  set (a1 := if is_parked info then _ else _). unfold store_delete. destruct f; [done|]. intros [= <-].
  split; [done|]. right. split; [eauto|]. split; [apply lookup_delete_eq|]. apply lookup_delete_eq.
Qed.
Lemma run_on_machine_says ports ports' f request a x :
  (run_on_machine ports ports' f request a).2 = Ok x ->
  says (ToRunOnMachine request) x a (run_on_machine ports ports' f request a).1.
Proof.
  unfold run_on_machine. cbn [says]. destruct (_ ≫= _) as [[]|e] eqn:Hc; [|done].
  apply bind_ok in Hc as (_ & _ & Hc). apply bind_ok in Hc as (_ & _ & Hc). apply bind_ok in Hc as (_ & _ & Hc).
  apply bind_ok in Hc as (_ & Hvm%fail_if_ok & _).
  destruct (add_app _ _ _ _ _ _) as [[ms db] [info|e]] eqn:Ea; [|done]. intros [= <-].
  assert (Hdb : mai_name info = mar_name request /\ mai_machine info = mar_machine request /\
    mai_route info = mar_route request /\ is_Some (db_machine_apps db !! mar_name request)).
  { revert Ea. unfold add_app. destruct (has_app _ _); [done|]. destruct (machine_app_with_host _ _); [done|].
    destruct (_ !! mar_machine request); [|done]. destruct (start_tunnel _ _ _) as [ms1 [tunnelled|e]]; [|done].
    destruct (insert_machine_app _ _ _) as [db1 [[]|e]] eqn:Ei; [|by destruct (start_tunnel _ _ _)].
    intros [= <- <- <-]. split_and!; try done. revert Ei. unfold insert_machine_app. cbn [ma_name].
    destruct f; [done|]. destruct (db_machine_apps (ag_db a) !! _); [done|]. intros [= <-]. simpl.
    rewrite lookup_insert_eq. eauto. }
  destruct Hdb as (? & ? & ? & ?). exists info. split_and!; try done; unfold get_certificate.
  - by destruct (_ && _).
  - apply bool_decide_eq_false, eq_None_not_Some in Hvm. by destruct (_ && _).
Qed.
Lemma connect_entry f ports record ms ms' :
  connect f ports record ∅ ms = (ms', Ok tt) ->
  exists m, ms_entries ms' !! mr_name record = Some m /\ mc_record m = record.
Proof.
  unfold connect. destruct (write_known_hosts _ _ _) as [ms1 [[]|e]]; [|done].
  destruct (start_tunnel _ _ _) as [ms2 [m|e]] eqn:Es; [|done]. intros [= <-].
  assert (Hr : mc_record m = record).
  { revert Es. unfold start_tunnel. repeat case_match; naive_solver. }
  exists m. split; [|done]. unfold put_machine. simpl. by rewrite Hr, lookup_insert_eq.
Qed.
Lemma machines_add_says o add a info :
  (machines_add o add (ag_machines a) (ag_db a)).2 = Ok info ->
  says (ToAddMachine add) (json CREATED (BMachine info)) a
    (let '(ms, db) := mexec (ag_machines a, ag_db a) (EAdd o add) in set_ag_machines ms (set_ag_db db a)).
Proof.
  cbn [mexec says]. unfold machines_add. destruct (add_checks _ _ _) as [[[target record] key]|e] eqn:Hc; [|done].
  assert (Hrec : mr_name record = am_name add /\ mr_fingerprint record = am_host_key add).
  { revert Hc. unfold add_checks. intros (_ & _ & Hc)%bind_ok. apply bind_ok in Hc as (tg & _ & Hc).
    apply bind_ok in Hc as (_ & _ & Hc). apply bind_ok in Hc as (keys & _ & Hc). apply bind_ok in Hc as (pk & _ & Hc).
    apply bind_ok in Hc as (pinned & _ & Hc). by apply bind_ok in Hc as (pub & _ & [= <- <- <-]). }
  destruct Hrec as [Hn Hf]. destruct (write_known_hosts _ _ _) as [ms1 [[]|e]]; [|done].
  destruct (ao_login o); [done|]. destruct (insert_machine _ _ _) as [db [[]|e]] eqn:Ei; [|done].
  destruct (connect _ _ _ _ _) as [ms2 [[]|e]] eqn:Ec; [|done].
  apply connect_entry in Ec as (m & Hm & Hr). cbn [fst snd]. rewrite Hm. cbn [fmap option_fmap option_map ok_or].
  intros [= <-]. exists (machine_info ms2 m), m. rewrite <- Hn. cbn [ag_machines ag_db set_ag_machines set_ag_db].
  split_and!; [done|simpl; by rewrite Hr|done|by rewrite Hr|].
  revert Ei. unfold insert_machine. destruct (ao_store o); [done|]. destruct (db_machines _ !! _); [done|].
  intros [= <-]. simpl. rewrite lookup_insert_eq. eauto.
Qed.
Lemma machines_remove_says f f_known name a :
  (machines_remove f f_known name (ag_machines a) (ag_db a)).2 = Ok tt ->
  says (ToRemoveMachine name) no_content a
    (let '(ms, db) := mexec (ag_machines a, ag_db a) (ERemove f f_known name) in set_ag_machines ms (set_ag_db db a)).
Proof.
  cbn [mexec says]. unfold machines_remove. destruct (_ !! name); [|done]. destruct (bool_decide _); [|done].
  unfold delete_machine. destruct f; [done|]. intros _. split; [done|]. cbn [fst ag_machines ag_db set_ag_machines set_ag_db].
  split; [rewrite (proj1 (write_known_hosts_entries _ _ _))|]; apply lookup_delete_eq.
Qed.

Lemma begin_says uid gid o metrics act s r :
  let sys := sys_step_opt (action_event uid gid o act) s in
  action_reply uid gid o metrics act (sy_agent s) = Answers r ->
  failed (api_response r) \/ says act (api_response r) (sy_agent s) (sy_agent sys).
Proof.
  intros sys Hr. apply says_result. intros x ->. subst sys.
  destruct act; cbn [action_reply action_event sys_step_opt sys_step] in *; unfold park_vm, waits, answers in Hr;
    unfold on_agent; cbn [sy_agent].
  - by injection Hr as ->.
  - by destruct (run_vm _ _ _) as [a [task|e]].
  - by destruct (stop_vm _ _ _) as [[t st]|e].
  - by destruct (claim_park _ _ _) as [a [t|e]].
  - by destruct (wake_vm _ _) as [a [task|e]].
  - injection Hr as Hr. by eapply agent_logs_says.
  - injection Hr as Hr. by apply agent_remove_says.
  - injection Hr as Hr. by apply run_on_machine_says.
  - by injection Hr as <-.
  - destruct (co_key o); [|done]. by injection Hr as <-.
  - destruct (machines_scan _ _ _); [|done]. by injection Hr as <-.
  - destruct (machines_add _ _ _ _).2 as [info|e] eqn:E; [|done]. injection Hr as <-.
    apply machines_add_says in E. by destruct (mexec _ _).
  - destruct (machines_remove _ _ _ _ _).2 as [[]|e] eqn:E; [|done]. injection Hr as <-.
    apply machines_remove_says in E. by destruct (mexec _ _).
Qed.

(** A request that is refused at once changes nothing of any VM: not the
    registry, the supervisors, what is under way, the records, or anything on
    the host, the snapshots and logs included. *)
Definition same_registry (s s' : Sys) : Prop :=
  ag_vms (sy_agent s') = ag_vms (sy_agent s) /\ ag_sups (sy_agent s') = ag_sups (sy_agent s) /\
  sy_tasks s' = sy_tasks s /\ sy_claims s' = sy_claims s /\
  db_vms (ag_db (sy_agent s')) = db_vms (ag_db (sy_agent s)).
Definition same_vms (s s' : Sys) : Prop :=
  same_registry s s' /\ ag_host (sy_agent s') = ag_host (sy_agent s).
(** But for a removal whose snapshot went before its record could. *)
Definition snapshot_lost (act : Action) (s s' : Sys) : Prop :=
  exists name info log, act = ToRemove name /\ ag_vms (sy_agent s) !! name = Some (EndedVm info log) /\
    is_parked info = true /\ same_registry s s' /\
    ag_host (sy_agent s') = set_dirs (remove_tree (snapshot_of (sy_agent s) name) (ho_dirs (ag_host (sy_agent s))))
      (ag_host (sy_agent s)).
Lemma begin_refused uid gid o metrics act s r :
  action_reply uid gid o metrics act (sy_agent s) = Answers r -> failed (api_response r) ->
  same_vms s (sys_step_opt (action_event uid gid o act) s) \/
  snapshot_lost act s (sys_step_opt (action_event uid gid o act) s).
Proof.
  intros Hr [e He]. destruct act; cbn [action_reply action_event sys_step_opt sys_step] in *; unfold park_vm, waits, answers in Hr;
    unfold on_agent; try (by left).
  - left. unfold run_vm in *. destruct (_ ≫= _) as [[guest file]|e']; [|done]. cbn [new_log_path] in *.
    by destruct (reserve_checks _ _).
  - left. unfold claim_park in *. destruct (ag_vms (sy_agent s) !! name) as [[]|]; try done. by destruct (claim_take _ _).
  - left. unfold wake_vm in *. by destruct (_ ≫= _) as [[p x]|e'].
  - injection Hr as <-. unfold same_vms, same_registry, snapshot_lost. cbn [sy_agent sy_tasks sy_claims]. unfold agent_remove in *.
    pose proof (remove_app_vms (co_ports o) (co_app o) name (ag_machines (sy_agent s)) (ag_db (sy_agent s))) as Hv.
    destruct (remove_app _ _ _ _ _) as [[ms db] [[]|e']]; simpl in Hv; try (by left).
    cbn [ag_vms set_ag_machines set_ag_db] in *. destruct (ag_vms (sy_agent s) !! name) as [[| |info log]|] eqn:Hn; try (by left).
    destruct (is_parked info) eqn:Hp.
    + destruct (co_dir o); [by left|]. unfold store_delete in *. destruct (co_store o) as [e'|]; [|done].
      right. by exists name, info, log.
    + unfold store_delete in *. destruct (co_store o) as [e'|]; [|done]. by left.
  - left. unfold same_vms, same_registry. cbn [sy_agent sy_tasks sy_claims]. unfold run_on_machine in *. destruct (_ ≫= _); [|done].
    match type of Hr with context [add_app ?p ?p' ?f ?q ?ms ?db] => pose proof (add_app_vms p p' f q ms db) as Hv end.
    destruct (add_app _ _ _ _ _ _) as [[ms db] [info|e']]; [by injection Hr as <-|]. by simpl in Hv |- *.
  - left. match goal with |- context [mexec (?ms, ?db) ?ev] => pose proof (mexec_vms ev ms db) as Hv end. by destruct (mexec _ _).
  - left. match goal with |- context [mexec (?ms, ?db) ?ev] => pose proof (mexec_vms ev ms db) as Hv end. by destruct (mexec _ _).
Qed.

(** ** Every answer *)

Lemma finish_answers id r s id' x :
  ap_answers (finish id r s) !! id' = Some x -> ap_answers s !! id' = None -> id' = id /\ x = api_response r.
Proof.
  cbn [finish ap_answers]. case_bool_decide; [congruence|].
  intros [[<- <-]|[_ ?]]%lookup_insert_Some; [done|congruence].
Qed.
Lemma ended_says name stop a x :
  ended_response a name = Ok x -> says (ToStop name stop) x a a /\ says (ToPark name) x a a.
Proof.
  unfold ended_response. destruct (ag_vms a !! name) as [[| |info log]|] eqn:Hn; try done. intros [= <-].
  split; by exists info, log.
Qed.
Lemma park_answer_says name sent reply a x : park_answer name sent reply a = Ok x -> says (ToPark name) x a a.
Proof.
  unfold park_answer. destruct (negb sent); [done|]. destruct reply as [[[]|e]|]; [|done|done].
  intros H. by apply (ended_says name (mkStopRequest false None)).
Qed.
Lemma park_done_vms i answer now s : ag_vms (sy_agent (sys_step (SParkDone i answer now) s)) = ag_vms (sy_agent s).
Proof. cbn [sys_step]. destruct (sy_claims s !! i) as [[t b]|]; [|done]. unfold park_done. by destruct (_ && _). Qed.

(** A start or wake that ends well has its VM running. *)
Lemma task_says s ev n r id act :
  api_inv s -> sinv (sys_step ev (ap_sys s)) -> task_answer ev (ap_sys s) = Some (n, r) ->
  ap_waiting s !! id = Some (WTask n) -> ap_asked s !! id = Some act ->
  failed (api_response r) \/
  says act (api_response r) (sy_agent (ap_sys s)) (sy_agent (sys_step ev (ap_sys s))).
Proof.
  intros I Hs Ha Hw Hact. apply says_result. intros x ->.
  destruct (av_wait _ I _ _ Hw) as (act' & Hact' & Hf). simplify_eq.
  pose proof (rg_nodup _ _ _ _ _ (si_reg _ (av_sys _ I))) as Hnd.
  assert (Huniq : forall t t', t ∈ sy_tasks (ap_sys s) -> t' ∈ sy_tasks (ap_sys s) -> task_name t = task_name t' -> t = t').
  { intros t t' [i Hi]%list_elem_of_lookup [j Hj]%list_elem_of_lookup Heq.
    assert (i = j) as ->; [|congruence]. apply (NoDup_lookup _ i j (task_name t) Hnd); rewrite list_lookup_fmap.
    - by rewrite Hi.
    - by rewrite Hj, Heq. }
  destruct ev; try done; cbn [task_answer] in Ha.
  - destruct (sy_tasks (ap_sys s) !! i) as [[task|task]|] eqn:Hi; try done. injection Ha as <- Hx.
    apply list_elem_of_lookup_2 in Hi as Hin. unfold start_answer in Hx. cbn [sys_step] in Hs |- *. rewrite Hi in Hs |- *.
    destruct (start_vm _ _ _ _ _ _) as [a' [res|]] eqn:E; [|done]. simpl in Hx. subst res.
    cbn [fst sy_agent] in *. apply start_vm_says in E as (info & log & t & v & p & -> & Hn & Hm & Hc & Hro & H1 & H2 & H3).
    pose proof (runs_intro _ _ _ _ _ _ Hs H1 H2 H3) as Hrun.
    destruct act as [| | | | | | | | | | | |]; simpl in Hf; try done.
    + destruct Hf as (Hname & task' & Hin' & Hn' & Hm' & Hc' & Hr').
      pose proof (Huniq _ _ Hin Hin' (eq_sym Hn')) as [= <-]. exists info. split_and!; congruence || done.
    + destruct Hf as (Hname & task' & Hin' & Hn'). by pose proof (Huniq _ _ Hin Hin' (eq_sym Hn')).
  - destruct (sy_tasks (ap_sys s) !! i) as [[task|task]|] eqn:Hi; try done. injection Ha as <- Hx.
    apply list_elem_of_lookup_2 in Hi as Hin. cbn [sys_step] in Hs |- *. rewrite Hi in Hs |- *.
    destruct (wake_task _ _ _ _ _ _ _) as [a' res] eqn:E. simpl in Hx. subst res.
    cbn [fst sy_agent] in *. apply wake_task_says in E as (info & log & t & v & p & -> & Hn & H1 & H2 & H3).
    pose proof (runs_intro _ _ _ _ _ _ Hs H1 H2 H3) as Hrun.
    destruct act as [| | | | | | | | | | | |]; simpl in Hf; try done.
    + destruct Hf as (Hname & task' & Hin' & Hn' & _). by pose proof (Huniq _ _ Hin Hin' (eq_sym Hn')).
    + destruct Hf as (<- & _). by exists info.
Qed.

Lemma api_step_says ev s id r :
  api_ok s ev -> api_inv s -> ap_answers (api_step ev s) !! id = Some r -> ap_answers s !! id = None ->
  exists act, ap_asked (api_step ev s) !! id = Some act /\
    (failed r \/ says act r (sy_agent (ap_sys s)) (sy_agent (ap_sys (api_step ev s)))) /\
    (id = ap_next s -> failed r ->
       same_vms (ap_sys s) (ap_sys (api_step ev s)) \/ snapshot_lost act (ap_sys s) (ap_sys (api_step ev s))).
Proof.
  intros Hok I. pose proof (api_step_sinv ev s Hok (av_sys _ I)) as Hs. rewrite api_step_sys in Hs |- *.
  assert (Hold : forall w, ap_waiting s !! id = Some w -> id <> ap_next s) by (intros w Hw%(av_lt _ _ _ I); lia).
  assert (Hpark : forall w t answer now name, ap_waiting s !! id = Some w -> park_of w = Some t ->
    (forall act, asked_for (sy_tasks (ap_sys s)) act w -> act = ToPark name) ->
    (forall x, answer = Ok x -> says (ToPark name) x (sy_agent (ap_sys s)) (sy_agent (ap_sys s))) ->
    exists act, ap_asked s !! id = Some act /\
      (failed (api_response answer) \/ says act (api_response answer) (sy_agent (ap_sys s))
         (sy_agent (sys_step_opt (park_over_event t answer now s) (ap_sys s)))) /\
      (id = ap_next s -> failed (api_response answer) ->
         same_vms (ap_sys s) (sys_step_opt (park_over_event t answer now s) (ap_sys s)) \/
         snapshot_lost act (ap_sys s) (sys_step_opt (park_over_event t answer now s) (ap_sys s)))).
  { intros w t answer now name Hw _ Hact Hsays. destruct (av_wait _ I _ _ Hw) as (act & Ha & Hf).
    apply Hact in Hf as ->. exists (ToPark name). split; [done|]. split; [|intros Hid; by destruct (Hold w Hw Hid)].
    apply says_result. intros x Hx. destruct (Hsays x Hx) as (info & log & -> & Hn). exists info, log.
    split; [done|]. unfold park_over_event. destruct (claim_at _ _); [|done]. cbn [fmap option_fmap option_map sys_step_opt].
    by rewrite park_done_vms. }
  destruct ev as [uid gid req o|ev|at_ fs|i now|i sent reply now|i|i]; cbn [api_step api_sys_event] in *.
  - unfold begin. set (act := handle req _) in *. clearbody act. intros Hr Hn.
    destruct (action_reply uid gid o (ap_metrics s) act (sy_agent (ap_sys s))) as [r0|w] eqn:Ha; [|cbn in Hr; congruence].
    apply finish_answers in Hr as [-> ->]; [|done]. exists act. split; [apply lookup_insert_eq|].
    split; [by eapply begin_says|]. intros _. by eapply begin_refused.
  - destruct (own_event _ _); [|congruence]. destruct (task_answer _ _) as [[n r0]|] eqn:Ha; [|cbn; congruence].
    destruct (waiter _ _) as [i|] eqn:Hw; [|cbn; congruence]. intros Hr Hn. apply finish_answers in Hr as [-> ->]; [|done].
    apply waiter_some in Hw. destruct (av_wait _ I _ _ Hw) as (act & Hact & _). exists act. split; [done|].
    split; [by eapply task_says|]. intros Hid; by destruct (Hold _ Hw Hid).
  - cbn. congruence.
  - destruct (ap_waiting s !! i) as [[|name t| |]|] eqn:Hw; try congruence.
    destruct (park_send _ _) as [[t' into]|e]; [cbn; congruence|]. unfold park_over. intros Hr Hn.
    apply finish_answers in Hr as [-> ->]; [|done].
    eapply (Hpark _ t (Err e) now name Hw); [done|intros []; simpl; naive_solver|done].
  - destruct (ap_waiting s !! i) as [[| |name t t'|]|] eqn:Hw; try congruence.
    destruct (park_waits _ _ _ _); [congruence|]. unfold park_over. intros Hr Hn. apply finish_answers in Hr as [-> ->]; [|done].
    eapply (Hpark _ t (park_answer name sent reply _) now name Hw); [done|intros []; simpl; naive_solver|].
    intros x. apply park_answer_says.
  - destruct (ap_waiting s !! i) as [[| | |name t]|] eqn:Hw; try congruence.
    destruct (bool_decide _); [congruence|]. intros Hr Hn. apply finish_answers in Hr as [-> ->]; [|done].
    destruct (av_wait _ I _ _ Hw) as (act & Hact & Hf). exists act. split; [done|]. split; [|intros Hid; by destruct (Hold _ Hw Hid)].
    apply says_result. intros x Hx. destruct act; simpl in Hf; try done. subst.
    by apply (ended_says _ stop) in Hx as [? _].
  - destruct (ap_waiting s !! i); cbn; congruence.
Qed.

Lemma answers_kept ev s id r : api_inv s -> ap_answers s !! id = Some r -> ap_answers (api_step ev s) !! id = Some r.
Proof.
  intros I Hr. assert (Hf : forall i r' s', ap_answers s' = ap_answers s -> i <> id -> ap_answers (finish i r' s') !! id = Some r).
  { intros i r' s' E Hne. cbn [finish ap_answers]. rewrite E. case_bool_decide; [done|]. by rewrite lookup_insert_ne. }
  assert (Hw : forall i w, ap_waiting s !! i = Some w -> i <> id).
  { intros i w Hi ->. destruct (av_once _ I id) as (_ & ? & _); [eauto|congruence]. }
  destruct ev as [uid gid req o|ev|at_ fs|i now|i sent reply now|i|i]; cbn [api_step].
  - unfold begin. destruct (action_reply _ _ _ _ _ _); [|done]. apply Hf; [done|]. intros <-.
    destruct (av_once _ I (ap_next s)); [eauto|lia].
  - destruct (own_event _ _); [|done]. destruct (task_answer _ _) as [[n r0]|]; [|done].
    destruct (waiter _ _) as [i|] eqn:Hi; [|done]. apply waiter_some in Hi. apply Hf; [done|by eapply Hw].
  - done.
  - destruct (ap_waiting s !! i) as [[| | |]|] eqn:Hi; try done. destruct (park_send _ _) as [[t x]|e]; [done|].
    unfold park_over. apply Hf; [done|by eapply Hw].
  - destruct (ap_waiting s !! i) as [[| | |]|] eqn:Hi; try done. destruct (park_waits _ _ _ _); [done|].
    unfold park_over. apply Hf; [done|by eapply Hw].
  - destruct (ap_waiting s !! i) as [[| | |]|] eqn:Hi; try done. destruct (bool_decide _); [done|].
    apply Hf; [done|by eapply Hw].
  - by destruct (ap_waiting s !! i).
Qed.

(** ** What a request waits for is under way *)

Definition settles (s : ApiServer) (id : nat) (ev : ApiEvent) : Prop := ap_waiting (api_step ev s) !! id = None.
Definition under_way (s : ApiServer) (id : nat) (w : Wait) : Prop :=
  let a := sy_agent (ap_sys s) in
  match w with
  | WTask n => exists i task, sy_tasks (ap_sys s) !! i = Some task /\ task_name task = n /\
      match task with
      | TStart _ => forall o u f now, settles s id (AOwn (SStarted i o u f now))
      | TWake _ => forall o u f f_mark now, settles s id (AOwn (SWoken i o u f f_mark now))
      end
  | WParkClaimed name t => (t, false) ∈ sy_claims (ap_sys s) /\
      forall now, settles s id (AParkSends id now) \/
        exists t', ap_waiting (api_step (AParkSends id now) s) !! id = Some (WParking name t t') /\ is_Some (ag_sups a !! t')
  | WParking name t t' => (t, false) ∈ sy_claims (ap_sys s) /\
      forall sent reply now, (sent = true -> reply = Some (Ok tt) -> ag_sups a !! t' = None) ->
        settles s id (AParkReplied id sent reply now)
  | WStop name t => ag_sups a !! t = None -> settles s id (AStopEnded id)
  end.

Lemma finish_settles id r s : ap_waiting (finish id r s) !! id = None.
Proof. apply lookup_delete_eq. Qed.
Lemma waiting_under_way s id w : api_inv s -> ap_waiting s !! id = Some w -> under_way s id w.
Proof.
  intros I Hw. destruct w as [n|name t|name t t'|name t]; cbn [under_way].
  - pose proof (task_waited _ _ _ I Hw) as Hi. apply list_elem_of_lookup in Hi as [i Hi]. rewrite list_lookup_fmap in Hi.
    apply fmap_Some in Hi as (task & Hi & ->). exists i, task. split; [done|]. split; [done|].
    assert (Hid : waiter (task_name task) (ap_waiting s) = Some id).
    { destruct (waiter _ _) as [id'|] eqn:Hx; [|by apply (waiter_none _ _ id) in Hx].
      apply waiter_some in Hx. f_equal. by eapply av_tasks. }
    destruct task as [task|task]; intros; unfold settles; cbn [api_step own_event task_answer]; rewrite Hi;
      cbn [task_name] in Hid; rewrite Hid; apply finish_settles.
  - split; [apply (av_claims _ I); by exists id, (WParkClaimed name t)|]. intros now. unfold settles. cbn [api_step]. rewrite Hw.
    destruct (park_send name _) as [[t' into]|e] eqn:Hp; [right|left; apply finish_settles].
    exists t'. split; [apply lookup_insert_eq|]. unfold park_send, running in Hp.
    destruct (ag_vms _ !! name) as [[|i l t''|i l]|] eqn:Hn; try done; [|by destruct (is_parked i)].
    injection Hp as <- _. destruct (proj2 (rg_sups _ _ _ _ _ (si_reg _ (av_sys _ I)) t'' name)) as [v Hv]; eauto.
  - split; [apply (av_claims _ I); by exists id, (WParking name t t')|]. intros sent reply now Hend. unfold settles.
    cbn [api_step]. rewrite Hw. assert (park_waits sent reply t' (sy_agent (ap_sys s)) = false) as ->.
    { unfold park_waits. destruct sent; [|done]. destruct reply as [[[]|e]|]; [|done|done]. simpl.
      rewrite Hend by done. done. }
    apply finish_settles.
  - intros Hend. unfold settles. cbn [api_step]. rewrite Hw, bool_decide_false; [apply finish_settles|].
    rewrite Hend. by intros [? ?].
Qed.

Lemma api_new_inv s : sinv s -> sy_tasks s = [] -> sy_claims s = [] -> api_inv (api_new s).
Proof.
  intros I Ht Hc. split; cbn [api_new ap_sys ap_waiting ap_next ap_asked ap_gone ap_answers].
  - done.
  - intros id. rewrite lookup_empty. split; [by intros [? ?]|lia].
  - intros id w Hw. by rewrite lookup_empty in Hw.
  - intros id. lia.
  - intros id Ha. rewrite lookup_empty in Ha. by destruct Ha.
  - intros id. set_solver.
  - intros id id' n Hw. by rewrite lookup_empty in Hw.
  - intros id id' w w' t Hw. by rewrite lookup_empty in Hw.
  - intros t. rewrite Hc. split; [by intros ?%not_elem_of_nil|]. intros (id & w & Hw & _). by rewrite lookup_empty in Hw.
Qed.

Section served.
Context (sd fc jl kn : string) (gid : N) (sub : Subnet) (ca : option string) (acme : bool).
Local Abbreviation run := (node_run sd fc jl kn gid sub ca acme).
Local Abbreviation new := (node_new sd fc jl kn gid sub ca acme).
Local Abbreviation evs_ok := (node_evs_ok sd fc jl kn gid sub ca acme).

Lemma served_inv evs h reqs :
  subnet_wf sub -> evs_ok (new h) evs -> nd_up (run evs (new h)) = true ->
  let s0 := nd_sys (run evs (new h)) in
  sy_tasks s0 = [] -> sy_claims s0 = [] -> api_oks (api_new s0) reqs -> api_inv (api_run reqs (api_new s0)).
Proof.
  intros Hsub Hok Hup s0 Ht Hc Hr. apply api_run_inv; [done|]. apply api_new_inv; [|done|done].
  by apply reached_sinv.
Qed.

(** C8: Every request is answered once, and none waits for nothing. From an
    agent with nothing under way, whatever requests come in whatever order,
    and whatever the agent's own events between them: every request has been
    answered, or is under way, or its client has gone away, and one that is
    answered is neither of the others and keeps its answer; what a request
    under way waits for is there (the task that starts or wakes its VM, its
    claim, a supervisor), and the event that ends that answers it; and no
    claim on a VM is held but by the park that took it. *)
Theorem requests_answered_once evs h reqs :
  subnet_wf sub -> evs_ok (new h) evs -> nd_up (run evs (new h)) = true ->
  let s0 := nd_sys (run evs (new h)) in
  sy_tasks s0 = [] -> sy_claims s0 = [] -> api_oks (api_new s0) reqs ->
  let s := api_run reqs (api_new s0) in
  (forall id, id < ap_next s ->
     is_Some (ap_waiting s !! id) \/ is_Some (ap_answers s !! id) \/ id ∈ ap_gone s) /\
  (forall id r, ap_answers s !! id = Some r ->
     ap_waiting s !! id = None /\ (id ∉ ap_gone s) /\ forall ev, ap_answers (api_step ev s) !! id = Some r) /\
  (forall id w, ap_waiting s !! id = Some w -> under_way s id w) /\
  (forall t, (t, false) ∈ sy_claims (ap_sys s) -> exists id w, ap_waiting s !! id = Some w /\ park_of w = Some t).
Proof.
  intros Hsub Hok Hup s0 Ht Hc Hr s. pose proof (served_inv evs h reqs Hsub Hok Hup Ht Hc Hr) as I. fold s0 in I. fold s in I.
  split_and!.
  - apply (av_open _ I).
  - intros id r Ha. destruct (av_once _ I id) as (_ & ? & ?); [eauto|]. split_and!; try done.
    intros ev. by apply answers_kept.
  - intros id w. by apply waiting_under_way.
  - intros t. apply (av_claims _ I).
Qed.

End served.

(** A removal of a parked VM that the database refuses is answered with an
    error and leaves the VM listed as parked, with its snapshot gone. *)
Theorem refused_removal_loses_snapshot ports name a info log e :
  (remove_app ports None name (ag_machines a) (ag_db a)).2 = Ok false ->
  ag_vms a !! name = Some (EndedVm info log) -> is_parked info = true ->
  let '(a', r) := agent_remove ports None None (Some e) name a in
  is_ok r = false /\ ag_vms a' !! name = Some (EndedVm info log) /\ ho_dirs (ag_host a') !! snapshot_of a name = None.
Proof.
  intros Hr Hn Hp. unfold agent_remove. destruct (remove_app _ _ _ _ _) as [[ms db] r]. simpl in Hr. subst r.
  cbn [ag_vms set_ag_machines set_ag_db]. rewrite Hn, Hp. cbn. split_and!; [done..|].
  apply map_lookup_filter_None. right. intros d _. simpl. by rewrite under_refl.
Qed.

(** ** A Node that serves *)

Definition ex_call : CallOutcome :=
  mkCallOutcome (fun _ _ _ => Opened "rootfs bytes") (fun _ => Ok []) (fun _ => Ok []) None None None None None
    (Ok "ssh-ed25519 AAAA cirro-node") (fun _ => Err "no route to host") (fun _ => Err "no key")
    (mkAddOutcome (fun _ => Err "no route to host") (fun _ => Err "no key") (Ok "") None None None None None (fun _ => Ok [])) 1001.
Definition ex_serde : FromSlice :=
  mkFromSlice (fun body => if bool_decide (body = "web") then Ok (ex_request "web" "web.test") else Err "expected value")
    (fun _ => Ok (mkStopRequest true None)) (fun _ => Err "expected value") (fun _ => Err "expected value")
    (fun _ => Err "expected value").
Definition ex_http (method : Method) (path : string) (body : result string string) : ApiEvent :=
  ARequest 1000 1000 (api_request ex_serde (mkHttpRequest method path None body)) ex_call.
(** A run with a body that is cut short, one with a body that isn't one, a
    run, and its VM's start. *)
Definition ex_requests : list ApiEvent :=
  [ex_http POST "/vms" (Err "connection reset"); ex_http POST "/vms" (Ok "{"); ex_http POST "/vms" (Ok "web")].
Definition ex_start : ApiEvent := AOwn (SStarted 0 (example_start None) (undo_ok 3) None 1001).
Definition ex_booted : AgentNode := ex_steps [ex_boot] ex_new.

Lemma ex_boot_ok :
  node_evs_ok "/var/lib/cirro" "/fc" "/jailer" "/vmlinux" 990 ex_subnet None false ex_new [ex_boot].
Proof. cbn [node_evs_ok]. split; [apply undo_fine_ok; unfold CGROUP_POLL_ATTEMPTS; lia|done]. Qed.
Lemma ex_requests_ok : api_oks (api_new (nd_sys ex_booted)) (ex_requests ++ [ex_start]).
Proof.
  cbn [api_oks ex_requests app]. split_and!; [| | | |done]; intros ev' He; vm_compute in He.
  - done.
  - done.
  - injection He as <-. split_and!; [by vm_compute| |done]. apply ids_fresh_empty. by vm_compute.
  - injection He as <-. split_and!; [by vm_compute| | |].
    + apply ids_fresh_empty. by vm_compute.
    + apply (undo_fine_ok 3). unfold CGROUP_POLL_ATTEMPTS. lia.
    + intros args pid st [= <- <-]. split; [by vm_compute|]. intros i ps Hi. by vm_compute in Hi.
Qed.

Lemma requests_answered_once_witness :
  under_way (api_run ex_requests (api_new (nd_sys ex_booted))) 2 (WTask "web") /\
  ap_answers (api_run ex_requests (api_new (nd_sys ex_booted))) !! 1
    = Some (json BAD_REQUEST (BError "invalid request body: expected value")).
Proof.
  split; [|vm_compute; reflexivity].
  refine (proj1 (proj2 (proj2 (requests_answered_once "/var/lib/cirro" "/fc" "/jailer" "/vmlinux" 990 ex_subnet None
    false [ex_boot] ex_host ex_requests ex_subnet_wf ex_boot_ok _ _ _ _))) 2 (WTask "web") _).
  - vm_compute. reflexivity.
  - vm_compute. reflexivity.
  - vm_compute. reflexivity.
  - destruct ex_requests_ok as (H1 & H2 & H3 & _). exact (conj H1 (conj H2 (conj H3 I))).
  - vm_compute. reflexivity.
Defined.

(** The first body's client is told why, the second's too, and the VM that
    was asked for runs once its start has ended. *)
Definition ex_started : VmInfo :=
  started_info "web" (ipv4_new 10 77 0 2) 512 1 1001 (rq_route (ex_request "web" "web.test")).
