(* ===== verification/Cache.v ===== *)
(** * The image cache ([crates/cirro-image/src/cache.rs])

    Pulls, the records of what was pulled, and removals, over the files of
    the cache's directory. Each operation is the sequence of the directory's
    states it goes through, one per file-system call, so that what holds of
    every state holds wherever the process may be killed. The registry
    client ([oci-client]) and serde are parameters. *)

From S2P Require Import Prelude RustStr Trace Image RunConfig.

Definition PLATFORM : string := "linux/amd64".

Record ImageRecord := mkImageRecord { ir_references : list string; ir_config : RunConfig }.
Record CachedImage := mkCachedImage {
  ci_digest : string;
  ci_rootfs : string;
  ci_config : RunConfig;
  ci_references : list string;
}.

(** What a name in the directory is: a record, a rootfs ([mke2fs]'s tar and
    size), a directory, or a file that is neither (half-written, say). *)
Definition Rootfs : Type := list TarOut * N.
Inductive Item := IRecord (r : ImageRecord) | IRootfs (r : Rootfs) | IDir | IOther.
Abbreviation Files := (gmap string Item).

(** ** Steps

    A step's trace is the state after each file-system call it made, and
    where [unique]'s counter is. *)
Record CacheState := mkCacheState { ca_files : Files; ca_next : N }.
Abbreviation cacheM := (traceM CacheState Files).
Definition get_files : cacheM Files := fun s => ([], s, Ok (ca_files s)).
Definition file_step (g : Files -> Files) : cacheM unit := fun s =>
  let files := g (ca_files s) in ([files], mkCacheState files (ca_next s), Ok tt).
(** [std::fs::write]: made empty first, and left at any point by an error. *)
Definition fs_write (name : string) (item : Item) (f : fault) : cacheM unit :=
  _ ← file_step <[name := IOther]>;
  match f with Some e => lift (Err e) | None => file_step <[name := item]> end.
(** [std::fs::rename] within the directory, and from below it. *)
Definition fs_rename (from to : string) (f : fault) : cacheM unit :=
  match f with
  | Some e => lift (Err e)
  | None => files ← get_files;
            match files !! from with
            | Some item => file_step (fun files => <[to := item]> (delete from files))
            | None => lift (Err "No such file or directory (os error 2)")
            end
  end.
Definition fs_move_in (item : Item) (to : string) (f : fault) : cacheM unit :=
  match f with Some e => lift (Err e) | None => file_step <[to := item]> end.
Definition fs_remove (name : string) (f : fault) : cacheM unit :=
  match f with Some e => lift (Err e) | None => file_step (delete name) end.

(** [unique]. *)
Definition unique (pid : N) : cacheM string := fun s =>
  ([], mkCacheState (ca_files s) (wrap32 (ca_next s + 1)), Ok (dec pid +:+ "-" +:+ dec (ca_next s))).

(** ** Names and listing *)

Fixpoint str_replace (a b : ascii) (s : string) : string :=
  match s with
  | EmptyString => EmptyString
  | String c s => String (if decide (c = a) then b else c) (str_replace a b s)
  end.
(** [ImageCache::path], within the directory. *)
Definition cache_path (digest extension : string) : string :=
  str_replace ":" "-" digest +:+ "." +:+ extension.

(** [ImageCache::cached]; [f_read] is what reading each file answers. *)
Definition is_file_item (i : Item) : bool := match i with IDir => false | _ => true end.
Definition cached (dir : string) (f_read : string -> fault) (files : Files) (digest : string)
    : option CachedImage :=
  let rootfs := cache_path digest "ext4" in
  match f_read (cache_path digest "json"), files !! cache_path digest "json" with
  | None, Some (IRecord record) =>
      match files !! rootfs with
      | Some item => if is_file_item item then
          Some (mkCachedImage digest (dir +:+ "/" +:+ rootfs) (ir_config record) (ir_references record)) else None
      | None => None
      end
  | _, _ => None
  end.

(** The order of [list]: references, then digest. *)
Fixpoint refs_cmp (a b : list string) : comparison :=
  match a, b with
  | [], [] => Eq
  | [], _ => Lt
  | _, [] => Gt
  | x :: a, y :: b => match String.compare x y with Eq => refs_cmp a b | c => c end
  end.
Definition image_cmp (a b : CachedImage) : comparison :=
  match refs_cmp (ci_references a) (ci_references b) with
  | Eq => String.compare (ci_digest a) (ci_digest b)
  | c => c
  end.
Definition image_le (a b : CachedImage) : Prop := image_cmp a b <> Gt.
#[global] Instance image_le_dec : RelDecision image_le.
Proof. intros a b. unfold image_le. destruct (image_cmp a b); [left|left|right]; congruence. Defined.

(** One name of the directory, for [list]. *)
Definition listed (dir : string) (f_read : string -> fault) (files : Files) (name : string) : option CachedImage :=
  stem ← (if is_utf8 name then strip_suffix ".json" name else None);
  '(algorithm, hex) ← split_once "-" stem;
  cached dir f_read files (algorithm +:+ ":" +:+ hex).
(** [ImageCache::list]; [f] is the answer to reading the directory, but for
    one that isn't there, which has no files. *)
Definition cache_list (dir : string) (f : fault) (f_read : string -> fault) (files : Files)
    : result string (list CachedImage) :=
  match f with
  | Some e => Err ("read " +:+ dir +:+ ": " +:+ e)
  | None => Ok (merge_sort image_le (omap (listed dir f_read files) (keys_of files)))
  end.

(** ** Records *)

(** [ImageCache::write_record]: [f] are the answers to the write and to the
    rename. *)
Definition write_record (dir : string) (pid : N) (f : fault * fault) (image : CachedImage) : cacheM unit :=
  let path := cache_path (ci_digest image) "json" in
  u ← unique pid;
  let partial := path +:+ "." +:+ u in
  with_context ("write " +:+ dir +:+ "/" +:+ path)
    (_ ← fs_write partial (IRecord (mkImageRecord (ci_references image) (ci_config image))) f.1;
     fs_rename partial path f.2).

(** The references of an image once [reference] names [digest]. *)
Definition retarget (reference digest : string) (image : CachedImage) : list string :=
  let kept := filter (fun r => r <> reference) (ci_references image) in
  if bool_decide (ci_digest image = digest) then merge_sort String.le (kept ++ [reference]) else kept.
Definition set_references (refs : list string) (i : CachedImage) : CachedImage :=
  mkCachedImage (ci_digest i) (ci_rootfs i) (ci_config i) refs.
Definition needs_write (reference digest : string) (image : CachedImage) : bool :=
  negb (bool_decide (length (retarget reference digest image) = length (ci_references image)))
  || bool_decide (ci_digest image = digest).
Fixpoint remember_each (dir : string) (pid : N) (f : string -> fault * fault) (reference digest : string)
    (images : list CachedImage) : cacheM unit :=
  match images with
  | [] => mret tt
  | image :: images =>
      _ ← (if needs_write reference digest image
           then write_record dir pid (f (ci_digest image)) (set_references (retarget reference digest image) image)
           else mret tt);
      remember_each dir pid f reference digest images
  end.
(** The answers to one operation's calls. *)
Record CacheOutcome := mkCacheOutcome {
  co_list : fault;
  co_read : string -> fault;
  co_record : string -> fault * fault;
  co_reread : string -> fault;
}.
Definition remember (dir : string) (pid : N) (o : CacheOutcome) (reference digest : string) : cacheM CachedImage :=
  files ← get_files;
  images ← lift (cache_list dir (co_list o) (co_read o) files);
  _ ← remember_each dir pid (co_record o) reference digest images;
  files ← get_files;
  lift (ok_or (cached dir (co_reread o) files digest) (digest +:+ " vanished from " +:+ dir)).

(** ** [ImageCache::remove]

    [whole] is the reference [oci-client] parses, written in full, if it is
    one. *)
Definition names_image (whole : option string) (image : string) (i : CachedImage) : bool :=
  let by_reference := match whole with Some r => contains (ci_references i) r | None => false end in
  let hex := default image (strip_prefix "sha256:" image) in
  let by_digest := (4 <=? str_len hex)%N && str_all is_hexdigit hex
    && match strip_prefix "sha256:" (ci_digest i) with Some d => starts_with hex d | None => false end in
  by_reference || by_digest.
Definition cache_remove (dir : string) (f : fault) (f_read : string -> fault) (f_remove : string -> fault)
    (whole : option string) (image : string) : cacheM CachedImage :=
  files ← get_files;
  images ← lift (cache_list dir f f_read files);
  match filter (fun i => names_image whole image i = true) images with
  | [] => lift (Err ("no cached image " +:+ image))
  | [found] =>
      let json := cache_path (ci_digest found) "json" in
      let ext4 := cache_path (ci_digest found) "ext4" in
      _ ← with_context ("remove " +:+ ci_rootfs found) (fs_remove ext4 (f_remove ext4));
      _ ← with_context ("remove " +:+ dir +:+ "/" +:+ json) (fs_remove json (f_remove json));
      mret found
  | found => lift (Err (image +:+ " matches more than one cached image: " +:+ str_join ", " (ci_digest <$> found)))
  end.

(** ** Pulling *)

Record Descriptor := mkDescriptor { ds_digest : string; ds_media_type : string }.
Record ImageManifest := mkImageManifest { im_config : Descriptor; im_layers : list Descriptor }.
Record IndexEntry := mkIndexEntry { ix_digest : string; ix_platform : option (string * string) }.
Inductive OciManifest := MImage (m : ImageManifest) | MIndex (entries : list IndexEntry).
Record ConfigFile := mkConfigFile { cf_os : string; cf_architecture : string; cf_config : option OciConfig }.

(** [OciDistributionError], as far as [pull_error] looks at it. *)
Inductive OciErrorCode := ManifestUnknown | Toomanyrequests | NameUnknown | Unauthorized | Denied | OtherCode.
#[global] Instance oci_error_code_eq_dec : EqDecision OciErrorCode.
Proof. solve_decision. Defined.
Inductive DistError :=
| RegistryError (codes : list OciErrorCode) (display : string)
| ServerError (code : N) (display : string)
| UnauthorizedError (display : string)
| OtherError (display : string).
Definition dist_display (e : DistError) : string :=
  match e with RegistryError _ d | ServerError _ d | UnauthorizedError d | OtherError d => d end.

(** [oci-client]'s [Reference]: its parts, and its spellings. *)
Record Reference := mkReference {
  rf_registry : string;
  rf_repository : string;
  rf_tag : option string;
  rf_digest : option string;
  rf_whole : string;
  rf_display : string;
}.

Definition pull_error (reference : Reference) (what : string) (e : DistError) : string :=
  let codes := match e with RegistryError codes _ => codes | _ => [] end in
  let shown := rf_display reference in
  if contains codes ManifestUnknown then
    let wanted := match rf_digest reference with
                  | Some digest => "manifest " +:+ digest
                  | None => "tag " +:+ default "latest" (rf_tag reference)
                  end in
    "no image " +:+ shown +:+ ": the registry has no " +:+ wanted +:+ " for " +:+ rf_repository reference
  else if contains codes Toomanyrequests || match e with ServerError code _ => (code =? 429)%N | _ => false end then
    "can't pull " +:+ shown +:+ ": the registry's anonymous pull limit was reached" +:+
    (if bool_decide (rf_registry reference = "docker.io")
     then " (Docker Hub allows about 100 pulls per 6 hours per IP address)" else "") +:+
    "; try again later, or run an image that's already cached (cirro image ls)"
  else if match e with UnauthorizedError _ => true | _ => false end
       || contains codes NameUnknown || contains codes Unauthorized || contains codes Denied then
    "no image " +:+ shown +:+ ": the registry has no repository " +:+ rf_repository reference +:+
    ", or it's private (only public images can be pulled)"
  else "pull " +:+ what +:+ ": " +:+ dist_display e.

Definition platform (os architecture : string) : string := os +:+ "/" +:+ architecture.

(** The registry as the client shows it, and the answers to a pull's own
    calls. *)
Record Registry := mkRegistry {
  rg_parse : string -> result string Reference;
  rg_with_digest : Reference -> string -> Reference;
  rg_manifest : Reference -> result DistError (OciManifest * string);
  rg_resolver : list IndexEntry -> option string;
  rg_blob : Reference -> Descriptor -> result DistError string;
  rg_config_file : string -> result string ConfigFile;
}.
Record PullOutcome := mkPullOutcome {
  po_create_dir : fault;
  po_scratch : fault;
  po_drop : fault;
  po_blob : nat -> fault;
  po_flat : fault;
  po_copies : nat -> fault * fault * fault;
  po_passwd : fault;
  po_build : BuildOutcome;
  po_record : fault * fault;
  po_move : fault;
}.

Section pull.
Context (archive : string -> result string (list (result string TarEntry))).
Context (gunzip : string -> result string string).
Context (lossy : string -> string).
Context (registry : Registry).
Context (dir : string) (pid : N).

Definition is_zstd (d : Descriptor) : bool := str_contains_str "zstd" (ds_media_type d).

(** Which manifest to build, or the digest of an image already here. *)
Definition resolve_manifest (f_read : string -> fault) (files : Files) (reference : Reference)
    : result string (string * option ImageManifest) :=
  '(manifest, digest) ← map_err (pull_error reference (rf_display reference)) (rg_manifest registry reference);
  '(digest, manifest) ←
    match manifest with
    | MImage m => Ok (digest, Some m)
    | MIndex entries =>
        match rg_resolver registry entries with
        | None =>
            let found := filter (fun p => p <> "unknown/unknown")
              (omap (fun e => '(os, arch) ← ix_platform e; Some (platform os arch)) entries) in
            Err (rf_display reference +:+ " has no " +:+ PLATFORM +:+ " image, only " +:+ str_join ", " found)
        | Some digest =>
            match cached dir f_read files digest with
            | Some _ => Ok (digest, None)
            | None =>
                let image := rg_with_digest registry reference digest in
                match rg_manifest registry image with
                | Ok (MImage m, _) => Ok (digest, Some m)
                | Ok (MIndex _, _) =>
                    Err (rf_display reference +:+ "'s " +:+ PLATFORM +:+ " entry is another index, not an image")
                | Err e => Err (pull_error reference (rf_display image) e)
                end
            end
        end
    end;
  match cached dir f_read files digest with
  | Some _ => Ok (digest, None)
  | None => Ok (digest, manifest)
  end.

(** The layers' blobs, each written to a file of the scratch dir. *)
Fixpoint pull_layers (o : PullOutcome) (reference : Reference) (scratch : string) (i : nat) (layers : list Descriptor)
    : result string (list Layer) :=
  match layers with
  | [] => Ok []
  | layer :: layers =>
      let path := scratch +:+ "/blob-" +:+ dec (N.of_nat i) in
      _ ← map_err (fun e => "create " +:+ path +:+ ": " +:+ e) (fault_result (po_blob o i));
      bytes ← map_err (pull_error reference (rf_display reference +:+ "'s layer " +:+ ds_digest layer))
        (rg_blob registry reference layer);
      rest ← pull_layers o reference scratch (S i) layers;
      let '(out, copy, opened) := po_copies o i in
      Ok (mkLayer path (Ok bytes) out copy opened :: rest)
  end.

(** What is done with the scratch dir there: an image's config and rootfs. *)
Definition build_image (o : PullOutcome) (init scratch : string) (reference : Reference) (m : ImageManifest)
    : result string (RunConfig * Rootfs) :=
  bytes ← map_err (pull_error reference (rf_display reference +:+ "'s config")) (rg_blob registry reference (im_config m));
  file ← map_err (fun e => rf_display reference +:+ "'s config: " +:+ e) (rg_config_file registry bytes);
  let platform := platform (cf_os file) (cf_architecture file) in
  _ ← fail_if (negb (bool_decide (platform = PLATFORM)))
    (rf_display reference +:+ " is a " +:+ platform +:+ " image; only " +:+ PLATFORM +:+ " images run here");
  layers ← pull_layers o reference scratch 0 (im_layers m);
  flat ← open_image id archive gunzip (po_flat o) layers;
  config ← run_config lossy (po_passwd o) (cf_config file) flat;
  match build_ext4 id (po_build o) init (scratch +:+ "/rootfs.ext4") None flat with
  | (Ok _, Some rootfs) => Ok (config, rootfs)
  | (Ok _, None) => Err "No such file or directory (os error 2)"
  | (Err e, _) => Err e
  end.

(** [Scratch]: made for the pull and removed however it ends. *)
Definition with_scratch {A} (f f_drop : fault) (k : string -> cacheM A) : cacheM A :=
  u ← unique pid;
  let name := ".pull-" +:+ u in
  _ ← file_step (delete name);
  match f with
  | Some e => lift (Err ("create the pull's scratch dir: " +:+ e))
  | None =>
      _ ← file_step <[name := IDir]>;
      finally (k name) match f_drop with Some _ => mret tt | None => file_step (delete name) end
  end.

(** [ImageCache::fetch]. *)
Definition fetch (f_read : string -> fault) (o : PullOutcome) (init : string) (reference : Reference) : cacheM string :=
  files ← get_files;
  '(digest, manifest) ← lift (resolve_manifest f_read files reference);
  match manifest with
  | None => mret digest
  | Some m =>
      _ ← lift (fail_if (existsb is_zstd (im_layers m))
        ("can't pull " +:+ rf_display reference +:+
         ": its layers are zstd-compressed, which isn't supported yet"));
      _ ← lift (map_err (fun e => "create " +:+ dir +:+ ": " +:+ e) (fault_result (po_create_dir o)));
      with_scratch (po_scratch o) (po_drop o) (fun scratch =>
        '(config, rootfs) ← lift (build_image o init (dir +:+ "/" +:+ scratch) reference m);
        let path := cache_path digest "ext4" in
        _ ← write_record dir pid (po_record o) (mkCachedImage digest (dir +:+ "/" +:+ path) config []);
        _ ← with_context ("move the rootfs to " +:+ dir +:+ "/" +:+ path) (fs_move_in (IRootfs rootfs) path (po_move o));
        mret digest)
  end.

(** [ImageCache::pull]. *)
Definition cache_pull (f_read : string -> fault) (o : PullOutcome) (oc : CacheOutcome) (init text : string)
    : cacheM CachedImage :=
  reference ← lift (map_err (fun e => "image reference " +:+ debug_str text +:+ ": " +:+ e) (rg_parse registry text));
  digest ← fetch f_read o init reference;
  remember dir pid oc (rf_whole reference) digest.
End pull.
