(* ===== verification/CacheLaws.v ===== *)
(** * The image cache's guarantees

    What every state the cache's directory goes through keeps, hence what a
    pull or a removal leaves wherever it is killed, and what a pull's record
    of its reference changes. *)

From S2P Require Import Prelude RustStr Trace Image RunConfig Cache.

(** ** Names *)

Definition digest_wf (d : string) : Prop := exists hex, d = "sha256:" +:+ hex /\ str_all is_hexdigit hex = true.

Lemma replace_hex hex : str_all is_hexdigit hex = true -> str_replace ":" "-" hex = hex.
Proof.
  induction hex as [|c hex IH]; [done|]. simpl. intros [Hc Hh]%andb_true_iff. rewrite IH by done.
  rewrite decide_False; [done|]. by intros ->.
Qed.
Lemma cache_path_wf hex ext :
  str_all is_hexdigit hex = true -> cache_path ("sha256:" +:+ hex) ext = "sha256-" +:+ hex +:+ "." +:+ ext.
Proof. intros H. unfold cache_path. simpl. by rewrite replace_hex. Qed.
Lemma hex_not_contains c hex : is_hexdigit c = false -> str_all is_hexdigit hex = true -> str_contains c hex = false.
Proof. intros Hc Hh. by apply (str_all_not_contains is_hexdigit). Qed.
Lemma cache_path_split d ext :
  digest_wf d -> exists stem, split_once "." (cache_path d ext) = Some (stem, ext) /\ stem <> EmptyString.
Proof.
  intros (hex & -> & Hh). rewrite cache_path_wf by done. exists ("sha256-" +:+ hex). split; [|done].
  change ("sha256-" +:+ hex +:+ "." +:+ ext) with ("sha256-" +:+ (hex +:+ String "." ext)).
  rewrite <-str_app_assoc. apply split_once_app. rewrite str_contains_app. simpl. by apply hex_not_contains.
Qed.
Lemma cache_path_inj d1 d2 e1 e2 :
  digest_wf d1 -> digest_wf d2 -> cache_path d1 e1 = cache_path d2 e2 -> d1 = d2 /\ e1 = e2.
Proof.
  intros H1 H2 Heq. destruct (cache_path_split d1 e1 H1) as (s1 & E1 & _), (cache_path_split d2 e2 H2) as (s2 & E2 & _).
  rewrite Heq, E2 in E1. injection E1 as Hs He. split; [|done]. subst.
  destruct H1 as (h1 & -> & Hh1), H2 as (h2 & -> & Hh2). rewrite !cache_path_wf in Heq by done. f_equal.
  apply (str_app_inj_l "sha256-") in Heq. change (h1 +:+ String "." e1 = h2 +:+ String "." e1) in Heq.
  assert (H1 : split_once "." (h1 +:+ String "." e1) = Some (h1, e1)) by (apply split_once_app; by apply hex_not_contains).
  assert (H2 : split_once "." (h2 +:+ String "." e1) = Some (h2, e1)) by (apply split_once_app; by apply hex_not_contains).
  rewrite Heq in H1. congruence.
Qed.

(** Names the cache makes besides records and rootfs: partial records and
    scratch dirs. *)
Definition unique_name (u : string) : Prop := exists pid n, u = dec pid +:+ "-" +:+ dec n.
Definition side_name (name : string) : Prop :=
  (exists d u, digest_wf d /\ unique_name u /\ name = cache_path d "json" +:+ "." +:+ u) \/
  (exists u, unique_name u /\ name = ".pull-" +:+ u).

Lemma unique_no_dot u : unique_name u -> str_contains "." u = false.
Proof.
  intros (pid & n & ->). rewrite !str_contains_app. rewrite !dec_not_contains by done. done.
Qed.
Lemma unique_dash u : unique_name u -> str_contains "-" u = true.
Proof. intros (pid & n & ->). rewrite !str_contains_app. simpl. by rewrite orb_true_r. Qed.
Lemma side_not_path name d ext :
  side_name name -> digest_wf d -> str_contains "." ext = false -> name <> cache_path d ext.
Proof.
  intros Hs Hd He Heq. destruct (cache_path_split d ext Hd) as (stem & E & Hne). rewrite <-Heq in E.
  destruct Hs as [(d' & u & Hd' & Hu & ->)|(u & Hu & ->)].
  - destruct Hd' as (hex & -> & Hh). rewrite cache_path_wf in E by done.
    replace (("sha256-" +:+ hex +:+ "." +:+ "json") +:+ "." +:+ u)
      with (("sha256-" +:+ hex) +:+ String "." ("json." +:+ u)) in E by (rewrite !str_app_assoc; done).
    rewrite split_once_app in E.
    + injection E as _ <-. rewrite str_contains_app in He. done.
    + rewrite str_contains_app. simpl. by apply hex_not_contains.
  - simpl in E. congruence.
Qed.
Lemma side_not_json name stem : side_name name -> name <> stem +:+ ".json".
Proof.
  intros Hs Heq.
  assert (E : rsplit_once "." name = Some (stem, "json")) by (rewrite Heq; by apply rsplit_once_app).
  assert (Hu : exists p u, unique_name u /\ rsplit_once "." name = Some (p, u) \/
    exists u, unique_name u /\ rsplit_once "." name = Some ("", "pull-" +:+ u)).
  { destruct Hs as [(d & u & _ & Hu & ->)|(u & Hu & ->)].
    - eexists _, u. left. split; [done|]. apply rsplit_once_app. by apply unique_no_dot.
    - exists "", u. right. exists u. split; [done|]. apply (rsplit_once_app "." "" ("pull-" +:+ u)).
      rewrite str_contains_app. by apply unique_no_dot. }
  destruct Hu as (p & u & [[Hu E']|(u' & Hu & E')]); rewrite E in E'; injection E' as _ Hj.
  - apply unique_dash in Hu. by rewrite <-Hj in Hu.
  - done.
Qed.

(** ** Steps *)

Section steps.
Context (I : Files -> Prop).
Lemma traced_get {B} (P : Files -> Prop) (k : Files -> cacheM B) R :
  (forall files, P files -> traced ca_files I (fun f => f = files /\ P f) (k files) R) ->
  traced ca_files I P (get_files ≫= k) R.
Proof.
  intros Hk s Hs. unfold mbind, trace_bind, get_files. specialize (Hk _ Hs s (conj eq_refl Hs)).
  destruct (k (ca_files s) s) as [[t s'] r]. done.
Qed.
Lemma traced_file g (P : Files -> Prop) Q :
  (forall f, P f -> I (g f) /\ Q (Ok tt) (g f)) -> traced ca_files I P (file_step g) Q.
Proof. intros H s Hs. destruct (H _ Hs). split; [by repeat constructor|done]. Qed.
Lemma traced_unique pid (P : Files -> Prop) Q :
  (forall f u, P f -> unique_name u -> Q (Ok u) f) -> traced ca_files I P (unique pid) Q.
Proof. intros H s Hs. split; [constructor|]. apply H; [done|]. by eexists _, _. Qed.
End steps.

(** ** What every state keeps *)

Section laws.
Context (archive : string -> result string (list (result string TarEntry))).
Context (gunzip : string -> result string string).
Context (lossy : string -> string).
Context (registry : Registry).
Context (dir : string).

(** The manifests the registry gives for a digest, and what a whole build of
    one of them makes. *)
Definition manifest_of (digest : string) (m : ImageManifest) : Prop :=
  (exists r, rg_manifest registry r = Ok (MImage m, digest)) \/
  (exists r d, rg_manifest registry (rg_with_digest registry r digest) = Ok (MImage m, d)).
Definition built (digest : string) (config : RunConfig) (rootfs : Rootfs) : Prop :=
  exists o init scratch reference m, manifest_of digest m /\
    build_image archive gunzip lossy registry o init scratch reference m = Ok (config, rootfs).

Record cache_inv (files : Files) : Prop := {
  ci_names : forall stem, is_Some (files !! (stem +:+ ".json")) ->
    exists d, digest_wf d /\ stem +:+ ".json" = cache_path d "json";
  ci_records : forall d i, digest_wf d -> files !! cache_path d "json" = Some i ->
    exists record rootfs, i = IRecord record /\ built d (ir_config record) rootfs;
  ci_whole : forall d i, digest_wf d -> files !! cache_path d "ext4" = Some i ->
    is_Some (files !! cache_path d "json") /\ exists rootfs config, i = IRootfs rootfs /\ built d config rootfs;
}.

Lemma cache_inv_empty : cache_inv ∅.
Proof.
  split; [intros stem [? H]|intros d i _ H..]; exact (False_ind _ (lookup_empty_Some (M:=gmap string) _ _ H)).
Qed.

(** A side name changes nothing. *)
Lemma side_lookup (files files' : Files) name :
  (forall n, n <> name -> files' !! n = files !! n) -> side_name name -> cache_inv files -> cache_inv files'.
Proof.
  intros Hf Hs [Hn Hr Hw]. split.
  - intros stem. rewrite Hf by (intros Heq; by apply (side_not_json name stem)). apply Hn.
  - intros d i Hd. rewrite Hf by (intros Heq; by apply (side_not_path name d "json")). by apply Hr.
  - intros d i Hd. rewrite !Hf; [by apply Hw|..]; intros Heq;
      [by apply (side_not_path name d "json")|by apply (side_not_path name d "ext4")].
Qed.
Lemma side_insert files name item : side_name name -> cache_inv files -> cache_inv (<[name := item]> files).
Proof. apply side_lookup. intros n Hn. by apply lookup_insert_ne. Qed.
Lemma side_delete files name : side_name name -> cache_inv files -> cache_inv (delete name files).
Proof. apply side_lookup. intros n Hn. by apply lookup_delete_ne. Qed.

Lemma json_ne_ext4 d d' : digest_wf d -> digest_wf d' -> cache_path d "json" <> cache_path d' "ext4".
Proof. intros H H' Heq. by apply cache_path_inj in Heq as [_ ?]. Qed.

Lemma record_insert files d record rootfs :
  digest_wf d -> built d (ir_config record) rootfs -> cache_inv files ->
  cache_inv (<[cache_path d "json" := IRecord record]> files).
Proof.
  intros Hd Hb [Hn Hr Hw]. split.
  - intros stem [i Hi]. destruct (decide (stem +:+ ".json" = cache_path d "json")) as [Heq|Hne]; [by exists d|].
    rewrite lookup_insert_ne in Hi by congruence. apply Hn. by exists i.
  - intros d' i Hd' [[Heq <-]|[_ Hi]]%lookup_insert_Some; [|by apply Hr].
    apply cache_path_inj in Heq as [-> _]; [|done..]. by eexists _, _.
  - intros d' i Hd'. rewrite lookup_insert_ne by (by apply json_ne_ext4). intros Hi.
    destruct (Hw d' i Hd' Hi) as [? ?]. split; [|done].
    destruct (decide (cache_path d "json" = cache_path d' "json")) as [->|Hne];
      [rewrite lookup_insert_eq; by eexists|by rewrite lookup_insert_ne].
Qed.
Lemma rootfs_insert files d config rootfs :
  digest_wf d -> built d config rootfs -> is_Some (files !! cache_path d "json") -> cache_inv files ->
  cache_inv (<[cache_path d "ext4" := IRootfs rootfs]> files).
Proof.
  intros Hd Hb Hj [Hn Hr Hw]. split.
  - intros stem [i [[Heq <-]|[_ Hi]]%lookup_insert_Some]; [|apply Hn; by exists i].
    destruct Hd as (hex & -> & Hh). rewrite cache_path_wf in Heq by done. exfalso.
    assert (E : rsplit_once "." (stem +:+ ".json") = Some (stem, "json")) by by apply rsplit_once_app.
    rewrite <-Heq in E. change ("sha256-" +:+ hex +:+ "." +:+ "ext4") with ("sha256-" +:+ (hex +:+ String "." "ext4")) in E.
    rewrite <-str_app_assoc, rsplit_once_app in E by done. congruence.
  - intros d' i Hd'. rewrite lookup_insert_ne by (intros Heq; symmetry in Heq; by apply (json_ne_ext4 d' d)). by apply Hr.
  - intros d' i Hd' Hi. rewrite lookup_insert_ne by (intros Heq; symmetry in Heq; by apply (json_ne_ext4 d' d)).
    apply lookup_insert_Some in Hi as [[Heq <-]|[_ Hi]]; [|by apply Hw].
    apply cache_path_inj in Heq as [-> _]; [|done..]. split; [done|]. by eexists _, _.
Qed.
Lemma rootfs_delete files d : digest_wf d -> cache_inv files -> cache_inv (delete (cache_path d "ext4") files).
Proof.
  intros Hd [Hn Hr Hw]. split.
  - intros stem [i [_ Hi]%lookup_delete_Some]. apply Hn. by exists i.
  - intros d' i Hd' [_ Hi]%lookup_delete_Some. by apply Hr.
  - intros d' i Hd' [_ Hi]%lookup_delete_Some.
    rewrite lookup_delete_ne by (intros Heq; symmetry in Heq; by apply (json_ne_ext4 d' d)). by apply Hw.
Qed.
Lemma record_delete files d :
  digest_wf d -> files !! cache_path d "ext4" = None -> cache_inv files ->
  cache_inv (delete (cache_path d "json") files).
Proof.
  intros Hd He [Hn Hr Hw]. split.
  - intros stem [i [_ Hi]%lookup_delete_Some]. apply Hn. by exists i.
  - intros d' i Hd' [_ Hi]%lookup_delete_Some. by apply Hr.
  - intros d' i Hd' [_ Hi]%lookup_delete_Some. destruct (decide (d = d')) as [->|Hne]; [congruence|].
    rewrite lookup_delete_ne; [by apply Hw|]. intros Heq. apply cache_path_inj in Heq as [? _]; done.
Qed.

(** ** The operations keep it *)

Abbreviation spec := (traced ca_files cache_inv).
Abbreviation or_inv := (or_inv cache_inv).

Lemma write_record_spec pid fl image rootfs (P : Files -> Prop) :
  digest_wf (ci_digest image) -> built (ci_digest image) (ci_config image) rootfs ->
  (forall f, P f -> cache_inv f) ->
  spec P (write_record dir pid fl image)
    (or_inv (fun _ f => is_Some (f !! cache_path (ci_digest image) "json"))).
Proof.
  intros Hd Hb HP. unfold write_record.
  eapply traced_bind; [apply (traced_unique _ _ _ (or_inv (fun u _ => unique_name u)))| |by apply or_inv_err].
  { intros f u Hp Hu. split; [by apply HP|done]. }
  intros u. apply traced_context.
  set (partial := cache_path (ci_digest image) "json" +:+ "." +:+ u).
  set (record := mkImageRecord (ci_references image) (ci_config image)).
  apply (traced_bind _ _ _ _ (or_inv (fun _ f => side_name partial /\ f !! partial = Some (IRecord record)))).
  - unfold fs_write. apply (traced_bind _ _ _ _ (or_inv (fun _ _ => side_name partial))).
    + apply traced_file. intros f [Hi Hu].
      assert (side_name partial) by (left; by eexists _, _). assert (cache_inv (<[partial := IOther]> f)) by by apply side_insert.
      by apply or_inv_ok.
    + intros []. destruct (fl.1) as [e|].
      * apply traced_lift. by intros f [? _].
      * apply traced_file. intros f [Hi Hs]. assert (cache_inv (<[partial := IRecord record]> f)) by by apply side_insert.
        apply or_inv_ok; [done|]. split; [done|]. apply lookup_insert_eq.
    + by apply or_inv_err.
  - intros []. unfold fs_rename. destruct (fl.2) as [e|]; [apply traced_lift; by intros f [? _]|].
    apply traced_get. intros files [Hi [Hs Hp]]. rewrite Hp. apply traced_file. intros f [-> _].
    assert (cache_inv (<[cache_path (ci_digest image) "json" := IRecord record]> (delete partial files))).
    { eapply record_insert; [done|exact Hb|by apply side_delete]. }
    split; [done|]. split; [done|]. simpl. rewrite lookup_insert_eq. by eexists.
  - intros e f [Hi _]. by split.
Qed.

(** Images the cache lists. *)
Lemma cached_inv f_read files d image :
  cache_inv files -> digest_wf d -> cached dir f_read files d = Some image ->
  ci_digest image = d /\ exists rootfs, built d (ci_config image) rootfs.
Proof.
  intros Hi Hd. unfold cached. destruct (f_read _); [done|]. destruct (files !! cache_path d "json") as [[]|] eqn:Hj; try done.
  destruct (files !! cache_path d "ext4") as [i|]; [|done]. destruct (is_file_item i); [|done]. intros [= <-].
  split; [done|]. destruct (ci_records _ Hi d _ Hd Hj) as (record & rootfs & [= <-] & Hb). by exists rootfs.
Qed.
Lemma listed_inv f_read files name image :
  cache_inv files -> listed dir f_read files name = Some image -> is_Some (files !! name) ->
  digest_wf (ci_digest image) /\ name = cache_path (ci_digest image) "json" /\
  cached dir f_read files (ci_digest image) = Some image.
Proof.
  intros Hi Hl Hn. unfold listed in Hl. destruct (is_utf8 name); [|done].
  destruct (strip_suffix ".json" name) as [stem|] eqn:Hs; [|done]. apply strip_suffix_some in Hs. subst name.
  destruct (ci_names _ Hi stem Hn) as (d & Hd & Hp). pose proof Hd as (hex & -> & Hh).
  rewrite cache_path_wf in Hp by done.
  assert (stem = "sha256-" +:+ hex) as ->.
  { apply (f_equal (strip_suffix ".json")) in Hp. rewrite strip_suffix_app in Hp.
    change ("sha256-" +:+ hex +:+ "." +:+ "json") with ("sha256-" +:+ (hex +:+ ".json")) in Hp.
    rewrite <-str_app_assoc, strip_suffix_app in Hp. congruence. }
  replace ("sha256-" +:+ hex) with ("sha256" +:+ String "-" hex) in Hl by done.
  cbn [mbind option_bind] in Hl. rewrite split_once_app in Hl by done.
  change (cached dir f_read files ("sha256:" +:+ hex) = Some image) in Hl.
  destruct (cached_inv _ _ _ _ Hi Hd Hl) as [-> _]. split_and!; [done| |done]. by rewrite cache_path_wf.
Qed.

Lemma hex_utf8 hex t : str_all is_hexdigit hex = true -> is_utf8 t = true -> is_utf8 (hex +:+ t) = true.
Proof.
  induction hex as [|c hex IH]; [done|]. cbn [str_all]. intros [Hc Hh]%andb_true_iff Ht. rewrite str_app_cons.
  assert (Hb : byte_in 0 127 c = true) by by destruct c as [[] [] [] [] [] [] [] []].
  cbn [is_utf8]. rewrite Hb. by apply IH.
Qed.
Lemma cache_list_in f_read files images :
  cache_list dir None f_read files = Ok images -> cache_inv files ->
  NoDup (ci_digest <$> images) /\
  forall image, image ∈ images <->
    digest_wf (ci_digest image) /\ cached dir f_read files (ci_digest image) = Some image.
Proof.
  intros [= <-] Hi.
  assert (Hin : forall name image, name ∈ keys_of files -> listed dir f_read files name = Some image ->
    digest_wf (ci_digest image) /\ name = cache_path (ci_digest image) "json" /\
    cached dir f_read files (ci_digest image) = Some image).
  { intros name image Hn Hl. eapply listed_inv; [done..|]. by apply elem_of_keys. }
  split.
  - rewrite (fmap_Permutation ci_digest _ _ (merge_sort_Permutation image_le _)).
    pose proof (NoDup_keys_of files) as Hnd. induction (keys_of files) as [|name names IH]; [constructor|].
    apply NoDup_cons in Hnd as [Hname Hnd]. simpl.
    assert (Hrest : NoDup (ci_digest <$> omap (listed dir f_read files) names))
      by (apply IH; [intros n i Hn; apply Hin; by right|done]).
    destruct (listed dir f_read files name) as [image|] eqn:Hl; [|done]. simpl. constructor; [|done].
    intros (image' & Hd & (name' & Hn' & Hl')%list_elem_of_omap)%list_elem_of_fmap.
    destruct (Hin name image ltac:(by left) Hl) as (_ & -> & _).
    destruct (Hin name' image' ltac:(by right) Hl') as (_ & -> & _). by rewrite Hd in Hname.
  - intros image. rewrite merge_sort_Permutation, list_elem_of_omap. split.
    + intros (name & Hn & Hl). by destruct (Hin name image Hn Hl) as (? & _ & ?).
    + intros [Hd Hc]. exists (cache_path (ci_digest image) "json"). split.
      * apply elem_of_keys. unfold cached in Hc. destruct (f_read _); [done|].
        by destruct (files !! cache_path (ci_digest image) "json").
      * unfold listed. pose proof Hd as (hex & Hdig & Hh). rewrite Hdig, cache_path_wf by done.
        assert (Hu : is_utf8 ("sha256-" +:+ hex +:+ "." +:+ "json") = true).
        { apply (hex_utf8 hex ".json" Hh). done. }
        rewrite Hu. change ("sha256-" +:+ hex +:+ "." +:+ "json") with ("sha256-" +:+ (hex +:+ ".json")).
        rewrite <-str_app_assoc, strip_suffix_app. cbn [mbind option_bind].
        replace ("sha256-" +:+ hex) with ("sha256" +:+ String "-" hex) by done.
        rewrite split_once_app by done. rewrite Hdig in Hc. exact Hc.
Qed.

Lemma remember_each_spec pid fl reference digest images :
  Forall (fun image => digest_wf (ci_digest image) /\ exists rootfs, built (ci_digest image) (ci_config image) rootfs) images ->
  spec cache_inv (remember_each dir pid fl reference digest images) (or_inv (fun _ _ => True)).
Proof.
  induction 1 as [|image images [Hd [rootfs Hb]] Hall IH]; [apply traced_ret; by split|]. simpl.
  apply (traced_bind _ _ _ _ (or_inv (fun _ _ => True))); [| |by apply or_inv_err].
  - destruct (needs_write _ _ _); [|apply traced_ret; by split].
    eapply traced_weaken; [by eapply (write_record_spec _ _ _ rootfs cache_inv)|done|]. intros [[]|e] f [Hi _]; by split.
  - intros []. eapply traced_weaken; [exact IH| |done]. by intros f [? _].
Qed.
Lemma remember_spec pid o reference digest :
  spec cache_inv (remember dir pid o reference digest) (or_inv (fun _ _ => True)).
Proof.
  unfold remember. apply traced_get. intros files Hi.
  apply (traced_bind _ _ _ _ (or_inv (fun images _ => cache_list dir (co_list o) (co_read o) files = Ok images))).
  - apply traced_lift. intros f [-> Hf]. split; [done|]. by destruct (cache_list _ _ _ _).
  - intros images s [Hs Hl].
    assert (Hall : Forall (fun image => digest_wf (ci_digest image) /\
      exists rootfs, built (ci_digest image) (ci_config image) rootfs) images).
    { unfold cache_list in Hl. destruct (co_list o) eqn:Ho; [done|].
      destruct (cache_list_in (co_read o) files images Hl Hi) as [_ Hin]. apply Forall_forall. intros image [Hd Hc]%Hin.
      split; [done|]. by destruct (cached_inv _ _ _ _ Hi Hd Hc) as [_ ?]. }
    revert s Hs Hl. cut (spec cache_inv
      (_ ← remember_each dir pid (co_record o) reference digest images; files ← get_files;
       lift (ok_or (cached dir (co_reread o) files digest) (digest +:+ " vanished from " +:+ dir))) (or_inv (fun _ _ => True))).
    { intros H s Hs _. by apply H. }
    apply (traced_bind _ _ _ _ (or_inv (fun _ _ => True))); [by apply remember_each_spec| |by apply or_inv_err].
    intros []. apply traced_get. intros f [Hf _]. apply traced_lift. intros f' [-> _]. split; [done|].
    by destruct (ok_or _ _).
  - by apply or_inv_err.
Qed.

Lemma cache_remove_spec f f_read f_remove whole image :
  spec cache_inv (cache_remove dir f f_read f_remove whole image) (or_inv (fun _ _ => True)).
Proof.
  unfold cache_remove. apply traced_get. intros files Hi.
  destruct f as [e|].
  { apply (traced_bind _ _ _ _ (or_inv (fun _ _ => False))); [|intros a s [_ []]|by apply or_inv_err].
    apply traced_lift. by intros f [-> Hf]. }
  destruct (cache_list dir None f_read files) as [images|] eqn:Hl; [|done].
  apply (traced_bind _ _ _ _ (or_inv (fun l _ => l = images))); [apply traced_lift; by intros f [-> Hf]| |by apply or_inv_err].
  intros l. apply (traced_weaken _ _ _ (fun f => cache_inv f /\ l = images) _ _ (or_inv (fun _ _ => True))); [|by intros f [? ->]|done].
  intros s [Hs ->]. revert s Hs.
  change (spec cache_inv (match filter (fun i => names_image whole image i = true) images with
    | [] => lift (Err ("no cached image " +:+ image))
    | [found] =>
        _ ← with_context ("remove " +:+ ci_rootfs found)
              (fs_remove (cache_path (ci_digest found) "ext4") (f_remove (cache_path (ci_digest found) "ext4")));
        _ ← with_context ("remove " +:+ dir +:+ "/" +:+ cache_path (ci_digest found) "json")
              (fs_remove (cache_path (ci_digest found) "json") (f_remove (cache_path (ci_digest found) "json")));
        mret found
    | found => lift (Err (image +:+ " matches more than one cached image: " +:+ str_join ", " (ci_digest <$> found)))
    end) (or_inv (fun _ _ => True))).
  destruct (filter _ images) as [|found [|]] eqn:Hf; [apply traced_lift; by split| |apply traced_lift; by split].
  assert (Hd : digest_wf (ci_digest found)).
  { destruct (cache_list_in f_read files images Hl Hi) as [_ Hin]. apply Hin.
    assert (found ∈ filter (fun i => names_image whole image i = true) images) as [_ ?]%list_elem_of_filter by (rewrite Hf; by left).
    done. }
  apply (traced_bind _ _ _ _ (or_inv (fun _ f => f !! cache_path (ci_digest found) "ext4" = None))); [| |by apply or_inv_err].
  - apply traced_context. unfold fs_remove. destruct (f_remove _); [apply traced_lift; by split|].
    apply traced_file. intros f Hfi. apply or_inv_ok; [by apply rootfs_delete|]. apply lookup_delete_eq.
  - intros []. apply (traced_bind _ _ _ _ (or_inv (fun _ _ => True))); [| |by apply or_inv_err].
    + apply traced_context. unfold fs_remove. destruct (f_remove _); [apply traced_lift; by intros g [? _]|].
      apply traced_file. intros g [Hg Hn]. apply or_inv_ok; [by apply record_delete|done].
    + intros []. apply traced_ret. by intros g [? _].
Qed.

(** What the registry client documents of a digest: [sha256:] and hex. *)
Definition registry_digests_wf : Prop :=
  (forall r m d, rg_manifest registry r = Ok (m, d) -> digest_wf d) /\
  (forall entries d, rg_resolver registry entries = Some d -> digest_wf d).

Lemma resolve_manifest_wf f_read files reference d m :
  registry_digests_wf -> resolve_manifest registry dir f_read files reference = Ok (d, m) ->
  digest_wf d /\ (forall m', m = Some m' -> manifest_of d m').
Proof.
  intros [Hm Hr] H. unfold resolve_manifest in H.
  destruct (rg_manifest registry reference) as [[manifest digest]|e] eqn:Hg; [|done]. revert H. rsimpl. simpl.
  destruct manifest as [m0|entries].
  - rsimpl. destruct (cached dir f_read files digest); intros [= <- <-]; (split; [by eapply Hm|]); intros m' [=]; subst. left. by eexists.
  - destruct (rg_resolver registry entries) as [d'|] eqn:Hd; [|done].
    destruct (cached dir f_read files d') eqn:Hc.
    { rsimpl. rewrite Hc. intros [= <- <-]. split; [by eapply Hr|done]. }
    destruct (rg_manifest registry (rg_with_digest registry reference d')) as [[[m0|] d0]|] eqn:Hg'; try done.
    rsimpl. rewrite Hc. intros [= <- <-]. split; [by eapply Hr|]. intros m' [=]; subst. right. by eexists _, _.
Qed.

Lemma fetch_spec pid f_read o init reference :
  registry_digests_wf ->
  spec cache_inv (fetch archive gunzip lossy registry dir pid f_read o init reference) (or_inv (fun d _ => digest_wf d)).
Proof.
  intros Hwf. unfold fetch. apply traced_get. intros files Hi.
  destruct (resolve_manifest registry dir f_read files reference) as [[digest manifest]|e] eqn:Hr.
  2:{ apply (traced_bind _ _ _ _ (or_inv (fun _ _ => False))); [|intros a s [_ []]|by apply or_inv_err].
      apply traced_lift. by intros f [-> ?]. }
  destruct (resolve_manifest_wf _ _ _ _ _ Hwf Hr) as [Hd Hm].
  apply (traced_bind _ _ _ _ (or_inv (fun a _ => a = (digest, manifest)))); [apply traced_lift; by intros f [-> ?]| |by apply or_inv_err].
  intros a s [Hs ->]. revert s Hs. destruct manifest as [m|]; [|apply traced_ret; by split].
  specialize (Hm m eq_refl).
  apply (traced_bind _ _ cache_inv _ (or_inv (fun _ _ => True))); [apply traced_lift; intros f Hf; by destruct (fail_if _ _)| |by apply or_inv_err].
  intros []. apply (traced_bind _ _ _ _ (or_inv (fun _ _ => True))); [apply traced_lift; intros f [Hf _]; by destruct (po_create_dir o)| |by apply or_inv_err].
  intros []. unfold with_scratch.
  apply (traced_bind _ _ _ _ (or_inv (fun u _ => unique_name u))); [apply traced_unique; by intros f u [? _] ?| |by apply or_inv_err].
  intros u. set (name := ".pull-" +:+ u).
  apply (traced_bind _ _ _ _ (or_inv (fun _ _ => side_name name))); [| |by apply or_inv_err].
  { apply traced_file. intros f [Hf Hu]. assert (side_name name) by (right; by eexists).
    apply or_inv_ok; [by apply side_delete|done]. }
  intros []. destruct (po_scratch o) as [e|]; [apply traced_lift; by intros f [? _]|].
  apply (traced_bind _ _ _ _ (or_inv (fun _ _ => side_name name))); [| |by apply or_inv_err].
  { apply traced_file. intros f [Hf Hs]. apply or_inv_ok; [by apply side_insert|done]. }
  intros []. apply (traced_finally _ _ _ _ (fun r f => side_name name /\ or_inv (fun d _ => digest_wf d) r f)).
  - intros s [Hs Hn]. revert s Hs.
    cut (spec cache_inv
      ('(config, rootfs) ← lift (build_image archive gunzip lossy registry o init (dir +:+ "/" +:+ name) reference m);
        let path := cache_path digest "ext4" in
        _ ← write_record dir pid (po_record o) (mkCachedImage digest (dir +:+ "/" +:+ path) config []);
        _ ← with_context ("move the rootfs to " +:+ dir +:+ "/" +:+ path) (fs_move_in (IRootfs rootfs) path (po_move o));
        mret digest) (or_inv (fun d _ => digest_wf d))).
    { intros H s Hs. specialize (H s Hs). revert H. match goal with |- context [?x s] => destruct (x s) as [[t s1] r] end. by intros [? ?]. }
    destruct (build_image _ _ _ _ _ _ _ _ _) as [[config rootfs]|e] eqn:Hb.
    2:{ apply (traced_bind _ _ _ _ (or_inv (fun _ _ => False))); [|intros a s [_ []]|by apply or_inv_err].
        apply traced_lift. by split. }
    assert (Hbuilt : built digest config rootfs) by by eexists _, _, _, _, _.
    apply (traced_bind _ _ _ _ (or_inv (fun a _ => a = (config, rootfs)))); [apply traced_lift; by split| |by apply or_inv_err].
    intros a s [Hs ->]. revert s Hs. simpl.
    apply (traced_bind _ _ cache_inv _ (or_inv (fun _ f => is_Some (f !! cache_path digest "json")))); [| |by apply or_inv_err].
    { by apply (write_record_spec _ _ (mkCachedImage digest (dir +:+ "/" +:+ cache_path digest "ext4") config []) rootfs). }
    intros []. apply (traced_bind _ _ _ _ (or_inv (fun _ _ => True))); [| |by apply or_inv_err].
    + apply traced_context. unfold fs_move_in. destruct (po_move o); [apply traced_lift; by intros f [? _]|].
      apply traced_file. intros f [Hf Hj]. apply or_inv_ok; [|done]. by eapply rootfs_insert.
    + intros []. apply traced_ret. by intros f [? _].
  - intros r. destruct (po_drop o); [apply traced_ret; by intros f [_ ?]|].
    apply traced_file. intros f [Hn [Hf Hq]]. assert (cache_inv (delete name f)) by by apply side_delete.
    split; [done|]. split; [done|]. by destruct r.
Qed.
Lemma cache_pull_spec pid f_read o oc init text :
  registry_digests_wf ->
  spec cache_inv (cache_pull archive gunzip lossy registry dir pid f_read o oc init text) (or_inv (fun _ _ => True)).
Proof.
  intros Hwf. unfold cache_pull.
  apply (traced_bind _ _ _ _ (or_inv (fun _ _ => True))); [| |by apply or_inv_err].
  { apply traced_lift. intros f Hf. by destruct (map_err _ _). }
  intros reference. eapply (traced_bind _ _ _ _ (or_inv (fun d _ => digest_wf d))); [| |by apply or_inv_err].
  - eapply traced_weaken; [by apply fetch_spec| |done]. by intros f [? _].
  - intros d. eapply traced_weaken; [by apply remember_spec| |done]. by intros f [? _].
Qed.
End laws.

(** C28: the image cache survives being killed anywhere: if its directory was
    whole, then in every state a pull or a removal takes it through, and in
    the one it leaves, failed or not, every rootfs under an image's name is
    the whole output of a build of a manifest the registry gave for that
    digest, and has beside it a whole record of such a build: no listed image
    is half-made, and no rootfs is left that [list] and [remove] don't see. *)
Theorem cache_is_always_whole archive gunzip lossy registry dir pid next files :
  registry_digests_wf registry -> cache_inv archive gunzip lossy registry files ->
  let inv := cache_inv archive gunzip lossy registry in
  (forall f_read o oc init text,
    let '(t, s, _) := cache_pull archive gunzip lossy registry dir pid f_read o oc init text (mkCacheState files next) in
    Forall inv (t ++ [ca_files s])) /\
  (forall f f_read f_remove whole image,
    let '(t, s, _) := cache_remove dir f f_read f_remove whole image (mkCacheState files next) in
    Forall inv (t ++ [ca_files s])).
Proof.
  intros Hwf Hi inv. split.
  - intros f_read o oc init text.
    pose proof (cache_pull_spec archive gunzip lossy registry dir pid f_read o oc init text Hwf) as H.
    specialize (H (mkCacheState files next) Hi). destruct (cache_pull _ _ _ _ _ _ _ _ _ _ _ _) as [[t s] r].
    destruct H as [Ht [Hs _]]. apply Forall_app. split; [done|]. by apply Forall_singleton.
  - intros f f_read f_remove whole image.
    pose proof (cache_remove_spec archive gunzip lossy registry dir f f_read f_remove whole image (mkCacheState files next) Hi) as H.
    destruct (cache_remove _ _ _ _ _ _ _) as [[t s] r]. destruct H as [Ht [Hs _]]. apply Forall_app. split; [done|]. by apply Forall_singleton.
Qed.

(** A registry with one image of no layers. *)
Definition ex_digest : string := "sha256:abcd1234".
Definition ex_registry : Registry := mkRegistry
  (fun text => Ok (mkReference "docker.io" "library/nginx" (Some "alpine") None "docker.io/library/nginx:alpine" text))
  (fun r _ => r) (fun _ => Ok (MImage (mkImageManifest (mkDescriptor "c" "json") []), ex_digest)) (fun _ => None)
  (fun _ _ => Ok "{}") (fun _ => Ok (mkConfigFile "linux" "amd64" None)).
Definition ex_build : BuildOutcome :=
  mkBuildOutcome (Ok "mke2fs 1.47.2 (1-Jan-2025)") None (fun _ => None) (fun _ => None) None None None (Ok None).
Definition ex_pull : PullOutcome :=
  mkPullOutcome None None None (fun _ => None) None (fun _ => (None, None, None)) None ex_build (None, None) None.
Definition no_fault : string -> fault := fun _ => None.
Definition ex_outcome : CacheOutcome := mkCacheOutcome None no_fault (fun _ => (None, None)) no_fault.
Definition ex_pulled : list Files * CacheState * result string CachedImage :=
  cache_pull (fun _ => Ok []) Ok id ex_registry "/c" 7 no_fault ex_pull ex_outcome "" "nginx:alpine" (mkCacheState ∅ 0).

Lemma ex_registry_wf : registry_digests_wf ex_registry.
Proof. split; [|done]. intros r m d [= _ <-]. by exists "abcd1234". Qed.
Lemma cache_is_always_whole_witness :
  Forall (cache_inv (fun _ => Ok []) Ok id ex_registry) (ex_pulled.1.1 ++ [ca_files ex_pulled.1.2]) /\
  (ci_references <$> ex_pulled.2) = Ok ["docker.io/library/nginx:alpine"].
Proof.
  split; [|vm_compute; reflexivity].
  exact (proj1 (cache_is_always_whole (fun _ => Ok []) Ok id ex_registry "/c" 7 0 ∅ ex_registry_wf
    (cache_inv_empty _ _ _ _)) no_fault ex_pull ex_outcome "" "nginx:alpine").
Defined.

(** ** A reference names one image *)

Section remember.
Context (dir : string) (pid : N).
Definition view (files : Files) (d : string) : option CachedImage := cached dir no_fault files d.
Definition retargeted (reference digest : string) (i : CachedImage) : CachedImage :=
  set_references (retarget reference digest i) i.

Lemma view_some files d i :
  view files d = Some i <-> exists record item,
    files !! cache_path d "json" = Some (IRecord record) /\ files !! cache_path d "ext4" = Some item /\
    is_file_item item = true /\
    i = mkCachedImage d (dir +:+ "/" +:+ cache_path d "ext4") (ir_config record) (ir_references record).
Proof.
  unfold view, cached, no_fault. split.
  - destruct (files !! cache_path d "json") as [[record| | |]|]; try done.
    destruct (files !! cache_path d "ext4") as [item|]; [|done]. destruct (is_file_item item) eqn:Hf; [|done].
    intros [= <-]. by exists record, item.
  - by intros (record & item & -> & -> & -> & ->).
Qed.
Lemma view_same files files' d :
  (forall ext, str_contains "." ext = false -> files' !! cache_path d ext = files !! cache_path d ext) ->
  view files' d = view files d.
Proof. intros H. unfold view, cached. by rewrite !H. Qed.

Lemma write_record_run image s :
  digest_wf (ci_digest image) ->
  exists t s', write_record dir pid (None, None) image s = (t, s', Ok tt) /\
  forall d ext, digest_wf d -> str_contains "." ext = false ->
    ca_files s' !! cache_path d ext =
      if bool_decide (d = ci_digest image /\ ext = "json")
      then Some (IRecord (mkImageRecord (ci_references image) (ci_config image)))
      else ca_files s !! cache_path d ext.
Proof.
  intros Hd. destruct s as [files next]. unfold write_record, with_context, fs_write, fs_rename.
  unfold mbind, trace_bind, unique, get_files, file_step. simpl. rewrite lookup_insert_eq. do 2 eexists.
  split; [reflexivity|]. simpl. intros d ext Hwf He. set (partial := cache_path _ _ +:+ _).
  assert (Hs : side_name partial) by (left; exists (ci_digest image); eexists; split_and!; [done| |done]; by eexists _, _).
  destruct (decide (d = ci_digest image /\ ext = "json")) as [[-> ->]|Hne].
  - rewrite bool_decide_true by done. apply lookup_insert_eq.
  - rewrite bool_decide_false by done. rewrite lookup_insert_ne.
    + rewrite lookup_delete_ne by by apply side_not_path. rewrite !lookup_insert_ne by by apply side_not_path. done.
    + intros Heq. apply cache_path_inj in Heq as [? ?]; [|done..]. by apply Hne.
Qed.

Lemma retargeted_same reference digest i : needs_write reference digest i = false -> retargeted reference digest i = i.
Proof.
  unfold needs_write, retargeted, retarget. intros [Hl Hd]%orb_false_iff. rewrite Hd in *.
  apply negb_false_iff, bool_decide_eq_true in Hl. destruct i as [d r c refs]. unfold set_references. simpl in *. f_equal.
  clear -Hl. induction refs as [|x refs IH]; [done|]. rewrite filter_cons in Hl |- *. destruct (decide (x <> reference)) as [Hx|Hx].
  - simpl in Hl. f_equal. apply IH. lia.
  - pose proof (length_filter (fun r => r <> reference) refs). simpl in Hl. lia.
Qed.

Lemma remember_each_run reference digest images s :
  NoDup (ci_digest <$> images) ->
  Forall (fun i => digest_wf (ci_digest i) /\ view (ca_files s) (ci_digest i) = Some i) images ->
  exists t s', remember_each dir pid (fun _ => (None, None)) reference digest images s = (t, s', Ok tt) /\
  forall d, digest_wf d -> view (ca_files s') d =
    if bool_decide (d ∈ ci_digest <$> images) then retargeted reference digest <$> view (ca_files s) d
    else view (ca_files s) d.
Proof.
  revert s. induction images as [|i images IH]; intros s Hnd Hall; [by eexists _, _|].
  rewrite fmap_cons, NoDup_cons in Hnd. destruct Hnd as [Hi Hnd]. apply Forall_cons in Hall as [[Hd Hv] Hall].
  assert (Hw : exists t s1, (if needs_write reference digest i
      then write_record dir pid (None, None) (retargeted reference digest i) else mret tt) s = (t, s1, Ok tt) /\
      view (ca_files s1) (ci_digest i) = Some (retargeted reference digest i) /\
      forall d, digest_wf d -> d <> ci_digest i -> view (ca_files s1) d = view (ca_files s) d).
  { destruct (needs_write reference digest i) eqn:Hn.
    - destruct (write_record_run (retargeted reference digest i) s Hd) as (t & s1 & -> & Hf). exists t, s1.
      split_and!; [done| |].
      + apply view_some in Hv as (record & item & _ & He & Hfile & Heq). apply view_some.
        exists (mkImageRecord (retarget reference digest i) (ci_config i)), item. split_and!; [| |done|].
        * rewrite Hf by done. by rewrite bool_decide_true.
        * rewrite Hf by done. rewrite bool_decide_false by by intros [_ ?]. done.
        * unfold retargeted, set_references. simpl. f_equal. apply (f_equal ci_rootfs) in Heq. exact Heq.
      + intros d Hwf Hne. apply view_same. intros ext Hext. rewrite Hf by done. by rewrite bool_decide_false by naive_solver.
    - exists [], s. split_and!; [done| |done]. by rewrite retargeted_same. }
  destruct Hw as (t & s1 & Hrun & Hvi & Hvo).
  destruct (IH s1 Hnd) as (t' & s2 & Hrun' & Hv').
  { apply Forall_forall. intros j Hj. rewrite Forall_forall in Hall. destruct (Hall j Hj) as [Hdj Hvj].
    split; [done|]. rewrite Hvo; [done..|]. intros Heq. apply Hi. rewrite <-Heq. by apply list_elem_of_fmap_2. }
  eexists _, s2. split.
  { simpl. unfold mbind, trace_bind. unfold retargeted in Hrun. rewrite Hrun, Hrun'. reflexivity. }
  intros d Hwf. rewrite Hv' by done. destruct (decide (d = ci_digest i)) as [->|Hne].
  - rewrite bool_decide_false by done. rewrite bool_decide_true by by left. by rewrite Hvi, Hv.
  - rewrite Hvo by done. rewrite fmap_cons. destruct (decide (d ∈ ci_digest <$> images)) as [Hin|Hin].
    + rewrite !bool_decide_true; [done|by right|done].
    + rewrite !bool_decide_false; [done| |done]. by intros [?|?]%elem_of_cons.
Qed.
End remember.

Lemma retargeted_names reference digest i :
  reference ∈ ci_references (retargeted reference digest i) <-> ci_digest i = digest.
Proof.
  unfold retargeted, retarget, set_references. simpl. destruct (decide (ci_digest i = digest)) as [Hd|Hd].
  - rewrite bool_decide_true by done. rewrite merge_sort_Permutation, elem_of_app, list_elem_of_singleton. naive_solver.
  - rewrite bool_decide_false by done. rewrite list_elem_of_filter. naive_solver.
Qed.

(** a reference names one image: when nothing fails, recording that
    [reference] names the cached image [digest] succeeds and returns that
    image, leaves every other fact of every image as it was, and afterwards
    the reference is among an image's references exactly when the image is
    the one with that digest. *)
Theorem reference_names_one_image archive gunzip lossy registry dir pid reference digest files next :
  cache_inv archive gunzip lossy registry files -> digest_wf digest -> is_Some (view dir files digest) ->
  exists t s image,
    remember dir pid ex_outcome reference digest (mkCacheState files next) = (t, s, Ok image) /\
    view dir (ca_files s) digest = Some image /\
    forall d, digest_wf d ->
      view dir (ca_files s) d = retargeted reference digest <$> view dir files d /\
      forall i, view dir (ca_files s) d = Some i -> reference ∈ ci_references i <-> d = digest.
Proof.
  intros Hi Hd [i0 Hv]. pose (images := merge_sort image_le (omap (listed dir no_fault files) (keys_of files))).
  assert (Hl : cache_list dir None no_fault files = Ok images) by done.
  destruct (cache_list_in archive gunzip lossy registry dir no_fault files images Hl Hi) as [Hnd Hin].
  destruct (remember_each_run dir pid reference digest images (mkCacheState files next) Hnd) as (t & s & Hrun & Hview).
  { apply Forall_forall. intros i [Hw Hc]%Hin. done. }
  assert (Hall : forall d, digest_wf d -> view dir (ca_files s) d = retargeted reference digest <$> view dir files d).
  { intros d Hw. rewrite Hview by done. simpl. destruct (view dir files d) as [i|] eqn:Hvd; [|by destruct (bool_decide _)].
    rewrite bool_decide_true; [done|]. apply list_elem_of_fmap. exists i.
    assert (ci_digest i = d) by (by apply view_some in Hvd as (? & ? & _ & _ & _ & ->)). split; [done|].
    apply Hin. by subst. }
  exists t, s, (retargeted reference digest i0). split_and!.
  - unfold remember. unfold mbind, trace_bind, get_files, lift. cbn [ca_files co_list co_read co_record co_reread ex_outcome].
    rewrite Hl. cbn [app]. rewrite Hrun. change (cached dir no_fault (ca_files s) digest) with (view dir (ca_files s) digest).
    rewrite Hall, Hv by done. simpl. by rewrite app_nil_r.
  - by rewrite Hall, Hv.
  - intros d Hw. split; [by apply Hall|]. intros i. rewrite Hall by done. intros (j & Hj & ->)%fmap_Some_1.
    rewrite retargeted_names. by apply view_some in Hj as (? & ? & _ & _ & _ & ->).
Qed.

(** Pulled once as [nginx:alpine], then named [nginx:latest]. *)
Lemma ex_pulled_whole : cache_inv (fun _ => Ok []) Ok id ex_registry (ca_files ex_pulled.1.2).
Proof.
  pose proof (cache_pull_spec (fun _ => Ok []) Ok id ex_registry "/c" 7 no_fault ex_pull ex_outcome "" "nginx:alpine"
    ex_registry_wf (mkCacheState ∅ 0) (cache_inv_empty _ _ _ _)) as H.
  fold ex_pulled in H. destruct ex_pulled as [[t s] r]. by destruct H as [_ [H _]].
Qed.
Lemma reference_names_one_image_witness :
  exists t s image,
    remember "/c" 7 ex_outcome "docker.io/library/nginx:latest" ex_digest (mkCacheState (ca_files ex_pulled.1.2) 2)
      = (t, s, Ok image) /\
    "docker.io/library/nginx:latest" ∈ ci_references image.
Proof.
  assert (Hd : digest_wf ex_digest) by (exists "abcd1234"; split; reflexivity).
  destruct (reference_names_one_image (fun _ => Ok []) Ok id ex_registry "/c" 7 "docker.io/library/nginx:latest" ex_digest
    (ca_files ex_pulled.1.2) 2 ex_pulled_whole Hd) as (t & s & image & Hr & Hv & Hall).
  { eexists. vm_compute. reflexivity. }
  exists t, s, image. split; [exact Hr|]. apply (proj2 (Hall ex_digest Hd) image Hv). reflexivity.
Defined.
