(* ===== verification/Dashboard.v ===== *)
(** * The terminal dashboard ([crates/cirro-tui])

    [lib.rs]: numbers as text and the [--once] snapshot; [dashboard.rs]: the
    state [cirro top] keeps and what each key does to it, and the text it
    shows. Which widget shows it where is [Screen]'s. *)

From S2P Require Import Prelude RustStr Proto Subnet.
From Corelib Require Import SpecFloat.

(** ** Numbers as text *)

(** [{:.p}] of an [f64]: its exact value, rounded half to even. *)
Definition round_div (n d : Z) : Z :=
  let q := (n / d)%Z in
  match (2 * (n mod d) ?= d)%Z with
  | Lt => q
  | Gt => q + 1
  | Eq => if Z.even q then q else q + 1
  end%Z.
Definition scaled (p : nat) (m : positive) (e : Z) : Z :=
  let n := (Zpos m * 10 ^ Z.of_nat p)%Z in
  if (0 <=? e)%Z then (n * 2 ^ e)%Z else round_div n (2 ^ (- e)).
Fixpoint str_repeat (c : ascii) (n : nat) : string :=
  match n with O => "" | S n => String c (str_repeat c n) end.
Definition fixed_point (p : nat) (v : N) : string :=
  match p with
  | O => dec v
  | _ =>
      let unit := (10 ^ N.of_nat p)%N in
      let frac := dec (v mod unit) in
      dec (v / unit) +:+ "." +:+ str_repeat "0" (p - String.length frac) +:+ frac
  end.
Definition fmt_fixed (p : nat) (f : f64) : string :=
  match f with
  | S754_nan => "NaN"
  | S754_infinity s => if s then "-inf" else "inf"
  | S754_zero s => (if s then "-" else "") +:+ fixed_point p 0
  | S754_finite s m e => (if s then "-" else "") +:+ fixed_point p (Z.to_N (scaled p m e))
  end.

Definition f64_of (n : N) : f64 := binary_normalize 53 1024 (Z.of_N n) 0 false.
(** [total_cmp]: zeros by sign, NaN above everything. *)
Definition f64_rank (f : f64) : Z :=
  match f with
  | S754_nan => 3
  | S754_infinity s => if s then -2 else 2
  | _ => 0
  end%Z.
Definition total_cmp (a b : f64) : comparison :=
  match (f64_rank a ?= f64_rank b)%Z with
  | Eq => match SFcompare a b with
          | Some Eq => match a, b with
                       | S754_zero true, S754_zero false => Lt
                       | S754_zero false, S754_zero true => Gt
                       | _, _ => Eq
                       end
          | Some c => c
          | None => Eq
          end
  | c => c
  end.

(** [duration] and [bytes] of lib.rs. *)
Definition duration (secs : N) : string :=
  if (secs <? 60)%N then dec secs +:+ "s"
  else if (secs <? 3600)%N then dec (secs / 60) +:+ "m"
  else if (secs <? 86400)%N then dec (secs / 3600) +:+ "h"
  else dec (secs / 86400) +:+ "d".

Definition UNITS : list string := ["B"; "K"; "M"; "G"; "T"].
(** The loop: at most one step per unit. *)
Fixpoint scale_units (fuel : nat) (value : f64) (unit : nat) : f64 * nat :=
  match fuel with
  | O => (value, unit)
  | S fuel =>
      if SFleb (f64_of 1024) value && (unit <? length UNITS - 1)
      then scale_units fuel (SFdiv 53 1024 value (f64_of 1024)) (S unit)
      else (value, unit)
  end.
Definition bytes (n : N) : string :=
  let '(value, unit) := scale_units (length UNITS) (f64_of n) 0 in
  let name := default "" (UNITS !! unit) in
  if (unit =? 0) || SFleb (f64_of 10) value then fmt_fixed 0 value +:+ name else fmt_fixed 1 value +:+ name.
Definition per_sec (n : N) : string := bytes n +:+ "/s".

Definition rate_cells (rates : option VmRates) : list string :=
  match rates with
  | Some r => [fmt_fixed 1 (vr_cpu_percent r) +:+ "%"; bytes (vr_memory_bytes r); per_sec (vr_rx_per_sec r);
               per_sec (vr_tx_per_sec r); per_sec (vr_io_read_per_sec r); per_sec (vr_io_write_per_sec r)]
  | None => ["-"; "-"; "-"; "-"; "-"; "-"]
  end.

(** [{:<n}] and [{:>n}]: padding counts characters, which are bytes for
    what is shown here. *)
Definition pad_right (n : nat) (s : string) : string := s +:+ str_repeat " " (n - String.length s).
Definition pad_left (n : nat) (s : string) : string := str_repeat " " (n - String.length s) +:+ s.

(** [row] and [snapshot]. *)
Definition row (name : string) (cells : list string) : string :=
  pad_right 32 name +:+
  foldr String.append "" (zip_with (fun cell width => " " +:+ pad_left width cell) cells [7; 7; 9; 9; 9; 9]%nat) +:+ nl.
Definition snapshot (stats : Stats) (machine_apps : list MachineAppInfo) : string :=
  match last (ss_node stats) with
  | Some node =>
      "NODE  CPU " +:+ fmt_fixed 1 (nr_cpu_percent node) +:+ "%  MEM " +:+ bytes (nr_memory_used_bytes node)
      +:+ "/" +:+ bytes (nr_memory_total_bytes node) +:+ "  NET " +:+ bytes (nr_rx_per_sec node)
      +:+ "/s in, " +:+ bytes (nr_tx_per_sec node) +:+ "/s out" +:+ nl
  | None => "NODE  (sampling)" +:+ nl
  end
  +:+ row "NAME" ["CPU"; "MEM"; "NET IN"; "NET OUT"; "DISK R"; "DISK W"]
  +:+ foldr String.append "" ((fun vm => row (vi_name (vs_info vm)) (rate_cells (last (vs_history vm)))) <$> ss_vms stats)
  +:+ (if bool_decide (machine_apps = []) then "" else
         pad_right 32 "MACHINE-BACKED APP" +:+ " " +:+ pad_right 24 "MACHINE" +:+ " STATUS" +:+ nl)
  +:+ foldr String.append "" ((fun app =>
        pad_right 32 (mai_name app) +:+ " "
        +:+ pad_right 24 (mai_machine app +:+ ":" +:+ dec (rt_port (mai_route app))) +:+ " "
        +:+ status_as_str (mai_status app) +:+ nl) <$> machine_apps).

(** ** dashboard.rs *)

Inductive Action := ANone | AQuit | AShowLog (name : string) | AStop (name : string).
Inductive Sort := SCpu | SMemory | SName.
Definition sort_next (s : Sort) : Sort := match s with SCpu => SMemory | SMemory => SName | SName => SCpu end.
Inductive KeyCode := KChar (c : ascii) | KEsc | KUp | KDown | KTab | KOtherKey.

Record Dashboard := mkDashboard {
  da_stats : Stats;
  da_machine_apps : list MachineAppInfo;
  da_selected : option string;
  da_sort : Sort;
  da_log : option (string * string);
  da_confirming_stop : option string;
  da_status : option string;
}.
Definition dashboard_default : Dashboard := mkDashboard (mkStats 0 [] []) [] None SCpu None None None.
Definition set_da_stats (x : Stats) (d : Dashboard) : Dashboard :=
  mkDashboard x (da_machine_apps d) (da_selected d) (da_sort d) (da_log d) (da_confirming_stop d) (da_status d).
Definition set_da_selected (x : option string) (d : Dashboard) : Dashboard :=
  mkDashboard (da_stats d) (da_machine_apps d) x (da_sort d) (da_log d) (da_confirming_stop d) (da_status d).
Definition set_da_sort (x : Sort) (d : Dashboard) : Dashboard :=
  mkDashboard (da_stats d) (da_machine_apps d) (da_selected d) x (da_log d) (da_confirming_stop d) (da_status d).
Definition set_da_log (x : option (string * string)) (d : Dashboard) : Dashboard :=
  mkDashboard (da_stats d) (da_machine_apps d) (da_selected d) (da_sort d) x (da_confirming_stop d) (da_status d).
Definition set_da_confirming (x : option string) (d : Dashboard) : Dashboard :=
  mkDashboard (da_stats d) (da_machine_apps d) (da_selected d) (da_sort d) (da_log d) x (da_status d).
Definition set_da_status (x : option string) (d : Dashboard) : Dashboard :=
  mkDashboard (da_stats d) (da_machine_apps d) (da_selected d) (da_sort d) (da_log d) (da_confirming_stop d) x.

(** [slice::sort_by], which is stable; [le] is a comparison that isn't
    [Greater]. *)
Fixpoint insert_by {A} (le : A -> A -> bool) (x : A) (l : list A) : list A :=
  match l with [] => [x] | y :: l' => if le x y then x :: l else y :: insert_by le x l' end.
Definition sort_by {A} (le : A -> A -> bool) (l : list A) : list A := foldr (insert_by le) [] l.

Definition default_rates : VmRates := mkVmRates (S754_zero false) 0 0 0 0 0.
Definition latest (vm : VmStats) : VmRates := default default_rates (last (vs_history vm)).
Definition vm_le (s : Sort) (a b : VmStats) : bool :=
  match s with
  | SCpu => match total_cmp (vr_cpu_percent (latest b)) (vr_cpu_percent (latest a)) with Gt => false | _ => true end
  | SMemory => (vr_memory_bytes (latest b) <=? vr_memory_bytes (latest a))%N
  | SName => match String.compare (vi_name (vs_info a)) (vi_name (vs_info b)) with Gt => false | _ => true end
  end.
Definition vm_names (d : Dashboard) : list string := (fun vm => vi_name (vs_info vm)) <$> ss_vms (da_stats d).
Definition sort_vms (d : Dashboard) : Dashboard :=
  let s := da_stats d in set_da_stats (mkStats (ss_now s) (ss_node s) (sort_by (vm_le (da_sort d)) (ss_vms s))) d.

(** [selected_row] and [selected]. *)
Fixpoint position {A} (p : A -> bool) (l : list A) : option nat :=
  match l with [] => None | x :: l => if p x then Some 0 else S <$> position p l end.
Definition selected_row (d : Dashboard) : option nat :=
  name ← da_selected d; position (fun vm => bool_decide (vi_name (vs_info vm) = name)) (ss_vms (da_stats d)).
Definition selected (d : Dashboard) : option VmStats := r ← selected_row d; ss_vms (da_stats d) !! r.

Definition set_stats (stats : Stats) (d : Dashboard) : Dashboard :=
  let d := sort_vms (set_da_stats stats d) in
  match selected_row d with
  | Some _ => d
  | None => set_da_selected ((fun vm => vi_name (vs_info vm)) <$> head (ss_vms (da_stats d))) d
  end.
Definition set_machine_apps (apps : list MachineAppInfo) (d : Dashboard) : Dashboard :=
  mkDashboard (da_stats d) apps (da_selected d) (da_sort d) (da_log d) (da_confirming_stop d) (da_status d).
Definition set_log (name log : string) (d : Dashboard) : Dashboard := set_da_log (Some (name, log)) d.
Definition set_status (message : string) (d : Dashboard) : Dashboard := set_da_status (Some message) d.
Definition clear_status (d : Dashboard) : Dashboard := set_da_status None d.

(** [move_selection], by one row down or up. *)
Definition move_selection (down : bool) (d : Dashboard) : Dashboard :=
  match length (ss_vms (da_stats d)) with
  | O => d
  | S last_row =>
      let row := default 0 (selected_row d) in
      let row := Nat.min (if down then S row else pred row) last_row in
      set_da_selected ((fun vm => vi_name (vs_info vm)) <$> (ss_vms (da_stats d) !! row)) d
  end.

(** [Dashboard::key]. *)
Definition key (k : KeyCode) (d : Dashboard) : Dashboard * Action :=
  let d := set_da_status None d in
  match da_confirming_stop d with
  | Some name =>
      (set_da_confirming None d, match k with KChar "y" => AStop name | _ => ANone end)
  | None =>
      let selected := (fun vm => vi_name (vs_info vm)) <$> selected d in
      match k with
      | KChar "q" | KEsc => (d, AQuit)
      | KChar "l" =>
          match da_log d, selected with
          | Some (shown, _), Some name =>
              if bool_decide (shown = name) then (set_da_log None d, ANone) else (d, AShowLog name)
          | None, Some name => (d, AShowLog name)
          | _, None => (d, ANone)
          end
      | KChar "k" => (set_da_confirming selected d, ANone)
      | KChar "s" | KChar "p" | KChar "w" => (set_status "shell, park and wake are not yet implemented" d, ANone)
      | KDown => (move_selection true d, ANone)
      | KUp => (move_selection false d, ANone)
      | KTab => (sort_vms (set_da_sort (sort_next (da_sort d)) d), ANone)
      | _ => (d, ANone)
      end
  end.

(** ** What [draw] shows *)

Definition HELP : string := " q quit  ↑↓ select  tab sort  l log  k stop  s shell  p park  w wake".
Definition footer (d : Dashboard) : string :=
  match da_confirming_stop d, da_status d with
  | Some name, _ => " stop " +:+ name +:+ "? y/n"
  | None, Some status => " " +:+ status
  | None, None => HELP
  end.
(** [draw_header]'s summary, and its histories. *)
Definition node_summary (d : Dashboard) : string :=
  match last (ss_node (da_stats d)) with
  | Some node =>
      "CPU " +:+ fmt_fixed 1 (nr_cpu_percent node) +:+ "%  MEM " +:+ bytes (nr_memory_used_bytes node) +:+ "/"
      +:+ bytes (nr_memory_total_bytes node) +:+ nl +:+ "NET " +:+ per_sec (nr_rx_per_sec node) +:+ " in, "
      +:+ per_sec (nr_tx_per_sec node) +:+ " out"
  | None => "sampling…"
  end.
(** [f64::round] as a [u64]: half away from zero, saturating. *)
Definition round_u64 (f : f64) : N :=
  match f with
  | S754_finite false m e =>
      let v := if (0 <=? e)%Z then (Zpos m * 2 ^ e)%Z else ((2 * Zpos m + 2 ^ (- e)) / (2 * 2 ^ (- e)))%Z in
      N.min (Z.to_N v) u64_max
  | S754_infinity false => u64_max
  | _ => 0%N
  end.
Definition cpu_history (d : Dashboard) : list N := (fun n => round_u64 (nr_cpu_percent n)) <$> ss_node (da_stats d).
Definition net_history (d : Dashboard) : list N :=
  (fun n => wrap64 (nr_rx_per_sec n + nr_tx_per_sec n)) <$> ss_node (da_stats d).
(** The samples [draw_sparkline] shows in [fit] columns. *)
Definition newest {A} (fit : nat) (data : list A) : list A := drop (length data - fit) data.

(** [draw_table]'s header and rows, and [draw_machine_apps]'. *)
Definition sort_eqb (a b : Sort) : bool :=
  match a, b with SCpu, SCpu | SMemory, SMemory | SName, SName => true | _, _ => false end.
Definition marked (d : Dashboard) (label : string) (s : Sort) (mark : string) : string :=
  if sort_eqb (da_sort d) s then label +:+ mark else label.
Definition table_header (d : Dashboard) : list string :=
  [marked d "NAME" SName "▲"; "VM ADDRESS"; "VCPU"; "UP"; marked d "CPU" SCpu "▼"; marked d "MEM" SMemory "▼";
   "NET IN"; "NET OUT"; "DISK R"; "DISK W"].
Definition table_row (d : Dashboard) (vm : VmStats) : list string :=
  let info := vs_info vm in
  [vi_name info; from_option ipv4_display "-" (vi_vm_address info); dec (vi_vcpus info);
   duration (ss_now (da_stats d) - vi_started_at info)] ++ rate_cells (last (vs_history vm)).
Definition table_rows (d : Dashboard) : list (list string) := table_row d <$> ss_vms (da_stats d).
Definition machine_app_rows (d : Dashboard) : list (list string) :=
  (fun app => [mai_name app; mai_machine app +:+ ":" +:+ dec (rt_port (mai_route app)); status_as_str (mai_status app)])
    <$> da_machine_apps d.
(** [draw_detail]'s lines, in a pane [height] lines high. *)
Definition detail_lines (d : Dashboard) (height : nat) : list string :=
  match selected d with
  | None => ["no VMs running"]
  | Some vm =>
      let info := vs_info vm in
      let default_lines :=
        [vi_name info; dec (vi_vcpus info) +:+ " vCPU, " +:+ bytes (wrap64 (vi_mem_mib info * 1048576)) +:+ " memory"] in
      match da_log d with
      | Some (name, log) => if bool_decide (name = vi_name info) then newest height (str_lines log) else default_lines
      | None => default_lines
      end
  end.

(** ** The selection *)

Lemma insert_by_perm {A} (le : A -> A -> bool) x l : insert_by le x l ≡ₚ x :: l.
Proof.
  induction l as [|y l IH]; [done|]. simpl. destruct (le x y); [done|]. rewrite IH. apply Permutation_swap.
Qed.
Lemma sort_by_perm {A} (le : A -> A -> bool) l : sort_by le l ≡ₚ l.
Proof. induction l as [|x l IH]; [done|]. simpl. by rewrite insert_by_perm, IH. Qed.
Lemma vm_names_sort d : vm_names (sort_vms d) ≡ₚ vm_names d.
Proof. unfold vm_names, sort_vms. simpl. apply fmap_Permutation, sort_by_perm. Qed.

Lemma position_none {A} (p : A -> bool) l : position p l = None <-> Forall (fun x => p x = false) l.
Proof.
  induction l as [|x l IH]; [by split|]. simpl. rewrite Forall_cons. destruct (p x); [naive_solver|].
  destruct (position p l); naive_solver.
Qed.
Lemma position_some {A} (p : A -> bool) l i : position p l = Some i -> exists x, l !! i = Some x /\ p x = true.
Proof.
  revert i. induction l as [|x l IH]; [done|]. intros i. simpl. destruct (p x) eqn:Hx; [intros [= <-]; by exists x|].
  intros (j & Hj & ->)%fmap_Some_1. by apply IH.
Qed.
Lemma selected_row_some d : is_Some (selected_row d) <-> exists n, da_selected d = Some n /\ n ∈ vm_names d.
Proof.
  unfold selected_row, vm_names. destruct (da_selected d) as [n|]; simpl; [|split; [by intros [? ?]|naive_solver]].
  destruct (position _ _) as [i|] eqn:Hp.
  - apply position_some in Hp as (vm & Hi & Hn%bool_decide_eq_true). split; [|by eexists]. intros _. exists n.
    split; [done|]. apply list_elem_of_fmap. exists vm. split; [done|]. by eapply list_elem_of_lookup_2.
  - apply position_none in Hp. split; [by intros [? ?]|]. intros (m & [= <-] & (vm & -> & Hin)%list_elem_of_fmap).
    rewrite Forall_forall in Hp. specialize (Hp vm Hin). by rewrite bool_decide_true in Hp.
Qed.
Lemma selected_name d vm : selected d = Some vm -> da_selected d = Some (vi_name (vs_info vm)) /\ vi_name (vs_info vm) ∈ vm_names d.
Proof.
  unfold selected, selected_row. intros (r & Hr & Hvm)%bind_Some. apply bind_Some in Hr as (n & Hn & Hp).
  apply position_some in Hp as (vm' & Hi & Heq%bool_decide_eq_true). rewrite Hn. simplify_eq. split; [done|].
  apply list_elem_of_fmap. exists vm'. split; [done|]. by eapply list_elem_of_lookup_2.
Qed.

(** Whenever a VM is shown, one of them is selected. *)
Definition selection_ok (d : Dashboard) : Prop :=
  vm_names d <> [] -> exists n, da_selected d = Some n /\ n ∈ vm_names d.

Lemma selection_sort d : selection_ok d -> selection_ok (sort_vms d).
Proof.
  intros H Hne. destruct H as (n & Hs & Hn).
  { intros Hnil. apply Hne. pose proof (vm_names_sort d) as Hp. rewrite Hnil in Hp. by apply Permutation_nil_r in Hp. }
  exists n. split; [done|]. by rewrite vm_names_sort.
Qed.
Lemma selection_move down d : selection_ok d -> selection_ok (move_selection down d).
Proof.
  intros H. unfold move_selection. destruct (length (ss_vms (da_stats d))) as [|l] eqn:Hl; [done|].
  intros _. simpl. set (i := Nat.min _ l).
  destruct (lookup_lt_is_Some_2 (ss_vms (da_stats d)) i) as [vm Hvm]; [unfold i; lia|].
  rewrite Hvm. exists (vi_name (vs_info vm)). split; [done|]. apply list_elem_of_fmap. exists vm.
  split; [done|]. by eapply list_elem_of_lookup_2.
Qed.
Lemma set_stats_selected stats d :
  selection_ok (set_stats stats d) /\
  forall n, da_selected d = Some n -> n ∈ (fun vm => vi_name (vs_info vm)) <$> ss_vms stats ->
    da_selected (set_stats stats d) = Some n.
Proof.
  unfold set_stats. set (d' := sort_vms (set_da_stats stats d)).
  assert (Hp : vm_names d' ≡ₚ (fun vm => vi_name (vs_info vm)) <$> ss_vms stats) by apply (vm_names_sort (set_da_stats stats d)).
  destruct (selected_row d') as [r|] eqn:Hr.
  - split; [|done]. intros _. apply selected_row_some. by eexists.
  - split.
    + intros Hne. unfold vm_names in Hne |- *. cbn [da_stats set_da_selected da_selected] in Hne |- *.
      clearbody d'. destruct (ss_vms (da_stats d')) as [|vm vms]; [done|].
      exists (vi_name (vs_info vm)). split; [done|]. by left.
    + intros n Hn Hin. assert (is_Some (selected_row d')) as [? ?]; [|congruence].
      apply selected_row_some. exists n. split; [done|]. by rewrite Hp.
Qed.

(** ** Runs of the dashboard *)

(** What [top_loop] does to it: refreshes, logs, messages, and keys. *)
Inductive Event :=
| EStats (stats : Stats) | EApps (apps : list MachineAppInfo) | ELog (name log : string)
| EStatus (message : string) | EClearStatus | EKey (k : KeyCode).
Definition on_event (d : Dashboard) (e : Event) : Dashboard :=
  match e with
  | EStats stats => set_stats stats d
  | EApps apps => set_machine_apps apps d
  | ELog name log => set_log name log d
  | EStatus message => set_status message d
  | EClearStatus => clear_status d
  | EKey k => (key k d).1
  end.
Definition run_events (events : list Event) : Dashboard := foldl on_event dashboard_default events.

Ltac key_cases c := destruct c as [[] [] [] [] [] [] [] []]; try done.
Lemma key_selection k d : selection_ok d -> selection_ok (key k d).1.
Proof.
  intros H. unfold key. simpl. destruct (da_confirming_stop d); [done|].
  destruct k as [c| | | | |]; [key_cases c| | | | |]; try done; try by apply selection_move.
  - simpl. destruct (da_log d) as [[shown log]|], (_ <$> selected _); try done. by destruct (bool_decide _).
  - apply selection_sort. done.
Qed.
Lemma run_events_selection events : selection_ok (run_events events).
Proof.
  unfold run_events. assert (H : selection_ok dashboard_default) by by intros []. revert H.
  generalize dashboard_default. induction events as [|e events IH]; intros d H; [done|]. apply IH.
  destruct e; try done; [apply set_stats_selected|by apply key_selection].
Qed.

(** A pending confirmation came from the last key, [k], for the VM then
    selected. *)
Definition is_key (e : Event) : bool := match e with EKey _ => true | _ => false end.
Lemma key_confirming k d n :
  da_confirming_stop (key k d).1 = Some n ->
  k = KChar "k" /\ da_confirming_stop d = None /\ da_selected d = Some n /\ n ∈ vm_names d.
Proof.
  unfold key. simpl. destruct (da_confirming_stop d) eqn:Hc; [done|]. intros H.
  assert (Hk : k = KChar "k" /\ (fun vm => vi_name (vs_info vm)) <$> selected (set_da_status None d) = Some n).
  { destruct k as [c| | | | |]; simpl in H; try congruence.
    - key_cases c; simpl in H; try congruence.
      destruct (da_log d) as [[shown log]|], (_ <$> selected _); simpl in H; try congruence.
      destruct (bool_decide _); simpl in H; congruence.
    - unfold move_selection in H. simpl in H. destruct (length _); simpl in H; congruence.
    - unfold move_selection in H. simpl in H. destruct (length _); simpl in H; congruence. }
  destruct Hk as [-> (vm & Hs & ->)%fmap_Some_1]. apply selected_name in Hs as [? ?]. done.
Qed.
Lemma other_confirming e d : is_key e = false -> da_confirming_stop (on_event d e) = da_confirming_stop d.
Proof.
  destruct e; try done. intros _. simpl. unfold set_stats. by destruct (selected_row _).
Qed.
Lemma run_events_snoc events e : run_events (events ++ [e]) = on_event (run_events events) e.
Proof. unfold run_events. by rewrite foldl_app. Qed.
Lemma confirming_history events n :
  da_confirming_stop (run_events events) = Some n ->
  exists before after, events = before ++ EKey (KChar "k") :: after /\ Forall (fun e => is_key e = false) after /\
    da_confirming_stop (run_events before) = None /\
    da_selected (run_events before) = Some n /\ n ∈ vm_names (run_events before).
Proof.
  induction events as [|e events IH] using rev_ind; [done|]. rewrite run_events_snoc.
  destruct (is_key e) eqn:He.
  - destruct e as [| | | | |k]; try done. intros (-> & Hc & Hs & Hn)%key_confirming. by exists events, [].
  - rewrite other_confirming by done. intros (before & after & -> & Hall & H)%IH.
    exists before, (after ++ [e]). split; [by rewrite <-app_assoc|]. split; [|done]. apply Forall_app. by repeat constructor.
Qed.

(** the dashboard never stops a VM the user did not pick and confirm:
    when a key makes it ask for a stop of [name], that key is [y], and the
    key before it was [k], pressed while [name] was the selected VM and
    shown; refreshes in between change neither. And whatever happens, while
    VMs are shown one of them is selected, and a refresh keeps the selected
    VM selected as long as it is still there. *)
Theorem stop_is_confirmed events k name :
  ((key k (run_events events)).2 = AStop name ->
    k = KChar "y" /\
    exists before after, events = before ++ EKey (KChar "k") :: after /\ Forall (fun e => is_key e = false) after /\
      da_selected (run_events before) = Some name /\ name ∈ vm_names (run_events before)) /\
  selection_ok (run_events events) /\
  (forall stats n, da_selected (run_events events) = Some n ->
    n ∈ (fun vm => vi_name (vs_info vm)) <$> ss_vms stats ->
    da_selected (run_events (events ++ [EStats stats])) = Some n).
Proof.
  split_and!; [|apply run_events_selection|].
  - intros H. assert (Hc : k = KChar "y" /\ da_confirming_stop (run_events events) = Some name).
    { revert H. unfold key. simpl. destruct (da_confirming_stop (run_events events)) as [m|].
      - simpl. destruct k as [c| | | | |]; try done. key_cases c. by intros [= ->].
      - destruct k as [c| | | | |]; try done. key_cases c. simpl.
        destruct (da_log _) as [[shown log]|], (_ <$> selected _); try done. by destruct (bool_decide _). }
    destruct Hc as [-> (before & after & -> & Ha & _ & Hs & Hn)%confirming_history]. split; [done|]. by exists before, after.
  - intros stats n Hs Hn. rewrite run_events_snoc. simpl. by apply set_stats_selected.
Qed.
Definition two_vms : Stats :=
  mkStats 0 [] ((fun n => mkVmStats (mkVmInfo n None 128 1 0 None None) []) <$> ["a"; "b"]).
Lemma stop_is_confirmed_witness :
  (key (KChar "y") (run_events [EStats two_vms; EKey KDown; EKey (KChar "k"); EStats two_vms])).2 = AStop "b" /\
  exists before after, [EStats two_vms; EKey KDown; EKey (KChar "k"); EStats two_vms] =
    before ++ EKey (KChar "k") :: after /\ da_selected (run_events before) = Some "b".
Proof.
  split; [reflexivity|].
  destruct (proj1 (stop_is_confirmed [EStats two_vms; EKey KDown; EKey (KChar "k"); EStats two_vms] (KChar "y") "b") eq_refl)
    as (_ & before & after & He & _ & Hs & _).
  exists before, after. split; [exact He|exact Hs].
Defined.
