(* ===== verification/Screen.v ===== *)
(** * The dashboard's screen ([crates/cirro-tui/src/dashboard.rs], [draw])

    What [draw] renders into a frame: the widgets, in order, each with its
    area. How ratatui splits an area by constraints and how much of one a
    block leaves inside it are parameters; the texts are those of
    [Dashboard]. *)

From S2P Require Import Prelude RustStr Proto Subnet Dashboard.

Record Rect := mkRect { re_x : nat; re_y : nat; re_width : nat; re_height : nat }.
Inductive Constraint := CLength (n : nat) | CMin (n : nat) | CMax (n : nat).
Inductive Borders := BordersAll | BordersLeft.
Record Block := mkBlock { bl_borders : Borders; bl_title : string }.
Inductive Widget :=
| Bordered (block : Block)
| Paragraph (text : list string)
| Table (block : Block) (header : list string) (rows : list (list string)) (widths : list Constraint)
    (highlighted : option nat)
| Sparkline (block : Block) (data : list N) (max : option N).

(** [r] lies inside [r']. *)
Definition inside (r r' : Rect) : Prop :=
  re_x r' <= re_x r /\ re_y r' <= re_y r /\
  re_x r + re_width r <= re_x r' + re_width r' /\ re_y r + re_height r <= re_y r' + re_height r'.
(** What ratatui promises of a layout and of a block. *)
Class Ratatui (vertical horizontal : list Constraint -> Rect -> list Rect) (inner : Block -> Rect -> Rect) : Prop := {
  vertical_length : forall cs r, length (vertical cs r) = length cs;
  vertical_inside : forall cs r, Forall (fun a => inside a r) (vertical cs r);
  horizontal_length : forall cs r, length (horizontal cs r) = length cs;
  horizontal_inside : forall cs r, Forall (fun a => inside a r) (horizontal cs r);
  inner_inside : forall b r, inside (inner b r) r;
}.

Definition u16_max : nat := N.to_nat 65535.
(** Borders and a header row around the Machine-backed Apps. *)
Definition apps_height (d : Dashboard) : nat :=
  match length (da_machine_apps d) with
  | O => 0
  | n => Nat.min u16_max (Nat.min u16_max n + 3)
  end.
Definition memory_history (d : Dashboard) : list N := nr_memory_used_bytes <$> ss_node (da_stats d).
Definition TABLE_WIDTHS : list Constraint :=
  [CMin 12; CLength 15; CLength 4; CLength 5; CLength 7; CLength 6; CLength 8; CLength 8; CLength 8; CLength 8].
Definition APPS_WIDTHS : list Constraint := [CMin 12; CLength 24; CLength 11].

Section draw.
Context (vertical horizontal : list Constraint -> Rect -> list Rect) (inner : Block -> Rect -> Rect).

(** A frame's widgets, last drawn last; [None] is [areas] with another number
    of areas than was asked for, which panics. *)
Definition Frame : Type := list (Rect * Widget).

Definition draw_sparkline (area : Rect) (data : list N) (title : string) (max : option N) : Frame :=
  let block := mkBlock BordersLeft title in
  [(area, Sparkline block (newest (re_width (inner block area)) data) max)].

Definition draw_header (d : Dashboard) (area : Rect) : option Frame :=
  let block := mkBlock BordersAll " Node " in
  match horizontal [CMin 34; CLength 21; CLength 21; CLength 21] (inner block area) with
  | [text; cpu; memory; net] =>
      Some ([(area, Bordered block); (text, Paragraph [node_summary d])]
        ++ draw_sparkline cpu (cpu_history d) " cpu " (Some 100%N)
        ++ draw_sparkline memory (memory_history d) " mem " (nr_memory_total_bytes <$> last (ss_node (da_stats d)))
        ++ draw_sparkline net (net_history d) " net " None)
  | _ => None
  end.
Definition draw_table (d : Dashboard) (area : Rect) : Frame :=
  [(area, Table (mkBlock BordersAll " VMs ") (table_header d) (table_rows d) TABLE_WIDTHS (selected_row d))].
Definition draw_machine_apps (d : Dashboard) (area : Rect) : Frame :=
  if bool_decide (da_machine_apps d = []) then []
  else [(area, Table (mkBlock BordersAll " Machine-backed Apps ") ["NAME"; "MACHINE"; "STATUS"] (machine_app_rows d)
                 APPS_WIDTHS None)].
Definition vm_history (vm : VmStats) : list N := (fun r => round_u64 (vr_cpu_percent r)) <$> vs_history vm.
Definition draw_detail (d : Dashboard) (area : Rect) : option Frame :=
  let block := mkBlock BordersAll " Detail " in
  match selected d with
  | None => Some [(area, Bordered block); (inner block area, Paragraph (detail_lines d 0))]
  | Some vm =>
      match horizontal [CMin 40; CLength 40] (inner block area) with
      | [text; cpu] =>
          Some ([(area, Bordered block); (text, Paragraph (detail_lines d (re_height text)))]
            ++ draw_sparkline cpu (vm_history vm) " cpu " (Some (vi_vcpus (vs_info vm) * 100)%N))
      | _ => None
      end
  end.
Definition draw (d : Dashboard) (frame : Rect) : option Frame :=
  match vertical [CLength 4; CMin 5; CMax (apps_height d); CLength 6; CLength 1] frame with
  | [header; table; apps; detail; help] =>
      h ← draw_header d header;
      t ← draw_detail d detail;
      Some (h ++ draw_table d table ++ draw_machine_apps d apps ++ t ++ [(help, Paragraph [footer d])])
  | _ => None
  end.
End draw.

(** ** Laws *)

Lemma rect_inside_trans a b c : inside a b -> inside b c -> inside a c.
Proof. unfold inside. lia. Qed.
Lemma newest_length {A} fit (data : list A) : length (newest fit data) <= fit.
Proof. unfold newest. rewrite length_drop. lia. Qed.
Lemma newest_suffix {A} fit (data : list A) : newest fit data `suffix_of` data.
Proof. unfold newest. exists (take (length data - fit) data). by rewrite take_drop. Qed.
(** All of it, when it fits. *)
Lemma newest_all {A} fit (data : list A) : length data <= fit -> newest fit data = data.
Proof. intros H. unfold newest. by replace (length data - fit) with 0 by lia. Qed.

Section laws.
Context (vertical horizontal : list Constraint -> Rect -> list Rect) (inner : Block -> Rect -> Rect).
Context {R : Ratatui vertical horizontal inner}.
Local Abbreviation draw := (draw vertical horizontal inner).

Lemma horizontal_four a b c d r : exists x y z t, horizontal [a; b; c; d] r = [x; y; z; t].
Proof.
  pose proof (horizontal_length [a; b; c; d] r) as H.
  destruct (horizontal [a; b; c; d] r) as [|x [|y [|z [|t [|u l]]]]]; simpl in H; try lia. exists x, y, z, t. done.
Qed.
Lemma horizontal_two a b r : exists x y, horizontal [a; b] r = [x; y].
Proof.
  pose proof (horizontal_length [a; b] r) as H.
  destruct (horizontal [a; b] r) as [|x [|y [|z l]]]; simpl in H; try lia. exists x, y. done.
Qed.
Lemma vertical_five a b c d e r : exists x y z t u, vertical [a; b; c; d; e] r = [x; y; z; t; u].
Proof.
  pose proof (vertical_length [a; b; c; d; e] r) as H.
  destruct (vertical [a; b; c; d; e] r) as [|x [|y [|z [|t [|u [|v l]]]]]]; simpl in H; try lia. exists x, y, z, t, u. done.
Qed.

(** A frame is drawn whatever the dashboard holds and however small it is. *)
Lemma draw_is_total d frame : is_Some (draw d frame).
Proof.
  unfold draw. destruct (vertical_five (CLength 4) (CMin 5) (CMax (apps_height d)) (CLength 6) (CLength 1) frame)
    as (x & y & z & t & u & ->).
  unfold draw_header, draw_detail.
  destruct (horizontal_four (CMin 34) (CLength 21) (CLength 21) (CLength 21) (inner (mkBlock BordersAll " Node ") x))
    as (? & ? & ? & ? & ->).
  destruct (selected d); [|by eexists].
  destruct (horizontal_two (CMin 40) (CLength 40) (inner (mkBlock BordersAll " Detail ") t)) as (? & ? & ->). by eexists.
Qed.

Definition drawn_inside (ws : Frame) (r : Rect) : Prop := Forall (fun w => inside w.1 r) ws.
Lemma drawn_inside_trans ws r r' : drawn_inside ws r -> inside r r' -> drawn_inside ws r'.
Proof. intros H Hr. eapply Forall_impl; [exact H|]. intros w Hw. exact (rect_inside_trans _ _ _ Hw Hr). Qed.
Lemma header_inside d area ws : draw_header horizontal inner d area = Some ws -> drawn_inside ws area.
Proof.
  unfold draw_header. set (b := mkBlock _ _). pose proof (horizontal_inside [CMin 34; CLength 21; CLength 21; CLength 21] (inner b area)) as H.
  destruct (horizontal _ _) as [|x [|y [|z [|t [|u l]]]]]; try done. intros [= <-].
  pose proof (inner_inside b area). rewrite !Forall_cons in H. destruct_and!.
  repeat constructor; simpl; try lia; by eapply rect_inside_trans.
Qed.
Lemma detail_inside d area ws : draw_detail horizontal inner d area = Some ws -> drawn_inside ws area.
Proof.
  unfold draw_detail. set (b := mkBlock _ _). pose proof (inner_inside b area) as Hi.
  destruct (selected d) as [vm|].
  - pose proof (horizontal_inside [CMin 40; CLength 40] (inner b area)) as H.
    destruct (horizontal _ _) as [|x [|y [|z l]]]; try done. intros [= <-]. rewrite !Forall_cons in H. destruct_and!.
    repeat constructor; simpl; try lia; by eapply rect_inside_trans.
  - intros [= <-]. repeat constructor; simpl; try lia; apply Hi.
Qed.

(** Nothing is drawn outside the frame. *)
Lemma draw_stays_inside d frame ws : draw d frame = Some ws -> drawn_inside ws frame.
Proof.
  unfold draw. pose proof (vertical_inside [CLength 4; CMin 5; CMax (apps_height d); CLength 6; CLength 1] frame) as H.
  destruct (vertical _ _) as [|x [|y [|z [|t [|u [|v l]]]]]]; try done.
  intros (h & Hh & (dt & Hd & [= <-])%bind_Some)%bind_Some. rewrite !Forall_cons in H. destruct_and!.
  apply header_inside in Hh. apply detail_inside in Hd. unfold drawn_inside. rewrite Forall_app, Forall_cons, !Forall_app. split_and!.
  - eapply drawn_inside_trans; eassumption.
  - done.
  - unfold draw_machine_apps. case_bool_decide; [constructor|by apply Forall_singleton].
  - eapply drawn_inside_trans; eassumption.
  - by apply Forall_singleton.
Qed.

(** Every sparkline shows the newest of its samples, no more than its pane is
    wide. *)
Definition fits (w : Rect * Widget) : Prop :=
  match w.2 with Sparkline b data _ => length data <= re_width (inner b w.1) | _ => True end.
Lemma sparklines_fit d frame ws : draw d frame = Some ws -> Forall fits ws.
Proof.
  unfold draw. destruct (vertical _ _) as [|x [|y [|z [|t [|u [|v l]]]]]]; try done.
  intros (h & Hh & (dt & Hd & [= <-])%bind_Some)%bind_Some. rewrite Forall_app, Forall_cons, !Forall_app. split_and!; try by repeat constructor.
  - revert Hh. unfold draw_header. destruct (horizontal _ _) as [|? [|? [|? [|? [|? ?]]]]]; try done. intros [= <-].
    constructor; [done|]. constructor; [done|]. repeat (constructor; [apply newest_length|]). constructor.
  - unfold draw_machine_apps. case_bool_decide; by repeat constructor.
  - revert Hd. unfold draw_detail. destruct (selected d); [|intros [= <-]; by repeat constructor].
    destruct (horizontal _ _) as [|? [|? [|? ?]]]; try done. intros [= <-].
    repeat (constructor; [first [done|apply newest_length]|]). constructor.
Qed.

(** Whatever has happened to the dashboard, while VMs are shown the row that
    is highlighted is the selected VM's, the detail pane is about that VM
    too, with the end of its log when that is open, and the footer is there,
    which asks for a stop's confirmation. *)
Lemma screen_shows_the_selected events frame ws :
  let d := run_events events in
  draw d frame = Some ws -> vm_names d <> [] ->
  exists n i cells table detail lines help,
    da_selected d = Some n /\ table_rows d !! i = Some (n :: cells) /\
    (table, Table (mkBlock BordersAll " VMs ") (table_header d) (table_rows d) TABLE_WIDTHS (Some i)) ∈ ws /\
    (detail, Paragraph lines) ∈ ws /\
    (forall log, da_log d = Some (n, log) -> lines = newest (re_height detail) (str_lines log)) /\
    ((forall log, da_log d <> Some (n, log)) -> head lines = Some n) /\
    (help, Paragraph [footer d]) ∈ ws.
Proof.
  intros d Hd Hne. destruct (run_events_selection events Hne) as (n & Hn & Hin). fold d in Hn, Hin.
  assert (is_Some (selected_row d)) as [i Hi] by (apply selected_row_some; eauto).
  assert (exists vm, ss_vms (da_stats d) !! i = Some vm /\ vi_name (vs_info vm) = n) as (vm & Hvm & Hvn).
  { unfold selected_row in Hi. rewrite Hn in Hi. apply position_some in Hi as (vm & Hvm & Heq%bool_decide_eq_true). eauto. }
  assert (Hsel : selected d = Some vm) by (unfold selected; by rewrite Hi).
  unfold draw, Screen.draw in Hd. destruct (vertical _ _) as [|x [|y [|z [|t [|u [|v l]]]]]]; try done.
  apply bind_Some in Hd as (h & _ & (dt & Hdt & Hws)%bind_Some). injection Hws as <-.
  unfold draw_detail in Hdt. rewrite Hsel in Hdt. destruct (horizontal _ _) as [|text [|cpu [|? ?]]]; try done.
  injection Hdt as <-. exists n, i, (drop 1 (table_row d vm)), y, text, (detail_lines d (re_height text)), u.
  rewrite Hi. split_and!; [done| | | | | |].
  - unfold table_rows. rewrite list_lookup_fmap, Hvm. by rewrite <-Hvn.
  - apply elem_of_app. right. by left.
  - apply elem_of_app. right. right. rewrite !elem_of_app. right. left. right. by left.
  - intros log Hlog. unfold detail_lines. rewrite Hsel, Hlog. by rewrite bool_decide_true.
  - intros Hlog. unfold detail_lines. rewrite Hsel. destruct (da_log d) as [[m log]|]; [|by rewrite <-Hvn].
    rewrite bool_decide_false; [by rewrite <-Hvn|]. intros ->. apply (Hlog log). by rewrite Hvn.
  - apply elem_of_app. right. right. rewrite !elem_of_app. right. right. by left.
Qed.
End laws.

(** ** A screen *)

(** A layout that gives each part what it asks for while there is room. *)
Definition asked (c : Constraint) : nat := match c with CLength n | CMin n | CMax n => n end.
Fixpoint ex_rows (cs : list Constraint) (r : Rect) : list Rect :=
  match cs with
  | [] => []
  | c :: cs =>
      let n := Nat.min (asked c) (re_height r) in
      mkRect (re_x r) (re_y r) (re_width r) n :: ex_rows cs (mkRect (re_x r) (re_y r + n) (re_width r) (re_height r - n))
  end.
Fixpoint ex_columns (cs : list Constraint) (r : Rect) : list Rect :=
  match cs with
  | [] => []
  | c :: cs =>
      let n := Nat.min (asked c) (re_width r) in
      mkRect (re_x r) (re_y r) n (re_height r) :: ex_columns cs (mkRect (re_x r + n) (re_y r) (re_width r - n) (re_height r))
  end.
Definition ex_inner (b : Block) (r : Rect) : Rect :=
  match bl_borders b with
  | BordersAll => mkRect (re_x r + Nat.min 1 (re_width r)) (re_y r + Nat.min 1 (re_height r)) (re_width r - 2) (re_height r - 2)
  | BordersLeft => mkRect (re_x r + Nat.min 1 (re_width r)) (re_y r + Nat.min 1 (re_height r)) (re_width r - 1) (re_height r - 1)
  end.
#[export] Instance ex_ratatui : Ratatui ex_rows ex_columns ex_inner.
Proof.
  split.
  - intros cs. induction cs as [|c cs IH]; intros r; simpl; [done|by rewrite IH].
  - intros cs. induction cs as [|c cs IH]; intros r; simpl; constructor; [unfold inside; simpl; lia|].
    eapply Forall_impl; [apply IH|]. intros a. unfold inside. simpl. lia.
  - intros cs. induction cs as [|c cs IH]; intros r; simpl; [done|by rewrite IH].
  - intros cs. induction cs as [|c cs IH]; intros r; simpl; constructor; [unfold inside; simpl; lia|].
    eapply Forall_impl; [apply IH|]. intros a. unfold inside. simpl. lia.
  - intros [[] t] r; unfold inside; cbn [ex_inner bl_borders re_x re_y re_width re_height]; lia.
Qed.
(** Two VMs, the second selected, on a terminal of 100 by 24. *)
Definition ex_events : list Event := [EStats two_vms; EKey KDown].
Lemma ex_screen :
  (fun w => match w.2 with Table _ _ rows _ hl => Some (list.head <$> rows, hl) | _ => None end) <$>
    default [] (draw ex_rows ex_columns ex_inner (run_events ex_events) (mkRect 0 0 100 24)) !! 5
  = Some (Some ([Some "a"; Some "b"], Some 1)).
Proof. vm_compute. reflexivity. Qed.
