(* ===== verification/Cli.v ===== *)
(** * The command line ([crates/cirro/src/main.rs] and [client.rs])

    What each subcommand asks the Node agent and prints. The agent, as the
    client sees it over its socket, is a state machine of the caller's
    choosing: [exchange] takes its state and a request and gives the answer.
    Parsing the arguments themselves is clap's. *)

From S2P Require Import Prelude RustStr Proto Subnet Store Validate Vm Machine Edge Agent.
From S2P Require Import Trace Image RunConfig Cache Dashboard.

Definition DEFAULT_SOCKET : string := "/run/cirro/agent.sock".

(** ** Argument parsers *)

(** [trim_end_matches] of a string. *)
Fixpoint trim_end_str (fuel : nat) (p s : string) : string :=
  match fuel with
  | O => s
  | S fuel => match strip_suffix p s with Some s => trim_end_str fuel p s | None => s end
  end.
Definition parse_mem_mib (s : string) : result string N :=
  let lower := to_lower s in
  let trimmed := trim_end_matches "b" (trim_end_str (String.length lower) "ib" lower) in
  let '(digits, scale) := match strip_suffix "g" trimmed with
                          | Some d => (d, 1024%N)
                          | None => (default trimmed (strip_suffix "m" trimmed), 1%N)
                          end in
  n ← ok_or (parse_uint u32_max digits) (debug_str s +:+ " is not a memory size like 256M or 1G");
  let refused := debug_str s +:+ ": memory must be between " +:+ dec MIN_MEM_MIB +:+ "M and " +:+ dec MAX_MEM_MIB +:+ "M" in
  match checked_mul_u32 n scale with
  | Some mib => if ((MIN_MEM_MIB <=? mib) && (mib <=? MAX_MEM_MIB))%N then Ok mib else Err refused
  | None => Err refused
  end.
Definition parse_env (s : string) : result string string :=
  let refused := Err (debug_str s +:+ " is not KEY=VALUE") in
  match split_once "=" s with
  | Some (key, _) => if is_empty key then refused else Ok s
  | None => refused
  end.
Definition parse_user (s : string) : result string User :=
  ok_or ('(u, g) ← split_once ":" s; u ← parse_uint u32_max u; g ← parse_uint u32_max g; Some (mkUser u g))
    (debug_str s +:+ " is not a numeric UID:GID like 1000:1000").
Definition format_mem (mib : N) : string :=
  if (mib mod 1024 =? 0)%N then dec (mib / 1024) +:+ "G" else dec mib +:+ "M".

(** [RunArgs] and [BenchArgs], as parsed. *)
Record RunArgs := mkRunArgs {
  ra_name : string;
  ra_mem : N;
  ra_vcpus : N;
  ra_env : list string;
  ra_workdir : option string;
  ra_user : option User;
  ra_host : option string;
  ra_port : option N;
  ra_machine : option string;
  ra_idle_park : option N;
  ra_image : option string;
  ra_command : list string;
}.
Record BenchArgs := mkBenchArgs {
  ba_runs : N;
  ba_mem : N;
  ba_vcpus : N;
  ba_image : string;
  ba_command : list string;
}.

(** ** The client *)

Inductive ReqBody :=
| QNone | QRun (run : RunRequest) | QStop (stop : StopRequest) | QApp (app : MachineAppRequest)
| QScan (ssh : string) | QAdd (add : AddMachine).
Record Req := mkReq { q_method : Method; q_path : string; q_body : ReqBody }.

(** What came back: an answer, whose body may fail to arrive, or the chain of
    errors of a failed connection, each with whether it is an
    [io::ErrorKind::PermissionDenied]. *)
Inductive Answer :=
| Answered (r : ApiResponse)
| Unread (e : string)
| Refused (chain : list bool) (display : string).

Definition connect_error (socket : string) (chain : list bool) (display : string) : string :=
  if existsb id chain then
    "permission denied on the Node agent's socket " +:+ socket +:+
    ": ask the Node's operator to add you to its group (cirro by default)"
  else "can't reach the Node agent at " +:+ socket +:+ " (" +:+ display +:+ "); is it running?".

Inductive Out := Stdout (s : string) | Stderr (s : string).
Definition println (s : string) : Out := Stdout (s +:+ nl).

(** Decoding a body as another type than it is: serde's error. *)
Definition unexpected (e : string) : string := "unexpected response from the Node agent: " +:+ e.

Section cli.
Context {W : Type}.
Context (exchange : W -> Req -> W * Answer).
Context (socket : string).
Context (serde : Body -> string).
(** How the [http] crate shows a status. *)
Context (status_line : N -> string).

Definition cliM (A : Type) : Type := W -> W * list Out * result string A.
#[local] Instance cli_ret : MRet cliM := fun _ a w => (w, [], Ok a).
#[local] Instance cli_bind : MBind cliM := fun _ _ k m w =>
  match m w with
  | (w, out, Ok a) => let '(w, out', r) := k a w in (w, out ++ out', r)
  | (w, out, Err e) => (w, out, Err e)
  end.
Definition cli_lift {A} (r : result string A) : cliM A := fun w => (w, [], r).
Definition emit (o : Out) : cliM unit := fun w => (w, [o], Ok tt).
(** [let _ = m] and [if let Err(e) = m]: the error as a value. *)
Definition cli_try {A} (m : cliM A) : cliM (result string A) := fun w =>
  let '(w, out, r) := m w in (w, out, Ok r).

(** [client::send]: a status that isn't a success is the error it carries. *)
Definition is_success (status : N) : bool := ((200 <=? status) && (status <? 300))%N.
Definition send (req : Req) : cliM (list (string * string) * Body) := fun w =>
  let '(w, answer) := exchange w req in
  (w, [],
   match answer with
   | Refused chain display => Err (connect_error socket chain display)
   | Unread e => Err ("reading the Node agent's response: " +:+ e)
   | Answered r =>
       if is_success (ar_status r) then Ok (ar_headers r, ar_body r)
       else match ar_body r with
            | BError e => Err e
            | _ => Err ("the Node agent answered " +:+ status_line (ar_status r))
            end
   end).
(** [client::call]: [decode] picks the type wanted. *)
Definition call {A} (decode : Body -> option A) (req : Req) : cliM (option A) :=
  '(_, body) ← send req;
  match body with
  | BEmpty => mret None
  | _ => cli_lift (match decode body with Some a => Ok (Some a) | None => Err (unexpected (serde body)) end)
  end.

Definition as_vm (b : Body) : option VmInfo := match b with BVm v => Some v | _ => None end.
Definition as_vms (b : Body) : option (list VmInfo) := match b with BVms v => Some v | _ => None end.
Definition as_stats (b : Body) : option Stats := match b with BStats v => Some v | _ => None end.
Definition as_machine (b : Body) : option MachineInfo := match b with BMachine v => Some v | _ => None end.
Definition as_machines (b : Body) : option (list MachineInfo) := match b with BMachines v => Some v | _ => None end.
Definition as_app (b : Body) : option MachineAppInfo := match b with BApp v => Some v | _ => None end.
Definition as_apps (b : Body) : option (list MachineAppInfo) := match b with BApps v => Some v | _ => None end.
Definition as_host_key (b : Body) : option string := match b with BHostKey v => Some v | _ => None end.
Definition as_unit (b : Body) : option unit := None.

(** Raw bodies: what [Full] holds, for the endpoints that answer text. *)
Definition raw (b : Body) : string := match b with BText t => t | BEmpty => "" | _ => serde b end.

(** ** VMs *)

Definition vm_path (name action : string) : string := "/vms/" +:+ name +:+ "/" +:+ action.
Definition stop (name : string) (force : bool) (timeout_secs : N) : cliM unit :=
  _ ← call as_vm (mkReq POST (vm_path name "stop") (QStop (mkStopRequest force (Some timeout_secs)))); mret tt.
Definition park (name : string) : cliM unit := _ ← call as_vm (mkReq POST (vm_path name "park") QNone); mret tt.
Definition rm (name : string) : cliM unit := _ ← call as_unit (mkReq DELETE ("/vms/" +:+ name) QNone); mret tt.
Definition wake (name : string) : cliM unit :=
  answered ← call as_vm (mkReq POST (vm_path name "wake") QNone);
  vm ← cli_lift (ok_or answered "the Node agent answered the wake with no VM");
  match vi_vm_address vm with
  | Some address => emit (println (ipv4_display address))
  | None => cli_lift (Err "the Node agent answered the wake with no VM address")
  end.

(** [rootfs_or_image]: [meta] is what [std::fs::metadata] answers (whether
    it's a directory), [canonical] what [canonicalize] does. *)
Definition looks_like_path (arg : string) : bool :=
  existsb (fun p => starts_with p arg) ["/"; "./"; "../"] || ends_with ".ext4" arg.
Definition rootfs_or_image (meta : result string bool) (canonical : result string string) (arg : string)
    : result string (option string) :=
  match meta with
  | Ok true => if looks_like_path arg then Err (arg +:+ " is a directory, not a rootfs") else Ok None
  | Ok false => Some <$> map_err (fun e => "rootfs " +:+ arg +:+ ": " +:+ e) canonical
  | Err e => if looks_like_path arg then Err ("no rootfs at " +:+ arg +:+ ": " +:+ e) else Ok None
  end.

(** [run_request]; [pulled] is what the image cache's pull answers. *)
Record Guest := mkGuest {
  gu_command : list string;
  gu_env : list string;
  gu_workdir : option string;
  gu_user : option User;
}.
Definition option_or {A} (a b : option A) : option A := match a with Some _ => a | None => b end.
Definition run_request (meta : result string bool) (canonical : result string string)
    (cache_dir : result string string) (pulled : string -> result string CachedImage)
    (name : string) (mem_mib vcpus : N) (image : string) (guest : Guest) (route : option Route)
    : result string RunRequest :=
  found ← rootfs_or_image meta canonical image;
  '(rootfs, command, env, workdir, user) ←
    match found with
    | Some rootfs =>
        _ ← fail_if (bool_decide (gu_command guest = []))
          (image +:+ " is a rootfs, which has no command of its own: give one after `--`");
        Ok (rootfs, gu_command guest, gu_env guest, gu_workdir guest, gu_user guest)
    | None =>
        dir ← cache_dir;
        pulled ← pulled dir;
        let config := ci_config pulled in
        let user := (fun '(u, g) => mkUser u g) <$> rc_user config in
        Ok (ci_rootfs pulled, RunConfig.command config (gu_command guest),
            merge_env (rc_env config) (gu_env guest), option_or (gu_workdir guest) (rc_workdir config),
            option_or (gu_user guest) user)
    end;
  Ok (mkRunRequest name rootfs mem_mib vcpus command env workdir user route).

(** [image_cache_dir], from the environment's [XDG_CACHE_HOME] and [HOME]. *)
Definition image_cache_dir (xdg home : option string) : result string string :=
  base ← match (d ← xdg; if is_empty d then None else Some d) with
         | Some dir => Ok dir
         | None => ok_or ((fun h => path_join h ".cache") <$> home)
                     "neither XDG_CACHE_HOME nor HOME is set, so there's nowhere to cache images"
         end;
  Ok (base +:+ "/cirro/images").

(** [run]. *)
Definition zip_route (args : RunArgs) : option Route :=
  host ← ra_host args; port ← ra_port args; Some (mkRoute host port (ra_idle_park args)).
Definition run (meta : result string bool) (canonical cache_dir : result string string)
    (pulled : string -> result string CachedImage) (args : RunArgs) : cliM unit :=
  match ra_machine args with
  | Some machine =>
      route ← cli_lift (ok_or (zip_route args) "--machine needs --host and --port");
      _ ← call as_app (mkReq POST "/machine-apps" (QApp (mkMachineAppRequest (ra_name args) machine route)));
      mret tt
  | None =>
      image ← cli_lift (ok_or (ra_image args) "an image or rootfs is required");
      request ← cli_lift (run_request meta canonical cache_dir pulled (ra_name args) (ra_mem args) (ra_vcpus args) image
        (mkGuest (ra_command args) (ra_env args) (ra_workdir args) (ra_user args)) (zip_route args));
      answered ← call as_vm (mkReq POST "/vms" (QRun request));
      vm ← cli_lift (ok_or answered "the Node agent returned no VM");
      address ← cli_lift (ok_or (vi_vm_address vm) "the Node agent returned no VM address");
      emit (println (ipv4_display address))
  end.

(** ** [bench]

    Times are what each of a run's three calls took. *)
Definition BENCHED : list string := ["boot"; "park"; "wake"].
Definition bench_once (took : nat -> N) (template : RunRequest) (name : string) : cliM (list N) :=
  let request := mkRunRequest name (rq_rootfs template) (rq_mem_mib template) (rq_vcpus template) (rq_command template)
    (rq_env template) (rq_workdir template) (rq_user template) (rq_route template) in
  _ ← call as_vm (mkReq POST "/vms" (QRun request));
  _ ← call as_vm (mkReq POST (vm_path name "park") QNone);
  _ ← call as_vm (mkReq POST (vm_path name "wake") QNone);
  mret [took 0%nat; took 1%nat; took 2%nat].

Definition nearest_rank (sorted : list N) (p : nat) : option N :=
  let rank := Nat.max ((p * length sorted + 99) / 100) 1 in
  sorted !! (rank - 1).

(** The loop over the runs left, from the [i]th of [runs]. *)
Definition bench_name (pid i : N) : string := "bench-" +:+ dec pid +:+ "-" +:+ dec i.
Fixpoint bench_runs (pid runs : N) (took : N -> nat -> N) (template : RunRequest) (todo : nat) (i : N)
    (times : list (list N)) : cliM (list (list N) * option string) :=
  match todo with
  | O => mret (times, None)
  | S todo =>
      let name := bench_name pid i in
      result ← cli_try (bench_once (took i) template name);
      _ ← cli_try (stop name true 0);
      removed ← cli_try (rm name);
      _ ← match removed with
          | Err e => emit (Stderr ("cirro: couldn't remove the bench VM " +:+ debug_str name
                                   +:+ ", so remove it yourself: " +:+ e +:+ nl))
          | Ok _ => mret tt
          end;
      match result with
      | Ok took_now => bench_runs pid runs took template todo (i + 1)%N (zip_with (fun all t => all ++ [t]) times took_now)
      | Err e => mret (times, Some ("run " +:+ dec (i + 1) +:+ " of " +:+ dec runs +:+ " failed: " +:+ e))
      end
  end.
(** [print_bench]; [ms] is how a duration is shown in milliseconds. *)
Definition N_le (a b : N) : bool := (a <=? b)%N.
Definition bench_row (operation runs p50 p99 : string) : string :=
  pad_right 10 operation +:+ " " +:+ pad_left 5 runs +:+ " " +:+ pad_left 10 p50 +:+ " " +:+ pad_left 10 p99.
Definition print_bench (ms : N -> string) (times : list (list N)) : cliM unit :=
  _ ← emit (println (bench_row "OPERATION" "RUNS" "P50" "P99"));
  foldr (fun '(operation, all) k =>
    let all := sort_by N_le all in
    let show p := from_option ms "" (nearest_rank all p) in
    _ ← emit (println (bench_row operation (dec (N.of_nat (length all))) (show 50%nat) (show 99%nat)));
    k) (mret tt) (zip BENCHED times).
Definition bench (ms : N -> string) (pid : N) (took : N -> nat -> N) (meta : result string bool)
    (canonical cache_dir : result string string) (pulled : string -> result string CachedImage) (args : BenchArgs)
    : cliM unit :=
  template ← cli_lift (run_request meta canonical cache_dir pulled "" (ba_mem args) (ba_vcpus args) (ba_image args)
    (mkGuest (ba_command args) [] None None) None);
  '(times, failed) ← bench_runs pid (ba_runs args) took template (N.to_nat (ba_runs args)) 0 [[]; []; []];
  _ ← match times with
      | (_ :: _) :: _ => print_bench ms times
      | _ => mret tt
      end;
  match failed with Some e => cli_lift (Err e) | None => mret tt end.

(** ** Looking *)

Definition node_ca : cliM unit := '(_, pem) ← send (mkReq GET "/ca" QNone); emit (Stdout (raw pem)).

Definition ps_row (name address mem vcpus uptime host machine : string) : string :=
  pad_right 32 name +:+ " " +:+ pad_right 15 address +:+ " " +:+ pad_left 7 mem +:+ " " +:+ pad_left 5 vcpus +:+ " "
  +:+ pad_left 7 uptime +:+ "  " +:+ pad_right 24 host +:+ "  " +:+ pad_right 24 machine.
Definition ps_vm (all : bool) (now : N) (vm : VmInfo) : string :=
  ps_row (vi_name vm) (from_option ipv4_display "-" (vi_vm_address vm)) (format_mem (vi_mem_mib vm))
    (dec (vi_vcpus vm))
    match vi_ended vm with None => duration (now - vi_started_at vm) | Some _ => "-" end
    (from_option rt_host "-" (vi_route vm)) "-"
  +:+ (if all then match vi_ended vm with
                   | None => "  running"
                   | Some ended => "  " +:+ reason_as_str (en_reason ended) +:+ " " +:+ duration (now - en_at ended) +:+ " ago"
                   end else "").
Definition ps_app (all : bool) (app : MachineAppInfo) : string :=
  ps_row (mai_name app) "-" "-" "-" "-" (rt_host (mai_route app))
    (mai_machine app +:+ ":" +:+ dec (rt_port (mai_route app)))
  +:+ (if all then "  " +:+ status_as_str (mai_status app) else "").
Definition emit_each (lines : list string) : cliM unit := fun w => (w, println <$> lines, Ok tt).
Definition ps (all : bool) (now : N) : cliM unit :=
  vms ← call as_vms (mkReq GET (if all then "/vms?all=true" else "/vms") QNone);
  apps ← call as_apps (mkReq GET "/machine-apps" QNone);
  emit_each ((ps_row "NAME" "VM ADDRESS" "MEMORY" "VCPUS" "UPTIME" "HOST" "MACHINE" +:+ (if all then "  STATUS" else ""))
    :: (ps_vm all now <$> default [] vms) ++ (ps_app all <$> default [] apps)).

(** [logs]; [fuel] bounds the requests made. *)
Definition logs_path (name : string) (offset : N) : string := "/vms/" +:+ name +:+ "/logs?offset=" +:+ dec offset.
Definition header_is (key value : string) (headers : list (string * string)) : bool :=
  match find_first (fun h => bool_decide (h.1 = key)) headers with
  | Some (_, v) => bool_decide (v = value)
  | None => false
  end.
Fixpoint logs (fuel : nat) (name : string) (follow : bool) (offset : N) : cliM bool :=
  match fuel with
  | O => mret false
  | S fuel =>
      '(headers, body) ← send (mkReq GET (logs_path name offset) QNone);
      let bytes := raw body in
      _ ← emit (Stdout bytes);
      let offset := wrap64 (offset + str_len bytes) in
      if (str_len bytes =? LOG_CHUNK)%N then logs fuel name follow offset
      else if negb follow || header_is VM_STATE_HEADER "ended" headers then mret true
      else logs fuel name follow offset
  end.

(** ** Machines *)

(** [confirm_host_key]; [answer] is the line the user typed. *)
Definition confirm_host_key (answer : result string string) (ssh : string) : cliM string :=
  found ← call as_host_key (mkReq POST "/machines/scan" (QScan ssh));
  host_key ← cli_lift (ok_or found "the Node agent returned no host key");
  _ ← emit (Stdout (ssh +:+ " presents the host key " +:+ host_key +:+ nl
    +:+ "Check it on the Machine with `ssh-keygen -lf /etc/ssh/ssh_host_ed25519_key.pub`. Trust it? [y/N] "));
  answer ← cli_lift (map_err (fun e => "read the answer: " +:+ e) answer);
  if contains ["y"; "Y"; "yes"] (trim answer) then mret host_key
  else cli_lift (Err "not added: the host key wasn't confirmed").

Inductive MachineCommand :=
| MAdd (name ssh : string) (host_key : option string) | MLs | MRm (name : string) | MKey.
Definition machine_row (m : MachineInfo) : string :=
  pad_right 32 (mi_name m) +:+ " " +:+ pad_right 32 (mi_ssh m) +:+ " " +:+ pad_right 50 (mi_host_key m) +:+ " "
  +:+ pad_right 11 (status_as_str (mi_status m)) +:+ "  " +:+ default "-" (mi_last_error m).
Definition machine_command (answer : result string string) (command : MachineCommand) : cliM unit :=
  match command with
  | MAdd name ssh host_key =>
      host_key ← match host_key with Some k => mret k | None => confirm_host_key answer ssh end;
      _ ← call as_machine (mkReq POST "/machines" (QAdd (mkAddMachine name ssh host_key)));
      mret tt
  | MLs =>
      machines ← call as_machines (mkReq GET "/machines" QNone);
      emit_each ((pad_right 32 "NAME" +:+ " " +:+ pad_right 32 "SSH" +:+ " " +:+ pad_right 50 "HOST KEY" +:+ " "
        +:+ pad_right 11 "STATUS" +:+ "  ERROR") :: (machine_row <$> default [] machines))
  | MRm name => _ ← call as_unit (mkReq DELETE ("/machines/" +:+ name) QNone); mret tt
  | MKey => '(_, key) ← send (mkReq GET "/ssh-key" QNone); emit (Stdout (raw key))
  end.

(** ** [top] *)

Definition top_once : cliM unit :=
  stats ← call as_stats (mkReq GET "/stats" QNone);
  apps ← call as_apps (mkReq GET "/machine-apps" QNone);
  emit (Stdout (snapshot (default (mkStats 0 [] []) stats) (default [] apps))).

(** The dashboard's loop: whether the last refresh failed, and the stops in
    the background. One turn refreshes if it is time to, takes the stops that
    ended, and handles a key if one came. [lossy] is
    [String::from_utf8_lossy]. *)
Record Top := mkTop { tp_dashboard : Dashboard; tp_refresh_failed : bool; tp_stopping : list string }.
Definition top_default : Top := mkTop dashboard_default false [].
Definition refresh (t : Top) : cliM Top :=
  refreshed ← cli_try (stats ← call as_stats (mkReq GET "/stats" QNone);
                       apps ← call as_apps (mkReq GET "/machine-apps" QNone); mret (stats, apps));
  mret match refreshed with
       | Ok (stats, apps) =>
           let d := set_machine_apps (default [] apps) (set_stats (default (mkStats 0 [] []) stats) (tp_dashboard t)) in
           mkTop (if tp_refresh_failed t then clear_status d else d) false (tp_stopping t)
       | Err e => mkTop (set_status e (tp_dashboard t)) true (tp_stopping t)
       end.
Definition stop_result (d : Dashboard) (r : string * result string unit) : Dashboard :=
  set_status match r.2 with
             | Ok _ => "stopped " +:+ r.1
             | Err e => "stopping " +:+ r.1 +:+ ": " +:+ e
             end d.
Definition top_key (lossy : string -> string) (k : KeyCode) (t : Top) : cliM (option Top) :=
  let '(d, action) := key k (tp_dashboard t) in
  let t := mkTop d (tp_refresh_failed t) (tp_stopping t) in
  match action with
  | ANone => mret (Some t)
  | AQuit => mret None
  | AShowLog name =>
      log ← cli_try (send (mkReq GET (logs_path name 0) QNone));
      mret (Some match log with
                 | Ok (_, body) => mkTop (set_log name (lossy (raw body)) d) (tp_refresh_failed t) (tp_stopping t)
                 | Err e => mkTop (set_status e d) (tp_refresh_failed t) (tp_stopping t)
                 end)
  | AStop name =>
      mret (Some (mkTop (set_status ("stopping " +:+ name +:+ "…") d) (tp_refresh_failed t) (tp_stopping t ++ [name])))
  end.
(** One turn of the loop. *)
Record Turn := mkTurn {
  tu_due : bool;
  tu_stopped : list (string * result string unit);
  tu_key : option KeyCode;
}.
Definition top_turn (lossy : string -> string) (turn : Turn) (t : Top) : cliM (option Top) :=
  t ← (if tu_due turn then refresh t else mret t);
  let t := mkTop (foldl stop_result (tp_dashboard t) (tu_stopped turn)) (tp_refresh_failed t)
    (filter (fun n => n ∉ (tu_stopped turn).*1) (tp_stopping t)) in
  match tu_key turn with
  | None => mret (Some t)
  | Some k => top_key lossy k t
  end.
End cli.

(** ** Images *)

Definition short_reference (reference : string) : string :=
  default (default reference (strip_prefix "docker.io/" reference)) (strip_prefix "docker.io/library/" reference).
(** [ImageCommand::Ls]'s lines; [size] is a rootfs' length in bytes, if it
    has one. *)
Definition image_lines (size : string -> option N) (image : CachedImage) : list string :=
  let mib := N.min (N.shiftr (default 0%N (size (ci_rootfs image))) 20) u32_max in
  let digest := String.substring 0 19 (ci_digest image) in
  (fun r => pad_right 40 r +:+ " " +:+ pad_right 19 digest +:+ " " +:+ pad_left 5 (format_mem mib))
    <$> match ci_references image with [] => ["-"] | refs => short_reference <$> refs end.

(** [image_command]: the lines it prints; [pull] is the cache's pull of a
    reference, [whole] a reference in full. *)
Inductive ImageCommand := ImgPull (image : string) | ImgLs | ImgRm (image : string).
Definition image_command (dir : string) (pull : string -> cacheM CachedImage) (f : fault) (f_read f_remove : string -> fault)
    (whole : string -> option string) (size : string -> option N) (command : ImageCommand) : cacheM (list string) :=
  match command with
  | ImgPull image => pulled ← pull image; mret [ci_digest pulled]
  | ImgLs =>
      files ← get_files;
      images ← lift (cache_list dir f f_read files);
      mret ((pad_right 40 "REFERENCE" +:+ " " +:+ pad_right 19 "DIGEST" +:+ " " +:+ pad_left 5 "SIZE")
        :: mjoin (image_lines size <$> images))
  | ImgRm image => removed ← cache_remove dir f f_read f_remove (whole image) image; mret [ci_digest removed]
  end.

(** ** Requests as the agent gets them

    The path up to the first question mark, the query after it, and the body
    as [read_json] decodes it; [mismatch] is its error for another type. *)
Definition to_api (mismatch : ApiError) (req : Req) : ApiRequest :=
  let '(path, query) := default (q_path req, "") (split_once "?" (q_path req)) in
  mkApiRequest (q_method req) path query
    match q_body req with QRun x => Ok x | _ => Err mismatch end
    match q_body req with QStop x => Ok x | _ => Err mismatch end
    match q_body req with QApp x => Ok x | _ => Err mismatch end
    match q_body req with QScan x => Ok x | _ => Err mismatch end
    match q_body req with QAdd x => Ok x | _ => Err mismatch end.
