(* ===== verification/CliLaws.v ===== *)
(** * The command line's guarantees

    Its requests reach the agent's handlers; [cirro logs] prints a log
    whole; sizes round-trip; percentiles are by nearest rank; [cirro bench]
    leaves no VM. *)

From S2P Require Import Prelude RustStr Proto Subnet Store Validate Vm Machine Edge Agent.
From S2P Require Import Trace Image RunConfig Cache Dashboard Cli.

(** ** Paths *)

Lemma trim_end_keeps c s t :
  t <> EmptyString -> str_contains c t = false -> trim_end_matches c (s +:+ t) = s +:+ t.
Proof.
  intros Ht Hc. assert (Hend : trim_end_matches c t = t).
  { induction t as [|d t IH]; [done|]. simpl in *. destruct (decide (c = d)); [done|].
    destruct t as [|d' t]; [done|]. rewrite IH; done. }
  induction s as [|d s IH]; [done|]. rewrite str_app_cons. simpl. rewrite IH.
  destruct (s +:+ t) eqn:Hst; [|done]. destruct s; [by rewrite str_app_nil_l in Hst|done].
Qed.
Definition segment (s : string) : Prop := s <> EmptyString /\ str_contains "/" s = false.
Lemma split_segments segs : segs <> [] -> Forall segment segs -> str_split "/" (str_join "/" segs) = segs.
Proof.
  intros Hne Hall. destruct segs as [|w segs]; [done|]. clear Hne. revert w Hall.
  induction segs as [|v segs IH]; intros w [[_ Hw] Hall]%Forall_cons; [by apply str_split_single|].
  change (str_join "/" (w :: v :: segs)) with (w +:+ String "/" (str_join "/" (v :: segs))).
  rewrite str_split_app by done. by rewrite IH.
Qed.
Lemma join_last segs w :
  exists s, str_join "/" (segs ++ [w]) = s +:+ w.
Proof.
  induction segs as [|v segs [s IH]]; [by exists ""|]. exists (v +:+ "/" +:+ s).
  rewrite !str_app_assoc, <-IH. by destruct segs.
Qed.
Lemma path_segments segs :
  segs <> [] -> Forall segment segs -> str_split "/" (trim_matches "/" ("/" +:+ str_join "/" segs)) = segs.
Proof.
  intros Hne Hall. unfold trim_matches. replace (trim_start_matches "/" ("/" +:+ str_join "/" segs)) with (str_join "/" segs).
  2:{ simpl. destruct segs as [|w segs]; [done|]. apply Forall_cons in Hall as [[Hw Hc] _].
      destruct w as [|c w]; [done|]. simpl in Hc. destruct (decide ("/"%char = c)) as [|Hd] eqn:E; [done|].
      destruct segs; simpl; rewrite ?str_app_cons; simpl; by rewrite E. }
  destruct (exists_last Hne) as (segs' & w & ->). destruct (join_last segs' w) as [s Hs].
  apply Forall_app in Hall as [Ha Hb]. apply Forall_cons in Hb as [[Hw Hc] _].
  rewrite Hs, trim_end_keeps by done. rewrite <-Hs. apply split_segments; [done|]. apply Forall_app. split; [done|].
  apply Forall_singleton. by split.
Qed.
Lemma name_segment name : name_ok name = true -> segment name.
Proof.
  intros H. split; [|by apply name_ok_not_contains]. intros ->. done.
Qed.
Lemma name_no_query name : name_ok name = true -> str_contains "?" name = false.
Proof. by apply name_ok_not_contains. Qed.

(** The handler of a request whose path is [segs], with no query. *)
Lemma handle_path mismatch method body segs a :
  segs <> [] -> Forall segment segs -> str_contains "?" (str_join "/" segs) = false ->
  handle (to_api mismatch (mkReq method ("/" +:+ str_join "/" segs) body)) a =
  match (_ ← match segs with "vms" :: name :: _ => validate_name "VM" name | _ => Ok tt end;
         _ ← match segs with "machines" :: name :: _ => validate_name "Machine" name | _ => Ok tt end;
         match segs with
         | ["vms"; name; action] => fail_if (has_app (ms_entries (ag_machines a)) name) (machine_app_refusal name action)
         | _ => Ok tt
         end) with
  | Err e => Respond (Err e)
  | Ok _ => route_request (to_api mismatch (mkReq method ("/" +:+ str_join "/" segs) body)) segs a
  end.
Proof.
  intros Hne Hall Hq. unfold handle.
  assert (Hp : rb_path (to_api mismatch (mkReq method ("/" +:+ str_join "/" segs) body)) = "/" +:+ str_join "/" segs).
  { unfold to_api. cbn [q_path].
    rewrite (proj2 (split_once_none "?" ("/" +:+ str_join "/" segs))) by by rewrite str_contains_app. done. }
  rewrite Hp, path_segments by done. done.
Qed.

(** The log request's handler. *)
Lemma handle_logs mismatch name offset a :
  name_ok name = true -> has_app (ms_entries (ag_machines a)) name = false -> (offset <= u64_max)%N ->
  handle (to_api mismatch (mkReq GET (logs_path name offset) QNone)) a = ToLogs name offset.
Proof.
  intros Hn Ha Ho. unfold handle, to_api, logs_path. cbn [q_path].
  replace ("/vms/" +:+ name +:+ "/logs?offset=" +:+ dec offset)
    with (("/" +:+ str_join "/" ["vms"; name; "logs"]) +:+ String "?" ("offset=" +:+ dec offset))
    by (simpl; rewrite !str_app_assoc; done).
  rewrite split_once_app.
  2:{ cbn [str_join]. rewrite !str_contains_app, (name_no_query name Hn). done. }
  cbn [default from_option rb_path rb_method]. cbv beta iota.
  assert (Hseg : Forall segment ["vms"; name; "logs"])
    by (constructor; [by split|]; constructor; [by apply name_segment|]; constructor; [by split|done]).
  cbn [id rb_path rb_method rb_query q_method q_body]. rewrite path_segments by done. rewrite (proj2 (validate_name_ok "VM" name)) by done. rsimpl. rewrite Ha. rsimpl.
  unfold route_request. cbn [rb_method rb_query].
  assert (Hq : query_param ("offset=" +:+ dec offset) "offset" = Some (dec offset)).
  { unfold query_param. rewrite (str_split_single "&").
    2:{ rewrite str_contains_app, dec_not_contains by done. done. }
    done. }
  rewrite Hq, parse_uint_dec. apply N.leb_le in Ho as ->. done.
Qed.

Lemma no_query_join segs : Forall (fun s => str_contains "?" s = false) segs -> str_contains "?" (str_join "/" segs) = false.
Proof.
  induction 1 as [|s segs Hs Hall IH]; [done|]. destruct segs as [|t segs]; [done|].
  change (str_join "/" (s :: t :: segs)) with (s +:+ "/" +:+ str_join "/" (t :: segs)).
  rewrite !str_contains_app, Hs, IH. done.
Qed.
(** A request about one VM, and one about one Machine. *)
Lemma handle_vm mismatch method name action body a :
  name_ok name = true -> has_app (ms_entries (ag_machines a)) name = false ->
  segment action -> str_contains "?" action = false ->
  handle (to_api mismatch (mkReq method (vm_path name action) body)) a =
  route_request (to_api mismatch (mkReq method (vm_path name action) body)) ["vms"; name; action] a.
Proof.
  intros Hn Ha Hact Hq. change (vm_path name action) with ("/" +:+ str_join "/" ["vms"; name; action]).
  rewrite handle_path; [|done| |].
  - rewrite (proj2 (validate_name_ok "VM" name)) by done. rsimpl. rewrite Ha. done.
  - constructor; [by split|]. constructor; [by apply name_segment|]. by constructor.
  - apply no_query_join. repeat constructor; [by apply name_no_query|done].
Qed.
Lemma handle_named mismatch method kind name body a :
  kind = "vms" \/ kind = "machines" -> name_ok name = true ->
  handle (to_api mismatch (mkReq method ("/" +:+ kind +:+ "/" +:+ name) body)) a =
  route_request (to_api mismatch (mkReq method ("/" +:+ kind +:+ "/" +:+ name) body)) [kind; name] a.
Proof.
  intros Hk Hn. change ("/" +:+ kind +:+ "/" +:+ name) with ("/" +:+ str_join "/" [kind; name]).
  rewrite handle_path; [|done| |].
  - destruct Hk as [->| ->]; rewrite (proj2 (validate_name_ok _ name)) by done; done.
  - constructor; [by destruct Hk as [->| ->]|]. constructor; [by apply name_segment|done].
  - apply no_query_join. destruct Hk as [->| ->]; repeat constructor; by apply name_no_query.
Qed.

(** every request the command line makes reaches the agent's handler for
    it with the arguments meant: for a valid name, a subcommand about a VM
    (but not of a Machine-backed App) is routed to that VM's stop, park,
    wake, log from the given offset or removal, one about a Machine to its
    removal, and those without a name to starting, listing and scanning. *)
Theorem requests_reach_their_handlers mismatch name a :
  name_ok name = true -> has_app (ms_entries (ag_machines a)) name = false ->
  let to req := handle (to_api mismatch req) a in
  (forall force t, to (mkReq POST (vm_path name "stop") (QStop (mkStopRequest force (Some t)))) =
    ToStop name (mkStopRequest force (Some t))) /\
  to (mkReq POST (vm_path name "park") QNone) = ToPark name /\
  to (mkReq POST (vm_path name "wake") QNone) = ToWake name /\
  (forall offset, (offset <= u64_max)%N -> to (mkReq GET (logs_path name offset) QNone) = ToLogs name offset) /\
  to (mkReq DELETE ("/vms/" +:+ name) QNone) = ToRemove name /\
  to (mkReq DELETE ("/machines/" +:+ name) QNone) = ToRemoveMachine name /\
  (forall run, to (mkReq POST "/vms" (QRun run)) = ToRun run) /\
  (forall app, to (mkReq POST "/machine-apps" (QApp app)) = ToRunOnMachine app) /\
  (forall ssh, to (mkReq POST "/machines/scan" (QScan ssh)) = ToScan ssh) /\
  (forall add, to (mkReq POST "/machines" (QAdd add)) = ToAddMachine add) /\
  to (mkReq GET "/vms?all=true" QNone) = Respond (Ok (json OK (BVms (agent_list true a)))) /\
  to (mkReq GET "/vms" QNone) = Respond (Ok (json OK (BVms (agent_list false a)))) /\
  to (mkReq GET "/stats" QNone) = ToStats.
Proof.
  intros Hn Ha to. unfold to. split_and!; intros; try reflexivity.
  - rewrite handle_vm by (done || by split). unfold to_api. by destruct (default _ _).
  - rewrite handle_vm by (done || by split). unfold to_api. by destruct (default _ _).
  - rewrite handle_vm by (done || by split). unfold to_api. by destruct (default _ _).
  - by apply handle_logs.
  - change ("/vms/" +:+ name) with ("/" +:+ "vms" +:+ "/" +:+ name). rewrite handle_named; [|by left|done].
    unfold to_api. by destruct (default _ _).
  - change ("/machines/" +:+ name) with ("/" +:+ "machines" +:+ "/" +:+ name). rewrite handle_named; [|by right|done].
    unfold to_api. by destruct (default _ _).
Qed.
Definition quiet_agent : Agent :=
  mkAgent (mkNodeConfig "/f" "/j" "/k" "/s/jail" 0%N 0%N) (mkSubnet (ipv4_new 10 77 0 0) 16) "/s/logs" "/s/parked" ∅
    (mkDb None None ∅ ∅ ∅) 0%N false ∅ None false machines_new ∅ 0 ∅ [] (mkHost ∅ ∅ ∅ ∅ ∅ ∅ false).
Lemma requests_reach_their_handlers_witness :
  handle (to_api (bad_request "") (mkReq GET (logs_path "web-1" 1048576) QNone)) quiet_agent = ToLogs "web-1" 1048576.
Proof. apply (requests_reach_their_handlers (bad_request "") "web-1" quiet_agent); reflexivity || discriminate. Defined.

(** ** [cirro logs -f] *)

Definition printed (out : list Out) : string :=
  foldr (fun o rest => match o with Stdout s => s +:+ rest | Stderr _ => rest end) "" out.
Lemma printed_app o o' : printed (o ++ o') = printed o +:+ printed o'.
Proof.
  induction o as [|[s|s] o IH]; [done| |done]. simpl. change (foldr _ "" (o ++ o')) with (printed (o ++ o')).
  by rewrite IH, str_app_assoc.
Qed.
Lemma str_len_app s t : str_len (s +:+ t) = (str_len s + str_len t)%N.
Proof. unfold str_len. rewrite str_length_app. lia. Qed.
Lemma str_drop_app n s t : (n <= str_len s)%N -> str_drop n (s +:+ t) = str_drop n s +:+ t.
Proof.
  unfold str_len. revert n. induction s as [|c s IH]; intros n Hn; cbn [String.length] in Hn.
  - replace n with 0%N by lia. rewrite str_app_nil_l. by destruct t.
  - rewrite str_app_cons. cbn [str_drop]. destruct (N.eqb_spec n 0); [done|]. apply IH. lia.
Qed.
Lemma str_drop_all n s : (str_len s <= n)%N -> str_drop n s = "".
Proof.
  intros H. pose proof (str_drop_length n s) as Hl. destruct (str_drop n s) as [|c r]; [done|].
  unfold str_len in *. cbn [String.length] in Hl. lia.
Qed.
Lemma str_drop_0 s : str_drop 0 s = s.
Proof. by destruct s. Qed.
Lemma take_drop_len n s : str_take n s +:+ str_drop (str_len (str_take n s)) s = s.
Proof.
  rewrite str_take_length. destruct (N.le_ge_cases n (str_len s)) as [H|H].
  - rewrite N.min_l by done. apply str_take_drop.
  - rewrite N.min_r by done. rewrite (str_drop_all (str_len s)) by done. rewrite <-(str_drop_all n s) by done. apply str_take_drop.
Qed.

Section follow.
Context (mismatch : ApiError) (serde : Body -> string) (status_line : N -> string) (socket name : string).
(** The agent at each request. *)
Context (agents : nat -> Agent).

Definition serve (w : nat) (req : Req) : nat * Answer :=
  (S w, Answered (api_response
    match handle (to_api mismatch req) (agents w) with
    | ToLogs n offset => agent_logs None (agents w) n offset
    | Respond r => r
    | _ => Err mismatch
    end)).

(** A VM whose log, [content], only grows, and not once it has ended. *)
Record log_history (log : string) (content : nat -> string) (ended : nat -> bool) : Prop := {
  lh_name : name_ok name = true;
  lh_app : forall i, has_app (ms_entries (ag_machines (agents i))) name = false;
  lh_entry : forall i, exists e, ag_vms (agents i) !! name = Some e /\ entry_log e = log /\
    ended i = match e with EndedVm _ _ => true | _ => false end;
  lh_content : forall i, ho_logs (ag_host (agents i)) !! log = Some (content i);
  lh_grows : forall i, exists more, content (S i) = content i +:+ more;
  lh_ended : forall i, ended i = true -> ended (S i) = true /\ content (S i) = content i;
  lh_bound : forall i, (Z.of_N (str_len (content i)) <= i64_max)%Z;
}.

Context (log : string) (content : nat -> string) (ended : nat -> bool).
Hypothesis history : log_history log content ended.

Lemma content_grows i j : i <= j -> exists more, content j = content i +:+ more.
Proof.
  induction 1 as [|j Hij [more IH]]; [exists ""; by rewrite str_app_nil_r|].
  destruct (lh_grows _ _ _ history j) as [more' ->]. exists (more +:+ more'). by rewrite IH, str_app_assoc.
Qed.
Lemma ended_stays i j : i <= j -> ended i = true -> ended j = true /\ content j = content i.
Proof.
  induction 1 as [|j Hij IH]; [done|]. intros H. destruct (IH H) as [He Hc].
  destruct (lh_ended _ _ _ history j He) as [? ->]. done.
Qed.
Lemma serve_logs w offset :
  (offset <= str_len (content w))%N ->
  serve w (mkReq GET (logs_path name offset) QNone) =
  (S w, Answered (mkApiResponse OK [("content-type", "text/plain; charset=utf-8");
    (VM_STATE_HEADER, if ended w then "ended" else "running")] (BText (str_take LOG_CHUNK (str_drop offset (content w)))))).
Proof.
  intros Ho. unfold serve. pose proof (lh_bound _ _ _ history w) as Hb.
  assert (offset <= u64_max)%N by (unfold i64_max, u64_max in *; lia).
  rewrite handle_logs; [|apply history|apply history|done]. unfold agent_logs.
  destruct (lh_entry _ _ _ history w) as (e & -> & <- & ->).
  assert (Hr : read_log None (ho_logs (ag_host (agents w)) !! entry_log e) offset =
    Ok (str_take LOG_CHUNK (str_drop offset (content w)))).
  { rewrite (lh_content _ _ _ history w). unfold read_log. destruct (Z.ltb_spec i64_max (Z.of_N offset)); [lia|done]. }
  destruct e; cbn in Hr |- *; rewrite Hr; done.
Qed.

Lemma logs_follow k fuel w offset :
  ended k = true -> (offset <= str_len (content w))%N ->
  (N.of_nat (k - w) + (str_len (content k) - offset) / LOG_CHUNK < N.of_nat fuel)%N ->
  exists w' out, logs serve socket serde status_line fuel name true offset w = (w', out, Ok true) /\
    printed out = str_drop offset (content k).
Proof.
  intros Hk. revert w offset. induction fuel as [|fuel IH]; intros w offset Ho Hf; [by apply N.nlt_0_r in Hf|].
  pose proof (serve_logs w offset Ho) as Hs.
  set (b := str_take LOG_CHUNK (str_drop offset (content w))) in *.
  assert (Hwk : exists more, content k = content w +:+ more).
  { destruct (Nat.le_ge_cases w k) as [?|Hle]; [by apply content_grows|].
    destruct (ended_stays k w Hle Hk) as [_ ->]. exists "". by rewrite str_app_nil_r. }
  destruct Hwk as [more Hmore].
  assert (Hlen : (str_len b = N.min LOG_CHUNK (str_len (content w) - offset))%N)
    by (unfold b; by rewrite str_take_length, str_drop_length).
  assert (Hsplit : b +:+ str_drop (offset + str_len b) (content k) = str_drop offset (content k)).
  { rewrite <-str_drop_drop, Hmore, str_drop_app by done. rewrite str_drop_app by (rewrite str_drop_length; lia).
    rewrite <-str_app_assoc. f_equal. apply take_drop_len. }
  assert (Hw1 : (str_len (content w) <= str_len (content (S w)))%N).
  { destruct (content_grows w (S w)) as [m ->]; [lia|]. rewrite str_len_app. lia. }
  assert (Hkw : (str_len (content w) <= str_len (content k))%N) by (rewrite Hmore, str_len_app; lia).
  assert (Hwrap : wrap64 (offset + str_len b) = (offset + str_len b)%N).
  { pose proof (lh_bound _ _ _ history w). unfold wrap64. apply N.mod_small. unfold i64_max in *. lia. }
  assert (Hnext : ended w = false \/ str_len b = LOG_CHUNK ->
    (N.of_nat (k - S w) + (str_len (content k) - (offset + str_len b)) / LOG_CHUNK < N.of_nat fuel)%N).
  { intros Hc. destruct (decide (str_len b = LOG_CHUNK)) as [Hb|Hb].
    - rewrite Hb. replace (str_len (content k) - offset)%N with (str_len (content k) - (offset + LOG_CHUNK) + 1 * LOG_CHUNK)%N in Hf
        by (rewrite Hb in Hlen; lia).
      rewrite N.div_add in Hf by done. lia.
    - destruct Hc as [Hc|]; [|done]. assert (w < k).
      { destruct (Nat.le_gt_cases k w) as [Hle|]; [|done]. destruct (ended_stays k w Hle Hk). congruence. }
      assert ((str_len (content k) - (offset + str_len b)) / LOG_CHUNK <= (str_len (content k) - offset) / LOG_CHUNK)%N
        by (apply N.Div0.div_le_mono; lia). lia. }
  assert (Hrec : ended w = false \/ str_len b = LOG_CHUNK -> exists w' out,
    logs serve socket serde status_line fuel name true (offset + str_len b) (S w) = (w', out, Ok true) /\
    printed out = str_drop (offset + str_len b) (content k)).
  { intros Hc. apply IH; [|by apply Hnext]. lia. }
  cbn [logs]. unfold mbind, cli_bind, send. rewrite Hs. cbn [ar_status ar_headers ar_body raw emit].
  change (is_success OK) with true. cbv iota beta.
  change (raw serde (BText b)) with b. rewrite Hwrap.
  destruct (N.eqb_spec (str_len b) LOG_CHUNK) as [Hb|Hb].
  - destruct (Hrec (or_intror Hb)) as (w' & out & Hl & Hp). rewrite Hl. exists w', (Stdout b :: out). split; [done|].
    simpl. fold (printed out). by rewrite Hp.
  - assert (Hh : header_is VM_STATE_HEADER "ended" [("content-type", "text/plain; charset=utf-8");
      (VM_STATE_HEADER, if ended w then "ended" else "running")] = ended w) by by destruct (ended w).
    rewrite Hh. cbn [negb orb]. destruct (ended w) eqn:He.
    + exists (S w), [Stdout b]. split; [done|]. simpl. rewrite str_app_nil_r, <-Hsplit.
      rewrite str_drop_all; [by rewrite str_app_nil_r|]. assert (content k = content w) as ->; [|lia].
      destruct (Nat.le_ge_cases w k) as [Hle|Hle].
      * by destruct (ended_stays w k Hle He).
      * by destruct (ended_stays k w Hle Hk) as [_ ->].
    + destruct (Hrec (or_introl eq_refl)) as (w' & out & Hl & Hp). rewrite Hl.
      exists w', (Stdout b :: out). split; [done|]. simpl. fold (printed out). by rewrite Hp.
Qed.
End follow.

(** C39: [cirro logs -f] prints a VM's whole console log and stops: against
    the agent answering each request from its state then, while the log only
    grows and stops growing before the VM is marked ended, the loop returns
    within as many requests as are made before the end and one per full
    chunk of the log, and what it printed is the final log, byte for byte. *)
Theorem follow_prints_the_whole_log mismatch serde status_line socket name agents log content ended k fuel :
  log_history name agents log content ended -> ended k = true ->
  (N.of_nat k + str_len (content k) / LOG_CHUNK < N.of_nat fuel)%N ->
  exists w out,
    logs (serve mismatch agents) socket serde status_line fuel name true 0 0 = (w, out, Ok true) /\
    printed out = content k.
Proof.
  intros Hh Hk Hf.
  destruct (logs_follow mismatch serde status_line socket name agents log content ended Hh k fuel 0 0%N Hk)
    as (w & out & Hl & Hp); [apply N.le_0_l|by rewrite Nat.sub_0_r, N.sub_0_r|].
  exists w, out. by rewrite str_drop_0 in Hp.
Qed.
Definition logging_agent (ended : bool) (text : string) : Agent :=
  let info := mkVmInfo "web" None 128 1 0 None None in
  set_ag_vms {["web" := if ended then EndedVm info "/s/logs/web.0.log" else Running info "/s/logs/web.0.log" 0]}
    (set_ag_host (mkHost ∅ ∅ ∅ ∅ ∅ {["/s/logs/web.0.log" := text]} false) quiet_agent).
Definition logging (i : nat) : Agent :=
  match i with O => logging_agent false "boot" | S O => logging_agent false "boot done" | _ => logging_agent true "boot done" end.
Lemma follow_prints_the_whole_log_witness :
  exists w out,
    logs (serve (bad_request "") logging) "/a" (fun _ => "") dec 5 "web" true 0 0 = (w, out, Ok true) /\
    printed out = "boot done".
Proof.
  apply (follow_prints_the_whole_log (bad_request "") (fun _ => "") dec "/a" "web" logging "/s/logs/web.0.log"
    (fun i => match i with O => "boot" | _ => "boot done" end) (fun i => match i with O | S O => false | _ => true end) 2 5);
    [|reflexivity|reflexivity].
  split; intros; try reflexivity.
  - destruct i as [|[|i]]; reflexivity.
  - destruct i as [|[|i]]; eexists; repeat split.
  - destruct i as [|[|i]]; reflexivity.
  - destruct i as [|[|i]]; [exists " done"|exists ""..]; reflexivity.
  - destruct i as [|[|i]]; [discriminate|discriminate|]. split; reflexivity.
  - destruct i as [|[|i]]; discriminate.
Defined.

(** The dashboard's [l] asks for the log from its start, and so shows the end
    of its first chunk, not of the log, once the log is longer. *)
Theorem dashboard_shows_first_chunk serde status_line socket (exchange : unit -> Req -> unit * Answer) lossy t name log headers :
  (key (KChar "l") (tp_dashboard t)).2 = AShowLog name ->
  exchange tt (mkReq GET (logs_path name 0) QNone) =
    (tt, Answered (mkApiResponse OK headers (BText (str_take LOG_CHUNK log)))) ->
  exists t', top_key exchange socket serde status_line lossy (KChar "l") t tt = (tt, [], Ok (Some t')) /\
    da_log (tp_dashboard t') = Some (name, lossy (str_take LOG_CHUNK log)).
Proof.
  intros Hk He. unfold top_key. destruct (key (KChar "l") (tp_dashboard t)) as [d action]. simpl in Hk. subst action.
  eexists. unfold mbind, cli_bind, cli_try, send. rewrite He. split; [reflexivity|done].
Qed.

(** ** Sizes *)

Lemma strip_last_ne c d s : c <> d -> strip_suffix (String c "") (s +:+ String d "") = None.
Proof.
  intros Hne. destruct (strip_suffix _ _) as [r|] eqn:H; [|done]. apply strip_suffix_some in H. exfalso.
  revert r H. induction s as [|a s IH]; intros [|b r]; rewrite ?str_app_nil_l, ?str_app_cons.
  - intros [= ?]. congruence.
  - intros [= _ H]. by destruct r.
  - intros [= _ H]. by destruct s.
  - intros [= _ H]. by eapply IH.
Qed.
Lemma strip_ib_none d s : d <> "b"%char -> strip_suffix "ib" (s +:+ String d "") = None.
Proof.
  intros Hd. destruct (strip_suffix _ _) as [r|] eqn:H; [|done]. apply strip_suffix_some in H.
  change "ib" with ("i" +:+ String "b" "") in H. rewrite <-str_app_assoc in H.
  pose proof (strip_last_ne "b" d s ltac:(congruence)) as Hn. by rewrite H, strip_suffix_app in Hn.
Qed.
Lemma to_lower_dec n t : to_lower (dec n +:+ t) = dec n +:+ to_lower t.
Proof.
  pose proof (dec_all_digits n) as Hd. induction (dec n) as [|c s IH]; [done|]. rewrite !str_app_cons.
  simpl in Hd. apply andb_true_iff in Hd as [Hc Hd]. simpl. rewrite IH by done. f_equal.
  by destruct c as [[] [] [] [] [] [] [] []].
Qed.
(** What is left of a printed size once its suffix is read. *)
Lemma trimmed_size n d :
  d <> "b"%char -> forall fuel,
  trim_end_matches "b" (trim_end_str fuel "ib" (dec n +:+ String d "")) = dec n +:+ String d "".
Proof.
  intros Hd fuel. replace (trim_end_str fuel "ib" (dec n +:+ String d "")) with (dec n +:+ String d "").
  - apply trim_end_keeps; [done|]. simpl. by rewrite decide_False by congruence.
  - destruct fuel; [done|]. cbn [trim_end_str]. by rewrite strip_ib_none.
Qed.
Lemma checked_mem (s : string) n scale :
  (n * scale <= u32_max)%N -> (MIN_MEM_MIB <= n * scale <= MAX_MEM_MIB)%N ->
  match checked_mul_u32 n scale return result string N with
  | Some mib => if ((MIN_MEM_MIB <=? mib) && (mib <=? MAX_MEM_MIB))%N then Ok mib else Err s
  | None => Err s
  end = Ok (n * scale)%N.
Proof.
  intros Hm [H1 H2]. unfold checked_mul_u32. apply N.leb_le in Hm as ->. apply N.leb_le in H1 as ->.
  by apply N.leb_le in H2 as ->.
Qed.

(** a memory size the command line prints is one it reads back: for
    every size within the bounds, parsing [format_mem]'s text gives the same
    number of MiB; and whatever [--mem] accepts is within the bounds the agent
    enforces. *)
Theorem memory_sizes_round_trip mib :
  ((MIN_MEM_MIB <= mib <= MAX_MEM_MIB)%N -> parse_mem_mib (format_mem mib) = Ok mib) /\
  (forall s, parse_mem_mib s = Ok mib -> in_bounds "mem_mib" mib MIN_MEM_MIB MAX_MEM_MIB = Ok tt).
Proof.
  split.
  - intros Hb. unfold format_mem, parse_mem_mib. pose proof Hb as [_ Hmax]. unfold MAX_MEM_MIB in Hmax.
    destruct (N.eqb_spec (mib mod 1024) 0) as [Hm|Hm].
    + assert (Heq : (mib / 1024 * 1024)%N = mib) by (pose proof (N.div_mod mib 1024); lia).
      rewrite to_lower_dec. change (to_lower "G") with (String "g" ""). rewrite trimmed_size, strip_suffix_app by done.
      rewrite parse_uint_dec. rewrite (proj2 (N.leb_le _ _)) by (unfold u32_max; lia). rsimpl.
      rewrite checked_mem; [by rewrite Heq|unfold u32_max; lia|by rewrite Heq].
    + rewrite to_lower_dec. change (to_lower "M") with (String "m" ""). rewrite trimmed_size by done.
      rewrite strip_last_ne, strip_suffix_app by done. cbn [default from_option]. cbv beta iota. cbn [id].
      rewrite parse_uint_dec. rewrite (proj2 (N.leb_le _ _)) by (unfold u32_max; lia). rsimpl.
      rewrite checked_mem; rewrite ?N.mul_1_r; [done|unfold u32_max; lia|done].
  - intros s H. unfold parse_mem_mib in H. destruct (match strip_suffix "g" _ with Some _ => _ | None => _ end) as [digits scale].
    destruct (parse_uint u32_max digits); [|done]. revert H. rsimpl.
    destruct (checked_mul_u32 _ scale) as [m|]; [|done]. destruct (_ && _) eqn:Hb; [|done]. intros [= ->].
    unfold in_bounds. by rewrite Hb.
Qed.
Lemma memory_sizes_round_trip_witness : parse_mem_mib (format_mem 2048) = Ok 2048%N /\ format_mem 2048 = "2G".
Proof. split; [apply memory_sizes_round_trip; split; discriminate|reflexivity]. Defined.

(** ** Percentiles *)

Definition at_most (v : N) (l : list N) : nat := length (filter (fun x => (x <= v)%N) l).

Lemma insert_by_sorted x l : StronglySorted N.le l -> StronglySorted N.le (insert_by N_le x l).
Proof.
  induction 1 as [|y l Hs IH Hall]; [by repeat constructor|]. simpl. unfold N_le at 1.
  destruct (N.leb_spec x y) as [Hxy|Hxy].
  - constructor; [by constructor|]. constructor; [done|]. eapply Forall_impl; [exact Hall|]. simpl. lia.
  - constructor; [done|]. rewrite insert_by_perm. constructor; [lia|done].
Qed.
Lemma sort_by_sorted l : StronglySorted N.le (sort_by N_le l).
Proof. induction l as [|x l IH]; [constructor|]. by apply insert_by_sorted. Qed.
Lemma at_most_perm v l l' : l ≡ₚ l' -> at_most v l = at_most v l'.
Proof. intros H. unfold at_most. by rewrite H. Qed.

Lemma sorted_split s i v :
  StronglySorted N.le s -> s !! i = Some v ->
  Forall (fun x => (x <= v)%N) (take (S i) s) /\ Forall (fun x => (v <= x)%N) (drop i s).
Proof.
  intros Hs. revert i. induction Hs as [|y s Hs IH Hall]; intros [|i] Hi; simplify_eq/=.
  - split; [by repeat constructor|]. constructor; [done|]. eapply Forall_impl; [exact Hall|]. simpl. lia.
  - destruct (IH i Hi) as [Ha Hb]. split; [|done]. constructor; [|done].
    rewrite Forall_forall in Hall. apply Hall. by eapply list_elem_of_lookup_2.
Qed.
Lemma list_filter_all (P : N -> Prop) `{!forall x, Decision (P x)} l : Forall P l -> filter P l = l.
Proof. induction 1 as [|x l Hx Hl IH]; [done|]. rewrite filter_cons_True by done. by rewrite IH. Qed.
Lemma list_filter_none (P : N -> Prop) `{!forall x, Decision (P x)} l : Forall (fun x => ~ P x) l -> filter P l = [].
Proof. induction 1 as [|x l Hx Hl IH]; [done|]. by rewrite filter_cons_False. Qed.
Lemma at_most_rank s i v : StronglySorted N.le s -> s !! i = Some v -> S i <= at_most v s.
Proof.
  intros Hs Hi. destruct (sorted_split s i v Hs Hi) as [Ha _]. pose proof (lookup_lt_Some _ _ _ Hi).
  unfold at_most. rewrite <-(take_drop (S i) s) at 1. rewrite filter_app, length_app.
  rewrite (list_filter_all _ (take (S i) s)) by done. rewrite length_take. lia.
Qed.
Lemma below_rank s i v w : StronglySorted N.le s -> s !! i = Some v -> (w < v)%N -> at_most w s <= i.
Proof.
  intros Hs Hi Hw. destruct (sorted_split s i v Hs Hi) as [_ Hb]. unfold at_most. rewrite <-(take_drop i s) at 1.
  rewrite filter_app, length_app. rewrite (list_filter_none _ (drop i s)).
  - pose proof (length_filter (fun x => (x <= w)%N) (take i s)). rewrite length_take in *. simpl. lia.
  - eapply Forall_impl; [exact Hb|]. simpl. lia.
Qed.

(** [cirro bench]'s percentiles are by nearest rank: of any run's times,
    not empty, in any order, the [p]th percentile it shows is the smallest
    time that at least [p]% of the times are no more than. *)
Theorem percentile_is_nearest_rank times p :
  times <> [] -> 1 <= p <= 100 ->
  exists v, nearest_rank (sort_by N_le times) p = Some v /\
    p * length times <= 100 * at_most v times /\
    forall w, p * length times <= 100 * at_most w times -> (v <= w)%N.
Proof.
  intros Hne Hp. set (s := sort_by N_le times).
  assert (Hperm : s ≡ₚ times) by apply sort_by_perm. assert (Hs : StronglySorted N.le s) by apply sort_by_sorted.
  assert (Hlen : length s = length times) by by rewrite Hperm.
  assert (0 < length times) by (destruct times; simpl; [done|lia]).
  unfold nearest_rank. rewrite Hlen. set (c := (p * length times + 99) / 100).
  assert (Hc : 100 * c <= p * length times + 99 < 100 * c + 100).
  { unfold c. pose proof (Nat.div_mod_eq (p * length times + 99) 100). pose proof (Nat.mod_upper_bound (p * length times + 99) 100). lia. }
  assert (Hrank : Nat.max c 1 - 1 < length s) by nia.
  destruct (lookup_lt_is_Some_2 s _ Hrank) as [v Hv]. exists v. split; [done|].
  setoid_rewrite <-(fun w => at_most_perm w _ _ Hperm). split.
  - pose proof (at_most_rank s _ v Hs Hv). nia.
  - intros w Hw. destruct (N.le_gt_cases v w) as [|Hlt]; [done|]. pose proof (below_rank s _ v w Hs Hv Hlt). nia.
Qed.
Lemma percentile_is_nearest_rank_witness :
  exists v, nearest_rank (sort_by N_le [30; 10; 20]%N) 50 = Some v /\ v = 20%N.
Proof.
  destruct (percentile_is_nearest_rank [30; 10; 20]%N 50) as (v & Hv & _); [discriminate|lia|].
  exists v. split; [exact Hv|]. revert Hv. vm_compute. congruence.
Defined.
