(* ===== verification/Tls.v ===== *)
(** * The edge's certificates ([crates/cirro-edge]: [fs.rs], [tls.rs])

    Writing a file whole, the Node's CA, and which certificate a TLS client
    is shown. Keys and certificates are the [rcgen] and [rustls] crates':
    [Crypto] is what they answer. Each operation on the state dir is the
    sequence of the states it goes through, so that what holds of each holds
    wherever the agent is killed. *)

From S2P Require Import Prelude RustStr Proto Subnet Store Validate Vm Machine Edge Agent Trace.

(** ** Files of the state dir *)

Abbreviation Dir := (gmap string string).
Abbreviation dirM := (traceM Dir Dir).
Definition dir_get : dirM Dir := fun d => ([], d, Ok d).
Definition dir_step (g : Dir -> Dir) : dirM unit := fun d => ([g d], g d, Ok tt).

(** The answers to [write_whole]'s calls: making the file, writing it (and
    how much got there), syncing it and renaming it. *)
Record WriteOutcome := mkWriteOutcome {
  wo_open : fault;
  wo_write : option (string * string);
  wo_sync : fault;
  wo_rename : fault;
}.
Definition rename_file (from to : string) (d : Dir) : Dir :=
  match d !! from with Some bytes => <[to := bytes]> (delete from d) | None => d end.
Definition write_whole (o : WriteOutcome) (path bytes : string) : dirM unit :=
  let temporary := path +:+ ".tmp" in
  _ ← dir_step (delete temporary);
  _ ← lift (fault_result (wo_open o));
  _ ← dir_step <[temporary := ""]>;
  _ ← match wo_write o with
      | Some (part, e) => _ ← dir_step <[temporary := part]>; lift (Err e)
      | None => dir_step <[temporary := bytes]>
      end;
  _ ← lift (fault_result (wo_sync o));
  _ ← lift (fault_result (wo_rename o));
  dir_step (rename_file temporary path).

(** ** The Node's CA *)

(** The crates: keys, their PEM, self-signed certificates, and what a
    certificate and key make an issuer of. *)
Record Crypto := mkCrypto {
  cr_Key : Type;
  cr_generate : N -> result string cr_Key;
  cr_serialize_pem : cr_Key -> string;
  cr_from_pem : string -> result string cr_Key;
  cr_self_signed : N -> cr_Key -> result string string;
  cr_issuer : string -> cr_Key -> result string unit;
}.

Record CaOutcome := mkCaOutcome {
  ko_read_key : fault;
  ko_entropy : N;
  ko_write_key : WriteOutcome;
  ko_read_cert : fault;
  ko_write_cert : WriteOutcome;
}.

Section ca.
Context (crypto : Crypto).
Record NodeCa := mkNodeCa { nca_cert_pem : string; nca_key : cr_Key crypto }.

Definition CERT : string := "edge-ca.pem".
Definition KEY : string := "edge-ca.key".
Definition shown (dir file : string) : string := dir +:+ "/" +:+ file.

(** The key, read or made. *)
Definition load_key (dir : string) (o : CaOutcome) : dirM (cr_Key crypto) :=
  files ← dir_get;
  match ko_read_key o, files !! KEY with
  | Some e, _ => lift (Err ("read " +:+ shown dir KEY +:+ ": " +:+ e))
  | None, Some pem =>
      lift (map_err (fun e => shown dir KEY +:+ " isn't a key the edge's CA can use (" +:+ e
        +:+ "); remove it and " +:+ shown dir CERT +:+ " to make a new CA") (cr_from_pem crypto pem))
  | None, None =>
      match files !! CERT with
      | Some _ => lift (Err (shown dir CERT +:+ " has no key next to it at " +:+ shown dir KEY
                    +:+ "; remove it to make a new CA"))
      | None =>
          key ← lift (cr_generate crypto (ko_entropy o));
          _ ← write_whole (ko_write_key o) KEY (cr_serialize_pem crypto key);
          mret key
      end
  end.
(** The certificate, read or made from the key. *)
Definition load_cert (dir : string) (o : CaOutcome) (key : cr_Key crypto) : dirM string :=
  files ← dir_get;
  match ko_read_cert o, files !! CERT with
  | Some e, _ => lift (Err ("read " +:+ shown dir CERT +:+ ": " +:+ e))
  | None, Some pem => mret pem
  | None, None =>
      cert ← lift (map_err (fun e => "make the Node's CA: " +:+ e) (cr_self_signed crypto (ko_entropy o) key));
      _ ← write_whole (ko_write_cert o) CERT cert;
      mret cert
  end.
(** [NodeCa::load_or_create]. *)
Definition load_or_create (dir : string) (o : CaOutcome) : dirM NodeCa :=
  key ← load_key dir o;
  cert_pem ← load_cert dir o key;
  _ ← lift (map_err (fun e => shown dir CERT +:+ " isn't a CA certificate (" +:+ e
        +:+ "); remove it and its key to make a new CA") (cr_issuer crypto cert_pem key));
  mret (mkNodeCa cert_pem key).
End ca.

(** ** Which certificate a client is shown *)

(** A certificate with its key, as served: who it is for and who issued it. *)
Inductive Issuer := ByNodeCa | ByAcme.
Record HostCertificate := mkHostCertificate { hc_host : string; hc_issuer : Issuer; hc_expires : N }.
Definition lasts (now margin : N) (c : HostCertificate) : bool := (now + margin <? hc_expires c)%N.
Definition LEAF_VALIDITY : N := 397 * 24 * 60 * 60.
Definition RESIGN_WITHIN : N := 30 * 24 * 60 * 60.

(** [NodeCa::certify]; [f] is the crates' answer. *)
Definition certify (f : fault) (now : N) (host : string) : result string HostCertificate :=
  match f with
  | Some e => Err e
  | None => Ok (mkHostCertificate host ByNodeCa (now + LEAF_VALIDITY))
  end.

(** [HostCertificates::resolve]: [acme] is the ACME client's certificate of
    a host, where there is a client; [signed] the certificates signed so
    far. *)
Definition resolve_certificate (routed : string -> bool) (acme : option (string -> option HostCertificate)) (f : fault)
    (now : N) (signed : gmap string HostCertificate) (server_name : option string)
    : gmap string HostCertificate * option HostCertificate :=
  match server_name with
  | None => (signed, None)
  | Some name =>
      let host := to_lower (trim_end_matches "." name) in
      if negb (routed host) then (signed, None)
      else
        let from_ca :=
          match (c ← signed !! host; if lasts now RESIGN_WITHIN c then Some c else None) with
          | Some c => (signed, Some c)
          | None => match certify f now host with
                    | Ok c => (<[host := c]> signed, Some c)
                    | Err _ => (signed, None)
                    end
          end in
        match acme with
        | Some certificate => if is_public host then (signed, certificate host) else from_ca
        | None => from_ca
        end
  end.
