(* ===== verification/Acme.v ===== *)
(** * Certificates from an ACME CA ([crates/cirro-edge/src/acme.rs])

    The client's shared state and its orders as tasks that interleave: each
    lock of a mutex is one step. What the CA answers an order is an
    argument. *)

From S2P Require Import Prelude RustStr Proto Subnet Store Validate Vm Machine Edge Agent Trace Tls.

Definition RENEW_WITHIN : N := 30 * 24 * 60 * 60.
Definition FIRST_RETRY_AFTER : N := 5 * 60.
Definition MAX_RETRY_AFTER : N := 6 * 60 * 60.

(** [Acme], with the orders under way: their [PendingOrder]s, each with its
    host and the tokens it has answered. *)
Record PendingOrder := mkPendingOrder { pn_host : string; pn_tokens : list string }.
Record Acme := mkAcme {
  ac_challenges : gmap string string;
  ac_certificates : gmap string HostCertificate;
  ac_ordering : gset string;
  ac_failed : gmap string (N * N);
}.
Definition acme_empty : Acme := mkAcme ∅ ∅ ∅ ∅.
Definition set_challenges (x : gmap string string) (a : Acme) : Acme :=
  mkAcme x (ac_certificates a) (ac_ordering a) (ac_failed a).
Definition set_certificates (x : gmap string HostCertificate) (a : Acme) : Acme :=
  mkAcme (ac_challenges a) x (ac_ordering a) (ac_failed a).
Definition set_ordering (x : gset string) (a : Acme) : Acme :=
  mkAcme (ac_challenges a) (ac_certificates a) x (ac_failed a).
Definition set_failed (x : gmap string (N * N)) (a : Acme) : Acme :=
  mkAcme (ac_challenges a) (ac_certificates a) (ac_ordering a) x.

(** [Acme::load]: each stored certificate that can be read ([read]). *)
Definition acme_host (name : string) : option string := n ← strip_prefix "acme-" name; strip_suffix ".pem" n.
Definition acme_path (host : string) : string := "acme-" +:+ host +:+ ".pem".
(** [read_certificate], of the stored files: what the crates make of a PEM
    file's certificates, of one of them (its [notAfter], in seconds since
    1970), and of the file's private key. *)
Record PemReader := mkPemReader {
  pm_chain : string -> result string (list string);
  pm_not_after : string -> result string Z;
  pm_key : string -> result string string;
  pm_load_key : string -> fault;
}.
Definition read_certificate (pm : PemReader) (files : gmap string (result string string)) (host : string)
    : result string HostCertificate :=
  pem ← map_err (fun e => "read it: " +:+ e)
          (default (Err "No such file or directory (os error 2)") (files !! acme_path host));
  chain ← map_err (fun e => "parse the chain: " +:+ e) (pm_chain pm pem);
  leaf ← ok_or (head chain) "it holds no certificate";
  not_after ← map_err (fun e => "parse the certificate: " +:+ e) (pm_not_after pm leaf);
  key ← map_err (fun e => "parse the key: " +:+ e) (pm_key pm pem);
  _ ← map_err (fun e => "load the key: " +:+ e) (fault_result (pm_load_key pm key));
  Ok (mkHostCertificate host ByAcme (Z.to_N not_after)).
Definition load_entry (read : string -> result string HostCertificate) (a : Acme) (name : string) : Acme :=
  match acme_host name with
  | None => a
  | Some host => match read host with
                 | Ok c => set_certificates (<[host := c]> (ac_certificates a)) a
                 | Err _ => a
                 end
  end.
Definition acme_load (read : string -> result string HostCertificate) (names : list string) : Acme :=
  foldl (load_entry read) acme_empty names.

(** [Acme::challenge] and [Acme::certificate]. *)
Definition acme_challenge (token : string) (a : Acme) : option string := ac_challenges a !! token.
Definition acme_certificate (now : N) (a : Acme) (host : string) : option HostCertificate :=
  c ← ac_certificates a !! host; if lasts now 0 c then Some c else None.

(** [ensure], up to the order: whether there is a reason not to. *)
Definition is_fresh (now : N) (a : Acme) (host : string) : bool :=
  match ac_certificates a !! host with Some c => lasts now RENEW_WITHIN c | None => false end.
Definition is_waiting (now : N) (a : Acme) (host : string) : bool :=
  match ac_failed a !! host with Some (retry_at, _) => (now <? retry_at)%N | None => false end.
(** [PendingOrder::start], [answer] and [drop]. *)
Definition order_start (host : string) (a : Acme) : Acme * option PendingOrder :=
  if bool_decide (host ∈ ac_ordering a) then (a, None)
  else (set_ordering ({[host]} ∪ ac_ordering a) a, Some (mkPendingOrder host [])).
Definition order_answer (token key_authorization : string) (p : PendingOrder) (a : Acme) : Acme * PendingOrder :=
  (set_challenges (<[token := key_authorization]> (ac_challenges a)) a, mkPendingOrder (pn_host p) (pn_tokens p ++ [token])).
Definition order_drop (p : PendingOrder) (a : Acme) : Acme :=
  set_ordering (ac_ordering a ∖ {[pn_host p]})
    (set_challenges (foldl (fun m t => delete t m) (ac_challenges a) (pn_tokens p)) a).
(** What [ensure] records of the order's end. *)
Definition retry_wait (host : string) (a : Acme) : N :=
  match ac_failed a !! host with
  | None => FIRST_RETRY_AFTER
  | Some (_, last) => N.min (last * 2) MAX_RETRY_AFTER
  end.
Definition order_ended (now : N) (host : string) (r : result string HostCertificate) (a : Acme)
    : Acme * result string unit :=
  match r with
  | Ok c => (set_certificates (<[host := c]> (ac_certificates a)) (set_failed (delete host (ac_failed a)) a), Ok tt)
  | Err e =>
      let wait := retry_wait host a in
      (set_failed (<[host := (now + wait, wait)%N]> (ac_failed a)) a,
       Err (e +:+ "; trying again in " +:+ dec (wait / 60) +:+ " min"))
  end.

(** ** An order

    What the CA says of one authorization, and of the order. *)
Inductive AuthorizationStatus := AuthPending | AuthValid | AuthOther (debug : string).
Record Authorization := mkAuthorization {
  au_status : AuthorizationStatus;
  au_http01 : option (string * string);
  au_ready : fault;
}.
Inductive OrderStatus := OrderReady | OrderOther (debug : string).
Record OrderOutcome := mkOrderOutcome {
  oo_account : fault;
  oo_new_order : fault;
  oo_authorizations : list (result string Authorization);
  oo_poll_ready : result string OrderStatus;
  oo_finalize : fault;
  oo_certificate : fault;
  oo_store : fault;
  oo_read : result string HostCertificate;
}.
(** The loop over the authorizations: each answers its challenge before it
    tells the CA it is ready. *)
Fixpoint authorize (authorizations : list (result string Authorization)) (p : PendingOrder) (a : Acme)
    : Acme * PendingOrder * result string unit :=
  match authorizations with
  | [] => (a, p, Ok tt)
  | Err e :: _ => (a, p, Err ("read an authorization: " +:+ e))
  | Ok au :: rest =>
      match au_status au with
      | AuthValid => authorize rest p a
      | AuthOther status => (a, p, Err ("the authorization is " +:+ status))
      | AuthPending =>
          match au_http01 au with
          | None => (a, p, Err "the CA offered no HTTP-01 challenge")
          | Some (token, key_authorization) =>
              let '(a, p) := order_answer token key_authorization p a in
              match au_ready au with
              | Some e => (a, p, Err ("start the challenge: " +:+ e))
              | None => authorize rest p a
              end
          end
      end
  end.
Definition order (o : OrderOutcome) (p : PendingOrder) (a : Acme) : Acme * PendingOrder * result string HostCertificate :=
  let host := pn_host p in
  match (_ ← fault_result (oo_account o); map_err (fun e => "place the order: " +:+ e) (fault_result (oo_new_order o))) with
  | Err e => (a, p, Err e)
  | Ok _ =>
      match authorize (oo_authorizations o) p a with
      | (a, p, Err e) => (a, p, Err e)
      | (a, p, Ok _) =>
          (a, p,
           status ← map_err (fun e => "wait for validation: " +:+ e) (oo_poll_ready o);
           _ ← match status with
               | OrderReady => Ok tt
               | OrderOther s => Err ("the CA didn't validate " +:+ host +:+ " (order " +:+ s
                   +:+ "): is the HTTP edge reachable at http://" +:+ host +:+ "/ on port 80?")
               end;
           _ ← map_err (fun e => "finalize the order: " +:+ e) (fault_result (oo_finalize o));
           _ ← map_err (fun e => "fetch the certificate: " +:+ e) (fault_result (oo_certificate o));
           _ ← map_err (fun e => "store the certificate: " +:+ e) (fault_result (oo_store o));
           oo_read o)
      end
  end.
(** [ensure] as one call with nothing else running. *)
Definition ensure (now later : N) (o : OrderOutcome) (host : string) (a : Acme) : Acme * result string unit :=
  if is_fresh now a host || is_waiting now a host then (a, Ok tt)
  else match order_start host a with
       | (a, None) => (a, Ok tt)
       | (a, Some p) =>
           let '(a, p, r) := order o p a in
           let '(a, r) := order_ended later host r a in
           (order_drop p a, r)
       end.

(** ** The account *)

(** The crates: an account's credentials as JSON, and what the CA makes of
    them or for a new account; the start of a SHA-256, in hexadecimal. *)
Record AcmeClient := mkAcmeClient {
  am_Credentials : Type;
  am_to_json : am_Credentials -> result string string;
  am_from_json : string -> result string am_Credentials;
  am_digest : string -> string;
}.
Record AccountOutcome (client : AcmeClient) := mkAccountOutcome {
  at_builder : fault;
  at_read : fault;
  at_restore : fault;
  at_create : result string (am_Credentials client);
  at_store : WriteOutcome;
}.
Arguments at_builder {client}.
Arguments at_read {client}.
Arguments at_restore {client}.
Arguments at_create {client}.
Arguments at_store {client}.
Section account.
Context (client : AcmeClient).
Definition account_path (directory : string) : string := "acme-account-" +:+ am_digest client directory +:+ ".json".
(** [Acme::account]: the cell's, the stored one, or a new one, stored before
    it is used. *)
Definition account (dir directory : string) (o : AccountOutcome client) (cell : option (am_Credentials client))
    : dirM (am_Credentials client) :=
  match cell with
  | Some c => mret c
  | None =>
      _ ← lift (map_err (fun e => "set up the ACME client: " +:+ e) (fault_result (at_builder o)));
      files ← dir_get;
      match at_read o, files !! account_path directory with
      | Some e, _ => lift (Err ("read " +:+ shown dir (account_path directory) +:+ ": " +:+ e))
      | None, Some json =>
          c ← lift (map_err (fun e => "read " +:+ shown dir (account_path directory) +:+ ": " +:+ e) (am_from_json client json));
          _ ← lift (map_err (fun e => "load the ACME account: " +:+ e) (fault_result (at_restore o)));
          mret c
      | None, None =>
          c ← lift (map_err (fun e => "make an ACME account: " +:+ e) (at_create o));
          json ← lift (am_to_json client c);
          _ ← with_context "store the ACME account" (write_whole (at_store o) (account_path directory) json);
          mret c
      end
  end.
End account.
