(* ===== verification/TlsLaws.v ===== *)
(** * The edge's certificates: guarantees *)

From S2P Require Import Prelude RustStr Proto Subnet Store Validate Vm VmEnd VmLaws Machine Edge Agent AgentSys AgentHost AgentBoot AgentProps Trace Tls Acme.

(** ** Writing a file whole *)

Section write.
Context (I : Dir -> Prop).
Lemma traced_dir_step g (P : Dir -> Prop) Q :
  (forall d, P d -> I (g d) /\ Q (Ok tt) (g d)) -> traced id I P (dir_step g) Q.
Proof. intros H d Hd. destruct (H _ Hd). split; [by repeat constructor|done]. Qed.
Lemma traced_dir_get {B} (P : Dir -> Prop) (k : Dir -> dirM B) R :
  (forall d, P d -> traced id I (fun d' => d' = d /\ P d') (k d) R) -> traced id I P (dir_get ≫= k) R.
Proof.
  intros Hk d Hd. unfold mbind, trace_bind, dir_get. specialize (Hk d Hd d (conj eq_refl Hd)).
  destruct (k d d) as [[t d'] r]. done.
Qed.

(** In every state it shows, [path] holds what it held or all of the bytes,
    and no other file but the temporary one changes. *)
Definition same_but (names : list string) (d d' : Dir) : Prop := forall n, n ∉ names -> d' !! n = d !! n.
Lemma write_whole_spec o path bytes d0 :
  path +:+ ".tmp" <> path ->
  (forall d, same_but [path +:+ ".tmp"] d0 d -> I d) ->
  (forall d, same_but [path +:+ ".tmp"; path] d0 d -> d !! path = Some bytes -> I d) ->
  traced id I (fun d => d = d0) (write_whole o path bytes)
    (fun r d => I d /\ match r with
                       | Ok _ => same_but [path +:+ ".tmp"; path] d0 d /\ d !! path = Some bytes
                       | Err _ => same_but [path +:+ ".tmp"] d0 d
                       end).
Proof.
  intros Hne Hold Hnew. set (tmp := path +:+ ".tmp") in *. unfold write_whole. fold tmp.
  set (Q := fun (r : result string unit) d => I d /\ same_but [tmp] d0 d).
  assert (Hins : forall d b, same_but [tmp] d0 d -> same_but [tmp] d0 (<[tmp := b]> d)).
  { intros d b Hs n Hn. rewrite lookup_insert_ne by set_solver. by apply Hs. }
  apply (traced_bind _ _ _ _ Q); [| |by intros e d [? ?]].
  { apply traced_dir_step. intros d ->. assert (same_but [tmp] d0 (delete tmp d0)).
    { intros n Hn. apply lookup_delete_ne. set_solver. }
    split; [by apply Hold|]. split; [by apply Hold|done]. }
  intros []. apply (traced_bind _ _ _ _ Q); [apply traced_lift; by intros d [? ?]| |by intros e d [? ?]].
  intros []. apply (traced_bind _ _ _ _ Q); [| |by intros e d [? ?]].
  { apply traced_dir_step. intros d [_ Hs]. pose proof (Hold _ (Hins d "" Hs)). split; [done|]. split; [done|by apply Hins]. }
  intros []. apply (traced_bind _ _ _ _ (fun r d => I d /\ same_but [tmp] d0 d /\
    match r with Ok _ => d !! tmp = Some bytes | Err _ => True end)); [| |by intros e d (? & ? & _)].
  { destruct (wo_write o) as [[part e]|].
    - apply (traced_bind _ _ _ _ Q); [| |by intros e' d [? ?]].
      + apply traced_dir_step. intros d [_ Hs]. pose proof (Hold _ (Hins d part Hs)). split; [done|]. split; [done|by apply Hins].
      + intros []. apply traced_lift. by intros d [? ?].
    - apply traced_dir_step. intros d [_ Hs]. pose proof (Hold _ (Hins d bytes Hs)). split; [done|].
      split_and!; [done|by apply Hins|apply lookup_insert_eq]. }
  intros []. set (R := fun (r : result string unit) d => I d /\ same_but [tmp] d0 d /\ d !! tmp = Some bytes).
  apply (traced_bind _ _ _ _ R); [apply traced_lift; by intros d ?| |by intros e d (? & ? & _)].
  intros []. apply (traced_bind _ _ _ _ R); [apply traced_lift; by intros d ?| |by intros e d (? & ? & _)].
  intros []. apply traced_dir_step. intros d (_ & Hs & Hb). unfold rename_file. rewrite Hb.
  assert (Hp : <[path := bytes]> (delete tmp d) !! path = Some bytes) by apply lookup_insert_eq.
  assert (Hsame : same_but [tmp; path] d0 (<[path := bytes]> (delete tmp d))).
  { intros n Hn. rewrite lookup_insert_ne, lookup_delete_ne by set_solver. apply Hs. set_solver. }
  split; [by apply Hnew|]. split; [by apply Hnew|done].
Qed.
End write.

(** ** The CA *)

Section ca.
Context (crypto : Crypto).

(** What the crates document: a key's PEM reads back as the key, and a
    certificate it signed itself makes an issuer with it. *)
Record crypto_ok : Prop := {
  ck_pem : forall k, cr_from_pem crypto (cr_serialize_pem crypto k) = Ok k;
  ck_issuer : forall n k c, cr_self_signed crypto n k = Ok c -> cr_issuer crypto c k = Ok tt;
}.
Hypothesis Hcrypto : crypto_ok.

(** A certificate has its key next to it, and is that key's own. *)
Definition ca_inv (d : Dir) : Prop :=
  (d !! KEY = None -> d !! CERT = None) /\
  forall kp, d !! KEY = Some kp -> exists k, kp = cr_serialize_pem crypto k /\
    forall cp, d !! CERT = Some cp -> exists n, cr_self_signed crypto n k = Ok cp.
(** Neither file changes once it is there. *)
Definition ca_kept (d d' : Dir) : Prop :=
  (forall x, d !! KEY = Some x -> d' !! KEY = Some x) /\ (forall x, d !! CERT = Some x -> d' !! CERT = Some x).
Definition ca_next (d d' : Dir) : Prop := ca_inv d' /\ ca_kept d d'.

Lemma ca_kept_refl d : ca_kept d d.
Proof. by split. Qed.
Lemma ca_kept_trans d1 d2 d3 : ca_kept d1 d2 -> ca_kept d2 d3 -> ca_kept d1 d3.
Proof. intros [H1 H2] [H3 H4]. split; auto. Qed.
Lemma ca_same d d' : d' !! KEY = d !! KEY -> d' !! CERT = d !! CERT -> ca_inv d -> ca_next d d'.
Proof. intros Hk Hc Hi. unfold ca_next, ca_inv, ca_kept. rewrite Hk, Hc. auto. Qed.

Lemma load_key_spec dir o d0 :
  ca_inv d0 ->
  traced id (ca_next d0) (fun d => d = d0) (load_key crypto dir o)
    (fun r d => ca_next d0 d /\ match r with Ok k => d !! KEY = Some (cr_serialize_pem crypto k) | Err _ => True end).
Proof.
  intros Hi. unfold load_key. apply traced_dir_get. intros d ->.
  assert (Hself : ca_next d0 d0) by by apply ca_same.
  destruct (ko_read_key o) as [e|]; [apply traced_lift; by intros d [-> _]|].
  destruct (d0 !! KEY) as [kp|] eqn:Hk.
  { apply traced_lift. intros d [-> _]. split; [done|]. destruct Hi as [_ Hi]. destruct (Hi kp Hk) as (k & -> & _).
    by rewrite (ck_pem Hcrypto). }
  destruct (d0 !! CERT) as [c|] eqn:Hc; [apply traced_lift; by intros d [-> _]|].
  destruct (cr_generate crypto (ko_entropy o)) as [key|e].
  2:{ apply (traced_bind _ _ _ _ (fun r d => d = d0 /\ r = Err e)); [apply traced_lift; by intros d [-> _]| |by intros e' d [-> _]].
      intros a d [_ ?]. done. }
  apply (traced_bind _ _ _ _ (fun r d => d = d0 /\ r = Ok key)); [apply traced_lift; by intros d [-> _]| |by intros e' d [-> _]].
  intros a. apply (traced_weaken _ _ _ (fun d => d = d0 /\ a = key) _ _ (fun r d => ca_next d0 d /\
    match r with Ok k => d !! KEY = Some (cr_serialize_pem crypto k) | Err _ => True end)); [|by intros d [-> [= ->]]|done].
  apply traced_pure. intros ->.
  apply (traced_bind _ _ _ _ (fun r d => ca_next d0 d /\ match r with
    | Ok _ => d !! KEY = Some (cr_serialize_pem crypto key) | Err _ => True end)).
  - eapply traced_weaken; [apply (write_whole_spec (ca_next d0) _ KEY (cr_serialize_pem crypto key) d0)|done|].
    + discriminate.
    + intros d Hs. apply ca_same; [apply Hs; set_solver|apply Hs; set_solver|done].
    + intros d Hs Hd. assert (Hcd : d !! CERT = None) by (rewrite <-Hc; apply Hs; set_solver). split.
      * split; [congruence|]. intros kp Hkp. exists key. split; [congruence|]. congruence.
      * split; [|congruence]. congruence.
    + simpl. intros [[]|e] d [Hn Hr]; split; try done. by destruct Hr.
  - intros []. apply traced_ret. by intros d [? ?].
  - by intros e d [? _].
Qed.
Lemma load_cert_spec dir o key d0 d1 :
  ca_next d0 d1 -> d1 !! KEY = Some (cr_serialize_pem crypto key) ->
  traced id (ca_next d0) (fun d => d = d1) (load_cert crypto dir o key)
    (fun r d => ca_next d0 d /\ match r with
       | Ok c => d !! KEY = Some (cr_serialize_pem crypto key) /\ d !! CERT = Some c
       | Err _ => True end).
Proof.
  intros [Hi Hkept] Hk. unfold load_cert. apply traced_dir_get. intros d ->.
  destruct (ko_read_cert o) as [e|]; [apply traced_lift; by intros d [-> _]|].
  destruct (d1 !! CERT) as [c|] eqn:Hc; [apply traced_ret; by intros d [-> _]|].
  destruct (cr_self_signed crypto (ko_entropy o) key) as [cert|e] eqn:Hs.
  2:{ apply (traced_bind _ _ _ _ (fun r d => d = d1 /\ exists e', r = Err e')).
      - apply traced_lift. intros d [-> _]. split; [done|by eexists].
      - by intros a d [_ [? ?]].
      - by intros e' d [-> _]. }
  apply (traced_bind _ _ _ _ (fun r d => d = d1 /\ r = Ok cert)); [apply traced_lift; by intros d [-> _]| |by intros e' d [-> _]].
  intros a. apply (traced_weaken _ _ _ (fun d => d = d1 /\ a = cert) _ _ (fun r d => ca_next d0 d /\ match r with
    | Ok c => d !! KEY = Some (cr_serialize_pem crypto key) /\ d !! CERT = Some c | Err _ => True end));
    [|by intros d [-> [= ->]]|done].
  apply traced_pure. intros ->.
  apply (traced_bind _ _ _ _ (fun r d => ca_next d0 d /\ match r with
    | Ok _ => d !! KEY = Some (cr_serialize_pem crypto key) /\ d !! CERT = Some cert | Err _ => True end)).
  - eapply traced_weaken; [apply (write_whole_spec (ca_next d0) _ CERT cert d1)|done|].
    + discriminate.
    + intros d Hsame. destruct (ca_same d1 d) as [? Hkd]; [apply Hsame; set_solver|apply Hsame; set_solver|done|].
      split; [done|by eapply ca_kept_trans].
    + intros d Hsame Hd. assert (Hkd : d !! KEY = d1 !! KEY) by (apply Hsame; set_solver). split.
      * split; [congruence|]. intros kp Hkp. exists key. split; [congruence|]. intros cp Hcp. exists (ko_entropy o). congruence.
      * destruct Hkept as [H1 H2]. split; [intros x Hx; rewrite Hkd; by apply H1|]. intros x Hx%H2. congruence.
    + simpl. intros [[]|e] d [Hn Hr]; split; try done. destruct Hr as [Hsame Hd]. split; [|done].
      rewrite <-Hk. apply Hsame. set_solver.
  - intros []. apply traced_ret. by intros d [? ?].
  - by intros e d [? _].
Qed.
Lemma load_or_create_spec dir o d0 :
  ca_inv d0 ->
  traced id (ca_next d0) (fun d => d = d0) (load_or_create crypto dir o)
    (fun r d => ca_next d0 d /\ match r with
       | Ok ca => d !! KEY = Some (cr_serialize_pem crypto (nca_key crypto ca)) /\ d !! CERT = Some (nca_cert_pem crypto ca)
       | Err _ => True end).
Proof.
  intros Hi. unfold load_or_create.
  apply (traced_bind _ _ _ _ (fun r d => ca_next d0 d /\ match r with
    | Ok k => d !! KEY = Some (cr_serialize_pem crypto k) | Err _ => True end)); [by apply load_key_spec| |by intros e d [? _]].
  intros key d1 [Hn Hk]. revert d1 Hn Hk. simpl.
  cut (forall d1, ca_next d0 d1 -> d1 !! KEY = Some (cr_serialize_pem crypto key) ->
    traced id (ca_next d0) (fun d => d = d1) (cert_pem ← load_cert crypto dir o key;
      _ ← lift (map_err (fun e => shown dir CERT +:+ " isn't a CA certificate (" +:+ e
        +:+ "); remove it and its key to make a new CA") (cr_issuer crypto cert_pem key));
      mret (mkNodeCa crypto cert_pem key)) (fun r d => ca_next d0 d /\ match r with
       | Ok ca => d !! KEY = Some (cr_serialize_pem crypto (nca_key crypto ca)) /\ d !! CERT = Some (nca_cert_pem crypto ca)
       | Err _ => True end)).
  { intros H d1 Hn Hk. by apply (H d1 Hn Hk d1). }
  intros d1 Hn Hk. apply (traced_bind _ _ _ _ (fun r d => ca_next d0 d /\ match r with
    | Ok c => d !! KEY = Some (cr_serialize_pem crypto key) /\ d !! CERT = Some c | Err _ => True end));
    [by apply load_cert_spec| |by intros e d [? _]].
  intros cert. apply (traced_bind _ _ _ _ (fun r d => ca_next d0 d /\
    d !! KEY = Some (cr_serialize_pem crypto key) /\ d !! CERT = Some cert)); [apply traced_lift; by intros d ?| |by intros e d [? _]].
  intros u. apply traced_ret. by intros d ?.
Qed.

(** *** Starts that meet no fault *)
Definition no_faults : WriteOutcome := mkWriteOutcome None None None None.
Definition clean_start (entropy : N) : CaOutcome := mkCaOutcome None entropy no_faults None no_faults.
Definition entropy_works (entropy : N) : Prop :=
  (exists k, cr_generate crypto entropy = Ok k) /\ forall k, exists c, cr_self_signed crypto entropy k = Ok c.

Lemma load_key_clean dir n d :
  ca_inv d -> entropy_works n -> exists t d' k, load_key crypto dir (clean_start n) d = (t, d', Ok k).
Proof.
  intros [Hnone Hsome] [[k Hk] _]. unfold load_key, mbind, trace_bind, dir_get; simpl.
  destruct (d !! KEY) as [kp|] eqn:Hkey.
  { destruct (Hsome kp eq_refl) as (k' & -> & _). rewrite (ck_pem Hcrypto). unfold lift. by do 3 eexists. }
  rewrite (Hnone eq_refl), Hk. by do 3 eexists.
Qed.
Lemma load_cert_clean dir n key d :
  entropy_works n -> exists t d' c, load_cert crypto dir (clean_start n) key d = (t, d', Ok c).
Proof.
  intros [_ Hs]. unfold load_cert, mbind, trace_bind, dir_get; simpl.
  destruct (d !! CERT) as [c|]; [by do 3 eexists|]. destruct (Hs key) as [c ->]. by do 3 eexists.
Qed.
Lemma load_or_create_clean dir n d :
  ca_inv d -> entropy_works n -> exists t d' ca, load_or_create crypto dir (clean_start n) d = (t, d', Ok ca).
Proof.
  intros Hi Hn. destruct (load_key_clean dir n d Hi Hn) as (t1 & d1 & key & E1).
  pose proof (load_key_spec dir (clean_start n) d Hi d eq_refl) as Hkey. rewrite E1 in Hkey.
  destruct Hkey as (_ & Hnext & Hk).
  destruct (load_cert_clean dir n key d1 Hn) as (t2 & d2 & c & E2).
  pose proof (load_cert_spec dir (clean_start n) key d d1 Hnext Hk d1 eq_refl) as Hcert. rewrite E2 in Hcert.
  destruct Hcert as (_ & [[_ Hi2] _] & Hk2 & Hc2). destruct (Hi2 _ Hk2) as (k' & Hp & Hself).
  assert (k' = key) as ->.
  { pose proof (ck_pem Hcrypto key) as H1. unfold id in *. rewrite Hp, (ck_pem Hcrypto) in H1. congruence. }
  destruct (Hself _ Hc2) as [n' Hc]. unfold load_or_create, mbind, trace_bind. rewrite E1, E2.
  rewrite (ck_issuer Hcrypto _ _ _ Hc). by do 3 eexists.
Qed.
Lemma ca_unique (d : Dir) ca ca' :
  d !! KEY = Some (cr_serialize_pem crypto (nca_key crypto ca)) -> d !! CERT = Some (nca_cert_pem crypto ca) ->
  d !! KEY = Some (cr_serialize_pem crypto (nca_key crypto ca')) -> d !! CERT = Some (nca_cert_pem crypto ca') ->
  ca = ca'.
Proof.
  destruct ca as [c k], ca' as [c' k']; simpl. intros Hk Hc Hk' Hc'.
  pose proof (ck_pem Hcrypto k) as H1. assert (cr_serialize_pem crypto k = cr_serialize_pem crypto k') as Hp by congruence.
  rewrite Hp, (ck_pem Hcrypto) in H1. congruence.
Qed.
End ca.

(** C32: The Node's CA survives a kill at any point of a start, and is made
    once. From a state dir as the agent keeps it (a certificate has its key
    next to it, and is that key's own), whatever fails: every state a start
    goes through is again such a dir, and neither changes nor removes the key
    and the certificate that were there; the CA it answers is the one in the
    files; a start from any of those states that meets no fault answers a CA;
    and once a start answered a CA, no later start that answers one answers
    another. *)
Theorem node_ca_survives_crashes (crypto : Crypto) (dir : string) (o : CaOutcome) (d : Dir) :
  crypto_ok crypto -> ca_inv crypto d ->
  match load_or_create crypto dir o d with
  | (states, d', r) =>
      (forall d1, d1 ∈ states ++ [d'] -> ca_inv crypto d1 /\ ca_kept d d1 /\
        forall n, entropy_works crypto n -> exists t d2 ca, load_or_create crypto dir (clean_start n) d1 = (t, d2, Ok ca)) /\
      forall ca, r = Ok ca ->
        d' !! KEY = Some (cr_serialize_pem crypto (nca_key crypto ca)) /\ d' !! CERT = Some (nca_cert_pem crypto ca) /\
        forall o' t' d'' ca', load_or_create crypto dir o' d' = (t', d'', Ok ca') -> ca' = ca
  end.
Proof.
  intros Hc Hi. pose proof (load_or_create_spec crypto Hc dir o d Hi d eq_refl) as Hs.
  destruct (load_or_create crypto dir o d) as [[states d'] r]. destruct Hs as (Ht & Hn & Hr). unfold id in *. split.
  - intros d1 Hin. assert (ca_next crypto d d1) as [Hi1 Hk1].
    { apply elem_of_app in Hin as [Hin|Hin]; [by eapply Forall_forall in Ht|]. by apply list_elem_of_singleton in Hin as ->. }
    split_and!; [done|done|]. intros n Hent. by apply load_or_create_clean.
  - intros ca ->. destruct Hr as [Hk Hcert]. split_and!; [done|done|]. intros o' t' d'' ca' E.
    pose proof (load_or_create_spec crypto Hc dir o' d' (proj1 Hn) d' eq_refl) as Hs. rewrite E in Hs.
    destruct Hs as (_ & [_ [Hk2 Hc2]] & Hk3 & Hc3). unfold id in *.
    by apply (ca_unique crypto Hc d'' ca' ca); [| |apply Hk2|apply Hc2].
Qed.

(** A crate whose keys are their PEM. *)
Definition toy_crypto : Crypto := mkCrypto string (fun n => Ok (dec n)) (fun k => k) (fun p => Ok p)
  (fun n k => Ok ("ca of " +:+ k)) (fun c k => if decide (c = "ca of " +:+ k) then Ok tt else Err "another key's").
Lemma toy_crypto_ok : crypto_ok toy_crypto.
Proof. split; [done|]. simpl. intros n k c [= <-]. by rewrite decide_True. Qed.
Lemma node_ca_survives_crashes_witness :
  match load_or_create toy_crypto "/s" (mkCaOutcome None 7 no_faults None (mkWriteOutcome None None (Some "EIO") None)) ∅ with
  | (states, d', r) => r = Err "EIO" /\ d' !! KEY = Some "7" /\ length states = 7 /\
      exists ca, (load_or_create toy_crypto "/s" (clean_start 9) d').2 = Ok ca /\ nca_cert_pem _ ca = "ca of 7"
  end /\
  (forall d1, d1 ∈ (load_or_create toy_crypto "/s" (clean_start 7) ∅).1.1 -> ca_inv toy_crypto d1).
Proof.
  split; [vm_compute; split_and!; [reflexivity|reflexivity|reflexivity|eexists; split; reflexivity]|].
  pose proof (node_ca_survives_crashes toy_crypto "/s" (clean_start 7) ∅ toy_crypto_ok) as H.
  assert (Hi : ca_inv toy_crypto ∅) by (split; [done|intros kp Hk; discriminate]). specialize (H Hi).
  destruct (load_or_create toy_crypto "/s" (clean_start 7) ∅) as [[states d'] r]. destruct H as [H _].
  intros d1 Hin. apply (H d1). apply elem_of_app. by left.
Defined.

(** ** The certificate a client is shown *)

(** What the edge has signed: each hostname's certificate is its own. *)
Definition signed_inv (signed : gmap string HostCertificate) : Prop :=
  map_Forall (fun host c => hc_host c = host /\ hc_issuer c = ByNodeCa) signed.
Definition sni_host (name : string) : string := to_lower (trim_end_matches "." name).
(** Whose certificate [host] gets. *)
Definition acme_for (acme : option Acme) (host : string) : option Acme :=
  if is_public host then acme else None.

Lemma certify_ok f now host c :
  certify f now host = Ok c -> hc_host c = host /\ hc_issuer c = ByNodeCa /\ lasts now RESIGN_WITHIN c = true.
Proof.
  unfold certify. destruct f; [done|]. intros [= <-]. split_and!; [done|done|]. unfold lasts; simpl.
  apply N.ltb_lt. unfold LEAF_VALIDITY, RESIGN_WITHIN. lia.
Qed.
Lemma acme_certificate_lasts now a host c :
  acme_certificate now a host = Some c -> ac_certificates a !! host = Some c /\ lasts now 0 c = true.
Proof.
  unfold acme_certificate. destruct (ac_certificates a !! host) as [c'|]; simpl; [|done].
  destruct (lasts now 0 c') eqn:?; [|done]. by intros [= <-].
Qed.

(** C33: The TLS edge shows a client the certificate of the hostname it asked
    for, and only where an App has that hostname. A certificate it shows is
    for the client's SNI, lowercased and without trailing dots, which some
    App's route or Machine App has; where ACME is on and the hostname is
    public it is the one the ACME client holds for exactly that hostname,
    unexpired; otherwise the Node's CA signed it for that hostname, with more
    than a month left. A client gets none only if it named no hostname, no App
    has it, the ACME client has no unexpired one, or signing failed. What is
    signed stays each hostname's own, and no hostname but the asked one's is
    touched. *)
Theorem tls_client_gets_its_hosts_certificate (a : Agent) (acme : option Acme) (f : fault) (now : N)
    (signed : gmap string HostCertificate) (sni : option string) :
  signed_inv signed ->
  match resolve_certificate (routed a) (acme_certificate now <$> acme) f now signed sni with
  | (signed', shown) =>
      signed_inv signed' /\
      (forall h, sni_host <$> sni <> Some h -> signed' !! h = signed !! h) /\
      match shown with
      | Some c => exists name, sni = Some name /\ routed a (sni_host name) = true /\
          match acme_for acme (sni_host name) with
          | Some client => ac_certificates client !! sni_host name = Some c /\ lasts now 0 c = true /\ signed' = signed
          | None => hc_host c = sni_host name /\ hc_issuer c = ByNodeCa /\ lasts now RESIGN_WITHIN c = true /\
              signed' !! sni_host name = Some c
          end
      | None => forall name, sni = Some name -> routed a (sni_host name) = true ->
          match acme_for acme (sni_host name) with
          | Some client => acme_certificate now client (sni_host name) = None
          | None => f <> None
          end
      end
  end.
Proof.
  intros Hs. destruct sni as [name|]; [|by split_and!].
  unfold resolve_certificate. fold (sni_host name). unfold acme_for.
  destruct (routed a (sni_host name)) eqn:Hr; simpl; [|split_and!; [done|done|intros ? [= <-]; congruence]].
  set (host := sni_host name) in *.
  assert (Hca : forall signed' shown,
    match (c ← signed !! host; if lasts now RESIGN_WITHIN c then Some c else None) with
    | Some c => (signed, Some c)
    | None => match certify f now host with Ok c => (<[host := c]> signed, Some c) | Err _ => (signed, None) end
    end = (signed', shown) ->
    signed_inv signed' /\ (forall h, Some host <> Some h -> signed' !! h = signed !! h) /\
    match shown with
    | Some c => hc_host c = host /\ hc_issuer c = ByNodeCa /\ lasts now RESIGN_WITHIN c = true /\ signed' !! host = Some c
    | None => f <> None
    end).
  { intros signed' shown. destruct (signed !! host) as [c|] eqn:Hc; simpl; [destruct (lasts now RESIGN_WITHIN c) eqn:Hl|].
    { intros [= <- <-]. by destruct (Hs _ _ Hc). }
    all: destruct (certify f now host) as [c'|] eqn:Hf; intros [= <- <-].
    all: try (split_and!; [done|done|by unfold certify in Hf; destruct f]).
    all: apply certify_ok in Hf as (? & ? & ?); split_and!; try done; try apply lookup_insert_eq;
      [by apply map_Forall_insert_2|intros h Hh; apply lookup_insert_ne; congruence]. }
  destruct acme as [client|]; simpl; destruct (is_public host) eqn:Hp.
  2-4: destruct (match (_ ← _; _) with Some c => _ | None => _ end) as [signed' shown];
    destruct (Hca _ _ eq_refl) as (? & ? & Hm); (split; [done|split; [done|]]);
    (destruct shown; [exists name; fold host; rewrite ?Hp; auto|intros ? [= <-] _; fold host; rewrite Hp; exact Hm]).
  split_and!; [done|done|]. destruct (acme_certificate now client host) as [c|] eqn:Hc.
  - apply acme_certificate_lasts in Hc as [? ?]. exists name. fold host. rewrite Hp. auto.
  - intros ? [= <-] _. fold host. by rewrite Hp.
Qed.
Lemma tls_client_gets_its_hosts_certificate_witness :
  signed_inv ∅ /\
  exists c, (resolve_certificate (routed (nd_agent ex_up)) (acme_certificate 1000 <$> Some acme_empty) None 1000 ∅
    (Some "WEB.test.")).2 = Some c /\ hc_host c = "web.test" /\ hc_issuer c = ByNodeCa.
Proof.
  assert (Hi : signed_inv ∅) by by apply map_Forall_empty. split; [exact Hi|].
  pose proof (tls_client_gets_its_hosts_certificate (nd_agent ex_up) (Some acme_empty) None 1000 ∅ (Some "WEB.test.") Hi) as H.
  destruct (resolve_certificate _ _ _ _ _ _) as [signed' shown] eqn:E.
  assert (shown = Some (mkHostCertificate "web.test" ByNodeCa (1000 + LEAF_VALIDITY))) as ->.
  { transitivity (signed', shown).2; [reflexivity|]. rewrite <-E. vm_compute. reflexivity. }
  destruct H as (_ & _ & name & [= <-] & _ & Hh & Hb & _). eexists. split; [reflexivity|]. exact (conj Hh Hb).
Defined.
