(* ===== verification/AcmeLaws.v ===== *)
(** * Certificates from an ACME CA: guarantees

    Every [ensure] the agent spawned runs as a task of its own, and the tasks
    interleave at each lock of [Acme]'s mutexes. *)

From S2P Require Import Prelude RustStr Proto Subnet Store Validate Vm Machine Edge Agent Trace Tls Acme TlsLaws.

(** ** Tasks

    How far an [ensure] is: it found the certificate not fresh; it found no
    wait; its order is under way; its order got a certificate, and the wait is
    forgotten; its end is recorded. From the third on it holds a
    [PendingOrder]. *)
Inductive Ensuring :=
  | Stale (host : string)
  | Allowed (host : string)
  | Ordering (p : PendingOrder)
  | Won (p : PendingOrder) (c : HostCertificate)
  | Recorded (p : PendingOrder).
Definition pending (t : Ensuring) : option PendingOrder :=
  match t with Stale _ | Allowed _ => None | Ordering p | Won p _ | Recorded p => Some p end.
Record AcmeState := mkAcmeState { as_acme : Acme; as_tasks : gmap nat Ensuring }.

Section steps.
(** What the protocol promises: the CA gives each token to one order, and a
    key authorization follows from its token and the account's key. *)
Context (issued_to : string -> nat) (key_authorization : string -> string).

Inductive acme_step : AcmeState -> AcmeState -> Prop :=
  | step_check_fresh now i host a ts :
      ts !! i = None -> is_fresh now a host = false ->
      acme_step (mkAcmeState a ts) (mkAcmeState a (<[i := Stale host]> ts))
  | step_check_waiting now i host a ts :
      ts !! i = Some (Stale host) ->
      acme_step (mkAcmeState a ts)
        (mkAcmeState a (if is_waiting now a host then delete i ts else <[i := Allowed host]> ts))
  | step_start i host a ts :
      ts !! i = Some (Allowed host) ->
      acme_step (mkAcmeState a ts)
        (mkAcmeState (order_start host a).1
          (match (order_start host a).2 with Some p => <[i := Ordering p]> ts | None => delete i ts end))
  | step_answer i p token a ts :
      ts !! i = Some (Ordering p) -> issued_to token = i ->
      acme_step (mkAcmeState a ts)
        (mkAcmeState (order_answer token (key_authorization token) p a).1
          (<[i := Ordering (order_answer token (key_authorization token) p a).2]> ts))
  | step_failed now i p e a ts :
      ts !! i = Some (Ordering p) ->
      acme_step (mkAcmeState a ts) (mkAcmeState (order_ended now (pn_host p) (Err e) a).1 (<[i := Recorded p]> ts))
  | step_won i p c a ts :
      ts !! i = Some (Ordering p) ->
      acme_step (mkAcmeState a ts)
        (mkAcmeState (set_failed (delete (pn_host p) (ac_failed a)) a) (<[i := Won p c]> ts))
  | step_certificate i p c a ts :
      ts !! i = Some (Won p c) ->
      acme_step (mkAcmeState a ts)
        (mkAcmeState (set_certificates (<[pn_host p := c]> (ac_certificates a)) a) (<[i := Recorded p]> ts))
  (** the end of [ensure]; a panic or cancellation earlier *)
  | step_drop i t p a ts :
      ts !! i = Some t -> pending t = Some p ->
      acme_step (mkAcmeState a ts) (mkAcmeState (order_drop p a) (delete i ts)).

(** ** The invariant *)

Definition holds (s : AcmeState) (i : nat) (p : PendingOrder) : Prop :=
  exists t, as_tasks s !! i = Some t /\ pending t = Some p.
Definition backoff_ok (a : Acme) : Prop := forall host at_ wait,
  ac_failed a !! host = Some (at_, wait) -> (FIRST_RETRY_AFTER <= wait <= MAX_RETRY_AFTER)%N.
Record acme_inv (s : AcmeState) : Prop := {
  ai_one : forall i j p q, holds s i p -> holds s j q -> pn_host p = pn_host q -> i = j;
  ai_ordering : forall host, host ∈ ac_ordering (as_acme s) <-> exists i p, holds s i p /\ pn_host p = host;
  ai_issued : forall i p token, holds s i p -> token ∈ pn_tokens p -> issued_to token = i;
  ai_served : forall token ka, ac_challenges (as_acme s) !! token = Some ka <->
    ka = key_authorization token /\ exists i p, holds s i p /\ token ∈ pn_tokens p;
  ai_backoff : backoff_ok (as_acme s);
}.

Lemma holds_insert a a' ts i t j p :
  holds (mkAcmeState a (<[i := t]> ts)) j p <-> (j = i /\ pending t = Some p) \/ (j <> i /\ holds (mkAcmeState a' ts) j p).
Proof.
  unfold holds; simpl. destruct (decide (j = i)) as [->|Hji].
  - rewrite lookup_insert_eq. split; [intros (? & [= <-] & ?); auto|]. intros [[_ ?]|[? _]]; [eauto|done].
  - rewrite lookup_insert_ne by done. naive_solver.
Qed.
Lemma holds_delete a a' ts i j p :
  holds (mkAcmeState a (delete i ts)) j p <-> j <> i /\ holds (mkAcmeState a' ts) j p.
Proof.
  unfold holds; simpl. destruct (decide (j = i)) as [->|Hji].
  - rewrite lookup_delete_eq. naive_solver.
  - rewrite lookup_delete_ne by done. naive_solver.
Qed.
Lemma holds_alt s i p : holds s i p <-> (as_tasks s !! i ≫= pending) = Some p.
Proof. unfold holds. destruct (as_tasks s !! i); simpl; naive_solver. Qed.
Lemma holds_replace a a' ts i t' j p :
  (ts !! i ≫= pending) = pending t' -> holds (mkAcmeState a (<[i := t']> ts)) j p <-> holds (mkAcmeState a' ts) j p.
Proof.
  intros H. rewrite !holds_alt; simpl. destruct (decide (j = i)) as [->|Hji].
  - rewrite lookup_insert_eq, H. done.
  - by rewrite lookup_insert_ne.
Qed.
Lemma holds_fun s i p q : holds s i p -> holds s i q -> p = q.
Proof. unfold holds. naive_solver. Qed.

(** A step that changes what no order holds. *)
Lemma acme_inv_same a a' ts ts' :
  (forall j p, holds (mkAcmeState a' ts') j p <-> holds (mkAcmeState a ts) j p) ->
  ac_ordering a' = ac_ordering a -> ac_challenges a' = ac_challenges a ->
  backoff_ok a' ->
  acme_inv (mkAcmeState a ts) -> acme_inv (mkAcmeState a' ts').
Proof.
  intros Hh Ho Hc Hf [H1 H2 H3 H4 H5]. split; simpl in *.
  - intros i j p q Hi%Hh Hj%Hh. by apply H1.
  - intros host. rewrite Ho, H2. by setoid_rewrite Hh.
  - intros i p token Hi%Hh. by apply H3.
  - intros token ka. rewrite Hc, H4. by setoid_rewrite Hh.
  - done.
Qed.
Lemma retry_wait_bounds host a :
  backoff_ok a -> (FIRST_RETRY_AFTER <= retry_wait host a <= MAX_RETRY_AFTER)%N.
Proof.
  intros H. unfold retry_wait. destruct (ac_failed a !! host) as [[at_ last]|] eqn:E.
  - specialize (H _ _ _ E). unfold FIRST_RETRY_AFTER, MAX_RETRY_AFTER in *. lia.
  - unfold FIRST_RETRY_AFTER, MAX_RETRY_AFTER. lia.
Qed.

Lemma foldl_delete_lookup (ts : list string) (m : gmap string string) t :
  foldl (fun m t => delete t m) m ts !! t = if decide (t ∈ ts) then None else m !! t.
Proof.
  revert m. induction ts as [|x ts IH]; intros m; simpl; [done|]. rewrite IH.
  destruct (decide (t ∈ ts)), (decide (t ∈ x :: ts)); try done; try set_solver.
  - assert (t = x) as -> by set_solver. apply lookup_delete_eq.
  - apply lookup_delete_ne. set_solver.
Qed.
Lemma order_start_inv i host a ts :
  acme_inv (mkAcmeState a ts) -> ts !! i = Some (Allowed host) ->
  acme_inv (mkAcmeState (order_start host a).1
    (match (order_start host a).2 with Some p => <[i := Ordering p]> ts | None => delete i ts end)).
Proof.
  intros Hinv Hi. assert (Hni : forall p, ~ holds (mkAcmeState a ts) i p) by (unfold holds; naive_solver).
  unfold order_start. destruct (decide (host ∈ ac_ordering a)) as [Hin|Hout];
    [rewrite bool_decide_true by done|rewrite bool_decide_false by done]; simpl.
  { apply (acme_inv_same a a ts); try done; [|apply Hinv]. intros j p. rewrite (holds_delete a a). naive_solver. }
  destruct Hinv as [H1 H2 H3 H4 H5]. simpl in *.
  assert (Hh : forall j q, holds (mkAcmeState (set_ordering ({[host]} ∪ ac_ordering a) a)
      (<[i := Ordering (mkPendingOrder host [])]> ts)) j q <->
    (j = i /\ q = mkPendingOrder host []) \/ holds (mkAcmeState a ts) j q).
  { intros j q. rewrite (holds_insert _ a). simpl. split; [naive_solver|]. intros [[-> ->]|Hq]; [auto|].
    right. split; [|done]. by intros ->; eapply Hni. }
  assert (Hfree : forall j q, holds (mkAcmeState a ts) j q -> pn_host q <> host).
  { intros j q Hq Hqh. apply Hout, H2. eauto. }
  split; simpl.
  - intros j k p q [[-> ->]|Hj]%Hh [[-> ->]|Hk]%Hh Heq; simpl in *; [done|by destruct (Hfree k q Hk)|by destruct (Hfree j p Hj)|].
    by apply (H1 j k p q).
  - intros h. rewrite elem_of_union, elem_of_singleton, H2. setoid_rewrite Hh. split.
    + intros [->|(j & q & Hq & Hqh)]; [by exists i, (mkPendingOrder host []); auto|by exists j, q; auto].
    + intros (j & q & [[-> ->]|Hq] & Hqh); [by left|right; eauto].
  - intros j q token [[-> ->]|Hj]%Hh Htok; [set_solver|by apply (H3 j q)].
  - intros token ka. rewrite H4. setoid_rewrite Hh. split.
    + intros (-> & j & q & Hq & Htok). split; [done|]. by exists j, q; auto.
    + intros (-> & j & q & [[-> ->]|Hq] & Htok); [set_solver|]. eauto.
  - done.
Qed.
Lemma order_answer_inv i p token a ts :
  acme_inv (mkAcmeState a ts) -> ts !! i = Some (Ordering p) -> issued_to token = i ->
  acme_inv (mkAcmeState (order_answer token (key_authorization token) p a).1
    (<[i := Ordering (order_answer token (key_authorization token) p a).2]> ts)).
Proof.
  intros [H1 H2 H3 H4 H5] Hi Htok. simpl in *. set (p' := mkPendingOrder (pn_host p) (pn_tokens p ++ [token])).
  set (s' := mkAcmeState _ _). assert (Hp : holds (mkAcmeState a ts) i p) by by eexists.
  assert (Hh : forall j q, holds s' j q <-> (j = i /\ q = p') \/ (j <> i /\ holds (mkAcmeState a ts) j q)).
  { intros j q. unfold s'. rewrite (holds_insert _ a). simpl. naive_solver. }
  split; simpl.
  - intros j k q r [[-> ->]|[? Hj]]%Hh [[-> ->]|[? Hk]]%Hh Heq; simpl in *; [done| | |by eapply H1].
    + by apply (H1 i k p r).
    + by apply (H1 j i q p).
  - intros h. rewrite H2. setoid_rewrite Hh. split.
    + intros (j & q & Hq & Hqh). destruct (decide (j = i)) as [->|Hji].
      * pose proof (holds_fun _ _ _ _ Hp Hq) as <-. by exists i, p'; auto.
      * by exists j, q; auto.
    + intros (j & q & [[-> ->]|[? Hq]] & Hqh); [by exists i, p|eauto].
  - intros j q t [[-> ->]|[? Hj]]%Hh Ht; [|by eapply H3]. simpl in Ht.
    apply elem_of_app in Ht as [Ht|Ht]; [by eapply H3|]. by apply list_elem_of_singleton in Ht as ->.
  - intros t ka. destruct (decide (t = token)) as [->|Hne].
    + rewrite lookup_insert_eq. split.
      * intros [= <-]. split; [done|]. exists i, p'. split; [apply Hh; auto|]. simpl. set_solver.
      * by intros [-> _].
    + rewrite lookup_insert_ne by done. rewrite H4. setoid_rewrite Hh. split.
      * intros (-> & j & q & Hq & Ht). split; [done|]. destruct (decide (j = i)) as [->|Hji].
        -- pose proof (holds_fun _ _ _ _ Hp Hq) as <-. exists i, p'. split; [auto|]. simpl. set_solver.
        -- by exists j, q; auto.
      * intros (-> & j & q & [[-> ->]|[? Hq]] & Ht); [|by eauto]. split; [done|]. exists i, p. split; [done|].
        simpl in Ht. set_solver.
  - done.
Qed.
Lemma order_drop_inv i t p a ts :
  acme_inv (mkAcmeState a ts) -> ts !! i = Some t -> pending t = Some p ->
  acme_inv (mkAcmeState (order_drop p a) (delete i ts)).
Proof.
  intros [H1 H2 H3 H4 H5] Hi Hpend. simpl in *. assert (Hp : holds (mkAcmeState a ts) i p) by by eexists.
  set (s' := mkAcmeState _ _).
  assert (Hh : forall j q, holds s' j q <-> j <> i /\ holds (mkAcmeState a ts) j q).
  { intros j q. unfold s'. apply holds_delete. }
  split; simpl.
  - intros j k q r [? Hj]%Hh [? Hk]%Hh. by apply H1.
  - intros h. rewrite elem_of_difference, elem_of_singleton, H2. setoid_rewrite Hh. split.
    + intros [(j & q & Hq & Hqh) Hne]. exists j, q. split_and!; [|done|done]. intros ->.
      pose proof (holds_fun _ _ _ _ Hp Hq) as <-. by destruct Hne.
    + intros (j & q & [Hji Hq] & Hqh). split; [eauto|]. intros ->. apply Hji. by apply (H1 j i q p).
  - intros j q token [? Hj]%Hh. by apply H3.
  - intros token ka. rewrite foldl_delete_lookup. setoid_rewrite Hh. destruct (decide (token ∈ pn_tokens p)) as [Htok|Htok].
    + split; [done|]. intros (-> & j & q & [Hji Hq] & Ht). destruct Hji. by rewrite <-(H3 j q token), (H3 i p token).
    + rewrite H4. split; [|naive_solver]. intros (-> & j & q & Hq & Ht). split; [done|]. exists j, q. split_and!; [|done|done].
      intros ->. by pose proof (holds_fun _ _ _ _ Hp Hq) as <-.
  - done.
Qed.
Lemma acme_step_inv s s' : acme_step s s' -> acme_inv s -> acme_inv s'.
Proof.
  intros Hstep Hinv. destruct Hstep as [now i host a ts Hi|now i host a ts Hi|i host a ts Hi|i p token a ts Hi Ht
    |now i p e a ts Hi|i p c a ts Hi|i p c a ts Hi|i t p a ts Hi Hp].
  - apply (acme_inv_same a a ts); try done; [|apply Hinv]. intros j q. apply holds_replace. by rewrite Hi.
  - apply (acme_inv_same a a ts); try done; [|apply Hinv]. intros j q. destruct (is_waiting now a host).
    + rewrite (holds_delete a a). unfold holds; simpl. naive_solver.
    + apply holds_replace. by rewrite Hi.
  - by apply order_start_inv.
  - by apply order_answer_inv.
  - apply (acme_inv_same a _ ts); try done.
    + intros j q. apply holds_replace. by rewrite Hi.
    + intros host at_ wait; simpl. destruct (decide (host = pn_host p)) as [->|Hne].
      * rewrite lookup_insert_eq. intros [= _ <-]. apply retry_wait_bounds, Hinv.
      * rewrite lookup_insert_ne by done. apply Hinv.
  - apply (acme_inv_same a _ ts); try done.
    + intros j q. apply holds_replace. by rewrite Hi.
    + intros host at_ wait; simpl. intros [_ H]%lookup_delete_Some. by eapply Hinv.
  - apply (acme_inv_same a _ ts); try done; [|apply Hinv].
    intros j q. apply holds_replace. by rewrite Hi.
  - by eapply order_drop_inv.
Qed.

(** From a client just loaded, with whatever certificates it has. *)
Definition acme_reachable (s : AcmeState) : Prop :=
  exists read names, rtc acme_step (mkAcmeState (acme_load read names) ∅) s.
Lemma load_entries_only_certificates read names m :
  exists m', foldl (load_entry read) (set_certificates m acme_empty) names = set_certificates m' acme_empty.
Proof.
  revert m. induction names as [|n names IH]; intros m; simpl; [by eexists|].
  unfold load_entry at 2. destruct (acme_host n) as [host|]; [destruct (read host)|]; apply IH.
Qed.
Lemma acme_reachable_inv s : acme_reachable s -> acme_inv s.
Proof.
  intros (read & names & Hr). assert (H0 : acme_inv (mkAcmeState (acme_load read names) ∅)).
  { unfold acme_load. destruct (load_entries_only_certificates read names ∅) as [m E].
    change (set_certificates ∅ acme_empty) with acme_empty in E. rewrite E. split; simpl; unfold holds; simpl.
    - naive_solver.
    - intros host. split; [set_solver|naive_solver].
    - naive_solver.
    - intros token ka. split; [by rewrite lookup_empty|naive_solver].
    - intros host at_ wait. simpl. by rewrite lookup_empty. }
  revert H0. induction Hr as [|s1 s2 s3 Hs _ IH]; [done|]. intros H. by apply IH, (acme_step_inv s1).
Qed.

(** What a client that starts has: the certificate of every file it can
    read, under the host the file is for. *)
Lemma acme_host_path name host : acme_host name = Some host <-> name = acme_path host.
Proof.
  unfold acme_host, acme_path. split.
  - intros (n & ->%strip_prefix_some & ->%strip_suffix_some)%bind_Some. done.
  - intros ->. rewrite strip_prefix_app. simpl. apply strip_suffix_app.
Qed.
Lemma load_entries_certificates read names a host c :
  ac_certificates (foldl (load_entry read) a names) !! host = Some c <->
  (acme_path host ∈ names /\ read host = Ok c) \/
  ac_certificates a !! host = Some c /\ (acme_path host ∈ names -> exists e, read host = Err e).
Proof.
  revert a. induction names as [|n names IH]; intros a; simpl.
  - rewrite elem_of_nil. naive_solver.
  - rewrite IH, elem_of_cons. unfold load_entry. destruct (acme_host n) as [h|] eqn:Hn.
    + apply acme_host_path in Hn as ->. destruct (decide (h = host)) as [->|Hne].
      * destruct (decide (acme_path host ∈ names)) as [Hin|Hin], (read host) as [c'|e']; simpl; rewrite ?lookup_insert_eq; split;
          intros [[? ?]|[? H]]; simplify_eq; eauto; try (destruct H; [by eauto|done]); right; split; [done|]; by eauto.
      * assert (acme_path host <> acme_path h) as Hp.
        { intros E. apply Hne. pose proof (proj2 (acme_host_path (acme_path h) h) eq_refl) as H1.
          pose proof (proj2 (acme_host_path (acme_path h) host) (eq_sym E)). congruence. }
        destruct (read h); simpl; [rewrite lookup_insert_ne by done|]; naive_solver.
    + assert (acme_path host <> n) as Hp by (intros <-; by rewrite (proj2 (acme_host_path _ host) eq_refl) in Hn).
      naive_solver.
Qed.
Lemma acme_load_certificates read names host c :
  ac_certificates (acme_load read names) !! host = Some c <-> acme_path host ∈ names /\ read host = Ok c.
Proof.
  unfold acme_load. rewrite load_entries_certificates. simpl. rewrite lookup_empty. naive_solver.
Qed.
(** A stored certificate is served until its own end, and one whose end was
    before 1970, as a broken CA's may be, never is. *)
Lemma stored_certificate_is_served pm files names now host :
  acme_certificate now (acme_load (read_certificate pm files) names) host <> None <->
  acme_path host ∈ names /\ exists c, read_certificate pm files host = Ok c /\ (now < hc_expires c)%N.
Proof.
  unfold acme_certificate. destruct (ac_certificates _ !! host) as [c|] eqn:Hc; simpl.
  - apply acme_load_certificates in Hc as [Hin Hr]. unfold lasts. rewrite N.add_0_r.
    destruct (N.ltb_spec now (hc_expires c)) as [|Hle]; [naive_solver|]. split; [done|]. intros (_ & c' & Hc' & Hl).
    rewrite Hr in Hc'. injection Hc' as <-. lia.
  - split; [done|]. intros (Hin & c & Hr & _).
    pose proof (proj2 (acme_load_certificates _ _ _ _) (conj Hin Hr)). congruence.
Qed.
Lemma read_certificate_expires pm files host c :
  read_certificate pm files host = Ok c ->
  hc_host c = host /\ hc_issuer c = ByAcme /\
  exists pem chain leaf not_after, files !! acme_path host = Some (Ok pem) /\ pm_chain pm pem = Ok (leaf :: chain) /\
    pm_not_after pm leaf = Ok not_after /\ hc_expires c = Z.to_N not_after.
Proof.
  unfold read_certificate. destruct (files !! acme_path host) as [[pem|e]|]; simpl; try done.
  destruct (pm_chain pm pem) as [[|leaf chain]|e] eqn:Hc; simpl; try done. destruct (pm_not_after pm leaf) as [n|e] eqn:Hn; simpl; try done.
  destruct (pm_key pm pem) as [key|e]; simpl; try done. destruct (pm_load_key pm key); simpl; try done.
  intros [= <-]. split_and!; try done. by exists pem, chain, leaf, n.
Qed.

(** ** A call on its own is one of the interleavings *)

Definition offers (o : OrderOutcome) (i : nat) : Prop :=
  Forall (fun au => match au with
                    | Ok au => forall token ka, au_http01 au = Some (token, ka) -> issued_to token = i /\ ka = key_authorization token
                    | Err _ => True
                    end) (oo_authorizations o).
Lemma authorize_steps i aus p a ts :
  Forall (fun au => match au with
                    | Ok au => forall token ka, au_http01 au = Some (token, ka) -> issued_to token = i /\ ka = key_authorization token
                    | Err _ => True
                    end) aus ->
  let '(a', p', r) := authorize aus p a in
  rtc acme_step (mkAcmeState a (<[i := Ordering p]> ts)) (mkAcmeState a' (<[i := Ordering p']> ts)) /\ pn_host p' = pn_host p.
Proof.
  intros Haus. revert p a. induction Haus as [|au aus Hau _ IH]; intros p a; simpl; [by split|].
  destruct au as [au|e]; [|by split]. destruct (au_status au); [|apply IH|by split].
  destruct (au_http01 au) as [[token ka]|] eqn:Hhttp; [|by split]. destruct (Hau token ka eq_refl) as [Hiss ->].
  assert (Hone : acme_step (mkAcmeState a (<[i := Ordering p]> ts))
    (mkAcmeState (order_answer token (key_authorization token) p a).1
      (<[i := Ordering (order_answer token (key_authorization token) p a).2]> ts))).
  { pose proof (step_answer i p token a (<[i := Ordering p]> ts) (lookup_insert_eq _ _ _) Hiss) as H.
    by rewrite insert_insert_eq in H. }
  simpl. destruct (au_ready au).
  - split; [by apply rtc_once|done].
  - specialize (IH (mkPendingOrder (pn_host p) (pn_tokens p ++ [token]))
      (set_challenges (<[token := key_authorization token]> (ac_challenges a)) a)).
    destruct (authorize aus _ _) as [[a' p'] r]. destruct IH as [IH Hh]. split; [|done]. by eapply rtc_l.
Qed.
Lemma order_steps i o p a ts :
  offers o i ->
  let '(a', p', r) := order o p a in
  rtc acme_step (mkAcmeState a (<[i := Ordering p]> ts)) (mkAcmeState a' (<[i := Ordering p']> ts)) /\ pn_host p' = pn_host p.
Proof.
  intros Ho. unfold order. destruct (_ ← fault_result (oo_account o); _); [|by split].
  pose proof (authorize_steps i (oo_authorizations o) p a ts Ho) as H.
  destruct (authorize (oo_authorizations o) p a) as [[a' p'] [[]|e]]; done.
Qed.
Lemma order_ended_steps now i p r a ts :
  rtc acme_step (mkAcmeState a (<[i := Ordering p]> ts))
    (mkAcmeState (order_ended now (pn_host p) r a).1 (<[i := Recorded p]> ts)).
Proof.
  assert (Hi : forall t : Ensuring, <[i := t]> ts !! i = Some t) by (intros; apply lookup_insert_eq). destruct r as [c|e].
  - eapply rtc_l; [apply (step_won i p c), Hi|]. rewrite insert_insert_eq.
    eapply rtc_l; [apply (step_certificate i p c), Hi|]. rewrite insert_insert_eq. apply rtc_refl.
  - eapply rtc_l; [apply (step_failed now i p e), Hi|]. rewrite insert_insert_eq. apply rtc_refl.
Qed.
Lemma ensure_steps now later i o host a ts :
  ts !! i = None -> offers o i ->
  rtc acme_step (mkAcmeState a ts) (mkAcmeState (ensure now later o host a).1 ts).
Proof.
  intros Hi Ho. unfold ensure. destruct (is_fresh now a host) eqn:Hf; simpl; [apply rtc_refl|].
  destruct (is_waiting now a host) eqn:Hw; [apply rtc_refl|].
  assert (Hin : forall t : Ensuring, <[i := t]> ts !! i = Some t) by (intros; apply lookup_insert_eq).
  eapply rtc_l; [by apply (step_check_fresh now i host)|].
  eapply rtc_l; [apply (step_check_waiting now i host), Hin|]. rewrite Hw, insert_insert_eq.
  eapply rtc_l; [apply (step_start i host), Hin|].
  destruct (order_start host a) as [a1 [p|]] eqn:Hs; simpl.
  2:{ rewrite delete_insert_eq. assert (delete i ts = ts) as -> by by apply delete_id. apply rtc_refl. }
  rewrite insert_insert_eq. pose proof (order_steps i o p a1 ts Ho) as Hsteps.
  destruct (order o p a1) as [[a2 p2] r] eqn:Hord. destruct Hsteps as [Hsteps Hhost].
  assert (pn_host p = host) as Hph by (unfold order_start in Hs; case_bool_decide; by simplify_eq/=).
  etrans; [exact Hsteps|]. etrans; [apply (order_ended_steps later i p2 r)|]. rewrite Hhost, Hph.
  destruct (order_ended later host r a2) as [a3 r3]; simpl. apply rtc_once.
  rewrite <-(delete_id ts i Hi) at 2. rewrite <-(delete_insert_eq ts i (Recorded p2)).
  by apply (step_drop i (Recorded p2)).
Qed.
End steps.

(** C34: However the agent's certificate orders interleave, panics and
    cancellation included, no two are under way for one hostname at once, and
    an HTTP-01 token is served exactly while an order that answered it is
    under way, with its key authorization: one order's end takes away none of
    another's, and when none is under way nothing is left marked or served. A
    hostname waits between five minutes and six hours after a failed order;
    and a call of [ensure] on its own is one of those interleavings. *)
Theorem orders_never_overlap (issued_to : string -> nat) (key_authorization : string -> string) (s : AcmeState) :
  acme_reachable issued_to key_authorization s ->
  (forall i j p q, holds s i p -> holds s j q -> pn_host p = pn_host q -> i = j) /\
  (forall host, host ∈ ac_ordering (as_acme s) <-> exists i p, holds s i p /\ pn_host p = host) /\
  (forall token ka, acme_challenge token (as_acme s) = Some ka <->
     ka = key_authorization token /\ exists i p, holds s i p /\ token ∈ pn_tokens p) /\
  ((forall i p, ~ holds s i p) -> ac_ordering (as_acme s) = ∅ /\ ac_challenges (as_acme s) = ∅) /\
  backoff_ok (as_acme s) /\
  forall now later i o host, as_tasks s !! i = None -> offers issued_to key_authorization o i ->
    acme_reachable issued_to key_authorization (mkAcmeState (ensure now later o host (as_acme s)).1 (as_tasks s)).
Proof.
  intros Hr. destruct (acme_reachable_inv _ _ s Hr) as [H1 H2 H3 H4 H5]. split_and!; try done.
  - intros Hnone. split.
    + apply set_eq. intros host. rewrite H2. split; [|set_solver]. intros (i & p & Hp & _). by destruct (Hnone i p).
    + apply map_empty. intros token. destruct (ac_challenges (as_acme s) !! token) as [ka|] eqn:E; [|done].
      apply H4 in E as (_ & i & p & Hp & _). by destruct (Hnone i p).
  - intros now later i o host Hi Ho. destruct Hr as (read & names & Hr). exists read, names.
    etrans; [exact Hr|]. destruct s as [a ts]. by apply (ensure_steps _ _ now later i).
Qed.

(** Two tasks for a hostname, one with its order under way. *)
Definition ex_token : OrderOutcome := mkOrderOutcome None None
  [Ok (mkAuthorization AuthPending (Some ("t0", "t0.key")) None)] (Ok OrderReady) None None None
  (Ok (mkHostCertificate "a.dev" ByAcme 8000000)).
Definition ex_two_tasks : AcmeState := mkAcmeState
  (order_answer "t0" "t0.key" (mkPendingOrder "a.dev" []) (order_start "a.dev" acme_empty).1).1
  {[0%nat := Ordering (mkPendingOrder "a.dev" ["t0"]); 1%nat := Allowed "a.dev"]}.
Definition ex_issued_to (token : string) : nat := 0.
Definition ex_key_authorization (token : string) : string := token +:+ ".key".
Lemma ex_two_tasks_reachable : acme_reachable ex_issued_to ex_key_authorization ex_two_tasks.
Proof.
  exists (fun _ => Err ""), []. unfold acme_load; simpl.
  eapply rtc_l; [apply (step_check_fresh _ _ 0 0 "a.dev"); reflexivity|].
  eapply rtc_l; [apply (step_check_fresh _ _ 0 1 "a.dev"); reflexivity|].
  eapply rtc_l; [apply (step_check_waiting _ _ 0 1 "a.dev"); reflexivity|].
  eapply rtc_l; [apply (step_check_waiting _ _ 0 0 "a.dev"); reflexivity|].
  eapply rtc_l; [apply (step_start _ _ 0 "a.dev"); reflexivity|].
  eapply rtc_l; [apply (step_answer _ _ 0 (mkPendingOrder "a.dev" []) "t0"); reflexivity|].
  replace ex_two_tasks with (mkAcmeState (as_acme ex_two_tasks) (as_tasks ex_two_tasks)) by done.
  match goal with |- rtc _ ?x ?y => assert (x = y) as -> by (vm_compute; reflexivity) end. apply rtc_refl.
Qed.
Lemma orders_never_overlap_witness :
  acme_challenge "t0" (as_acme ex_two_tasks) = Some "t0.key" /\
  exists i p, holds ex_two_tasks i p /\ "t0" ∈ pn_tokens p.
Proof.
  split; [reflexivity|].
  destruct (orders_never_overlap ex_issued_to ex_key_authorization ex_two_tasks ex_two_tasks_reachable)
    as (_ & _ & H & _). apply (H "t0" "t0.key"). reflexivity.
Defined.

(** ** Waiting after failures *)

(** Each failed order in a row doubles the wait, up to six hours. *)
Fixpoint failures (nows : list N) (host : string) (a : Acme) : Acme :=
  match nows with
  | [] => a
  | now :: rest => failures rest host (order_ended now host (Err "") a).1
  end.
Lemma failed_wait nows now last host a :
  ac_failed a !! host = Some (now, last) -> (last <= MAX_RETRY_AFTER)%N ->
  exists at_, ac_failed (failures nows host a) !! host = Some (at_, N.min (last * 2 ^ N.of_nat (length nows)) MAX_RETRY_AFTER).
Proof.
  revert now last a. induction nows as [|n nows IH]; intros now last a Ha Hl.
  { simpl. exists now. rewrite Ha. do 2 f_equal. unfold MAX_RETRY_AFTER in *. lia. }
  cbn [failures length]. assert (Hr : retry_wait host a = N.min (last * 2) MAX_RETRY_AFTER) by (unfold retry_wait; by rewrite Ha).
  destruct (IH (n + retry_wait host a)%N (retry_wait host a)
    (set_failed (<[host := (n + retry_wait host a, retry_wait host a)%N]> (ac_failed a)) a)) as [at_ E].
  - apply lookup_insert_eq.
  - rewrite Hr. apply N.le_min_r.
  - exists at_. cbn [order_ended fst]. rewrite E, Hr. do 2 f_equal.
    rewrite Nat2N.inj_succ, N.pow_succ_r'. set (x := (2 ^ N.of_nat (length nows))%N).
    assert (1 <= x)%N by (unfold x; pose proof (N.pow_nonzero 2 (N.of_nat (length nows))); lia).
    unfold MAX_RETRY_AFTER in *. nia.
Qed.
Theorem failures_double_the_wait (now : N) (nows : list N) (host : string) (a : Acme) :
  ac_failed a !! host = None ->
  exists at_, ac_failed (failures (now :: nows) host a) !! host
    = Some (at_, N.min (FIRST_RETRY_AFTER * 2 ^ N.of_nat (length nows)) MAX_RETRY_AFTER).
Proof.
  intros Ha. simpl. assert (Hr : retry_wait host a = FIRST_RETRY_AFTER) by (unfold retry_wait; by rewrite Ha).
  rewrite Hr. eapply failed_wait; [apply lookup_insert_eq|]. unfold FIRST_RETRY_AFTER, MAX_RETRY_AFTER. lia.
Qed.

(** ** Where [ensure] does what its comment rules out

    [ensure] "orders a certificate for [host] unless it has one with more
    than a month left": an order begins although the hostname has one, when
    another's ended between the check and the start. *)
Theorem order_starts_for_fresh_host :
  exists s s' i p, acme_reachable ex_issued_to ex_key_authorization s /\
    acme_step ex_issued_to ex_key_authorization s s' /\ is_fresh 0 (as_acme s) "a.dev" = true /\
    ~ holds s i p /\ holds s' i p /\ pn_host p = "a.dev".
Proof.
  set (p := mkPendingOrder "a.dev" ["t0"]). set (c := mkHostCertificate "a.dev" ByAcme 8000000).
  pose proof ex_two_tasks_reachable as Hr. destruct Hr as (read & names & Hr).
  eexists (mkAcmeState (order_drop p (set_certificates {["a.dev" := c]} (as_acme ex_two_tasks))) {[1%nat := Allowed "a.dev"]}),
    _, 1%nat, (mkPendingOrder "a.dev" []). split_and!.
  - exists read, names. etrans; [exact Hr|].
    eapply rtc_l; [apply (step_won _ _ 0 p c); reflexivity|].
    eapply rtc_l; [apply (step_certificate _ _ 0 p c); reflexivity|].
    eapply rtc_l; [apply (step_drop _ _ 0 (Recorded p) p); reflexivity|].
    match goal with |- rtc _ ?x ?y => assert (x = y) as -> by (vm_compute; reflexivity) end. apply rtc_refl.
  - apply (step_start _ _ 1 "a.dev"). reflexivity.
  - reflexivity.
  - intros (t & E & Hp). vm_compute in E. by injection E as <-.
  - eexists. split; reflexivity.
  - reflexivity.
Qed.

(** ** The account *)

Fixpoint last_char (s : string) : option ascii :=
  match s with
  | EmptyString => None
  | String c s => match last_char s with Some d => Some d | None => Some c end
  end.
Lemma last_char_app s t c : last_char t = Some c -> last_char (s +:+ t) = Some c.
Proof. intros H. induction s as [|d s IH]; [done|]. simpl. by rewrite IH. Qed.

Section account.
Context (client : AcmeClient).
(** What the crates document: credentials read back as they were written. *)
Definition json_reads_back : Prop :=
  forall c json, am_to_json client c = Ok json -> am_from_json client json = Ok c.
Hypothesis Hjson : json_reads_back.

(** Every account file is a whole one, and none has gone or changed. *)
Definition accounts_whole (d : Dir) : Prop :=
  forall directory json, d !! account_path client directory = Some json -> exists c, am_from_json client json = Ok c.
Definition accounts_kept (d d' : Dir) : Prop :=
  forall directory json, d !! account_path client directory = Some json -> d' !! account_path client directory = Some json.

Lemma account_path_tmp directory directory' : account_path client directory +:+ ".tmp" <> account_path client directory'.
Proof.
  intros E. apply (f_equal last_char) in E. rewrite (last_char_app _ ".tmp" "p") in E by done. unfold account_path in E.
  rewrite (last_char_app "acme-account-" _ "n") in E by by apply last_char_app. done.
Qed.
Lemma account_spec dir directory o cell d0 :
  accounts_whole d0 ->
  traced id (fun d => accounts_whole d /\ accounts_kept d0 d) (fun d => d = d0) (account client dir directory o cell)
    (fun r d => accounts_whole d /\ accounts_kept d0 d /\
       forall c, r = Ok c -> cell = Some c \/
         exists json, d !! account_path client directory = Some json /\ am_from_json client json = Ok c).
Proof.
  intros Hw. set (I := fun d => accounts_whole d /\ accounts_kept d0 d).
  assert (Hk0 : accounts_kept d0 d0) by by intros ??.
  assert (Hsame : I d0) by by split.
  assert (Hold : forall d, same_but [account_path client directory +:+ ".tmp"] d0 d -> I d).
  { intros d Hs. assert (Heq : forall dy, d !! account_path client dy = d0 !! account_path client dy).
    { intros dy. apply Hs. rewrite list_elem_of_singleton. intros E. by apply (account_path_tmp directory dy). }
    split; intros dy json; rewrite Heq; [apply Hw|done]. }
  unfold account. destruct cell as [c|]; [apply traced_ret; intros d ->; split_and!; [done|done|naive_solver]|].
  set (Q := fun (r : result string unit) d => d = d0).
  eapply (traced_bind _ _ _ _ Q); [apply traced_lift; by intros d ->| |intros e d ->; split_and!; by try done].
  intros []. apply traced_dir_get. intros d Hd. unfold Q in Hd. subst d.
  destruct (at_read o) as [e|]; [apply traced_lift; intros d [-> _]; split_and!; by try done|].
  destruct (d0 !! account_path client directory) as [json|] eqn:Hf.
  - apply (traced_bind _ _ _ _ (fun r d => d = d0 /\ forall c, r = Ok c -> am_from_json client json = Ok c)).
    + apply traced_lift. intros d [-> _]. split; [done|]. intros c. by destruct (am_from_json client json).
    + intros c. apply (traced_bind _ _ _ _ (fun _ d => d = d0 /\ am_from_json client json = Ok c));
        [apply traced_lift; intros d [-> Hc]; split; [done|by apply Hc]| |intros e d [-> _]; split_and!; by try done].
      intros []. apply traced_ret. intros d [-> Hc]. split_and!; try done. intros c' [= <-]. right. by exists json.
    + intros e d [-> _]. split_and!; by try done.
  - apply (traced_bind _ _ _ _ (fun _ d => d = d0)); [apply traced_lift; by intros d [-> _]| |intros e d ->; split_and!; by try done].
    intros c. apply (traced_bind _ _ _ _ (fun r d => d = d0 /\ am_to_json client c = r));
      [apply traced_lift; by intros d ->| |intros e d [-> _]; split_and!; by try done].
    intros json. apply traced_pure. intros Hj. pose proof (Hjson c json Hj) as Hback.
    assert (Hnew : forall d, same_but [account_path client directory +:+ ".tmp"; account_path client directory] d0 d ->
      d !! account_path client directory = Some json -> I d).
    { intros d Hs Hp. split; intros dy json' Hd.
      - destruct (decide (account_path client dy = account_path client directory)) as [E|Hne].
        + rewrite E, Hp in Hd. injection Hd as <-. eauto.
        + rewrite Hs in Hd; [by eapply Hw|]. pose proof (account_path_tmp directory dy). set_solver.
      - rewrite Hs; [done|]. pose proof (account_path_tmp directory dy).
        assert (account_path client dy <> account_path client directory) by congruence. set_solver. }
    eapply traced_bind.
    + apply traced_context. eapply traced_weaken; [apply (write_whole_spec I (at_store o) (account_path client directory) json d0);
        [apply account_path_tmp|exact Hold|exact Hnew]|done|].
      intros r d [Hi Hr]. instantiate (1 := fun r d => I d /\ match r with Ok _ => d !! account_path client directory = Some json
        | Err _ => True end). split; [exact Hi|]. destruct r; [apply Hr|done].
    + intros []. apply traced_ret. intros d [[H1 H2] H3]. split_and!; try done. intros c' [= <-]. right. by exists json.
    + intros e d [[H1 H2] _]. split_and!; by try done.
Qed.
End account.

(** The ACME account is made once. Whatever fails, and wherever the agent is
    killed, every account file is a whole one and stays as it is; and once an
    account was answered, every later call for the same directory, also of a
    later agent, changes nothing and answers that account or an error, and
    the account if it meets no fault: none asks the CA for another. *)
Theorem acme_account_made_once (client : AcmeClient) (dir directory : string) (o : AccountOutcome client) (d : Dir) :
  json_reads_back client -> accounts_whole client d ->
  let '(states, d', r) := account client dir directory o None d in
  Forall (fun d1 => accounts_whole client d1 /\ accounts_kept client d d1) (states ++ [d']) /\
  forall c, r = Ok c ->
    forall o', let '(t, d'', r') := account client dir directory o' None d' in
      t = [] /\ d'' = d' /\ (forall c', r' = Ok c' -> c' = c) /\
      (at_builder o' = None -> at_read o' = None -> at_restore o' = None -> r' = Ok c).
Proof.
  intros Hj Hw. pose proof (account_spec client Hj dir directory o None d Hw d eq_refl) as H.
  destruct (account _ _ _ _ _ _) as [[states d'] r]. destruct H as (Ht & H1 & H2 & Hc). unfold id in *.
  split; [apply Forall_app; split; [done|]; by apply Forall_singleton|].
  intros c ->. destruct (Hc c eq_refl) as [[=]|(json & Hf & Hr)]. intros o'.
  unfold account, mbind, trace_bind, dir_get, lift. destruct (at_builder o'); [done|]. cbn.
  destruct (at_read o'); [done|]. rewrite Hf, Hr. cbn. destruct (at_restore o'); [done|]. cbn. split_and!; try done. by intros c' [= <-].
Qed.
Definition toy_acme : AcmeClient := mkAcmeClient string (fun c => Ok ("json of " +:+ c))
  (fun j => ok_or (strip_prefix "json of " j) "not JSON") (fun s => s).
Lemma acme_account_made_once_witness :
  let o := mkAccountOutcome toy_acme None None None (Ok "first") (mkWriteOutcome None None None None) in
  let '(_, d', r) := account toy_acme "/s" "le" o None ∅ in
  r = Ok "first" /\
  (account toy_acme "/s" "le" (mkAccountOutcome toy_acme None None None (Ok "second") (mkWriteOutcome None None None None)) None d').2 = Ok "first".
Proof.
  intros o. assert (Hj : json_reads_back toy_acme).
  { intros c json [= <-]. exact (f_equal (fun o => ok_or o "not JSON") (strip_prefix_app "json of " c)). }
  assert (Hw : accounts_whole toy_acme ∅) by (intros dy json; by rewrite lookup_empty).
  pose proof (acme_account_made_once toy_acme "/s" "le" o ∅ Hj Hw) as H.
  assert (Hr : (account toy_acme "/s" "le" o None ∅).2 = Ok "first") by (vm_compute; reflexivity).
  destruct (account toy_acme "/s" "le" o None ∅) as [[t d'] r]. simpl in Hr. split; [exact Hr|].
  destruct H as [_ H]. specialize (H _ Hr (mkAccountOutcome toy_acme None None None (Ok "second") (mkWriteOutcome None None None None))).
  destruct (account _ _ _ _ _ d') as [[t2 d2] r2]. by apply H.
Defined.
