(* ===== verification/AgentEdge.v ===== *)
(** * The Node agent behind the edge

    The edge is proved against the class [Router]; the agent implements it
    ([impl Router for Edge] of [agent.rs]). This file gives the instance and
    puts the two together: where a request that a client sends ends up. *)

From S2P Require Import Prelude RustStr Proto Subnet Store Validate Vm VmLaws VmEnd Machine.
From S2P Require Import MachineLaws Edge Agent AgentSys AgentHost AgentBoot AgentProps AgentServe.
From S2P Require Import Tls Acme TlsLaws.

(** ** The instance *)

(** What one request sees of the agent. The agent is shared, and moves on
    while the request waits, so this is not its state but the looks the
    request takes at it: any number that something ends, and the one its
    deadline ends. *)
Record RouterView := mkRouterView {
  rv_looks : list Look;
  rv_last : Agent;
  rv_acme : option Acme;
}.
Definition rv_all (v : RouterView) : list Look := rv_looks v ++ [mkLook (rv_last v) false None].

(** The deadline answers every request. *)
Lemma rv_answers v host : is_Some (resolve host None (rv_all v)).2.
Proof.
  apply resolve_deadline. exists (mkLook (rv_last v) false None). split; [|done].
  apply elem_of_app. right. by left.
Qed.

(** [impl Router for Edge]. *)
#[export] Instance agent_router : Router RouterView (option nat) := {|
  router_resolve v host := (v, is_Some_proj (rv_answers v host));
  router_challenge v token := a ← rv_acme v; acme_challenge token a;
|}.

Lemma is_Some_proj_eq {A} (o : option A) (H : is_Some o) : o = Some (is_Some_proj H).
Proof. destruct o; [done|]. by destruct (is_Some_None H). Qed.

(** An address the router gives is one that a look of the request found. *)
Lemma agent_router_upstream v host v' address port l :
  router_resolve v host = (v', Upstream address port l) ->
  exists look a', look ∈ rv_all v /\ step_for host (lo_agent look) = (a', Answer (Upstream address port l)).
Proof.
  cbn [router_resolve agent_router]. intros [= _ Hr].
  pose proof (is_Some_proj_eq _ (rv_answers v host)) as Ha. rewrite Hr in Ha.
  destruct (resolve_answer _ _ _ _ Ha) as [(look & Hin & Hs)|(why & [=])].
  destruct (step_for host (lo_agent look)) as [a' s] eqn:E. simpl in Hs. subst s.
  by exists look, a'.
Qed.

(** ** From a client to a VM *)

Section routed.
Context (sd fc jl kn : string) (gid : N) (sub : Subnet) (ca : option string) (acme : bool).
Local Abbreviation run := (node_run sd fc jl kn gid sub ca acme).
Local Abbreviation new := (node_new sd fc jl kn gid sub ca acme).
Local Abbreviation evs_ok := (node_evs_ok sd fc jl kn gid sub ca acme).

(** A state of the Node the agent can be seen in: it is up after some events,
    and its counters of requests in flight have room for one more. *)
Definition seen (h : Host) (s : Sys) : Prop :=
  exists evs, evs_ok (new h) evs /\ nd_up (run evs (new h)) = true /\
    s = nd_sys (run evs (new h)) /\ (N.of_nat (length (sy_leases s)) + 1 < 2 ^ 32)%N.

(** The App of a hostname: a Machine's, over its tunnel that is up, or a
    supervised Running VM nobody parks, at its own VM address. *)
Definition serves (s : Sys) (host : string) (address : Ipv4Addr) (port : N) (lease : option nat) : Prop :=
  let a := sy_agent s in
  match lease with
  | None => address = LOCALHOST /\ machines_resolve (ag_machines a) host = Some (ToPort port)
  | Some t =>
      exists name i l r v, ag_vms a !! name = Some (Running i l t) /\
        vi_route i = Some r /\ rt_host r = host /\ rt_port r = port /\
        vi_vm_address i = Some address /\ address ∈ vm_addresses sub /\
        ag_sups a !! t = Some (name, v) /\ (t ∉ (sy_claims s).*1) /\
        exists tr, ag_traffic (step_for host a).1 !! t = Some tr /\
          forall now idle, idle_for now idle tr = false
  end.

(** C11: A client only ever talks to the App whose hostname it named. Whatever
    the agent does while the edge serves and requests wait, if a client is
    answered with an App's response, then its request names a hostname, and
    over HTTPS that is the one its handshake named, which its certificate was
    picked by; at one of the looks the request took at the agent that hostname
    was of a Machine's App with its tunnel up, or of a Running, supervised VM
    that nobody was parking and that the idle parker leaves alone from then
    on; and the response is what that App answered, at that VM's own address
    and its Route's port, to the request with the edge's headers. *)
Theorem edge_serves_live_apps h ah hn hv u tls conns client answers resp lease :
  subnet_wf sub ->
  (forall c v req look, Ok c ∈ conns -> (v, req) ∈ cl_requests c -> look ∈ rv_all v ->
     exists s, seen h s /\ sy_agent s = lo_agent look) ->
  (client, answers) ∈ accept ah hn hv u tls conns -> (resp, Some lease) ∈ answers ->
  exists v req host s address port answer,
    (v, req) ∈ cl_requests client /\ host_of ah req = Some host /\
    (tls = true -> exists name, cl_handshake client = HandshakeDone name /\ host = sni_host (default "" name)) /\
    seen h s /\ (exists look, look ∈ rv_all v /\ sy_agent s = lo_agent look) /\
    serves s host address port lease /\
    uo_answer (u address port)
      (forward_request hn hv req host (cl_peer client) (if tls then "https" else "http")) = Ok answer /\
    resp = mkEdgeResponse (es_status answer) (remove_hop_by_hop hn (es_headers answer)) (es_body answer).
Proof.
  intros Hsub Hseen Hc Ha.
  destruct (accept_elem _ _ _ _ _ _ _ _ _ _ Hc Ha) as (scheme & v & v' & req & Hconn & Hreq & He & Htls).
  destruct (edge_routes_by_host _ _ _ _ _ _ _ _ _ _ _ He ltac:(left; eauto)) as (host & res & Hh & Hr & Hsni & Hl).
  destruct (Hl lease eq_refl) as (address & port & -> & Hp).
  destruct (agent_router_upstream _ _ _ _ _ _ Hr) as (look & a' & Hin & Hs).
  destruct (Hseen client v req look Hconn Hreq Hin) as (s & Hsn & Ha'). rewrite <- Ha' in Hs.
  destruct (proxy_ok _ _ _ _ _ _ _ _ Hp) as (answer & Hans & ->).
  exists v, req, host, s, address, port, answer.
  split_and!; [done|done| |done|by exists look| | |done].
  1: { intros ->. destruct Htls as (name & Hn & Hsch). exists name. split; [done|]. symmetry. by apply Hsni. }
  2: { destruct tls; [by destruct Htls as (name & _ & ->)|by subst scheme]. }
  destruct lease as [t|].
  - destruct Hsn as (evs & Hok & Hup & -> & Hlen).
    destruct (requests_reach_live_vms sd fc jl kn gid sub ca acme evs h host a' address port t Hsub Hok Hup Hlen Hs)
      as (name & i & l & r & w & tr & H1 & H2 & H3 & H4 & H5 & H6 & H7 & H8 & H9 & _ & H10).
    exists name, i, l, r, w. split_and!; try done. exists tr. by rewrite Hs.
  - apply step_for_upstream in Hs as (-> & Hm & _). by split.
Qed.
End routed.

(** ** A request on a Node with one VM *)

Definition ex_view : RouterView := mkRouterView [] (nd_agent ex_up) None.
Definition ex_client : EdgeClient :=
  mkEdgeClient "203.0.113.9" (HandshakeDone (Some "WEB.test."))
    [(ex_view, mkEdgeRequest (Some "api.test") "/x" (Some "/x") []);
     (ex_view, mkEdgeRequest (Some "Web.test") "/x" (Some "/x") [])].

Lemma edge_serves_live_apps_witness :
  exists s address port,
    seen "/var/lib/cirro" "/fc" "/jailer" "/vmlinux" 990 ex_subnet None false ex_host s /\
    serves ex_subnet s "web.test" address port (Some 0%nat).
Proof.
  destruct (edge_serves_live_apps "/var/lib/cirro" "/fc" "/jailer" "/vmlinux" 990 ex_subnet None false ex_host
    Some plain_header_name (str_all visible) echo_app true [Err "EMFILE"; Ok ex_client] ex_client
    (accepted Some plain_header_name (str_all visible) echo_app true ex_client)
    (mkEdgeResponse OK [] "/x") (Some 0%nat) ex_subnet_wf)
    as (v & req & host & s & address & port & answer & _ & _ & H1 & H2 & _ & H3 & _).
  - intros c v req look Hc Hv Hin. apply elem_of_cons in Hc as [?|[= ->]%list_elem_of_singleton]; [discriminate|].
    assert (v = ex_view) as -> by (apply elem_of_cons in Hv as [[= -> _]|[= -> _]%list_elem_of_singleton]; reflexivity).
    exists (nd_sys ex_up). split.
    + exists [ex_boot; ex_run "web" "web.test"; ex_started None].
      split_and!; [exact (ex_evs_ok None)|vm_compute; reflexivity|reflexivity|vm_compute; reflexivity].
    + apply list_elem_of_singleton in Hin as ->. reflexivity.
  - by left.
  - assert (Ha : accepted Some plain_header_name (str_all visible) echo_app true ex_client !! 1
      = Some (mkEdgeResponse OK [] "/x", Some (Some 0%nat))) by (vm_compute; reflexivity).
    by apply list_elem_of_lookup_2 in Ha.
  - destruct (H1 eq_refl) as (name & [= <-] & ->). exists s, address, port. exact (conj H2 H3).
Defined.
