(* ===== verification/Rootfs.v ===== *)
(** * Opening a rootfs as the caller ([crates/cirro-node/src/rootfs_open.rs]
    and [crates/cirro/src/open_rootfs.rs])

    The agent, root, opens the file a caller named through a helper that has
    dropped to the caller's uid and gid. What [open] answers is the kernel's:
    a parameter, with what its manual says of the flags the helper uses. The
    helper's credentials are modelled, with what each call that changes them
    needs. *)

From S2P Require Import Prelude RustStr Proto Subnet Store Validate Vm VmLaws VmEnd Machine Edge Agent.
From S2P Require Import AgentSys AgentHost AgentBoot AgentProps.

(** ** Credentials *)

(** The real, effective and saved ids, and the supplementary groups. *)
Record Creds := mkCreds { cd_uids : N * N * N; cd_gids : N * N * N; cd_groups : list N }.
Definition ruid (c : Creds) : N := (cd_uids c).1.1.
Definition euid (c : Creds) : N := (cd_uids c).1.2.
Definition rgid (c : Creds) : N := (cd_gids c).1.1.
Definition is_one_of (ids : N * N * N) (id : N) : bool :=
  ((ids.1.1 =? id) || (ids.1.2 =? id) || (ids.2 =? id))%N.
(** Root may set any; others only change among the ids they have, and not
    their groups. *)
Definition privileged (c : Creds) : bool := (euid c =? 0)%N.
Definition setgroups (groups : list N) (c : Creds) : result string Creds :=
  if privileged c then Ok (mkCreds (cd_uids c) (cd_gids c) groups) else Err "EPERM".
Definition setresgid (gid : N) (c : Creds) : result string Creds :=
  if privileged c || is_one_of (cd_gids c) gid then Ok (mkCreds (cd_uids c) (gid, gid, gid) (cd_groups c)) else Err "EPERM".
Definition setresuid (uid : N) (c : Creds) : result string Creds :=
  if privileged c || is_one_of (cd_uids c) uid then Ok (mkCreds (uid, uid, uid) (cd_gids c) (cd_groups c)) else Err "EPERM".

(** The closure [pre_exec] runs in the forked child; the kernel may refuse
    each for a reason of its own too. *)
Record DropOutcome := mkDropOutcome { do_setgroups : fault; do_setresgid : fault; do_setresuid : fault }.
Definition drop_privileges (o : DropOutcome) (uid gid : N) (c : Creds) : result string Creds :=
  _ ← fault_result (do_setgroups o);
  c ← setgroups [] c;
  _ ← fault_result (do_setresgid o);
  c ← setresgid gid c;
  _ ← fault_result (do_setresuid o);
  setresuid uid c.

(** ** The helper *)

Inductive Node :=
  | Regular (contents : string)
  | Symlink (target : string)
  | Fifo
  | OtherNode.
Inductive Opening :=
  | OpenErr (e : string)
  | OpenBlocks
  | OpenFd (node : Node).
Record OpenFlags := mkOpenFlags { O_NOFOLLOW : bool; O_NONBLOCK : bool }.
Definition kernel_open : Type := Creds -> string -> OpenFlags -> Opening.

Record HelperOutcome := mkHelperOutcome { ho_stat : fault; ho_fcntl : fault; ho_sendmsg : fault }.
(** How the helper ends: with what it sent (whether the descriptor still has
    [O_NONBLOCK]), with what it wrote to stderr, or not at all. *)
Inductive HelperEnd :=
  | Sent (node : Node) (nonblock : bool)
  | Refused (stderr : string)
  | Hangs.
(** [open_rootfs::run]. *)
Definition helper_run (k : kernel_open) (o : HelperOutcome) (uid gid : N) (path : string) (c : Creds) : HelperEnd :=
  let '(actual_uid, actual_gid) := (ruid c, rgid c) in
  if negb (actual_uid =? uid)%N || negb (actual_gid =? gid)%N then
    Refused ("refusing to open " +:+ path +:+ ": running as " +:+ dec actual_uid +:+ ":" +:+ dec actual_gid
      +:+ ", expected " +:+ dec uid +:+ ":" +:+ dec gid)
  else
    match k c path (mkOpenFlags true true) with
    | OpenErr e => Refused ("open " +:+ path +:+ ": " +:+ e)
    | OpenBlocks => Hangs
    | OpenFd node =>
        match ho_stat o, node with
        | Some e, _ => Refused ("stat " +:+ path +:+ ": " +:+ e)
        | None, Regular _ =>
            match ho_fcntl o with
            | Some e => Refused ("clear O_NONBLOCK on " +:+ path +:+ ": " +:+ e)
            | None =>
                match ho_sendmsg o with
                | Some e => Refused ("send the opened rootfs to the Node agent: " +:+ e)
                | None => Sent node false
                end
            end
        | None, _ => Refused (path +:+ " is not a regular file")
        end
    end.

(** ** The agent's side *)

(** The answers to the agent's own calls. [ao_killed] is a helper ended from
    outside: its status and what it had written. *)
Record OpenAsOutcome := mkOpenAsOutcome {
  ao_pair : fault;
  ao_drop : DropOutcome;
  ao_spawn : fault;
  ao_wait : fault;
  ao_killed : option (string * string);
  ao_helper : HelperOutcome;
  ao_recvmsg : fault;
  ao_cmsgs : fault;
  ao_delivered : bool;
}.
(** [rootfs_open::Error], and the file the agent gets: what its descriptor
    is of, and whether it is non-blocking. *)
Inductive RootfsError := ErrDenied (msg : string) | ErrFailed (msg : string).
Record RootfsFile := mkRootfsFile { rf_node : Node; rf_nonblock : bool }.
Definition denied (status stderr : string) : RootfsError :=
  let stderr := trim stderr in
  ErrDenied (if is_empty stderr then "the rootfs-open helper exited with " +:+ status else stderr).
(** [rootfs_open::open_as], by an agent with the credentials [agent]; [None]
    when it never returns. *)
Definition open_as (k : kernel_open) (o : OpenAsOutcome) (agent : Creds) (uid gid : N) (path : string)
    : option (result RootfsError RootfsFile) :=
  let spawned :=
    _ ← map_err (fun e => "open a socketpair: " +:+ e) (fault_result (ao_pair o));
    map_err (fun e => "spawn the rootfs-open helper: " +:+ e)
      (c ← drop_privileges (ao_drop o) uid gid agent; _ ← fault_result (ao_spawn o); Ok c) in
  match spawned with
  | Err e => Some (Err (ErrFailed e))
  | Ok c =>
      match ao_killed o, helper_run k (ao_helper o) uid gid path c with
      | None, Hangs => None
      | killed, ended =>
          Some
            (_ ← map_err (fun e => ErrFailed ("wait for the rootfs-open helper: " +:+ e)) (fault_result (ao_wait o));
             match killed, ended with
             | Some (status, stderr), _ => Err (denied status stderr)
             | None, Refused stderr => Err (denied "exit status: 1" (stderr +:+ nl))
             | None, Hangs => Err (ErrFailed "")
             | None, Sent node nonblock =>
                 map_err ErrFailed
                   (_ ← map_err (fun e => "receive the opened rootfs from the helper: " +:+ e) (fault_result (ao_recvmsg o));
                    _ ← map_err (fun e => "read the helper's response: " +:+ e) (fault_result (ao_cmsgs o));
                    _ ← fail_if (negb (ao_delivered o)) "the rootfs-open helper sent no file";
                    Ok (mkRootfsFile node nonblock))
             end)
      end
  end.
(** What [run_vm] makes of it. Only a regular file's contents are modelled. *)
Definition contents_of (node : Node) : string :=
  match node with Regular contents => contents | _ => "" end.
Definition rootfs_answer (r : result RootfsError RootfsFile) : RootfsOpen :=
  match r with
  | Ok file => Opened (contents_of (rf_node file))
  | Err (ErrDenied msg) => Denied msg
  | Err (ErrFailed msg) => OpenFailed msg
  end.

(** ** Guarantees *)

Section laws.
(** The files at paths, and who may read them: [open]'s manual. *)
Context (k : kernel_open) (fs : string -> option Node) (may_read : Creds -> string -> bool).
Record kernel_ok : Prop := {
  ko_opened : forall c path fl node, k c path fl = OpenFd node -> O_NOFOLLOW fl = true ->
    fs path = Some node /\ may_read c path = true /\ forall t, node <> Symlink t;
  ko_nonblock : forall c path fl, O_NONBLOCK fl = true -> k c path fl <> OpenBlocks;
}.
Hypothesis Hk : kernel_ok.

(** Exactly the caller. *)
Definition caller (uid gid : N) : Creds := mkCreds (uid, uid, uid) (gid, gid, gid) [].
Definition root_with (groups : list N) : Creds := mkCreds (0, 0, 0)%N (0, 0, 0)%N groups.
Definition no_drop_faults : DropOutcome := mkDropOutcome None None None.
Definition no_open_faults : OpenAsOutcome :=
  mkOpenAsOutcome None no_drop_faults None None None (mkHelperOutcome None None None) None None true.

Lemma drop_privileges_caller o uid gid groups c :
  drop_privileges o uid gid (root_with groups) = Ok c -> c = caller uid gid.
Proof. unfold drop_privileges. destruct (do_setgroups o), (do_setresgid o), (do_setresuid o); try discriminate. by intros [= <-]. Qed.
Lemma helper_run_sent o uid gid path node b :
  helper_run k o uid gid path (caller uid gid) = Sent node b ->
  b = false /\ exists contents, node = Regular contents /\ fs path = Some node /\ may_read (caller uid gid) path = true.
Proof.
  unfold helper_run, ruid, rgid; simpl. rewrite !N.eqb_refl; simpl.
  destruct (k _ _ _) as [e| |n] eqn:Ho; [done|done|]. destruct (ko_opened Hk _ _ _ _ Ho eq_refl) as (Hf & Hr & _).
  destruct (ho_stat o); [done|]. destruct n; try done. destruct (ho_fcntl o); [done|]. destruct (ho_sendmsg o); [done|].
  intros [= <- <-]. split; [done|]. by eexists.
Qed.
Lemma helper_run_ends o uid gid path c : helper_run k o uid gid path c <> Hangs.
Proof.
  unfold helper_run. destruct (negb _ || negb _); [done|]. destruct (k _ _ _) as [e| |n] eqn:Ho; [done| |].
  - by destruct (ko_nonblock Hk c path (mkOpenFlags true true) eq_refl).
  - destruct (ho_stat o); [done|]. destruct n; try done. destruct (ho_fcntl o); [done|]. by destruct (ho_sendmsg o).
Qed.
Lemma open_as_ok o groups uid gid path file :
  open_as k o (root_with groups) uid gid path = Some (Ok file) ->
  rf_nonblock file = false /\
  exists contents, rf_node file = Regular contents /\ fs path = Some (rf_node file) /\ may_read (caller uid gid) path = true.
Proof.
  unfold open_as. destruct (ao_pair o); [done|]. simpl.
  destruct (drop_privileges _ _ _ _) as [c|] eqn:Hd; [|done]. apply drop_privileges_caller in Hd as ->. simpl.
  destruct (ao_spawn o); [done|]. simpl. destruct (ao_killed o) as [[st se]|].
  - by destruct (ao_wait o).
  - destruct (helper_run _ _ _ _ _ _) as [n b|e|] eqn:Hr; [| |done]; (destruct (ao_wait o); [done|]); [|done]. simpl.
    destruct (ao_recvmsg o), (ao_cmsgs o), (ao_delivered o); try done. intros [= <-]. by apply helper_run_sent in Hr.
Qed.
Lemma open_as_clean groups uid gid path :
  open_as k no_open_faults (root_with groups) uid gid path =
    Some match k (caller uid gid) path (mkOpenFlags true true) with
         | OpenFd (Regular contents) => Ok (mkRootfsFile (Regular contents) false)
         | OpenFd _ => Err (denied "exit status: 1" (path +:+ " is not a regular file" +:+ nl))
         | OpenErr e => Err (denied "exit status: 1" ("open " +:+ path +:+ ": " +:+ e +:+ nl))
         | OpenBlocks => Err (ErrFailed "")
         end.
Proof.
  unfold open_as, helper_run. simpl. unfold caller. rewrite !N.eqb_refl. simpl.
  pose proof (ko_nonblock Hk (caller uid gid) path (mkOpenFlags true true) eq_refl) as Hnb. unfold caller in Hnb.
  destruct (k _ _ _) as [e| |n]; [|done|].
  - by rewrite <-!str_app_assoc.
  - destruct n; try (by rewrite <-!str_app_assoc). done.
Qed.
End laws.

(** C35: The agent, root, hands a VM no file its caller couldn't read. Whatever
    the rootfs path names and whatever fails, opening it returns (a FIFO
    can't hold it up); when it gets a file, that is the regular file at that
    very path, not a link's target, in blocking mode, which the caller's uid
    and gid alone, without the agent's or any supplementary groups, may read;
    and every start the agent accepts from it has exactly that file's
    contents. Where nothing else fails it gets every regular file the caller
    may read and whose [open] doesn't fail (for want of file descriptors, or
    a lease), and any other is refused as the caller's mistake. *)
Theorem rootfs_opened_as_caller (k : kernel_open) (fs : string -> option Node) (may_read : Creds -> string -> bool)
    (groups : list N) (uid gid : N) (o : OpenAsOutcome) (run : RunRequest) (a : Agent) :
  kernel_ok k fs may_read ->
  let path := rq_rootfs run in
  exists r, open_as k o (root_with groups) uid gid path = Some r /\
    (forall file, r = Ok file -> rf_nonblock file = false /\
      exists contents, rf_node file = Regular contents /\ fs path = Some (Regular contents) /\
        may_read (caller uid gid) path = true) /\
    (forall a' task, run_vm (rootfs_answer r) run a = (a', Ok task) ->
      fs path = Some (Regular (sp_rootfs_file (stt_spec task))) /\ may_read (caller uid gid) path = true) /\
    (o = no_open_faults ->
      (forall contents, fs path = Some (Regular contents) -> may_read (caller uid gid) path = true ->
        (forall e, k (caller uid gid) path (mkOpenFlags true true) <> OpenErr e) ->
        r = Ok (mkRootfsFile (Regular contents) false)) /\
      (may_read (caller uid gid) path = false \/ (forall contents, fs path <> Some (Regular contents)) ->
        exists msg, r = Err (ErrDenied msg))).
Proof.
  intros Hk path. destruct (open_as k o (root_with groups) uid gid path) as [r|] eqn:Ho.
  2:{ exfalso. revert Ho. unfold open_as. destruct (_ ← _; _) as [c|]; [|done].
      pose proof (helper_run_ends k fs may_read Hk (ao_helper o) uid gid path c) as He.
      by destruct (ao_killed o), (helper_run _ _ _ _ _ _). }
  exists r. split; [done|].
  assert (Hfile : forall file, r = Ok file -> rf_nonblock file = false /\
    exists contents, rf_node file = Regular contents /\ fs path = Some (Regular contents) /\ may_read (caller uid gid) path = true).
  { intros file ->. apply (open_as_ok k fs may_read Hk) in Ho as (? & contents & Hn & Hf & ?). split; [done|].
    exists contents. rewrite Hn in *. done. }
  split_and!; [done| |].
  - intros a' task Hrun. destruct r as [file|[msg|msg]].
    + destruct (Hfile file eq_refl) as (_ & contents & Hn & Hf & Hr). split; [|done]. revert Hrun. simpl. rewrite Hn.
      unfold run_vm. destruct (run_checks run); [|done]. simpl. destruct (reserve_checks _ _); [|done].
      by intros [= _ <-].
    + revert Hrun. unfold run_vm. by destruct (run_checks run).
    + revert Hrun. unfold run_vm. by destruct (run_checks run).
  - intros ->. rewrite (open_as_clean k fs may_read Hk) in Ho. injection Ho as <-.
    pose proof (ko_nonblock _ _ _ Hk (caller uid gid) path (mkOpenFlags true true) eq_refl) as Hnb. split.
    + intros contents Hf Hr Hne. destruct (k _ _ _) as [e| |n] eqn:Hopen; [by destruct (Hne e)|done|].
      destruct (ko_opened _ _ _ Hk _ _ _ _ Hopen eq_refl) as (Hf' & _). by simplify_eq.
    + intros Hbad. destruct (k _ _ _) as [e| |n] eqn:Hopen; [by eexists|done|].
      destruct (ko_opened _ _ _ Hk _ _ _ _ Hopen eq_refl) as (Hf & Hr & _).
      destruct n; try by eexists. destruct Hbad as [Hbad|Hbad]; [congruence|by destruct (Hbad contents)].
Qed.

(** A kernel with a readable file, a private one, a link to it and a FIFO. *)
Definition toy_fs (path : string) : option Node :=
  if bool_decide (path = "/home/u/rootfs.ext4") then Some (Regular "rootfs bytes")
  else if bool_decide (path = "/etc/shadow") then Some (Regular "secrets")
  else if bool_decide (path = "/tmp/link") then Some (Symlink "/etc/shadow")
  else if bool_decide (path = "/tmp/fifo") then Some Fifo else None.
Definition toy_may_read (c : Creds) (path : string) : bool :=
  (euid c =? 0)%N || negb (bool_decide (path = "/etc/shadow")).
Definition toy_open : kernel_open := fun c path fl =>
  match toy_fs path with
  | None => OpenErr "No such file or directory"
  | Some (Symlink target) =>
      if O_NOFOLLOW fl then OpenErr "Too many levels of symbolic links"
      else match toy_fs target with Some n => OpenFd n | None => OpenErr "No such file or directory" end
  | Some n =>
      if negb (toy_may_read c path) then OpenErr "Permission denied"
      else match n with Fifo => if O_NONBLOCK fl then OpenFd Fifo else OpenBlocks | n => OpenFd n end
  end.
Lemma toy_open_ok : kernel_ok toy_open toy_fs toy_may_read.
Proof.
  split; unfold toy_open.
  - intros c path fl node. destruct (toy_fs path) as [n|]; [|done]. intros H Hfl. rewrite Hfl in H.
    destruct n; try done; (destruct (toy_may_read c path); [|done]); simpl in H; try (destruct (O_NONBLOCK fl); [|done]);
      injection H as <-; done.
  - intros c path fl Hfl. rewrite Hfl. destruct (toy_fs path) as [n|]; [|done].
    destruct n as [| target | | ]; try (by destruct (toy_may_read c path)).
    destruct (O_NOFOLLOW fl); [done|]. by destruct (toy_fs target).
Qed.
Lemma rootfs_opened_as_caller_witness :
  exists r, open_as toy_open no_open_faults (root_with [4%N]) 1000 1000 "/home/u/rootfs.ext4" = Some r /\
    r = Ok (mkRootfsFile (Regular "rootfs bytes") false).
Proof.
  destruct (rootfs_opened_as_caller toy_open toy_fs toy_may_read [4%N] 1000 1000 no_open_faults
    (ex_request "api" "api.test") (nd_agent ex_up) toy_open_ok) as (r & Ho & _ & _ & H).
  exists r. split; [exact Ho|]. apply (proj1 (H eq_refl) "rootfs bytes"); [vm_compute; reflexivity..|vm_compute; discriminate].
Defined.
