(* ===== verification/Egress.v ===== *)
(** * The Node's egress policy ([crates/cirro-node/src/egress.rs])

    The nftables table VMs' traffic goes through, as the rules its script
    has, what they let through, and the recording of [ip_forward]. Whether
    [nft] accepts a script is its answer; that it applies one whole, in one
    transaction, and that a packet meets the rules of a chain in order until
    one drops it, is what its manual says. *)

From S2P Require Import Prelude RustStr Proto Subnet Trace.

(** ** Rules *)

Inductive SetName := Node_subnets | Lan.
Inductive Match :=
  | Iif_cirro
  | Saddr (negated : bool) (s : SetName)
  | Daddr (s : SetName)
  | Tcp_dport (port : N)
  | Ct_state_new
  | Oif_egress.
Inductive Verdict := Drop | Masquerade.
Record Rule := mkRule { ru_matches : list Match; ru_verdict : Verdict }.

Definition TABLE : string := "cirro".
Definition LAN : list Subnet :=
  [mkSubnet (ipv4_new 10 0 0 0) 8; mkSubnet (ipv4_new 100 64 0 0) 10; mkSubnet (ipv4_new 169 254 0 0) 16;
   mkSubnet (ipv4_new 172 16 0 0) 12; mkSubnet (ipv4_new 192 168 0 0) 16].
Definition LAN_RANGES : string := str_join ", " (subnet_display <$> LAN).

(** The rules the script adds to each chain. *)
Definition POSTROUTING : list Rule := [mkRule [Saddr false Node_subnets; Oif_egress] Masquerade].
Definition FORWARD : list Rule :=
  [mkRule [Iif_cirro; Saddr true Node_subnets] Drop;
   mkRule [Iif_cirro; Saddr false Node_subnets; Tcp_dport 25] Drop;
   mkRule [Iif_cirro; Saddr false Node_subnets; Daddr Node_subnets] Drop;
   mkRule [Iif_cirro; Saddr false Node_subnets; Daddr Lan] Drop].
Definition INPUT : list Rule :=
  [mkRule [Iif_cirro; Saddr true Node_subnets] Drop;
   mkRule [Iif_cirro; Saddr false Node_subnets; Ct_state_new] Drop].

(** ** The script *)

Definition quoted (s : string) : string := String (ascii_of_nat 34) s +:+ String (ascii_of_nat 34) EmptyString.
Definition tab : string := String (ascii_of_nat 9) EmptyString.
Definition set_text (s : SetName) : string := match s with Node_subnets => "@node_subnets" | Lan => "@lan" end.
Definition match_text (m : Match) : string :=
  match m with
  | Iif_cirro => "iifname " +:+ quoted "cirro-*"
  | Saddr negated s => "ip saddr " +:+ (if negated then "!= " else "") +:+ set_text s
  | Daddr s => "ip daddr " +:+ set_text s
  | Tcp_dport port => "tcp dport " +:+ dec port
  | Ct_state_new => "ct state new"
  | Oif_egress => "oifname @egress_ifaces"
  end.
Definition verdict_text (v : Verdict) : string := match v with Drop => "drop" | Masquerade => "masquerade" end.
Definition rule_text (r : Rule) : string := str_join " " ((match_text <$> ru_matches r) ++ [verdict_text (ru_verdict r)]).
Definition add_rules (chain : string) (rules : list Rule) : list string :=
  (fun r => "add rule ip " +:+ TABLE +:+ " " +:+ chain +:+ " " +:+ rule_text r) <$> rules.
Definition policy_lines (subnet : string) (egress_iface : option string) : list string :=
  ["table ip " +:+ TABLE +:+ " {";
   tab +:+ "set node_subnets { type ipv4_addr; flags interval; }";
   tab +:+ "set egress_ifaces { type ifname; }";
   tab +:+ "set lan { type ipv4_addr; flags interval; elements = { " +:+ LAN_RANGES +:+ " }; }";
   tab +:+ "chain postrouting { type nat hook postrouting priority srcnat; policy accept; }";
   tab +:+ "chain forward { type filter hook forward priority filter; policy accept; }";
   tab +:+ "chain input { type filter hook input priority filter; policy accept; }";
   "}";
   "flush chain ip " +:+ TABLE +:+ " postrouting";
   "flush chain ip " +:+ TABLE +:+ " forward";
   "flush chain ip " +:+ TABLE +:+ " input"]
  ++ add_rules "postrouting" POSTROUTING ++ add_rules "forward" FORWARD ++ add_rules "input" INPUT
  ++ ["add element ip " +:+ TABLE +:+ " node_subnets { " +:+ subnet +:+ " }"]
  ++ match egress_iface with
     | Some iface => ["add element ip " +:+ TABLE +:+ " egress_ifaces { " +:+ quoted iface +:+ " }"]
     | None => []
     end.
Definition policy_script (subnet : string) (egress_iface : option string) : string :=
  foldr (fun line rest => line +:+ nl +:+ rest) EmptyString (policy_lines subnet egress_iface).

(** ** The table *)

Record Table := mkTable {
  tb_node_subnets : list Subnet;
  tb_egress_ifaces : gset string;
  tb_lan : list Subnet;
  tb_postrouting : list Rule;
  tb_forward : list Rule;
  tb_input : list Rule;
}.
Definition no_table : Table := mkTable [] ∅ [] [] [] [].
#[global] Instance subnet_eq_dec : EqDecision Subnet.
Proof. solve_decision. Defined.
Definition add_element (s : Subnet) (l : list Subnet) : list Subnet := if decide (s ∈ l) then l else l ++ [s].
(** What the script's transaction does: the declarations make what isn't
    there yet, the chains are flushed and filled, the elements added. *)
Definition policy_transaction (subnet : Subnet) (egress_iface : option string) (t : option Table) : Table :=
  let t := default no_table t in
  mkTable (add_element subnet (tb_node_subnets t))
    (match egress_iface with Some iface => {[iface]} ∪ tb_egress_ifaces t | None => tb_egress_ifaces t end)
    (foldl (fun l s => add_element s l) (tb_lan t) LAN)
    POSTROUTING FORWARD INPUT.

(** [nft]: it can't be run, or it fails with what it wrote. *)
Inductive NftAnswer := NftOk | NftIo (e : string) | NftFailed (stderr : string).
Definition nft (answer : NftAnswer) (args : list string) : result string unit :=
  match answer with
  | NftOk => Ok tt
  | NftIo e => Err e
  | NftFailed stderr => Err ("nft " +:+ str_join " " args +:+ " failed: " +:+ trim stderr)
  end.
Definition ensure_node_policy (answer : NftAnswer) (subnet : Subnet) (egress_iface : option string) (t : option Table)
    : option Table * result string unit :=
  let r := nft answer ["-f"; "-"] in
  (if is_ok r then Some (policy_transaction subnet egress_iface t) else t, r).
Definition remove_node_policy (answer : NftAnswer) (t : option Table) : option Table * result string unit :=
  match nft answer ["delete"; "table"; "ip"; TABLE] with
  | Ok _ => (None, Ok tt)
  | Err e => (t, if str_contains_str "No such file or directory" e then Ok tt else Err e)
  end.
(** [default_route_iface]: the word after [dev] in [ip]'s output. *)
Definition default_route_iface (output : option string) : option string :=
  out ← output; skip_while (fun w => negb (bool_decide (w = "dev"))) (split_whitespace out) !! 1%nat.

(** ** What a packet meets *)

Record Packet := mkPacket {
  pk_iif : string;
  pk_oif : string;
  pk_saddr : Ipv4Addr;
  pk_daddr : Ipv4Addr;
  pk_tcp_dport : option N;
  pk_new : bool;
}.
Definition in_subnet (a : Ipv4Addr) (s : Subnet) : bool := (N.land a (netmask (prefix_len s)) =? network s)%N.
Definition in_set (t : Table) (s : SetName) (a : Ipv4Addr) : bool :=
  existsb (in_subnet a) match s with Node_subnets => tb_node_subnets t | Lan => tb_lan t end.
Definition matches (t : Table) (p : Packet) (m : Match) : bool :=
  match m with
  | Iif_cirro => starts_with "cirro-" (pk_iif p)
  | Saddr negated s => xorb negated (in_set t s (pk_saddr p))
  | Daddr s => in_set t s (pk_daddr p)
  | Tcp_dport port => bool_decide (pk_tcp_dport p = Some port)
  | Ct_state_new => pk_new p
  | Oif_egress => bool_decide (pk_oif p ∈ tb_egress_ifaces t)
  end.
Definition verdicts (t : Table) (rules : list Rule) (p : Packet) : list Verdict :=
  omap (fun r => if forallb (matches t p) (ru_matches r) then Some (ru_verdict r) else None) rules.

Definition is_drop (v : Verdict) : bool := match v with Drop => true | Masquerade => false end.
Definition dropped (t : Table) (rules : list Rule) (p : Packet) : bool := existsb is_drop (verdicts t rules p).
Definition masqueraded (t : Table) (p : Packet) : bool := existsb (fun v => negb (is_drop v)) (verdicts t (tb_postrouting t) p).

(** ** [ip_forward]

    The sysctl and the record of what it was, as the states a call goes
    through: [fs::write] makes a file and then fills it. *)
Record Forwarding := mkForwarding { fw_ip_forward : string; fw_record : option string }.
Abbreviation fwM := (traceM Forwarding Forwarding).
Definition fw_get : fwM Forwarding := fun s => ([], s, Ok s).
Definition fw_step (g : Forwarding -> Forwarding) : fwM unit := fun s => ([g s], g s, Ok tt).
Definition set_record (r : option string) (s : Forwarding) : Forwarding := mkForwarding (fw_ip_forward s) r.
(** Writing nothing to a sysctl leaves it. *)
Definition set_ip_forward (v : string) (s : Forwarding) : Forwarding :=
  if is_empty v then s else mkForwarding v (fw_record s).
Record ForwardOutcome := mkForwardOutcome {
  fo_read : fault;
  fo_create : fault;
  fo_write : fault;
  fo_sysctl : fault;
  fo_remove : fault;
}.
Definition enable_ip_forward (o : ForwardOutcome) : fwM unit :=
  s ← fw_get;
  _ ← match fw_record s with
      | Some _ => mret tt
      | None =>
          _ ← lift (fault_result (fo_read o));
          let before := fw_ip_forward s +:+ nl in
          _ ← lift (fault_result (fo_create o));
          _ ← fw_step (set_record (Some ""));
          _ ← lift (fault_result (fo_write o));
          fw_step (set_record (Some (trim before)))
      end;
  _ ← lift (fault_result (fo_sysctl o));
  fw_step (set_ip_forward "1").
Definition restore_ip_forward (o : ForwardOutcome) : fwM unit :=
  s ← fw_get;
  match fo_read o, fw_record s with
  | Some e, _ => lift (Err e)
  | None, None => mret tt
  | None, Some before =>
      _ ← lift (fault_result (fo_sysctl o));
      _ ← fw_step (set_ip_forward (trim before));
      _ ← lift (fault_result (fo_remove o));
      fw_step (set_record None)
  end.

(** ** Guarantees *)

(** The rules as the source writes them. *)
Lemma rules_text :
  add_rules "forward" FORWARD =
    ["add rule ip cirro forward iifname " +:+ quoted "cirro-*" +:+ " ip saddr != @node_subnets drop";
     "add rule ip cirro forward iifname " +:+ quoted "cirro-*" +:+ " ip saddr @node_subnets tcp dport 25 drop";
     "add rule ip cirro forward iifname " +:+ quoted "cirro-*" +:+ " ip saddr @node_subnets ip daddr @node_subnets drop";
     "add rule ip cirro forward iifname " +:+ quoted "cirro-*" +:+ " ip saddr @node_subnets ip daddr @lan drop"] /\
  add_rules "input" INPUT =
    ["add rule ip cirro input iifname " +:+ quoted "cirro-*" +:+ " ip saddr != @node_subnets drop";
     "add rule ip cirro input iifname " +:+ quoted "cirro-*" +:+ " ip saddr @node_subnets ct state new drop"] /\
  add_rules "postrouting" POSTROUTING =
    ["add rule ip cirro postrouting ip saddr @node_subnets oifname @egress_ifaces masquerade"] /\
  LAN_RANGES = "10.0.0.0/8, 100.64.0.0/10, 169.254.0.0/16, 172.16.0.0/12, 192.168.0.0/16".
Proof. vm_compute. split_and!; reflexivity. Qed.

(** Any agents' calls, each with [nft]'s answer, and the subnets and egress
    interfaces of those that succeeded. *)
Definition Ensure : Type := NftAnswer * Subnet * option string.
Definition ensure_all (calls : list Ensure) (t : option Table) : option Table :=
  foldl (fun t '(answer, subnet, iface) => (ensure_node_policy answer subnet iface t).1) t calls.
#[local] Instance nft_answer_eq_dec : EqDecision NftAnswer.
Proof. solve_decision. Defined.
Definition succeeded (calls : list Ensure) : list Ensure := filter (fun c => c.1.1 = NftOk) calls.
Definition covered (calls : list Ensure) : list Subnet := (fun c => c.1.2) <$> succeeded calls.
Definition egress_of (calls : list Ensure) : list string := omap snd (succeeded calls).

Lemma elem_of_add_element x s l : x ∈ add_element s l <-> x = s \/ x ∈ l.
Proof. unfold add_element. destruct (decide (s ∈ l)); set_solver. Qed.
Lemma elem_of_add_elements x ss l : x ∈ foldl (fun l s => add_element s l) l ss <-> x ∈ ss \/ x ∈ l.
Proof. revert l. induction ss as [|s ss IH]; intros l; simpl; [set_solver|]. rewrite IH, elem_of_add_element. set_solver. Qed.

(** What every table the agents made is. *)
Record policy_ok (calls : list Ensure) (t : Table) : Prop := {
  po_subnets : forall s, s ∈ tb_node_subnets t <-> s ∈ covered calls;
  po_ifaces : forall i, i ∈ tb_egress_ifaces t <-> i ∈ egress_of calls;
  po_lan : forall s, s ∈ tb_lan t <-> s ∈ LAN;
  po_postrouting : tb_postrouting t = POSTROUTING;
  po_forward : tb_forward t = FORWARD;
  po_input : tb_input t = INPUT;
}.
Lemma policy_ok_transaction calls subnet iface t :
  match t with Some t => policy_ok calls t | None => covered calls = [] /\ egress_of calls = [] end ->
  policy_ok (calls ++ [(NftOk, subnet, iface)]) (policy_transaction subnet iface t).
Proof.
  intros Ht. assert (Hc : covered (calls ++ [(NftOk, subnet, iface)]) = covered calls ++ [subnet]).
  { unfold covered, succeeded. by rewrite filter_app, fmap_app. }
  assert (He : egress_of (calls ++ [(NftOk, subnet, iface)]) = egress_of calls ++ option_list iface).
  { unfold egress_of, succeeded. rewrite filter_app, omap_app. by f_equal. }
  assert (Hn : forall s, s ∈ tb_node_subnets (default no_table t) <-> s ∈ covered calls).
  { destruct t as [t|]; [apply Ht|]. destruct Ht as [-> _]. simpl. set_solver. }
  assert (Hi : forall i, i ∈ tb_egress_ifaces (default no_table t) <-> i ∈ egress_of calls).
  { destruct t as [t|]; [apply Ht|]. destruct Ht as [_ ->]. simpl. set_solver. }
  split; cbn [policy_transaction tb_node_subnets tb_egress_ifaces tb_lan]; try done.
  - intros s. rewrite elem_of_add_element, Hn, Hc. set_solver.
  - intros i. rewrite He. destruct iface as [j|]; [|rewrite Hi]; set_solver.
  - intros s. rewrite elem_of_add_elements. destruct t as [t|]; [cbn; rewrite (po_lan _ _ Ht)|]; set_solver.
Qed.
Lemma ensure_all_ok calls :
  match ensure_all calls None with Some t => policy_ok calls t | None => covered calls = [] /\ egress_of calls = [] end.
Proof.
  induction calls as [|[[answer subnet] iface] calls IH] using rev_ind; [done|].
  unfold ensure_all. rewrite foldl_app. fold (ensure_all calls None). simpl.
  destruct answer; unfold ensure_node_policy; simpl; [by apply policy_ok_transaction| |].
  all: unfold covered, egress_of, succeeded; rewrite filter_app; simpl; rewrite app_nil_r;
    destruct (ensure_all calls None) as [t|]; [|done]; destruct IH; split; try done.
  all: unfold covered, egress_of, succeeded; rewrite filter_app; simpl; by rewrite app_nil_r.
Qed.

Lemma existsb_elem {A} (f : A -> bool) l1 l2 : (forall x, x ∈ l1 <-> x ∈ l2) -> existsb f l1 = existsb f l2.
Proof.
  intros H. apply eq_true_iff_eq. rewrite !existsb_exists. setoid_rewrite <-list_elem_of_In.
  split; intros (x & Hx & ?); exists x; (split; [|done]); by apply H.
Qed.
Lemma in_subnet_vm_address s x : subnet_wf s -> x ∈ vm_addresses s -> in_subnet x s = true.
Proof.
  intros Hwf Hx. apply N.eqb_eq, in_subnet_land; [done|]. apply elem_of_vm_addresses in Hx. lia.
Qed.
Lemma host_id_cirro x : starts_with "cirro-" (host_id x) = true.
Proof. unfold host_id. by destruct (octets x) as [[[? ?] ?] ?]. Qed.

(** What a packet meets in a table the agents made. *)
Lemma policy_verdicts calls t p :
  policy_ok calls t ->
  let ours a := existsb (in_subnet a) (covered calls) in
  let from_vm := starts_with "cirro-" (pk_iif p) in
  dropped t (tb_forward t) p =
    from_vm && (negb (ours (pk_saddr p)) || bool_decide (pk_tcp_dport p = Some 25%N) || ours (pk_daddr p)
      || existsb (in_subnet (pk_daddr p)) LAN) /\
  dropped t (tb_input t) p = from_vm && (negb (ours (pk_saddr p)) || pk_new p) /\
  masqueraded t p = ours (pk_saddr p) && bool_decide (pk_oif p ∈ egress_of calls).
Proof.
  intros [H1 H2 H3 H4 H5 H6] ours from_vm.
  assert (Hs : forall a, in_set t Node_subnets a = ours a) by (intros a; by apply existsb_elem).
  assert (Hl : in_set t Lan (pk_daddr p) = existsb (in_subnet (pk_daddr p)) LAN) by by apply existsb_elem.
  revert Hl. generalize (existsb (in_subnet (pk_daddr p)) LAN) as lan. intros lan Hl.
  assert (He : bool_decide (pk_oif p ∈ tb_egress_ifaces t) = bool_decide (pk_oif p ∈ egress_of calls)) by
    (by apply bool_decide_ext).
  unfold dropped, masqueraded, verdicts. rewrite H4, H5, H6.
  unfold FORWARD, INPUT, POSTROUTING, matches; simpl. rewrite !Hs, ?Hl, He. fold from_vm. split_and!.
  - destruct from_vm, (ours (pk_saddr p)), (bool_decide (pk_tcp_dport p = Some 25%N)), (ours (pk_daddr p)), lan; reflexivity.
  - by destruct from_vm, (ours (pk_saddr p)), (pk_new p).
  - by destruct (ours (pk_saddr p)), (bool_decide (pk_oif p ∈ egress_of calls)).
Qed.

(** The egress policy confines VMs and nothing else. After any agents'
    calls, failed ones among them, a forwarded packet is dropped exactly when
    it came in from a VM's interface and has a source that is no VM's, is
    SMTP, or is for another VM or the LAN ranges; a packet to the Node itself
    exactly when it came from a VM's interface with a foreign source or opens
    a connection; packets are masqueraded exactly from the Node subnets out
    of the egress interfaces. Every VM of every covered subnet is behind such
    an interface with such a source, and no call adds a rule twice or takes
    another agent's subnet away. *)
Theorem egress_policy_confines_vms (calls : list Ensure) (t : Table) (p : Packet) :
  ensure_all calls None = Some t ->
  let ours a := existsb (in_subnet a) (covered calls) in
  let from_vm := starts_with "cirro-" (pk_iif p) in
  dropped t (tb_forward t) p =
    from_vm && (negb (ours (pk_saddr p)) || bool_decide (pk_tcp_dport p = Some 25%N) || ours (pk_daddr p)
      || existsb (in_subnet (pk_daddr p)) LAN) /\
  dropped t (tb_input t) p = from_vm && (negb (ours (pk_saddr p)) || pk_new p) /\
  masqueraded t p = ours (pk_saddr p) && bool_decide (pk_oif p ∈ egress_of calls) /\
  (forall s x, s ∈ covered calls -> subnet_wf s -> x ∈ vm_addresses s ->
     starts_with "cirro-" (host_id x) = true /\ ours x = true) /\
  (tb_postrouting t, tb_forward t, tb_input t) = (POSTROUTING, FORWARD, INPUT).
Proof.
  intros Ht ours from_vm. pose proof (ensure_all_ok calls) as H. rewrite Ht in H.
  destruct (policy_verdicts calls t p H) as (Hf & Hi & Hm). destruct H as [_ _ _ H4 H5 H6]. split_and!; [done..| |].
  - intros s x Hc Hwf Hx. split; [apply host_id_cirro|]. apply existsb_exists. exists s. split; [by apply list_elem_of_In|].
    by apply in_subnet_vm_address.
  - by rewrite H4, H5, H6.
Qed.
Lemma egress_policy_confines_vms_witness :
  let s := mkSubnet (ipv4_new 10 77 0 0) 16 in
  let p daddr := mkPacket (host_id (ipv4_new 10 77 0 2)) "eth0" (ipv4_new 10 77 0 2) daddr (Some 443%N) true in
  exists t, ensure_all [(NftFailed "busy", s, None); (NftOk, s, Some "eth0"); (NftOk, s, None)] None = Some t /\
    dropped t (tb_forward t) (p (ipv4_new 1 1 1 1)) = false /\ masqueraded t (p (ipv4_new 1 1 1 1)) = true /\
    dropped t (tb_forward t) (p (ipv4_new 192 168 1 1)) = true.
Proof.
  intros s p. eexists. split; [reflexivity|]. split_and!.
  - refine (eq_trans (proj1 (egress_policy_confines_vms [(NftFailed "busy", s, None); (NftOk, s, Some "eth0"); (NftOk, s, None)]
      _ (p (ipv4_new 1 1 1 1)) eq_refl)) _). vm_compute. reflexivity.
  - vm_compute. reflexivity.
  - vm_compute. reflexivity.
Defined.

(** *** [ip_forward] is put back *)

Definition final {A} (m : fwM A) (s : Forwarding) : Forwarding := (m s).1.2.
Definition recorded (v : string) (s : Forwarding) : Prop :=
  match fw_record s with Some r => r = v | None => fw_ip_forward s = v end.
Definition is_switch (v : string) : Prop := v = "0" \/ v = "1".
Lemma trim_switch v : is_switch v -> trim v = v /\ trim (v +:+ nl) = v.
Proof. by intros [-> | ->]. Qed.
Lemma enable_keeps_record v o s :
  is_switch v -> fo_write o = None -> recorded v s -> recorded v (final (enable_ip_forward o) s).
Proof.
  intros Hv Hw Hr. unfold final, enable_ip_forward, mbind, trace_bind, fw_get, fw_step, lift; simpl. rewrite Hw.
  destruct s as [f [r|]]; simpl in *; unfold recorded in *; simpl in *.
  - subst. by destruct (fo_sysctl o).
  - subst. destruct (fo_read o); [done|]. destruct (fo_create o); [done|]. simpl.
    destruct (trim_switch v Hv) as [_ ->]. by destruct (fo_sysctl o).
Qed.
Lemma restore_recorded v o s t s' :
  is_switch v -> recorded v s -> restore_ip_forward o s = (t, s', Ok tt) -> s' = mkForwarding v None.
Proof.
  intros Hv Hs. unfold restore_ip_forward, mbind, trace_bind, fw_get, fw_step, lift; simpl.
  destruct s as [f [r|]]; unfold recorded in Hs; simpl in *; subst.
  - destruct (fo_read o), (fo_sysctl o), (fo_remove o); simpl; try discriminate.
    intros [= _ <-]. destruct (trim_switch v Hv) as [-> _]. by destruct Hv as [-> | ->].
  - destruct (fo_read o); [discriminate|]. by intros [= _ <-].
Qed.
(** Uninstalling puts back what the Node had before the first agent, however
    often and however unluckily agents started, unless writing the record
    itself was cut short. *)
Theorem ip_forward_restored (v : string) (starts : list ForwardOutcome) (o : ForwardOutcome) t s' :
  is_switch v -> Forall (fun o => fo_write o = None) starts ->
  let s := foldl (fun s o => final (enable_ip_forward o) s) (mkForwarding v None) starts in
  restore_ip_forward o s = (t, s', Ok tt) -> s' = mkForwarding v None.
Proof.
  intros Hv Hstarts s. apply restore_recorded; [done|].
  unfold s. assert (H0 : recorded v (mkForwarding v None)) by done. revert H0. generalize (mkForwarding v None) as s0.
  induction Hstarts as [|x starts Hx _ IH]; intros s0 H0; simpl; [done|]. by apply IH, enable_keeps_record.
Qed.

(** ** Where a record cut short is kept

    [enable_ip_forward] records the value "if nothing has been recorded there
    yet, so [cirro node uninstall] can put back what the Node had". Killed
    between making the record and filling it, it has recorded nothing, and
    no later start does. *)
Definition no_forward_faults : ForwardOutcome := mkForwardOutcome None None None None None.
Theorem ip_forward_record_cut_short :
  exists s, s ∈ (enable_ip_forward no_forward_faults (mkForwarding "0" None)).1.1 /\
    restore_ip_forward no_forward_faults (final (enable_ip_forward no_forward_faults) s)
      = ([mkForwarding "1" (Some ""); mkForwarding "1" None], mkForwarding "1" None, Ok tt).
Proof. exists (mkForwarding "0" (Some "")). split; [simpl; set_solver|reflexivity]. Qed.
