(* ===== verification/Network.v ===== *)
(** * A guest's packets, from its tap to the Node's uplink

    Each VM has a network namespace of its own, whose rules and routes
    [host_steps] of [crates/cirro-node/src/vm.rs] makes, and the Node forwards
    what comes out of it through the egress policy. The rules are [Vm]'s text
    read as nftables documents it: a packet meets prerouting, then routing,
    then forward, then postrouting, and a connection's later packets are
    translated like its first. *)

From S2P Require Import Prelude RustStr Proto Subnet Store Validate Vm Trace Egress.

(** ** The namespace *)

(** Its rules: destination NAT, the source filter and source NAT. *)
Record NsRules := mkNsRules {
  ns_dnat : Ipv4Addr * Ipv4Addr;
  ns_filter : string * Ipv4Addr;
  ns_snat : Ipv4Addr * Ipv4Addr;
}.
Definition namespace_rules (vm_address : Ipv4Addr) : NsRules :=
  mkNsRules (vm_address, GUEST_ADDRESS) ("tap0", GUEST_ADDRESS) (GUEST_ADDRESS, vm_address).
Definition ns_rules_text (r : NsRules) : string :=
  "table ip cirro {" +:+ nl
    +:+ tab +:+ "chain prerouting { type nat hook prerouting priority dstnat; ip daddr " +:+ ipv4_display (ns_dnat r).1
    +:+ " dnat to " +:+ ipv4_display (ns_dnat r).2 +:+ "; }" +:+ nl
    +:+ tab +:+ "chain forward { type filter hook forward priority filter; iifname " +:+ quoted (ns_filter r).1
    +:+ " ip saddr != " +:+ ipv4_display (ns_filter r).2 +:+ " drop; }" +:+ nl
    +:+ tab +:+ "chain postrouting { type nat hook postrouting priority srcnat; ip saddr " +:+ ipv4_display (ns_snat r).1
    +:+ " snat to " +:+ ipv4_display (ns_snat r).2 +:+ "; }" +:+ nl
    +:+ "}" +:+ nl.

(** Its routes: its own addresses, the guest's network on the tap, and
    everything else to the Node. *)
Inductive NsRoute := ToNamespace | ToTap | ToNode.
Definition TAP_SUBNET : Subnet := mkSubnet (ipv4_new 172 16 0 0) 30.
Definition ns_route (vm_address : Ipv4Addr) (daddr : Ipv4Addr) : NsRoute :=
  if bool_decide (daddr = vm_address) || bool_decide (daddr = GUEST_GATEWAY) then ToNamespace
  else if in_subnet daddr TAP_SUBNET then ToTap
  else ToNode.

(** A packet through the namespace: in from [iif], and out where it is
    routed, translated; [None] when it is dropped or the namespace's own. *)
Definition through_namespace (vm_address : Ipv4Addr) (iif : string) (saddr daddr : Ipv4Addr)
    : option (NsRoute * Ipv4Addr * Ipv4Addr) :=
  let r := namespace_rules vm_address in
  let daddr := if bool_decide (daddr = (ns_dnat r).1) then (ns_dnat r).2 else daddr in
  match ns_route vm_address daddr with
  | ToNamespace => None
  | route =>
      if bool_decide (iif = (ns_filter r).1) && negb (bool_decide (saddr = (ns_filter r).2)) then None
      else Some (route, if bool_decide (saddr = (ns_snat r).1) then (ns_snat r).2 else saddr, daddr)
  end.

(** ** The Node *)

(** What a guest sends, with any source it likes. *)
Record GuestPacket := mkGuestPacket {
  gp_saddr : Ipv4Addr;
  gp_daddr : Ipv4Addr;
  gp_tcp_dport : option N;
  gp_new : bool;
}.
(** As it reaches the Node, out of the VM's own interface; [oif] is where the
    Node would forward it. *)
Definition from_guest (vm_address : Ipv4Addr) (oif : string) (g : GuestPacket) : option Packet :=
  match through_namespace vm_address "tap0" (gp_saddr g) (gp_daddr g) with
  | Some (ToNode, saddr, daddr) => Some (mkPacket (host_id vm_address) oif saddr daddr (gp_tcp_dport g) (gp_new g))
  | _ => None
  end.

(** ** Guarantees *)

Lemma namespace_rules_text vm_address : ns_rules_text (namespace_rules vm_address) = namespace_ruleset vm_address.
Proof. reflexivity. Qed.

(** What of a guest's packet reaches the Node. *)
Lemma from_guest_inv vm_address oif g q :
  from_guest vm_address oif g = Some q ->
  gp_saddr g = GUEST_ADDRESS /\ gp_daddr g <> vm_address /\ in_subnet (gp_daddr g) TAP_SUBNET = false /\
  q = mkPacket (host_id vm_address) oif vm_address (gp_daddr g) (gp_tcp_dport g) (gp_new g).
Proof.
  unfold from_guest, through_namespace, ns_route. cbn [ns_dnat ns_filter ns_snat namespace_rules fst snd].
  destruct (bool_decide_reflect (gp_daddr g = vm_address)) as [He|Hne].
  { destruct (bool_decide (GUEST_ADDRESS = vm_address) || bool_decide (GUEST_ADDRESS = GUEST_GATEWAY)); [done|].
    change (in_subnet GUEST_ADDRESS TAP_SUBNET) with true. cbn iota. by destruct (_ && _). }
  rewrite (bool_decide_false (gp_daddr g = vm_address)) by done. cbn [orb].
  destruct (bool_decide (gp_daddr g = GUEST_GATEWAY)); [done|].
  destruct (in_subnet (gp_daddr g) TAP_SUBNET) eqn:Ht; [by destruct (_ && _)|].
  rewrite bool_decide_true by done. cbn [andb].
  destruct (bool_decide_reflect (gp_saddr g = GUEST_ADDRESS)) as [Hs|Hs]; [|done]. cbn [negb].
  by intros [= <-].
Qed.

Lemma from_guest_ok vm_address oif g :
  gp_saddr g = GUEST_ADDRESS -> gp_daddr g <> vm_address -> in_subnet (gp_daddr g) TAP_SUBNET = false ->
  from_guest vm_address oif g =
    Some (mkPacket (host_id vm_address) oif vm_address (gp_daddr g) (gp_tcp_dport g) (gp_new g)).
Proof.
  intros Hs Hne Ht. unfold from_guest, through_namespace, ns_route. cbn [ns_dnat ns_filter ns_snat namespace_rules fst snd].
  rewrite (bool_decide_false (gp_daddr g = vm_address)) by done. cbn iota.
  rewrite (bool_decide_false (gp_daddr g = vm_address)) by done.
  rewrite (bool_decide_false (gp_daddr g = GUEST_GATEWAY)) by (intros E; by rewrite E in Ht). cbn [orb].
  rewrite Ht, Hs, !bool_decide_true by done. reflexivity.
Qed.
(** The guest's own network is a private one. *)
Lemma tap_in_lan a : in_subnet a TAP_SUBNET = true -> existsb (in_subnet a) LAN = true.
Proof.
  unfold in_subnet. intros H%N.eqb_eq. apply existsb_exists. exists (mkSubnet (ipv4_new 172 16 0 0) 12).
  split; [simpl; tauto|]. apply N.eqb_eq. cbn [prefix_len network TAP_SUBNET] in *.
  replace (netmask 12) with (N.land (netmask 30) (netmask 12)) by reflexivity. rewrite N.land_assoc, H. reflexivity.
Qed.

(** C15: A guest reaches the internet and nothing nearer, as nobody but
    itself. For a VM address of a Node subnet some agent's call has put in the
    policy's table [t], after any agents' calls for it, and whatever a guest
    sends, whatever source it forges: what comes out of its namespace comes
    out of its own interface with its own VM address as the source, so that no
    packet of one VM passes for another's of its subnet; the Node forwards it
    exactly when it is not mail and goes to no VM of any covered subnet and to
    no private network; it is masqueraded exactly when the interface it leaves
    by is an egress one of those calls; sent to the Node itself it is dropped
    exactly when it is new, so that a guest opens no connection to the Node
    but may answer one the Node opened; and a packet with the guest's own
    source to any other address and port is forwarded. *)
Theorem guest_traffic_is_confined (calls : list Ensure) (t : Table) (s : Subnet) (vm_address : Ipv4Addr) (oif : string)
    (g : GuestPacket) :
  ensure_all calls None = Some t -> s ∈ covered calls -> subnet_wf s -> vm_address ∈ vm_addresses s ->
  let near a := existsb (in_subnet a) (covered calls) || existsb (in_subnet a) LAN in
  let mail := bool_decide (gp_tcp_dport g = Some 25%N) in
  (forall q, from_guest vm_address oif g = Some q ->
     pk_iif q = host_id vm_address /\ pk_saddr q = vm_address /\ pk_daddr q = gp_daddr g /\
     dropped t (tb_forward t) q = mail || near (gp_daddr g) /\
     dropped t (tb_input t) q = gp_new g /\
     masqueraded t q = bool_decide (oif ∈ egress_of calls)) /\
  (forall vm' g', vm' ∈ vm_addresses s -> vm' <> vm_address -> forall q q', from_guest vm_address oif g = Some q ->
     from_guest vm' oif g' = Some q' -> pk_saddr q' <> pk_saddr q /\ pk_iif q' <> pk_iif q) /\
  (gp_saddr g = GUEST_ADDRESS -> near (gp_daddr g) = false -> mail = false ->
     exists q, from_guest vm_address oif g = Some q /\ dropped t (tb_forward t) q = false).
Proof.
  intros Ht Hs Hwf Hvm near mail.
  pose proof (ensure_all_ok calls) as Hok. rewrite Ht in Hok.
  assert (Hour : existsb (in_subnet vm_address) (covered calls) = true).
  { apply existsb_exists. exists s. split; [by apply list_elem_of_In|by apply in_subnet_vm_address]. }
  assert (Hq : forall q, from_guest vm_address oif g = Some q ->
    pk_iif q = host_id vm_address /\ pk_saddr q = vm_address /\ pk_daddr q = gp_daddr g /\
    dropped t (tb_forward t) q = mail || near (gp_daddr g) /\ dropped t (tb_input t) q = gp_new g /\
    masqueraded t q = bool_decide (oif ∈ egress_of calls)).
  { intros q (_ & _ & _ & ->)%from_guest_inv.
    destruct (policy_verdicts calls t (mkPacket (host_id vm_address) oif vm_address (gp_daddr g) (gp_tcp_dport g) (gp_new g)) Hok)
      as (Hf & Hi & Hm). cbn [pk_iif pk_saddr pk_daddr pk_tcp_dport pk_new pk_oif] in *. rewrite Hour, ?host_id_cirro in Hf, Hi, Hm.
    split_and!; try done. rewrite Hf. unfold mail, near. cbn [negb andb orb].
    by rewrite orb_assoc. }
  split_and!; [exact Hq| |].
  - intros vm' g' Hvm' Hne q q' (_ & _ & _ & ->)%from_guest_inv (_ & _ & _ & ->)%from_guest_inv.
    cbn [pk_saddr pk_iif]. split; [done|].
    intros E%(f_equal parse_host_id). rewrite !parse_host_id_host_id in E. injection E as E. apply Hne. by eapply low16_inj.
  - intros Hsrc Hnear Hmail. assert (Hf : exists q, from_guest vm_address oif g = Some q).
    { eexists. apply from_guest_ok; [done| |].
      - intros E. unfold near in Hnear. by rewrite E, Hour in Hnear.
      - apply not_true_is_false. intros E. unfold near in Hnear. apply orb_false_iff in Hnear as [_ Hlan].
        by rewrite (tap_in_lan _ E) in Hlan. }
    destruct Hf as [q E]. exists q. split; [done|]. destruct (Hq q E) as (_ & _ & _ & -> & _). by rewrite Hnear, Hmail.
Qed.
Lemma guest_traffic_is_confined_witness :
  let s := mkSubnet (ipv4_new 10 77 0 0) 16 in
  let send saddr daddr := from_guest (ipv4_new 10 77 0 2) "eth0" (mkGuestPacket saddr daddr (Some 443%N) true) in
  exists t, ensure_all [(NftOk, s, Some "eth0")] None = Some t /\
    (exists q, send GUEST_ADDRESS (ipv4_new 1 1 1 1) = Some q /\ dropped t (tb_forward t) q = false) /\
    send (ipv4_new 10 77 0 3) (ipv4_new 1 1 1 1) = None.
Proof.
  intros s send. eexists. split; [reflexivity|]. split; [|reflexivity].
  refine (proj2 (proj2 (guest_traffic_is_confined [(NftOk, s, Some "eth0")] _ s (ipv4_new 10 77 0 2) "eth0"
    (mkGuestPacket GUEST_ADDRESS (ipv4_new 1 1 1 1) (Some 443%N) true) eq_refl _ _ _)) _ _ _).
  - left.
  - split; [simpl; lia|by vm_compute|by vm_compute].
  - apply elem_of_vm_addresses. by vm_compute.
  - reflexivity.
  - vm_compute. reflexivity.
  - vm_compute. reflexivity.
Defined.

(** A packet for a VM address reaches the guest, from whoever sent it. *)
Theorem inbound_reaches_the_guest vm_address saddr :
  vm_address <> GUEST_ADDRESS -> saddr <> GUEST_ADDRESS ->
  through_namespace vm_address "veth0" saddr vm_address = Some (ToTap, saddr, GUEST_ADDRESS).
Proof.
  intros H1 H2. unfold through_namespace, ns_route. cbn [ns_dnat ns_filter ns_snat namespace_rules fst snd].
  rewrite (bool_decide_true (vm_address = vm_address)) by done. cbn iota.
  rewrite (bool_decide_false (GUEST_ADDRESS = vm_address)) by congruence.
  change (bool_decide (GUEST_ADDRESS = GUEST_GATEWAY)) with false. change (in_subnet GUEST_ADDRESS TAP_SUBNET) with true.
  cbn [orb]. change (bool_decide ("veth0" = "tap0")) with false. cbn [andb].
  by rewrite (bool_decide_false (saddr = GUEST_ADDRESS)).
Qed.
