(* ===== verification/AgentRun.v ===== *)
(** * The agent from its start to its end ([run] of [crates/cirro-node/src/agent.rs])

    [run] in source order, as the states it shows from outside, one per call
    that changes them: the refusals, the state dir, the network policy, the
    CA, [reconcile], the edges and the socket, then the accept loop until a
    signal, and the shutdown. The Node's agent is [AgentBoot]'s: up from the
    end of its boot on, and from then on anything that can happen to it may
    happen between two of [run]'s own steps. *)

From S2P Require Import Prelude RustStr Proto Subnet Store Validate Vm VmLaws VmEnd Machine.
From S2P Require Import MachineLaws Edge Agent AgentSys AgentHost AgentBoot AgentProps Trace Tls Acme TlsLaws Egress.

(** ** The Node as [run] sees it *)

(** The file at the socket's path; [sk_live] while a process listens there. *)
Record SocketFile := mkSocketFile { sk_live : bool; sk_uid : N; sk_gid : N; sk_mode : N }.
(** The tasks [run] spawns. *)
Inductive Spawned := IdleParker | Renewer | HttpEdge (address : string) | HttpsEdge (address : string) | StatsSampler.
#[global] Instance spawned_eq_dec : EqDecision Spawned.
Proof. solve_decision. Defined.

(** [ww_node] holds the state database and the host, the agent up or down;
    [ww_files] the state dir's certificates and keys; [ww_connections] the
    uids of the connections taken. *)
Record World := mkWorld {
  ww_node : AgentNode;
  ww_parked_mode : N;
  ww_forward : Forwarding;
  ww_table : option Table;
  ww_files : Dir;
  ww_acme : option Acme;
  ww_tasks : list Spawned;
  ww_socket : option SocketFile;
  ww_connections : list N;
}.
Definition set_ww_node x w := mkWorld x (ww_parked_mode w) (ww_forward w) (ww_table w) (ww_files w) (ww_acme w)
  (ww_tasks w) (ww_socket w) (ww_connections w).
Definition set_ww_parked_mode x w := mkWorld (ww_node w) x (ww_forward w) (ww_table w) (ww_files w) (ww_acme w)
  (ww_tasks w) (ww_socket w) (ww_connections w).
Definition set_ww_forward x w := mkWorld (ww_node w) (ww_parked_mode w) x (ww_table w) (ww_files w) (ww_acme w)
  (ww_tasks w) (ww_socket w) (ww_connections w).
Definition set_ww_table x w := mkWorld (ww_node w) (ww_parked_mode w) (ww_forward w) x (ww_files w) (ww_acme w)
  (ww_tasks w) (ww_socket w) (ww_connections w).
Definition set_ww_files x w := mkWorld (ww_node w) (ww_parked_mode w) (ww_forward w) (ww_table w) x (ww_acme w)
  (ww_tasks w) (ww_socket w) (ww_connections w).
Definition set_ww_acme x w := mkWorld (ww_node w) (ww_parked_mode w) (ww_forward w) (ww_table w) (ww_files w) x
  (ww_tasks w) (ww_socket w) (ww_connections w).
Definition set_ww_tasks x w := mkWorld (ww_node w) (ww_parked_mode w) (ww_forward w) (ww_table w) (ww_files w)
  (ww_acme w) x (ww_socket w) (ww_connections w).
Definition set_ww_socket x w := mkWorld (ww_node w) (ww_parked_mode w) (ww_forward w) (ww_table w) (ww_files w)
  (ww_acme w) (ww_tasks w) x (ww_connections w).
Definition set_ww_connections x w := mkWorld (ww_node w) (ww_parked_mode w) (ww_forward w) (ww_table w) (ww_files w)
  (ww_acme w) (ww_tasks w) (ww_socket w) x.
Definition ww_agent (w : World) : Agent := nd_agent (ww_node w).
(** The state database and the host, while no agent is up. *)
Definition with_agent (f : Agent -> Agent) (w : World) : World :=
  set_ww_node (mkAgentNode (nd_up (ww_node w)) (on_agent f (nd_sys (ww_node w)))) w.
Definition with_host (f : Host -> Host) : World -> World := with_agent (fun a => set_ag_host (f (ag_host a)) a).

Abbreviation runM := (traceM World World).

(** [Config]. *)
Record AcmeConfig := mkAcmeConfig { af_directory : string; af_email : string; af_root : option string }.
Record Config := mkConfig {
  cf_state_dir : string;
  cf_socket : string;
  cf_socket_group : string;
  cf_subnet : Subnet;
  cf_firecracker : string;
  cf_jailer : string;
  cf_kernel : string;
  cf_http : option string;
  cf_https : option string;
  cf_acme : option AcmeConfig;
}.

(** What a start meets: the answers of the kernel and of the programs it
    runs, and what else happens to the agent meanwhile, once it is up, around
    each of the edges' binds. *)
Record StartOutcomes := mkStartOutcomes {
  so_connect : fault;
  so_logs : fault;
  so_parked : fault;
  so_parked_mode : fault;
  so_store : fault * fault * fault;
  so_route : option string;
  so_forward : ForwardOutcome;
  so_nft : NftAnswer;
  so_group : string -> result string (option N);
  so_ca : CaOutcome;
  so_acme_dir : fault;
  so_acme_read : string -> result string HostCertificate;
  so_reconcile : ReconcileOutcome;
  so_machines : fault;
  so_machine_apps : fault;
  so_known : string -> write_fault;
  so_ports : string -> nat -> result string (list N);
  so_now : N;
  so_http : fault;
  so_https : fault;
  so_tls : fault;
  so_socket_dir : fault;
  so_socket_remove : fault;
  so_ids : N * N;
  so_bind : fault;
  so_chown : fault;
  so_chmod : fault;
  so_sigterm : fault;
  so_sigint : fault;
  so_meanwhile : list SysEvent;
  so_meanwhile' : list SysEvent;
}.

(** ** The refusal *)

Inductive ConnectAnswer := Connected | NotFound | ConnectionRefused | OtherIo (e : string).
(** What [connect] meets: [f] is any other error. *)
Definition connect_to (f : fault) (s : option SocketFile) : ConnectAnswer :=
  match f, s with
  | Some e, _ => OtherIo e
  | None, None => NotFound
  | None, Some s => if sk_live s then Connected else ConnectionRefused
  end.
Definition refuse_if_already_running (socket : string) (answer : ConnectAnswer) : result string unit :=
  match answer with
  | Connected => Err ("cirro node: agent already running at " +:+ socket)
  | NotFound | ConnectionRefused => Ok tt
  | OtherIo e => Err e
  end.

Section run.
Context (crypto : Crypto) (cfg : Config).
Let sd : string := cf_state_dir cfg.
Let sub : Subnet := cf_subnet cfg.

(** ** The start *)

(** [create_dir] of a directory that may be there. *)
Definition make_dir (path : string) (h : Host) : Host :=
  match ho_dirs h !! path with Some _ => h | None => set_dirs (<[path := ∅]> (ho_dirs h)) h end.
(** The parked dir: made [0700], and [0700] when it was there. *)
Definition make_parked_dir (o : StartOutcomes) : runM unit :=
  let parked := path_join sd "parked" in
  w ← what_is;
  _ ← match ho_dirs (ag_host (ww_agent w)) !! parked with
      | Some _ => mret tt
      | None =>
          _ ← lift (fault_result (so_parked o));
          show (fun w => set_ww_parked_mode 448 (with_host (make_dir parked) w))
      end;
  _ ← lift (fault_result (so_parked_mode o));
  show (set_ww_parked_mode 448).

Definition open_store (f : fault * fault * fault) : runM unit := fun w =>
  let '(db, r) := store_open f.1.1 f.1.2 f.2 (subnet_display sub) (ag_db (ww_agent w)) in
  let w := with_agent (set_ag_db db) w in
  ([w], w, map_err open_error r).
Definition apply_policy (o : StartOutcomes) : runM unit := fun w =>
  let '(t, r) := ensure_node_policy (so_nft o) sub (default_route_iface (so_route o)) (ww_table w) in
  let w := set_ww_table t w in
  ([w], w, map_err (fun e => "apply the Node's egress policy: " +:+ e) r).
Definition load_ca (o : StartOutcomes) : runM (option (NodeCa crypto)) :=
  match cf_https cfg with
  | Some _ => ca ← zoom ww_files set_ww_files (load_or_create crypto sd (so_ca o)); mret (Some ca)
  | None => mret None
  end.
Definition load_acme (o : StartOutcomes) : runM bool :=
  match cf_acme cfg, cf_https cfg with
  | Some _, Some _ =>
      _ ← lift (fault_result (so_acme_dir o));
      w ← what_is;
      _ ← show (set_ww_acme (Some (acme_load (so_acme_read o) (map_to_list (ww_files w)).*1)));
      mret true
  | Some _, None => lift (Err "ACME certificates are for the HTTPS edge: start the agent with --https too")
  | None, _ => mret false
  end.

(** The [Agent], [reconcile] and [Machines::restore]: the agent is up once
    both are done, and gone when either fails. *)
Definition boot (o : StartOutcomes) (gid : N) (ca : option string) (acme : bool) : runM unit := fun w =>
  let a := boot_agent sd (cf_firecracker cfg) (cf_jailer cfg) (cf_kernel cfg) gid sub ca acme
    (ag_db (ww_agent w)) (ag_host (ww_agent w)) in
  let '(a, r) := reconcile (so_reconcile o) (so_now o) a in
  let down := set_ww_node (mkAgentNode false (sys_new a)) w in
  match r, load_machines (so_machines o) (ag_db a), load_machine_apps (so_machine_apps o) (ag_db a) with
  | Ok _, Ok records, Ok apps =>
      let a := set_ag_machines (restore (so_known o) (so_ports o) records apps (ag_machines a)) a in
      let w := set_ww_node (mkAgentNode true (sys_new a)) w in
      ([w], w, Ok tt)
  | Err e, _, _ => ([down], down, Err e)
  | Ok _, Err e, _ => ([down], down, Err e)
  | Ok _, Ok _, Err e => ([down], down, Err e)
  end.

Definition spawn (t : Spawned) : runM unit := show (fun w => set_ww_tasks (t :: ww_tasks w) w).
(** Something happens to the agent. *)
Definition happens (ev : SysEvent) : runM unit :=
  show (fun w => set_ww_node (mkAgentNode (nd_up (ww_node w)) (sys_step ev (nd_sys (ww_node w)))) w).
Fixpoint meanwhile (evs : list SysEvent) : runM unit :=
  match evs with
  | [] => mret tt
  | ev :: evs => _ ← happens ev; meanwhile evs
  end.

Definition start_renewer (acme : bool) : runM unit := if acme then spawn Renewer else mret tt.
Definition start_http_edge (o : StartOutcomes) : runM unit :=
  match cf_http cfg with
  | Some address =>
      _ ← lift (map_err (fun e => "listen for HTTP on " +:+ address +:+ ": " +:+ e) (fault_result (so_http o)));
      spawn (HttpEdge address)
  | None => mret tt
  end.
Definition start_https_edge (o : StartOutcomes) (ca : option (NodeCa crypto)) : runM unit :=
  match cf_https cfg, ca with
  | Some address, Some _ =>
      _ ← lift (map_err (fun e => "listen for HTTPS on " +:+ address +:+ ": " +:+ e) (fault_result (so_https o)));
      _ ← lift (fault_result (so_tls o));
      spawn (HttpsEdge address)
  | _, _ => mret tt
  end.

(** [bind] under a umask: the socket is the process's own, and a file in the
    way makes it fail. *)
Definition bind_socket (o : StartOutcomes) (umask : N) : runM unit :=
  _ ← lift (fault_result (so_bind o));
  w ← what_is;
  match ww_socket w with
  | Some _ => lift (Err "Address already in use (os error 98)")
  | None => show (set_ww_socket (Some (mkSocketFile true (so_ids o).1 (so_ids o).2 (N.ldiff 511 umask))))
  end.
Definition with_socket (f : SocketFile -> SocketFile) (w : World) : World := set_ww_socket (f <$> ww_socket w) w.
Definition open_socket (o : StartOutcomes) (gid : N) : runM unit :=
  _ ← lift (fault_result (so_socket_dir o));
  _ ← lift (fault_result (so_socket_remove o));
  _ ← show (set_ww_socket None);
  _ ← bind_socket o 127;
  _ ← lift (fault_result (so_chown o));
  _ ← show (with_socket (fun s => mkSocketFile (sk_live s) 0 gid (sk_mode s)));
  _ ← lift (fault_result (so_chmod o));
  show (with_socket (fun s => mkSocketFile (sk_live s) (sk_uid s) (sk_gid s) 432)).

Definition start (o : StartOutcomes) : runM unit :=
  w ← what_is;
  _ ← lift (refuse_if_already_running (cf_socket cfg) (connect_to (so_connect o) (ww_socket w)));
  _ ← lift (fault_result (so_logs o));
  _ ← show (with_host (make_dir (path_join sd "logs")));
  _ ← make_parked_dir o;
  _ ← open_store (so_store o);
  _ ← zoom ww_forward set_ww_forward (enable_ip_forward (so_forward o));
  _ ← apply_policy o;
  gid ← lift (resolve_group (so_group o) (cf_socket_group cfg));
  ca ← load_ca o;
  acme ← load_acme o;
  _ ← boot o gid (nca_cert_pem crypto <$> ca) acme;
  _ ← spawn IdleParker;
  _ ← start_renewer acme;
  _ ← meanwhile (so_meanwhile o);
  _ ← start_http_edge o;
  _ ← meanwhile (so_meanwhile' o);
  _ ← start_https_edge o ca;
  _ ← spawn StatsSampler;
  _ ← open_socket o gid;
  _ ← lift (fault_result (so_sigterm o));
  lift (fault_result (so_sigint o)).

(** ** Serving, and the end *)

(** What the accept loop meets: a connection, with what [accept] and then
    [peer_cred] say; something that happens to the agent; a signal. *)
Inductive LoopEvent :=
| Accept (accepted : result string (result string N))
| During (ev : SysEvent)
| Sigterm
| Sigint.
(** [true] once a signal has ended the loop. *)
Fixpoint serve (evs : list LoopEvent) : runM bool :=
  match evs with
  | [] => mret false
  | Accept (Ok (Ok uid)) :: evs =>
      _ ← show (fun w => set_ww_connections (uid :: ww_connections w) w); serve evs
  | Accept _ :: evs => serve evs
  | During ev :: evs => _ ← happens ev; serve evs
  | Sigterm :: _ | Sigint :: _ => mret true
  end.
(** The wait for the VMs still starting, and what comes after it; [false]
    while it still waits. *)
Fixpoint drain (evs : list SysEvent) : runM bool :=
  w ← what_is;
  if still_starting_any (ww_agent w) then
    match evs with
    | [] => mret false
    | ev :: evs => _ ← happens ev; drain evs
    end
  else _ ← happens SShutdownEnd; mret true.
Definition stop (f_remove : fault) (evs : list SysEvent) : runM bool :=
  _ ← show (set_ww_tasks []);
  _ ← match f_remove with Some _ => mret tt | None => show (set_ww_socket None) end;
  _ ← happens SShutdown;
  drain evs.

Definition stop_if (ended : bool) (f_remove : fault) (evs : list SysEvent) : runM bool :=
  if ended then stop f_remove evs else mret false.

(** The process is gone, with its tasks, its agent and its listener, if it
    came to have them: a socket it refused to touch is another's. *)
Definition leave (w : World) : World :=
  let w := set_ww_acme None w in
  if nd_up (ww_node w) then
    set_ww_connections [] (set_ww_tasks []
      (with_socket (fun s => mkSocketFile false (sk_uid s) (sk_gid s) (sk_mode s))
        (set_ww_node (mkAgentNode false (sys_new (ww_agent w))) w)))
  else w.
(** [run]: [false] while it still serves or waits. *)
Definition run_body (o : StartOutcomes) (f_remove : fault) (evs : list LoopEvent) (evs' : list SysEvent) : runM bool :=
  _ ← start o; ended ← serve evs; stop_if ended f_remove evs'.
Definition run (o : StartOutcomes) (f_remove : fault) (evs : list LoopEvent) (evs' : list SysEvent) : runM bool :=
  fun w =>
    match run_body o f_remove evs evs' w with
    | (t, w, Ok false) => (t, w, Ok false)
    | (t, w, r) => (t ++ [leave w], leave w, r)
    end.
End run.

(** ** Guarantees *)

(** The same host but for the two directories of the state dir, which are
    there, or made empty. *)
Record host_prepared (sd : string) (h0 h : Host) : Prop := {
  hp_same : set_dirs ∅ h = set_dirs ∅ h0;
  hp_kept : forall path d, ho_dirs h0 !! path = Some d -> ho_dirs h !! path = Some d;
  hp_made : forall path d, ho_dirs h !! path = Some d ->
    ho_dirs h0 !! path = Some d \/ (d = ∅ /\ (path = path_join sd "logs" \/ path = path_join sd "parked"));
}.
(** A Node no agent is up on, its VMs as they were. *)
Record prepared (sd : string) (nd0 nd : AgentNode) : Prop := {
  pd_down : nd_up nd = false;
  pd_vms : db_vms (ag_db (nd_agent nd)) = db_vms (ag_db (nd_agent nd0));
  pd_host : host_prepared sd (ag_host (nd_agent nd0)) (ag_host (nd_agent nd));
}.

Lemma host_prepared_refl sd h : host_prepared sd h h.
Proof. split; [done|done|by left]. Qed.
Lemma host_prepared_make sd h0 h path :
  path = path_join sd "logs" \/ path = path_join sd "parked" ->
  host_prepared sd h0 h -> host_prepared sd h0 (make_dir path h).
Proof.
  intros Hp [H1 H2 H3]. unfold make_dir. destruct (ho_dirs h !! path) as [d|] eqn:E; [done|]. split; simpl.
  - destruct h. exact H1.
  - intros q d Hq. rewrite lookup_insert_ne; [by apply H2|]. intros <-. apply H2 in Hq. congruence.
  - intros q d. rewrite lookup_insert_Some. intros [[<- <-]|[_ Hq]]; [by right|by apply H3].
Qed.
Section guarded.
Context (crypto : Crypto) (cfg : Config) (o : StartOutcomes) (nd0 : AgentNode).
Let sd : string := cf_state_dir cfg.
Let sub : Subnet := cf_subnet cfg.

(** The network policy covers the Node's subnet, its chains are the
    policy's, and snapshots are root's alone. *)
Definition confined (w : World) : Prop :=
  exists t, ww_table w = Some t /\ sub ∈ tb_node_subnets t /\
    (tb_postrouting t, tb_forward t, tb_input t) = (POSTROUTING, FORWARD, INPUT).
Record secured (w : World) : Prop := {
  sc_parked : ww_parked_mode w = 448%N;
  sc_forward : fw_ip_forward (ww_forward w) = "1";
  sc_confined : confined w;
}.
(** [others] have no access to the socket, and its group, if it has any, is
    the one [--socket-group] names. *)
Definition socket_guarded (s : SocketFile) : Prop :=
  N.land (sk_mode s) 7 = 0%N /\
  (N.land (sk_mode s) 56 = 0%N \/ resolve_group (so_group o) (cf_socket_group cfg) = Ok (sk_gid s)).
(** The Node is where [AgentBoot]'s events take it. *)
Definition node_follows (nd : AgentNode) : Prop :=
  exists gid ca acme nd1 evs, prepared sd nd0 nd1 /\
    nd = node_run sd (cf_firecracker cfg) (cf_jailer cfg) (cf_kernel cfg) gid sub ca acme evs nd1.

Record guarded (w : World) : Prop := {
  gd_up : nd_up (ww_node w) = true -> secured w;
  gd_tasks : ww_tasks w <> [] \/ ww_connections w <> [] -> nd_up (ww_node w) = true;
  gd_socket : forall s, ww_socket w = Some s -> sk_live s = true ->
    nd_up (ww_node w) = true /\ socket_guarded s;
  gd_node : node_follows (ww_node w);
}.

(** Before the agent is up. *)
Record idle (w : World) : Prop := {
  id_tasks : ww_tasks w = [];
  id_connections : ww_connections w = [];
  id_socket : forall s, ww_socket w = Some s -> sk_live s = false;
  id_node : prepared sd nd0 (ww_node w);
}.
Lemma idle_guarded w : idle w -> guarded w.
Proof.
  intros [Ht Hc Hs Hn]. pose proof (pd_down _ _ _ Hn) as Hd. split.
  - congruence.
  - by intros [?|?].
  - intros s H1 H2. rewrite (Hs s H1) in H2. done.
  - exists 0%N, None, false, (ww_node w), []. by split.
Qed.
(** The agent is up, and its socket isn't live. *)
Definition up (w : World) : Prop := guarded w /\ nd_up (ww_node w) = true.

Definition holds {A} (P : World -> Prop) (m : runM A) (Q : A -> World -> Prop) : Prop :=
  traced id guarded P m (or_inv guarded Q).
Lemma holds_bind {A B} P (m : runM A) Q (k : A -> runM B) R :
  holds P m Q -> (forall a, holds (Q a) (k a) R) -> holds P (m ≫= k) R.
Proof.
  intros Hm Hk. eapply traced_bind; [exact Hm| |by apply or_inv_err].
  intros a. eapply traced_weaken; [apply Hk| |done]. by intros w [_ ?].
Qed.
Lemma holds_pre {A} (P P' : World -> Prop) (m : runM A) Q : holds P m Q -> (forall w, P' w -> P w) -> holds P' m Q.
Proof. intros H HP. by eapply traced_weaken. Qed.
Lemma holds_post {A} P (m : runM A) (Q Q' : A -> World -> Prop) :
  holds P m Q -> (forall a w, Q a w -> Q' a w) -> holds P m Q'.
Proof. intros H HQ. eapply traced_weaken; [exact H|done|]. intros [a|e] w [? ?]; (split; [done|]); [by apply HQ|done]. Qed.
Lemma holds_ret {A} (a : A) (P : World -> Prop) : (forall w, P w -> guarded w) -> holds P (mret a) (fun b w => b = a /\ P w).
Proof. intros H. apply traced_ret. intros w Hw. by split; [apply H|]. Qed.
Lemma holds_lift {A} (r : result string A) (P : World -> Prop) :
  (forall w, P w -> guarded w) -> holds P (lift r) (fun a w => r = Ok a /\ P w).
Proof. intros H. apply traced_lift. intros w Hw. split; [by apply H|]. by destruct r. Qed.
Lemma holds_show (g : World -> World) (P Q : World -> Prop) :
  (forall w, P w -> guarded (g w) /\ Q (g w)) -> holds P (show g) (fun _ => Q).
Proof. intros H. apply traced_show. intros w Hw. destruct (H w Hw). by apply or_inv_ok. Qed.
Lemma holds_what_is (P : World -> Prop) : (forall w, P w -> guarded w) -> holds P what_is (fun w0 w => w0 = w /\ P w).
Proof. intros H. apply traced_what_is. intros w Hw. by split; [apply H|]. Qed.

(** *** Before the agent is up *)

Lemma idle_same w w' :
  ww_tasks w' = ww_tasks w -> ww_connections w' = ww_connections w -> ww_socket w' = ww_socket w ->
  ww_node w' = ww_node w -> idle w -> idle w'.
Proof. intros E1 E2 E3 E4 []. split; by rewrite ?E1, ?E2, ?E3, ?E4. Qed.
Lemma idle_node w nd : idle w -> prepared sd nd0 nd -> idle (set_ww_node nd w).
Proof. by intros [] H. Qed.
Lemma prepared_host f nd :
  (forall h, host_prepared sd (ag_host (nd_agent nd0)) h -> host_prepared sd (ag_host (nd_agent nd0)) (f h)) ->
  prepared sd nd0 nd ->
  prepared sd nd0 (mkAgentNode (nd_up nd) (on_agent (fun a => set_ag_host (f (ag_host a)) a) (nd_sys nd))).
Proof. intros Hf [H1 H2 H3]. split; [done|done|]. by apply Hf. Qed.
Lemma idle_make_dir path w :
  path = path_join sd "logs" \/ path = path_join sd "parked" -> idle w -> idle (with_host (make_dir path) w).
Proof.
  intros Hp I. apply idle_node; [done|]. apply prepared_host; [|apply I]. intros h. by apply host_prepared_make.
Qed.
Lemma idle_show g (P Q : World -> Prop) :
  (forall w, P w -> idle (g w) /\ Q (g w)) -> holds P (show g) (fun _ w => idle w /\ Q w).
Proof. intros H. apply holds_show. intros w Hw. destruct (H w Hw). split; [by apply idle_guarded|done]. Qed.
Lemma idle_lift {A} (r : result string A) (P : World -> Prop) :
  holds (fun w => idle w /\ P w) (lift r) (fun a w => r = Ok a /\ idle w /\ P w).
Proof. apply (holds_lift r (fun w => idle w /\ P w)). intros w [? _]. by apply idle_guarded. Qed.

Lemma holds_make_parked_dir : holds idle (make_parked_dir cfg o) (fun _ w => idle w /\ ww_parked_mode w = 448%N).
Proof.
  eapply holds_bind; [apply holds_what_is, idle_guarded|]. intros w0.
  apply (holds_bind _ _ (fun _ => idle)).
  - destruct (ho_dirs _ !! _).
    + eapply holds_post; [eapply holds_pre; [apply (holds_ret tt idle), idle_guarded|by intros w [_ ?]]|by intros [] w [_ ?]].
    + eapply holds_bind; [apply (holds_lift _ (fun w => w0 = w /\ idle w)); intros w [_ ?]; by apply idle_guarded|].
      intros []. apply holds_show. intros w (_ & _ & I).
      assert (idle (set_ww_parked_mode 448 (with_host (make_dir (path_join sd "parked")) w))).
      { by apply (idle_same (with_host (make_dir (path_join sd "parked")) w)), idle_make_dir; [..|right|]. }
      split; [by apply idle_guarded|done].
  - intros []. eapply holds_bind; [apply holds_lift, idle_guarded|]. intros []. apply idle_show.
    intros w [_ I]. split; [by apply (idle_same w)|done].
Qed.
Lemma holds_open_store (P : World -> Prop) f :
  (forall w nd, P w -> P (set_ww_node nd w)) ->
  holds (fun w => idle w /\ P w) (open_store cfg f) (fun _ w => idle w /\ P w).
Proof.
  intros HP w [I Hp]. unfold open_store.
  pose proof (store_open_vms f.1.1 f.1.2 f.2 (subnet_display (cf_subnet cfg)) (ag_db (ww_agent w))) as Hv.
  destruct (store_open _ _ _ _ _) as [db r]. simpl in Hv.
  assert (I' : idle (with_agent (set_ag_db db) w)).
  { apply idle_node; [done|]. pose proof (id_node _ I) as [H1 H2 H3]. split; [done| |done].
    unfold nd_agent; simpl. by rewrite Hv. }
  split; [constructor; [by apply idle_guarded|constructor]|]. split; [by apply idle_guarded|].
  unfold id. destruct r; [|done]. simpl. split; [done|by apply HP].
Qed.
(** What [enable_ip_forward] leaves. *)
Lemma enable_ip_forward_ends f s :
  let '(_, s', r) := enable_ip_forward f s in r = Ok tt -> fw_ip_forward s' = "1".
Proof.
  unfold enable_ip_forward, mbind, trace_bind, fw_get, lift, fw_step, mret, trace_ret. simpl.
  destruct (fw_record s), (fo_read f), (fo_create f), (fo_write f), (fo_sysctl f); simpl; try done.
Qed.
Lemma holds_enable_ip_forward (P : World -> Prop) :
  (forall w fw, P w -> P (set_ww_forward fw w)) ->
  holds (fun w => idle w /\ P w) (zoom ww_forward set_ww_forward (enable_ip_forward (so_forward o)))
    (fun _ w => idle w /\ P w /\ fw_ip_forward (ww_forward w) = "1").
Proof.
  intros HP. apply traced_zoom. intros w [I Hp].
  pose proof (enable_ip_forward_ends (so_forward o) (ww_forward w)) as He.
  destruct (enable_ip_forward _ _) as [[t s] r].
  assert (Hi : forall s, idle (set_ww_forward s w)) by (intros s'; by apply (idle_same w)).
  split; [apply Forall_forall; intros s' _; by apply idle_guarded|]. split; [by apply idle_guarded|].
  destruct r as [[]|]; [|done]. split_and!; [done|by apply HP|]. by apply He.
Qed.
Lemma holds_apply_policy (P : World -> Prop) :
  (forall w t, P w -> P (set_ww_table t w)) ->
  holds (fun w => idle w /\ P w) (apply_policy cfg o) (fun _ w => idle w /\ P w /\ confined w).
Proof.
  intros HP w [I Hp]. unfold apply_policy, ensure_node_policy.
  assert (Hi : forall t, idle (set_ww_table t w)) by (intros t; by apply (idle_same w)).
  destruct (nft _ _) as [[]|e]; simpl; (split; [constructor; [by apply idle_guarded|constructor]|]);
    (split; [by apply idle_guarded|]); unfold id; [|done]. split_and!; [done|by apply HP|].
  eexists. split; [done|]. split; [|done]. cbn. apply elem_of_add_element. by left.
Qed.
Lemma holds_load_ca (P : World -> Prop) :
  (forall w d, P w -> P (set_ww_files d w)) ->
  holds (fun w => idle w /\ P w) (load_ca crypto cfg o) (fun _ w => idle w /\ P w).
Proof.
  intros HP. unfold load_ca. destruct (cf_https cfg).
  - eapply holds_bind.
    + apply (traced_zoom _ _ _ _ _ (or_inv guarded (fun _ w => idle w /\ P w))). intros w [I Hp].
      destruct (load_or_create _ _ _ _) as [[t d] r].
      assert (Hi : forall d, idle (set_ww_files d w)) by (intros d'; by apply (idle_same w)).
      split; [apply Forall_forall; intros d' _; by apply idle_guarded|]. split; [by apply idle_guarded|].
      destruct r; [|done]. split; [done|by apply HP].
    + intros ca. eapply holds_post; [apply (holds_ret _ (fun w => idle w /\ P w)); by intros w [?%idle_guarded _]|].
      by intros ? w [_ ?].
  - eapply holds_post; [apply (holds_ret _ (fun w => idle w /\ P w)); by intros w [?%idle_guarded _]|]. by intros ? w [_ ?].
Qed.
Lemma holds_load_acme (P : World -> Prop) :
  (forall w x, P w -> P (set_ww_acme x w)) ->
  holds (fun w => idle w /\ P w) (load_acme cfg o) (fun _ w => idle w /\ P w).
Proof.
  intros HP. assert (Hg : forall w, idle w /\ P w -> guarded w) by by intros w [?%idle_guarded _].
  unfold load_acme. destruct (cf_acme cfg), (cf_https cfg).
  - eapply holds_bind; [apply idle_lift|]. intros []. eapply holds_bind.
    { eapply holds_pre; [apply (holds_what_is _ Hg)|by intros w (_ & ?)]. }
    intros w0. eapply holds_bind.
    { apply (idle_show _ _ P). intros w (_ & I & Hp). split; [by apply (idle_same w)|by apply HP]. }
    intros []. eapply holds_post; [apply (holds_ret _ _ Hg)|]. by intros ? w [_ ?].
  - eapply holds_post; [apply idle_lift|]. by intros ? w [_ ?].
  - eapply holds_post; [apply (holds_ret _ _ Hg)|]. by intros ? w [_ ?].
  - eapply holds_post; [apply (holds_ret _ _ Hg)|]. by intros ? w [_ ?].
Qed.

(** *** From the boot on *)

(** [boot] is [AgentBoot]'s, from a Node whose agent is down. *)
Lemma boot_is_nboot gid ca acme w :
  nd_up (ww_node w) = false ->
  let '(t, w', r) := boot cfg o gid ca acme w in
  t = [w'] /\ w' = set_ww_node (node_step sd (cf_firecracker cfg) (cf_jailer cfg) (cf_kernel cfg) gid sub ca acme
    (NBoot (so_reconcile o) (so_machines o) (so_machine_apps o) (so_known o) (so_ports o) (so_now o)) (ww_node w)) w /\
  nd_up (ww_node w') = is_ok r.
Proof.
  intros Hd. unfold boot, node_step. rewrite Hd. unfold ww_agent. destruct (reconcile _ _ _) as [a [[]|e]]; [|done].
  by destruct (load_machines (so_machines o) (ag_db a)), (load_machine_apps (so_machine_apps o) (ag_db a)).
Qed.
Lemma node_run_snoc gid ca acme evs ev nd :
  node_run sd (cf_firecracker cfg) (cf_jailer cfg) (cf_kernel cfg) gid sub ca acme (evs ++ [ev]) nd =
  node_step sd (cf_firecracker cfg) (cf_jailer cfg) (cf_kernel cfg) gid sub ca acme ev
    (node_run sd (cf_firecracker cfg) (cf_jailer cfg) (cf_kernel cfg) gid sub ca acme evs nd).
Proof. unfold node_run. by rewrite foldl_app. Qed.
Lemma follows_step nd ev : nd_up nd = true -> node_follows nd -> node_follows (mkAgentNode true (sys_step ev (nd_sys nd))).
Proof.
  intros Hu (gid & ca & acme & nd1 & evs & Hp & Hn). exists gid, ca, acme, nd1, (evs ++ [NStep ev]). split; [done|].
  rewrite node_run_snoc, <-Hn. simpl. by rewrite Hu.
Qed.
Lemma follows_down nd : node_follows nd -> node_follows (mkAgentNode false (sys_new (nd_agent nd))).
Proof.
  intros (gid & ca & acme & nd1 & evs & Hp & Hn).
  exists gid, ca, acme, nd1, (evs ++ [NDown (ag_host (nd_agent nd))]). split; [done|].
  rewrite node_run_snoc, <-Hn. simpl. by destruct (nd_agent nd).
Qed.

Lemma up_change w w' :
  ww_node w' = ww_node w -> ww_table w' = ww_table w -> ww_forward w' = ww_forward w ->
  ww_parked_mode w' = ww_parked_mode w ->
  (forall s, ww_socket w' = Some s -> sk_live s = true -> ww_socket w = Some s \/ socket_guarded s) ->
  up w -> up w'.
Proof.
  intros E1 E2 E3 E4 Hs [[H1 H2 H3 H4] Hu]. split; [|by rewrite E1]. split; rewrite ?E1; try done.
  - intros _. destruct (H1 Hu) as [S1 S2 S3]. unfold confined in S3. split; unfold confined; by rewrite ?E2, ?E3, ?E4.
  - intros s Hw Hl. destruct (Hs s Hw Hl) as [Hw'|Hg]; [by apply H3|done].
Qed.
Lemma up_show g (Q : World -> Prop) (P : World -> Prop) :
  (forall w, up w -> P w -> up (g w) /\ Q (g w)) -> holds (fun w => up w /\ P w) (show g) (fun _ w => up w /\ Q w).
Proof. intros H. apply holds_show. intros w [Hw Hp]. destruct (H w Hw Hp) as [[? ?] ?]. done. Qed.
Lemma up_lift {A} (r : result string A) (P : World -> Prop) :
  holds (fun w => up w /\ P w) (lift r) (fun a w => r = Ok a /\ up w /\ P w).
Proof. apply (holds_lift r (fun w => up w /\ P w)). by intros w [[? _] _]. Qed.
Lemma up_ret {A} (a : A) (P : World -> Prop) : holds (fun w => up w /\ P w) (mret a) (fun b w => b = a /\ up w /\ P w).
Proof. apply (holds_ret a (fun w => up w /\ P w)). by intros w [[? _] _]. Qed.
(** Steps that leave the agent up, whatever else. *)
Definition stays_up {A} (m : runM A) : Prop := holds up m (fun _ => up).
Lemma stays_bind {A B} (m : runM A) (k : A -> runM B) :
  stays_up m -> (forall a, stays_up (k a)) -> stays_up (m ≫= k).
Proof. intros Hm Hk. by eapply holds_bind. Qed.
Lemma stays_lift {A} (r : result string A) : stays_up (lift r).
Proof. eapply holds_post; [apply (holds_lift r up); by intros w [? _]|]. by intros a w [_ ?]. Qed.
Lemma stays_ret {A} (a : A) : stays_up (mret a).
Proof. eapply holds_post; [apply (holds_ret a up); by intros w [? _]|]. by intros b w [_ ?]. Qed.
Lemma stays_show g : (forall w, up w -> up (g w)) -> stays_up (show g).
Proof. intros H. apply holds_show. intros w Hw. pose proof (H w Hw) as Hg. split; [apply Hg|done]. Qed.
Lemma stays_what_is : stays_up what_is.
Proof. apply traced_what_is. intros w Hw. split; [apply Hw|done]. Qed.
Lemma stays_spawn t : stays_up (spawn t).
Proof. apply stays_show. intros w. apply up_change; try done. by left. Qed.
Lemma stays_happens ev : stays_up (happens ev).
Proof.
  apply stays_show. intros w [[H1 H2 H3 H4] Hu]. split; [|done]. rewrite Hu. split; try done.
  - intros _. by destruct (H1 Hu).
  - intros s Hs Hl. by destruct (H3 s Hs Hl).
  - by apply follows_step.
Qed.
Lemma stays_meanwhile evs : stays_up (meanwhile evs).
Proof. induction evs as [|ev evs IH]; simpl; [apply stays_ret|]. apply stays_bind; [apply stays_happens|done]. Qed.
Lemma stays_edges ca acme : stays_up (start_renewer acme) /\ stays_up (start_http_edge cfg o) /\
  stays_up (start_https_edge crypto cfg o ca).
Proof.
  unfold start_renewer, start_http_edge, start_https_edge. split_and!.
  - destruct acme; [apply stays_spawn|apply stays_ret].
  - destruct (cf_http cfg); [|apply stays_ret]. apply stays_bind; [apply stays_lift|intros _; apply stays_spawn].
  - destruct (cf_https cfg), ca; try apply stays_ret. apply stays_bind; [apply stays_lift|intros _].
    apply stays_bind; [apply stays_lift|intros _; apply stays_spawn].
Qed.

(** The socket is root's alone, then the group's. *)
Lemma stays_open_socket gid : resolve_group (so_group o) (cf_socket_group cfg) = Ok gid -> stays_up (open_socket o gid).
Proof.
  intros Hg. unfold open_socket, bind_socket.
  apply stays_bind; [apply stays_lift|intros _]. apply stays_bind; [apply stays_lift|intros _].
  apply stays_bind; [apply stays_show; intros w; by apply up_change|intros _].
  apply (holds_bind _ _ (fun _ w => up w /\ forall s, ww_socket w = Some s -> sk_mode s = 384%N)).
  { eapply holds_bind; [apply stays_lift|intros []]. eapply holds_bind; [apply holds_what_is; by intros w [? _]|].
    intros w0. apply (holds_pre up); [|by intros w [_ ?]]. destruct (ww_socket w0).
    - eapply holds_post; [apply (holds_lift _ up); by intros w [? _]|by intros [] w [[=] _]].
    - eapply holds_pre; [apply (up_show _ _ (fun _ => True))|done]. intros w Hw _.
      split; [|by intros s [= <-]]. revert Hw. apply up_change; try done. intros s [= <-] _. right. by split; [|left]. }
  intros _. eapply holds_bind; [apply up_lift|]. intros []. eapply holds_bind.
  { eapply holds_pre; [apply (up_show _ (fun w => forall s, ww_socket w = Some s -> sk_gid s = gid)
      (fun w => forall s, ww_socket w = Some s -> sk_mode s = 384%N))|by intros w [_ ?]].
    intros w Hw Hm. split.
    - revert Hw. apply up_change; try done. simpl. intros s (s0 & Hs & ->)%fmap_Some _. right. split; simpl; rewrite (Hm _ Hs); [done|by left].
    - simpl. by intros s (s0 & _ & ->)%fmap_Some. }
  intros []. eapply holds_bind; [apply up_lift|]. intros []. apply holds_show. intros w (_ & Hw & Hm).
  assert (Hu : up (with_socket (fun s => mkSocketFile (sk_live s) (sk_uid s) (sk_gid s) 432) w)).
  { revert Hw. apply up_change; try done. simpl. intros s (s0 & Hs & ->)%fmap_Some _. right. split; simpl; [done|right].
    by rewrite (Hm _ Hs). }
  split; [apply Hu|exact Hu].
Qed.

Lemma holds_boot gid ca acme : holds (fun w => idle w /\ secured w) (boot cfg o gid ca acme) (fun _ => up).
Proof.
  intros w [I S]. change (idle w) in I. change (secured w) in S. pose proof (id_node _ I) as Hp. pose proof (boot_is_nboot gid ca acme w (pd_down _ _ _ Hp)) as Hb.
  destruct (boot _ _ _ _ _ w) as [[t w'] r]. destruct Hb as (-> & -> & Hr).
  assert (G : guarded (set_ww_node (node_step sd (cf_firecracker cfg) (cf_jailer cfg) (cf_kernel cfg) gid sub ca acme
    (NBoot (so_reconcile o) (so_machines o) (so_machine_apps o) (so_known o) (so_ports o) (so_now o)) (ww_node w)) w)).
  { split; cbn [ww_node ww_tasks ww_connections ww_socket set_ww_node].
    - intros _. by destruct S.
    - rewrite (id_tasks _ I), (id_connections _ I). by intros [?|?].
    - intros s Hs Hl. rewrite (id_socket _ I s Hs) in Hl. done.
    - exists gid, ca, acme, (ww_node w), [NBoot (so_reconcile o) (so_machines o) (so_machine_apps o) (so_known o) (so_ports o) (so_now o)].
      by split. }
  split; [by apply Forall_singleton|]. split; [done|]. unfold id. destruct r; [|done]. by split.
Qed.

Lemma holds_start : holds idle (start crypto cfg o) (fun _ => up).
Proof.
  unfold start. eapply holds_bind; [apply holds_what_is, idle_guarded|]. intros w0.
  eapply holds_bind; [apply (holds_lift _ (fun w => w0 = w /\ idle w)); by intros w [_ ?%idle_guarded]|]. intros [].
  eapply holds_bind; [eapply holds_pre; [apply (holds_lift _ idle), idle_guarded|by intros w (_ & _ & ?)]|]. intros [].
  eapply holds_bind.
  { apply (idle_show _ _ (fun _ => True)). intros w [_ I]. split; [|done]. apply idle_make_dir; [by left|done]. }
  intros []. eapply holds_bind; [eapply holds_pre; [apply holds_make_parked_dir|by intros w [? _]]|]. intros [].
  eapply holds_bind; [by apply (holds_open_store (fun w => ww_parked_mode w = 448%N))|]. intros [].
  eapply holds_bind; [by apply (holds_enable_ip_forward (fun w => ww_parked_mode w = 448%N))|]. intros [].
  eapply holds_bind.
  { by apply (holds_apply_policy (fun w => ww_parked_mode w = 448%N /\ fw_ip_forward (ww_forward w) = "1")). }
  intros []. assert (Hs : forall w w', ww_parked_mode w' = ww_parked_mode w -> ww_forward w' = ww_forward w ->
    ww_table w' = ww_table w -> secured w -> secured w').
  { intros w w' E1 E2 E3 [S1 S2 S3]. unfold confined in S3. split; unfold confined; by rewrite ?E1, ?E2, ?E3. }
  eapply holds_bind; [eapply holds_pre; [apply (idle_lift _ secured)|]|].
  { intros w (I & [? ?] & ?). split; [done|]. by split. }
  intros gid. assert (Hgid : forall A P (m : runM A) Q,
    (resolve_group (so_group o) (cf_socket_group cfg) = Ok gid -> holds P m Q) ->
    holds (fun w => resolve_group (so_group o) (cf_socket_group cfg) = Ok gid /\ P w) m Q).
  { intros A P m Q H w [He Hp]. by apply (H He). }
  apply Hgid. intros Hg. eapply holds_bind; [apply (holds_load_ca secured)|]; [intros w d; by apply Hs|].
  intros ca. eapply holds_bind; [apply (holds_load_acme secured)|]; [intros w d; by apply Hs|]. intros acme.
  eapply holds_bind; [apply holds_boot|]. intros [].
  destruct (stays_edges ca acme) as (H1 & H2 & H3).
  repeat (apply stays_bind; [first [apply stays_spawn|apply stays_meanwhile|apply stays_lift|by apply stays_open_socket|done]|intros _]).
  apply stays_lift.
Qed.

Lemma stays_serve evs : stays_up (serve evs).
Proof.
  induction evs as [|[[[uid|e]|e]|ev| |] evs IH]; simpl; try apply stays_ret; try done.
  - apply stays_bind; [|done]. apply stays_show. intros w. apply up_change; try done. by left.
  - apply stays_bind; [apply stays_happens|done].
Qed.
Lemma stays_drain evs : stays_up (drain evs).
Proof.
  induction evs as [|ev evs IH]; simpl; (apply stays_bind; [apply stays_what_is|intros w0]);
    destruct (still_starting_any _); try apply stays_ret; (apply stays_bind; [apply stays_happens|intros _]);
    try apply stays_ret; done.
Qed.
Lemma stays_stop ended f evs : stays_up (stop_if ended f evs).
Proof.
  unfold stop_if, stop. destruct ended; [|apply stays_ret].
  apply stays_bind; [apply stays_show; intros w; apply up_change; try done; by left|intros _].
  apply stays_bind; [destruct f; [apply stays_ret|]; apply stays_show; intros w; by apply up_change|intros _].
  apply stays_bind; [apply stays_happens|intros _]. apply stays_drain.
Qed.
Lemma leave_guarded w : guarded w -> guarded (leave w).
Proof.
  intros [H1 H2 H3 H4]. unfold leave. destruct (nd_up (ww_node (set_ww_acme None w))) eqn:Hu; [split; cbn; try done|].
  - by intros [?|?].
  - by intros s (s0 & _ & ->)%fmap_Some.
  - by apply follows_down.
  - split; cbn in *; try done. intros Hup. congruence.
Qed.
End guarded.

(** C10: The agent is never up unguarded. From a Node no agent is up on,
    whatever fails in a start, whatever happens to the agent meanwhile,
    whenever a signal comes and however long the shutdown waits, in every
    state [run] shows: while an agent is up, the network policy covers its
    subnet with the policy's own rules, [ip_forward] is on and the parked dir
    is root's alone; no task of it runs, no connection is taken and its
    socket answers nobody unless it is up, its VMs reconciled and its Machines
    restored; others have no access to its socket, and a group only the one
    configured; and the Node is where [AgentBoot]'s boots, events and ends
    take a Node with the same VMs. *)
Theorem agent_never_up_unguarded (crypto : Crypto) (cfg : Config) (o : StartOutcomes) (f_remove : fault)
    (evs : list LoopEvent) (evs' : list SysEvent) (w : World) :
  nd_up (ww_node w) = false -> ww_tasks w = [] -> ww_connections w = [] ->
  (forall s, ww_socket w = Some s -> sk_live s = false) ->
  let '(states, w', r) := run crypto cfg o f_remove evs evs' w in
  Forall (guarded cfg o (ww_node w)) (states ++ [w']).
Proof.
  intros Hd Ht Hc Hs.
  assert (I : idle cfg (ww_node w) w) by (split; [done..|split; [done|done|apply host_prepared_refl]]).
  assert (H : holds cfg o (ww_node w) (idle cfg (ww_node w)) (run_body crypto cfg o f_remove evs evs')
    (fun _ => up cfg o (ww_node w))).
  { eapply holds_bind; [apply holds_start|]. intros []. apply stays_bind; [apply stays_serve|]. intros ended. apply stays_stop. }
  specialize (H w I). unfold run. destruct (run_body _ _ _ _ _ _ w) as [[t w'] r]. destruct H as (Hf & Hw & _). unfold id in Hw.
  assert (Hl : guarded cfg o (ww_node w) (leave w')) by by apply leave_guarded.
  destruct r as [[|]|e]; rewrite ?Forall_app, ?Forall_singleton; done.
Qed.

(** *** Refusals *)

(** Nothing but the state dir's two directories, the parked dir's mode and
    the database's tables has changed. *)
Definition only_state_dir (cfg : Config) (w w' : World) : Prop :=
  exists nd m, w' = set_ww_parked_mode m (set_ww_node nd w) /\ prepared (cf_state_dir cfg) (ww_node w) nd /\
    db_node (ag_db (nd_agent nd)) = db_node (ag_db (ww_agent w)).

Section refused.
Context (crypto : Crypto) (cfg : Config) (o : StartOutcomes) (w0 : World) (stored : string).
Context (Hdown : nd_up (ww_node w0) = false).
Context (Hnode : db_node (ag_db (ww_agent w0)) = Some stored) (Hother : stored <> subnet_display (cf_subnet cfg)).
Let kept : World -> Prop := only_state_dir cfg w0.

Lemma kept_refl : kept w0.
Proof.
  exists (ww_node w0), (ww_parked_mode w0). split; [by destruct w0|]. split; [|done].
  split; [done|done|apply host_prepared_refl].
Qed.
Lemma kept_mode m w : kept w -> kept (set_ww_parked_mode m w).
Proof. intros (nd & m' & -> & Hp). by exists nd, m. Qed.
Lemma kept_make_dir path w :
  path = path_join (cf_state_dir cfg) "logs" \/ path = path_join (cf_state_dir cfg) "parked" ->
  kept w -> kept (with_host (make_dir path) w).
Proof.
  intros Hpath (nd & m & -> & Hp & Hn). eexists _, m. split; [reflexivity|]. split; [|exact Hn].
  apply (prepared_host cfg (ww_node w0) (make_dir path) nd); [|done]. intros h. by apply host_prepared_make.
Qed.

Abbreviation keeping m Q := (traced id kept kept m (or_inv kept Q)).
Lemma keeping_lift {A} (r : result string A) : keeping (lift r) (fun _ _ => True).
Proof. apply traced_lift. intros w Hw. split; [done|]. by destruct r. Qed.
Lemma keeping_bind {A B} (m : runM A) (k : A -> runM B) Q :
  keeping m (fun _ _ => True) -> (forall a, keeping (k a) Q) -> keeping (m ≫= k) Q.
Proof.
  intros Hm Hk. eapply traced_bind; [exact Hm| |by apply or_inv_err].
  intros a. eapply traced_weaken; [apply Hk| |done]. by intros w [? _].
Qed.
Lemma keeping_show g : (forall w, kept w -> kept (g w)) -> keeping (show g) (fun _ _ => True).
Proof. intros H. apply traced_show. intros w Hw. apply or_inv_ok; [by apply H|done]. Qed.

Lemma keeping_make_parked_dir : keeping (make_parked_dir cfg o) (fun _ _ => True).
Proof.
  apply keeping_bind; [apply traced_what_is; by intros w ?|]. intros w. apply keeping_bind.
  - destruct (ho_dirs _ !! _); [apply traced_ret; by intros w' ?|]. apply keeping_bind; [apply keeping_lift|intros _].
    apply keeping_show. intros w' Hw. by apply kept_mode, kept_make_dir; [right|].
  - intros _. apply keeping_bind; [apply keeping_lift|intros _]. apply keeping_show, kept_mode.
Qed.
(** The database of another subnet isn't opened. *)
Lemma keeping_open_store f : keeping (open_store cfg f) (fun _ _ => False).
Proof.
  intros w Hw. change (kept w) in Hw. destruct Hw as (nd & m & -> & Hp & Hn). unfold open_store. cbn [ww_node ww_agent set_ww_node set_ww_parked_mode].
  pose proof (store_open_vms f.1.1 f.1.2 f.2 (subnet_display (cf_subnet cfg)) (ag_db (nd_agent nd))) as Hv.
  assert (Hr : let '(db, r) := store_open f.1.1 f.1.2 f.2 (subnet_display (cf_subnet cfg)) (ag_db (nd_agent nd)) in
    db_node db = db_node (ag_db (nd_agent nd)) /\ is_ok r = false).
  { assert (Hc : forall db, db_node (create_tables db) = db_node db) by (intros d; unfold create_tables; by destruct (db_columns d)).
    assert (Hm : forall db, db_node (add_missing_columns db) = db_node db).
    { intros d. unfold add_missing_columns. destruct (db_columns d); [|done]. by destruct (missing_columns _). }
    rewrite Hnode in Hn. unfold store_open. destruct f.1.1; [done|]. destruct f.1.2; [by rewrite Hc|].
    destruct f.2; [by rewrite Hm, Hc|]. rewrite Hm, Hc, Hn, decide_False by done. by rewrite Hm, Hc. }
  unfold ww_agent. cbn [ww_node set_ww_node set_ww_parked_mode].
  destruct (store_open _ _ _ _ _) as [db r]. destruct Hr as [Hd Hr]. simpl in Hv.
  assert (K : kept (with_agent (set_ag_db db) (set_ww_parked_mode m (set_ww_node nd w0)))).
  { eexists _, m. split; [reflexivity|]. destruct Hp as [P1 P2 P3]. split; [split|]; unfold nd_agent in *; simpl; try done; congruence. }
  split; [by apply Forall_singleton|]. split; [done|]. by destruct r.
Qed.
Lemma keeping_start : keeping (start crypto cfg o) (fun _ _ => False).
Proof.
  apply keeping_bind; [apply traced_what_is; by intros w ?|intros w]. apply keeping_bind; [apply keeping_lift|intros _].
  apply keeping_bind; [apply keeping_lift|intros _].
  apply keeping_bind; [apply keeping_show; intros w' ?; by apply kept_make_dir; [left|]|intros _].
  apply keeping_bind; [apply keeping_make_parked_dir|intros _].
  eapply traced_bind; [apply keeping_open_store| |by apply or_inv_err]. by intros a w' [_ []].
Qed.
End refused.

(** C23: A start that isn't this Node's leaves it alone. When a process
    listens on the socket, or connecting to it fails in any way but the two
    that say nobody does, [run] changes nothing at all and says why. When the
    state dir is another subnet's, whatever fails, [run] fails and no state
    it shows differs from the one before in anything but the state dir's two
    directories, the parked dir's mode and the database's tables: the network
    policy, [ip_forward] and its record, the CA, the socket, every VM and
    every record of one are as they were. *)
Theorem refused_start_leaves_the_node (crypto : Crypto) (cfg : Config) (o : StartOutcomes) (f_remove : fault)
    (evs : list LoopEvent) (evs' : list SysEvent) (w : World) :
  nd_up (ww_node w) = false -> ww_acme w = None ->
  (forall s, ww_socket w = Some s -> sk_live s = true -> so_connect o = None ->
     run crypto cfg o f_remove evs evs' w = ([w], w, Err ("cirro node: agent already running at " +:+ cf_socket cfg))) /\
  (forall e, so_connect o = Some e -> run crypto cfg o f_remove evs evs' w = ([w], w, Err e)) /\
  (forall stored, db_node (ag_db (ww_agent w)) = Some stored -> stored <> subnet_display (cf_subnet cfg) ->
     let '(states, w', r) := run crypto cfg o f_remove evs evs' w in
     is_ok r = false /\ Forall (only_state_dir cfg w) (states ++ [w'])).
Proof.
  intros Hd Ha. assert (Hl : leave w = w).
  { unfold leave. cbn [ww_node set_ww_acme]. rewrite Hd. destruct w; cbn in *. by subst. }
  split_and!.
  - intros s Hs Hlive Hf. unfold run, run_body, start, mbind, trace_bind, what_is, lift. cbn.
    rewrite Hf, Hs. unfold connect_to. rewrite Hlive. cbn. by rewrite Hl.
  - intros e Hf. unfold run, run_body, start, mbind, trace_bind, what_is, lift. cbn. rewrite Hf. cbn. by rewrite Hl.
  - intros stored Hn Hne. pose proof (keeping_start crypto cfg o w stored Hn Hne w (kept_refl cfg w stored Hd Hn)) as H.
    unfold run, run_body, mbind, trace_bind. destruct (start crypto cfg o w) as [[t w'] r]. destruct H as (Ht & Hk & Hr).
    unfold id in *. destruct r as [[]|e]; [done|]. split; [done|].
    assert (K : only_state_dir cfg w (leave w')).
    { destruct Hk as (nd & m & -> & Hp & Hn'). exists nd, m. split_and!; try done. unfold leave. cbn.
      rewrite (pd_down _ _ _ Hp). cbn. unfold set_ww_acme, set_ww_parked_mode, set_ww_node. cbn. by rewrite Ha. }
    by rewrite !Forall_app, !Forall_singleton.
Qed.

(** *** A start that meets no fault *)

(** A state database an agent of this Node left. *)
Record db_ready (sub : Subnet) (db : Db) : Prop := {
  dr_node : db_node db = None \/ db_node db = Some (subnet_display sub);
  dr_vms : exists rs, collect_rows (entries_of (db_vms db)) = Some rs /\
    forall r, r ∈ rs -> vi_ended (rec_info r) = None ->
      is_Some (vi_vm_address (rec_info r)) /\ is_Some (rec_process r);
  dr_apps : is_Some (collect_app_rows (entries_of (db_machine_apps db)));
}.
Definition clean_reconcile (busy : nat) : ReconcileOutcome :=
  mkReconcileOutcome None None (fun _ => None) None (fun _ => None) (fun _ => None) (undo_ok busy).
Definition clean_outcomes (route : option string) (from_name : string -> result string (option N)) (entropy : N)
    (read : string -> result string HostCertificate) (busy : nat) (known : string -> write_fault)
    (ports : string -> nat -> result string (list N)) (now : N) (ids : N * N) (evs evs' : list SysEvent)
    : StartOutcomes :=
  mkStartOutcomes None None None None (None, None, None) route no_forward_faults NftOk from_name (clean_start entropy)
    None read (clean_reconcile busy) None None known ports now None None None None None ids None None None None None evs evs'.

Lemma reconcile_records_clean alive now rs a :
  (forall r, r ∈ rs -> vi_ended (rec_info r) = None ->
     is_Some (vi_vm_address (rec_info r)) /\ is_Some (rec_process r)) ->
  exists a', reconcile_records alive (fun _ => None) now rs a = (a', Ok tt) /\
    db_machine_apps (ag_db a') = db_machine_apps (ag_db a).
Proof.
  revert a. induction rs as [|r rs IH]; intros a Hrs; [by exists a|].
  assert (Hr : exists a1, reconcile_record alive None now r a = (a1, Ok tt) /\
    db_machine_apps (ag_db a1) = db_machine_apps (ag_db a)).
  { unfold reconcile_record, mark_ended. destruct (vi_ended (rec_info r)) eqn:He; [by eexists|].
    destruct (Hrs r (list_elem_of_here _ _) He) as [[x ->] [p ->]]. destruct (alive p); by eexists. }
  destruct Hr as (a1 & Hr & Hd). destruct (IH a1) as (a' & Ha & Hd'); [intros r' Hin; apply Hrs; by right|].
  exists a'. cbn [reconcile_records]. rewrite Hr. split; [exact Ha|congruence].
Qed.
Lemma reconcile_clean busy now a rs :
  collect_rows (entries_of (db_vms (ag_db a))) = Some rs ->
  (forall r, r ∈ rs -> vi_ended (rec_info r) = None ->
     is_Some (vi_vm_address (rec_info r)) /\ is_Some (rec_process r)) ->
  exists a', reconcile (clean_reconcile busy) now a = (a', Ok tt) /\
    db_machine_apps (ag_db a') = db_machine_apps (ag_db a).
Proof.
  intros Hc Hrs. unfold reconcile, store_load. cbn [ro_load ro_logs ro_parked clean_reconcile]. rewrite Hc. cbn [ok_or].
  destruct (reconcile_records_clean (is_running (ag_host a)) now rs (remove_unowned_snapshots (fun _ => None) rs
    (remove_unrecorded_logs (fun _ => None) rs a)) Hrs) as (a' & Ha & Hd).
  eexists. change (is_running (ag_host (remove_unowned_snapshots (ro_snapshot (clean_reconcile busy)) rs
    (remove_unrecorded_logs (ro_log (clean_reconcile busy)) rs a)))) with (is_running (ag_host a)).
  cbn [ro_mark ro_snapshot ro_log clean_reconcile]. rewrite Ha. split; [reflexivity|]. exact Hd.
Qed.

(** What a step that only changes the agent's own state keeps. *)
Definition same_around (w w' : World) : Prop :=
  ww_socket w' = ww_socket w /\ nd_up (ww_node w') = nd_up (ww_node w) /\ ww_tasks w' = ww_tasks w.
Lemma meanwhile_succ evs w : exists w', succ (meanwhile evs) w tt w' /\ same_around w w'.
Proof.
  revert w. induction evs as [|ev evs IH]; intros w; simpl; [by exists w; split; [apply succ_ret|]|].
  destruct (IH (set_ww_node (mkAgentNode (nd_up (ww_node w)) (sys_step ev (nd_sys (ww_node w)))) w)) as (w' & Hs & Ha).
  exists w'. split; [|exact Ha]. eapply succ_bind; [apply succ_show|exact Hs].
Qed.

(** The tasks of a configuration, the last one spawned first. *)
Definition tasks_of (cfg : Config) : list Spawned :=
  StatsSampler :: option_list (HttpsEdge <$> cf_https cfg) ++ option_list (HttpEdge <$> cf_http cfg)
    ++ (if bool_decide (is_Some (cf_acme cfg)) then [Renewer] else []) ++ [IdleParker].

Lemma spawned_succ (b : bool) t w : exists w', succ (if b then spawn t else mret tt) w tt w' /\
  nd_up (ww_node w') = nd_up (ww_node w) /\ ww_tasks w' = (if b then [t] else []) ++ ww_tasks w.
Proof. destruct b; eexists; (split; [apply succ_show || apply succ_ret|done]). Qed.
Lemma edge_succ {A} (address : option A) (edge : A -> Spawned) w :
  exists w', succ (match address with Some a => spawn (edge a) | None => mret tt end) w tt w' /\
    nd_up (ww_node w') = nd_up (ww_node w) /\ ww_tasks w' = option_list (edge <$> address) ++ ww_tasks w.
Proof. destruct address; eexists; (split; [apply succ_show || apply succ_ret|done]). Qed.

Section clean.
Context (crypto : Crypto) (cfg : Config).
Context (route : option string) (from_name : string -> result string (option N)) (entropy : N).
Context (read : string -> result string HostCertificate) (busy : nat) (known : string -> write_fault).
Context (ports : string -> nat -> result string (list N)) (now : N) (ids : N * N) (evs evs' : list SysEvent).
Let o : StartOutcomes := clean_outcomes route from_name entropy read busy known ports now ids evs evs'.

Record preparing (w w' : World) : Prop := {
  pp_around : same_around w w';
  pp_files : ww_files w' = ww_files w;
  pp_db : db_ready (cf_subnet cfg) (ag_db (ww_agent w));
  pp_db' : db_ready (cf_subnet cfg) (ag_db (ww_agent w'));
}.
Lemma preparing_trans w w1 w2 : preparing w w1 -> preparing w1 w2 -> preparing w w2.
Proof. intros [(A1 & A2 & A3) F1 D1 D2] [(B1 & B2 & B3) F2 D3 D4]. split; [split_and!|..]; congruence. Qed.
Lemma make_parked_succ w :
  db_ready (cf_subnet cfg) (ag_db (ww_agent w)) -> exists w', succ (make_parked_dir cfg o) w tt w' /\ preparing w w'.
Proof.
  intros D. unfold make_parked_dir. destruct (ho_dirs (ag_host (ww_agent w)) !! path_join (cf_state_dir cfg) "parked") eqn:E.
  - exists (set_ww_parked_mode 448 w). split; [|by split].
    eapply succ_bind; [apply succ_what_is|]. rewrite E. eapply succ_bind; [apply succ_ret|].
    eapply succ_bind; [apply succ_lift|apply succ_show].
  - eexists. split.
    + eapply succ_bind; [apply succ_what_is|]. rewrite E.
      eapply succ_bind; [eapply succ_bind; [apply succ_lift|apply succ_show]|]. eapply succ_bind; [apply succ_lift|apply succ_show].
    + by split.
Qed.
Lemma open_store_succ w :
  db_ready (cf_subnet cfg) (ag_db (ww_agent w)) ->
  exists w', succ (open_store cfg (None, None, None)) w tt w' /\ preparing w w'.
Proof.
  intros D. destruct (store_open_clean (subnet_display (cf_subnet cfg)) (ag_db (ww_agent w)) (dr_node _ _ D)) as (db & E & Hv & Ha).
  unfold succ, open_store. cbn [fst snd]. rewrite E. exists (with_agent (set_ag_db db) w). split; [by eexists|].
  split; try done. pose proof (store_open_node _ _ _ E) as Hn. destruct D as [D1 D2 D3]. split; cbn.
  - by right.
  - by rewrite Hv.
  - by rewrite Ha.
Qed.
Lemma policy_succ w :
  db_ready (cf_subnet cfg) (ag_db (ww_agent w)) ->
  exists w', succ (_ ← zoom ww_forward set_ww_forward (enable_ip_forward (so_forward o)); apply_policy cfg o) w tt w' /\
    preparing w w'.
Proof.
  intros D. assert (He : exists fw, succ (enable_ip_forward (so_forward o)) (ww_forward w) tt fw).
  { unfold succ, enable_ip_forward, mbind, trace_bind, fw_get. cbn. destruct (fw_record (ww_forward w)); cbn; by eexists _, _. }
  destruct He as [fw He]. eexists. split.
  - eapply succ_bind; [apply succ_zoom, He|]. unfold succ, apply_policy, ensure_node_policy. cbn. by eexists.
  - by split.
Qed.
Lemma load_ca_succ w :
  (is_Some (cf_https cfg) -> crypto_ok crypto /\ ca_inv crypto (ww_files w) /\ entropy_works crypto entropy) ->
  exists ca w', succ (load_ca crypto cfg o) w ca w' /\ same_around w w' /\ ww_agent w' = ww_agent w /\
    (is_Some ca <-> is_Some (cf_https cfg)).
Proof.
  intros Hca. unfold load_ca. destruct (cf_https cfg) as [address|].
  - destruct (Hca (mk_is_Some _ _ eq_refl)) as (Hc & Hi & He).
    destruct (load_or_create_clean crypto Hc (cf_state_dir cfg) entropy (ww_files w) Hi He) as (t & d & ca & E).
    exists (Some ca), (set_ww_files d w). split_and!; try done.
    eapply succ_bind; [apply (succ_zoom ww_files set_ww_files); by exists t|apply succ_ret].
  - exists None, w. split_and!; try done. apply succ_ret.
Qed.
Lemma load_acme_succ w :
  (is_Some (cf_acme cfg) -> is_Some (cf_https cfg)) ->
  exists w', succ (load_acme cfg o) w (bool_decide (is_Some (cf_acme cfg))) w' /\ same_around w w' /\ ww_agent w' = ww_agent w.
Proof.
  intros Ha. unfold load_acme. destruct (cf_acme cfg); cbn.
  - destruct (Ha (mk_is_Some _ _ eq_refl)) as [address ->]. eexists. split.
    + eapply succ_bind; [apply succ_lift|]. eapply succ_bind; [apply succ_what_is|].
      eapply succ_bind; [apply succ_show|apply succ_ret].
    + done.
  - exists w. split; [apply succ_ret|done].
Qed.
Lemma boot_succ gid ca acme w :
  db_ready (cf_subnet cfg) (ag_db (ww_agent w)) ->
  exists w', succ (boot cfg o gid ca acme) w tt w' /\ nd_up (ww_node w') = true /\
    ww_socket w' = ww_socket w /\ ww_tasks w' = ww_tasks w.
Proof.
  intros [D1 (rs & D2 & D2') [apps D3]]. unfold succ, boot. cbn [so_reconcile so_now so_machines so_machine_apps o clean_outcomes].
  destruct (reconcile_clean busy now (boot_agent (cf_state_dir cfg) (cf_firecracker cfg) (cf_jailer cfg) (cf_kernel cfg) gid
    (cf_subnet cfg) ca acme (ag_db (ww_agent w)) (ag_host (ww_agent w))) rs D2 D2') as (a & -> & Ha).
  unfold load_machine_apps, load_machines. rewrite Ha. cbn [ag_db boot_agent agent_new]. rewrite D3. cbn [ok_or].
  eexists. split; [by eexists|done].
Qed.
Lemma open_socket_succ gid w :
  exists w', succ (open_socket o gid) w tt w' /\ ww_socket w' = Some (mkSocketFile true 0 gid 432) /\
    nd_up (ww_node w') = nd_up (ww_node w) /\ ww_tasks w' = ww_tasks w.
Proof.
  unfold open_socket, bind_socket. eexists. split.
  - eapply succ_bind; [apply succ_lift|]. eapply succ_bind; [apply succ_lift|]. eapply succ_bind; [apply succ_show|].
    eapply succ_bind; [eapply succ_bind; [apply succ_lift|]; eapply succ_bind; [apply succ_what_is|]; apply succ_show|].
    eapply succ_bind; [apply succ_lift|]. eapply succ_bind; [apply succ_show|]. eapply succ_bind; [apply succ_lift|].
    apply succ_show.
  - done.
Qed.
(** From the boot on. *)
Lemma start_tail gid ca w :
  nd_up (ww_node w) = true -> ww_tasks w = [] -> (is_Some ca <-> is_Some (cf_https cfg)) ->
  exists w', succ (_ ← spawn IdleParker;
      _ ← start_renewer (bool_decide (is_Some (cf_acme cfg)));
      _ ← meanwhile (so_meanwhile o);
      _ ← start_http_edge cfg o;
      _ ← meanwhile (so_meanwhile' o);
      _ ← start_https_edge crypto cfg o ca;
      _ ← spawn StatsSampler;
      _ ← open_socket o gid;
      _ ← lift (fault_result (so_sigterm o));
      lift (fault_result (so_sigint o))) w tt w' /\
    nd_up (ww_node w') = true /\ ww_tasks w' = tasks_of cfg /\ ww_socket w' = Some (mkSocketFile true 0 gid 432).
Proof.
  intros Hu Ht Hca.
  destruct (spawned_succ (bool_decide (is_Some (cf_acme cfg))) Renewer (set_ww_tasks (IdleParker :: ww_tasks w) w))
    as (w1 & S1 & U1 & T1).
  destruct (meanwhile_succ evs w1) as (w2 & S2 & _ & U2 & T2).
  destruct (edge_succ (cf_http cfg) HttpEdge w2) as (w3 & S3 & U3 & T3).
  destruct (meanwhile_succ evs' w3) as (w4 & S4 & _ & U4 & T4).
  destruct (edge_succ (cf_https cfg) HttpsEdge w4) as (w5 & S5 & U5 & T5).
  destruct (open_socket_succ gid (set_ww_tasks (StatsSampler :: ww_tasks w5) w5)) as (w6 & S6 & K6 & U6 & T6).
  cbn in *. exists w6. split_and!; [|congruence| |exact K6].
  - eapply succ_bind; [apply succ_show|]. eapply succ_bind; [exact S1|]. eapply succ_bind; [exact S2|].
    eapply succ_bind; [unfold start_http_edge; destruct (cf_http cfg); [eapply succ_bind; [apply succ_lift|]|]; exact S3|].
    eapply succ_bind; [exact S4|]. eapply succ_bind.
    { unfold start_https_edge. destruct Hca as [H1 H2]. destruct (cf_https cfg) as [address|], ca as [c|].
      - eapply succ_bind; [apply succ_lift|]. eapply succ_bind; [apply succ_lift|exact S5].
      - by destruct (H2 (mk_is_Some _ _ eq_refl)).
      - exact S5.
      - exact S5. }
    eapply succ_bind; [apply succ_show|]. eapply succ_bind; [exact S6|]. eapply succ_bind; apply succ_lift.
  - rewrite T6, T5, T4, T3, T2, T1, Ht. unfold tasks_of. destruct (cf_https cfg), (cf_http cfg), (cf_acme cfg); reflexivity.
Qed.
End clean.

(** C22: A start that meets no fault serves. On a Node with no live agent
    socket (none, or one a crash left) and a state database an agent of the
    same subnet left or none, with a group that exists, ACME only with HTTPS
    and, with HTTPS, the CA files as an agent keeps them, [start] ends
    without an error, whatever VMs the Node has and whatever happens to the
    agent while it binds: the agent is up, its tasks are exactly the
    configuration's, and its socket is live, [root:group] and [0660]. *)
Theorem clean_start_serves (crypto : Crypto) (cfg : Config) route from_name entropy read busy known ports now ids evs evs'
    (gid : N) (w : World) :
  (forall s, ww_socket w = Some s -> sk_live s = false) -> nd_up (ww_node w) = false -> ww_tasks w = [] ->
  db_ready (cf_subnet cfg) (ag_db (ww_agent w)) ->
  resolve_group from_name (cf_socket_group cfg) = Ok gid ->
  (is_Some (cf_acme cfg) -> is_Some (cf_https cfg)) ->
  (is_Some (cf_https cfg) -> crypto_ok crypto /\ ca_inv crypto (ww_files w) /\ entropy_works crypto entropy) ->
  exists states w',
    start crypto cfg (clean_outcomes route from_name entropy read busy known ports now ids evs evs') w = (states, w', Ok tt) /\
    nd_up (ww_node w') = true /\ ww_tasks w' = tasks_of cfg /\ ww_socket w' = Some (mkSocketFile true 0 gid 432).
Proof.
  intros Hs Hd Ht D Hg Hacme Hca. set (o := clean_outcomes _ _ _ _ _ _ _ _ _ _ _).
  set (w1 := with_host (make_dir (path_join (cf_state_dir cfg) "logs")) w).
  assert (P1 : preparing cfg w w1) by by split.
  destruct (make_parked_succ cfg route from_name entropy read busy known ports now ids evs evs' w1 D) as (w2 & S2 & P2).
  destruct (open_store_succ cfg w2 (pp_db' _ _ _ P2)) as (w3 & S3 & P3).
  destruct (policy_succ cfg route from_name entropy read busy known ports now ids evs evs' w3 (pp_db' _ _ _ P3)) as (w4 & S4 & P4).
  pose proof (preparing_trans _ _ _ _ P1 (preparing_trans _ _ _ _ P2 (preparing_trans _ _ _ _ P3 P4))) as [(A1 & A2 & A3) F4 _ D4].
  rewrite <-F4 in Hca.
  destruct (load_ca_succ crypto cfg route from_name entropy read busy known ports now ids evs evs' w4 Hca) as (ca & w5 & S5 & (B1 & B2 & B3) & B4 & Bca).
  destruct (load_acme_succ cfg route from_name entropy read busy known ports now ids evs evs' w5 Hacme) as (w6 & S6 & (C1 & C2 & C3) & C4).
  rewrite <-B4, <-C4 in D4.
  destruct (boot_succ cfg route from_name entropy read busy known ports now ids evs evs' gid (nca_cert_pem crypto <$> ca)
    (bool_decide (is_Some (cf_acme cfg))) w6 D4) as (w7 & S7 & E1 & E2 & E3).
  assert (HT : ww_tasks w7 = []) by congruence.
  destruct (start_tail crypto cfg route from_name entropy read busy known ports now ids evs evs' gid ca w7 E1 HT Bca)
    as (w8 & [t8 S8] & Hup & Htasks & Hsock).
  cut (succ (start crypto cfg o) w tt w8); [intros [t E]; by exists t, w8|].
  unfold start. eapply succ_bind; [apply succ_what_is|].
  assert (connect_to (so_connect o) (ww_socket w) = NotFound \/ connect_to (so_connect o) (ww_socket w) = ConnectionRefused) as Hr.
  { cbn. destruct (ww_socket w) as [s|]; [|by left]. rewrite (Hs s eq_refl). by right. }
  eapply succ_bind; [destruct Hr as [-> | ->]; apply succ_lift|]. eapply succ_bind; [apply succ_lift|].
  eapply succ_bind; [apply succ_show|]. eapply succ_bind; [exact S2|]. eapply succ_bind; [exact S3|].
  apply succ_bind_inv in S4 as ([] & w3' & S4 & S4'). eapply succ_bind; [exact S4|]. eapply succ_bind; [exact S4'|].
  eapply succ_bind; [cbn; rewrite Hg; apply succ_lift|]. eapply succ_bind; [exact S5|]. eapply succ_bind; [exact S6|].
  eapply succ_bind; [exact S7|]. by exists t8.
Qed.

(** ** Instances *)

Definition ex_config : Config :=
  mkConfig "/var/lib/cirro" "/run/cirro/agent.sock" "cirro" ex_subnet "/fc" "/jailer" "/vmlinux"
    (Some "0.0.0.0:80") (Some "0.0.0.0:443") None.
Definition ex_world : World := mkWorld ex_new 493 (mkForwarding "0" None) None ∅ None [] None [].
Definition ex_groups (name : string) : result string (option N) := Ok (if bool_decide (name = "cirro") then Some 990%N else None).
Definition ex_outcomes : StartOutcomes :=
  clean_outcomes (Some "default via 192.0.2.1 dev eth0") ex_groups 7 (fun _ => Err "none") 0 (fun _ => None) (fun _ _ => Ok [])
    1000 (0%N, 0%N) [] [].

Lemma agent_never_up_unguarded_witness :
  let '(states, w', r) := run toy_crypto ex_config ex_outcomes None [Accept (Err "EMFILE"); Accept (Ok (Ok 1000%N)); Sigterm] [] ex_world in
  Forall (guarded ex_config ex_outcomes ex_new) (states ++ [w']) /\ r = Ok true /\ length states = 31.
Proof.
  pose proof (agent_never_up_unguarded toy_crypto ex_config ex_outcomes None
    [Accept (Err "EMFILE"); Accept (Ok (Ok 1000%N)); Sigterm] [] ex_world eq_refl eq_refl eq_refl) as H.
  assert (Hr : let '(states, w', r) := run toy_crypto ex_config ex_outcomes None
    [Accept (Err "EMFILE"); Accept (Ok (Ok 1000%N)); Sigterm] [] ex_world in r = Ok true /\ length states = 31).
  { vm_compute. split; reflexivity. }
  destruct (run _ _ _ _ _ _ _) as [[states w'] r]. split; [|exact Hr]. apply H. by intros s [=].
Defined.

Lemma refused_start_leaves_the_node_witness :
  run toy_crypto ex_config ex_outcomes None [] [] (set_ww_socket (Some (mkSocketFile true 0 990 432)) ex_world)
  = ([set_ww_socket (Some (mkSocketFile true 0 990 432)) ex_world], set_ww_socket (Some (mkSocketFile true 0 990 432)) ex_world,
     Err "cirro node: agent already running at /run/cirro/agent.sock").
Proof.
  refine (proj1 (refused_start_leaves_the_node toy_crypto ex_config ex_outcomes None [] []
    (set_ww_socket (Some (mkSocketFile true 0 990 432)) ex_world) eq_refl eq_refl) (mkSocketFile true 0 990 432) _ _ _); reflexivity.
Defined.

Lemma clean_start_serves_witness :
  exists states w', start toy_crypto ex_config ex_outcomes ex_world = (states, w', Ok tt) /\
    ww_tasks w' = [StatsSampler; HttpsEdge "0.0.0.0:443"; HttpEdge "0.0.0.0:80"; IdleParker].
Proof.
  destruct (clean_start_serves toy_crypto ex_config (Some "default via 192.0.2.1 dev eth0") ex_groups 7 (fun _ => Err "none") 0
    (fun _ => None) (fun _ _ => Ok []) 1000 (0%N, 0%N) [] [] 990 ex_world) as (states & w' & E & _ & Ht & _).
  - by intros s [=].
  - reflexivity.
  - reflexivity.
  - split; [by left| |by eexists]. exists []. split; [reflexivity|]. intros r Hin. by apply not_elem_of_nil in Hin.
  - reflexivity.
  - by intros [? [=]].
  - intros _. split; [exact toy_crypto_ok|]. split; [split; [done|intros kp [=]]|]. split; [by eexists|]. intros k. by eexists.
  - exists states, w'. by split.
Defined.

(** The Node as another process finds it. *)
Definition beside (w : World) : World :=
  set_ww_connections [] (set_ww_tasks [] (set_ww_acme None (set_ww_node (mkAgentNode false (sys_new (ww_agent w))) w))).
(** The socket goes before the shutdown has waited for the VMs still
    starting, so that an agent started meanwhile isn't refused: it comes up
    beside the first, whose start is in no record, and gives the VM address
    that start holds to another VM. *)
Theorem second_agent_while_the_first_drains :
  let '(_, w, r) := run toy_crypto ex_config ex_outcomes None
    [During (SRun (Opened "rootfs bytes") (ex_request "web" "web.test")); Sigterm] [] ex_world in
  r = Ok false /\ still_starting_any (ww_agent w) = true /\
  let '(_, w2, r2) := start toy_crypto ex_config ex_outcomes (beside w) in
  r2 = Ok tt /\ nd_up (ww_node w2) = true /\
  let a2 := sy_agent (sys_step (SRun (Opened "rootfs bytes") (ex_request "db" "db.test")) (nd_sys (ww_node w2))) in
  ag_vms (ww_agent w) !! "web" ≫= entry_vm_address = Some (ipv4_new 10 77 0 2) /\
  ag_vms a2 !! "db" ≫= entry_vm_address = Some (ipv4_new 10 77 0 2).
Proof. vm_compute. split_and!; reflexivity. Qed.
