(* ===== verification/Release.v ===== *)
(** * The pinned release ([crates/cirro-node/src/release.rs])

    Fetching Firecracker, jailer and the guest kernel into a directory, as
    the states the directory goes through. [curl]'s and [tar]'s answers are
    arguments; SHA-256 is a parameter. *)

From S2P Require Import Prelude RustStr Trace.

Definition FIRECRACKER_VERSION : string := "1.17.0".
Definition RELEASE_DIR : string := "release-v1.17.0-x86_64".
Definition FIRECRACKER_TGZ_SHA256 : string := "06094a1108ae9e82aa4c23a775aa92758f53f1175d422270d9d6162cb9ade558".
Definition FIRECRACKER_BIN_SHA256 : string := "99ad0f5cd0514a88aad0e9ae8cfdb3cc3b4ab9d190e1194602406c786b5de7a5".
Definition JAILER_BIN_SHA256 : string := "65ef226e96f0ceda55ba643f445801ef2cc0ea667ef67cad8ac4f406c9c8434f".
Definition KERNEL_SHA256 : string := "b0ff002711a6be32f2f5cbc21fbb7b2987b7807e0d37540034d49db22ce3d06b".
Definition KERNEL_FILENAME : string := "vmlinux-6.18.48".

(** A file: its bytes and whether it is executable. *)
Record BinFile := mkBinFile { bf_bytes : string; bf_executable : bool }.
Abbreviation BinDir := (gmap string BinFile).
Abbreviation binM := (traceM BinDir BinDir).
Definition bin_get : binM BinDir := fun d => ([], d, Ok d).
Definition bin_step (g : BinDir -> BinDir) : binM unit := fun d => ([g d], g d, Ok tt).
(** Writing a file keeps the mode it has; a new one isn't executable. *)
Definition put_bytes (path bytes : string) (d : BinDir) : BinDir :=
  <[path := mkBinFile bytes (match d !! path with Some b => bf_executable b | None => false end)]> d.
Definition set_executable (path : string) (d : BinDir) : BinDir :=
  alter (fun b => mkBinFile (bf_bytes b) true) path d.

(** [ReleaseBinaries]. *)
Record ReleaseBinaries := mkReleaseBinaries { rb_firecracker : string; rb_jailer : string; rb_kernel : string }.

(** A download: what arrived before it ended, and all of it or an error. *)
Record Download := mkDownload { dl_partial : string; dl_end : result string string }.
Record ExtractOutcome := mkExtractOutcome { eo_tar : fault; eo_write : fault; eo_metadata : fault; eo_chmod : fault }.
Record FetchOutcome := mkFetchOutcome {
  fe_sha256sum : string -> fault;
  fe_tgz : Download;
  fe_firecracker : ExtractOutcome;
  fe_jailer : ExtractOutcome;
  fe_remove_tgz : fault;
  fe_kernel : Download;
}.

Section release.
Context (sha256 : string -> string) (member : string -> string -> result string string).

(** [verify]; [f] is [sha256sum] failing. *)
Definition verify (f : string -> fault) (path want_sha256 : string) (d : BinDir) : result string unit :=
  match f path, d !! path with
  | Some e, _ => Err e
  | None, None => Err (path +:+ ": No such file or directory")
  | None, Some b =>
      let got_hash := sha256 (bf_bytes b) in
      fail_if (negb (bool_decide (got_hash = want_sha256)))
        (path +:+ ": sha256 mismatch: got " +:+ got_hash +:+ ", want " +:+ want_sha256)
  end.
Definition verified (f : string -> fault) (path want_sha256 : string) : binM unit :=
  d ← bin_get; lift (verify f path want_sha256 d).
Definition download (a : Download) (dest : string) : binM unit :=
  _ ← bin_step (put_bytes dest (dl_partial a));
  match dl_end a with
  | Ok bytes => bin_step (put_bytes dest bytes)
  | Err e => lift (Err e)
  end.
Definition extract_release_binary (o : ExtractOutcome) (tgz name dest : string) : binM unit :=
  let name := RELEASE_DIR +:+ "/" +:+ name +:+ "-v" +:+ FIRECRACKER_VERSION +:+ "-x86_64" in
  d ← bin_get;
  _ ← lift (fault_result (eo_tar o));
  bytes ← lift (match d !! tgz with Some b => member (bf_bytes b) name | None => Err "No such file or directory" end);
  _ ← bin_step (put_bytes dest "");
  _ ← lift (fault_result (eo_write o));
  _ ← bin_step (put_bytes dest bytes);
  _ ← lift (fault_result (eo_metadata o));
  _ ← lift (fault_result (eo_chmod o));
  bin_step (set_executable dest).
Definition fetch_binaries (o : FetchOutcome) : binM unit :=
  _ ← download (fe_tgz o) "firecracker.tgz";
  _ ← verified (fe_sha256sum o) "firecracker.tgz" FIRECRACKER_TGZ_SHA256;
  _ ← extract_release_binary (fe_firecracker o) "firecracker.tgz" "firecracker" "firecracker";
  _ ← extract_release_binary (fe_jailer o) "firecracker.tgz" "jailer" "jailer";
  _ ← lift (fault_result (fe_remove_tgz o));
  _ ← bin_step (delete "firecracker.tgz");
  _ ← verified (fe_sha256sum o) "firecracker" FIRECRACKER_BIN_SHA256;
  verified (fe_sha256sum o) "jailer" JAILER_BIN_SHA256.
Definition fetch (dest_dir : string) (o : FetchOutcome) : binM ReleaseBinaries :=
  d ← bin_get;
  _ ← (if is_ok (verify (fe_sha256sum o) "firecracker" FIRECRACKER_BIN_SHA256 d)
          && is_ok (verify (fe_sha256sum o) "jailer" JAILER_BIN_SHA256 d)
       then mret tt else fetch_binaries o);
  d ← bin_get;
  _ ← (if is_ok (verify (fe_sha256sum o) KERNEL_FILENAME KERNEL_SHA256 d) then mret tt
       else
         _ ← download (fe_kernel o) KERNEL_FILENAME;
         verified (fe_sha256sum o) KERNEL_FILENAME KERNEL_SHA256);
  mret (mkReleaseBinaries (dest_dir +:+ "/firecracker") (dest_dir +:+ "/jailer") (dest_dir +:+ "/" +:+ KERNEL_FILENAME)).

(** ** Guarantees *)

Definition pinned (d : BinDir) (path want : string) : Prop := exists b, d !! path = Some b /\ sha256 (bf_bytes b) = want.
Definition all_pinned (d : BinDir) : Prop :=
  pinned d "firecracker" FIRECRACKER_BIN_SHA256 /\ pinned d "jailer" JAILER_BIN_SHA256 /\ pinned d KERNEL_FILENAME KERNEL_SHA256.

Lemma verify_ok f path want d : verify f path want d = Ok tt -> pinned d path want.
Proof.
  unfold verify. destruct (f path); [done|]. destruct (d !! path) as [b|] eqn:Hb; [|done].
  rewrite fail_if_ok, negb_false_iff, bool_decide_eq_true. intros H. exists b. by rewrite Hb.
Qed.
Lemma verify_pinned f path want d : f path = None -> pinned d path want -> verify f path want d = Ok tt.
Proof. intros Hf (b & Hb & Hs). unfold verify. rewrite Hf, Hb. by apply fail_if_ok, negb_false_iff, bool_decide_eq_true. Qed.
Lemma is_ok_verify f path want d : is_ok (verify f path want d) = true -> pinned d path want.
Proof. destruct (verify f path want d) as [[]|] eqn:E; [|done]. intros _. by eapply verify_ok. Qed.
Lemma pinned_put d path want other bytes : path <> other -> pinned d path want -> pinned (put_bytes other bytes d) path want.
Proof. intros Hne (b & Hb & Hs). exists b. split; [|done]. unfold put_bytes. by rewrite lookup_insert_ne. Qed.

Section triples.
Abbreviation run := (traced id (fun _ => True)).
Lemma traced_verified f path want (P : BinDir -> Prop) :
  run P (verified f path want) (fun r d => P d /\ match r with Ok _ => pinned d path want | Err _ => True end).
Proof.
  intros d Hd. unfold verified, mbind, trace_bind, bin_get, lift. simpl.
  split; [constructor|]. split; [done|]. destruct (verify f path want d) as [[]|] eqn:E; [|done]. by eapply verify_ok.
Qed.
Lemma traced_true {A} (m : binM A) : run (fun _ => True) m (fun _ _ => True).
Proof. intros d _. destruct (m d) as [[t d'] r]. split; [by apply Forall_true|done]. Qed.
Lemma traced_download a dest (P : BinDir -> Prop) :
  (forall d bytes, P d -> P (put_bytes dest bytes d)) -> run P (download a dest) (fun _ => P).
Proof.
  intros HP d Hd. unfold download, mbind, trace_bind, bin_step, lift. simpl.
  destruct (dl_end a); (split; [by apply Forall_true|]); unfold id in *; auto.
Qed.
Lemma traced_fetch_binaries o :
  run (fun _ => True) (fetch_binaries o) (fun r d => match r with
    | Ok _ => pinned d "firecracker" FIRECRACKER_BIN_SHA256 /\ pinned d "jailer" JAILER_BIN_SHA256 | Err _ => True end).
Proof.
  unfold fetch_binaries. do 6 (apply (traced_bind _ _ _ _ (fun _ _ => True)); [apply traced_true|intros []|done]).
  apply (traced_bind _ _ _ _ (fun r d => True /\ match r with Ok _ => pinned d "firecracker" FIRECRACKER_BIN_SHA256 | Err _ => True end));
    [apply traced_verified|intros []|done].
  eapply traced_weaken; [apply (traced_verified _ _ _ (fun d => pinned d "firecracker" FIRECRACKER_BIN_SHA256))|by intros d [_ ?]|].
  intros [[]|e] d [? ?]; done.
Qed.
Lemma traced_bin_get (P : BinDir -> Prop) {B} (k : BinDir -> binM B) R :
  (forall d0, run (fun d => d = d0 /\ P d) (k d0) R) -> run P (bin_get ≫= k) R.
Proof.
  intros Hk d Hd. unfold mbind, trace_bind, bin_get. specialize (Hk d d (conj eq_refl Hd)). by destruct (k d d) as [[t d'] r].
Qed.
Lemma fetch_pinned dest_dir o : run (fun _ => True) (fetch dest_dir o) (fun r d => match r with Ok _ => all_pinned d | Err _ => True end).
Proof.
  set (P := fun d => pinned d "firecracker" FIRECRACKER_BIN_SHA256 /\ pinned d "jailer" JAILER_BIN_SHA256).
  unfold fetch. apply traced_bin_get. intros d0.
  apply (traced_bind _ _ _ _ (fun r d => match r with Ok _ => P d | Err _ => True end)); [| |done].
  { destruct (is_ok (verify _ "firecracker" _ d0)) eqn:H1; simpl;
      [destruct (is_ok (verify _ "jailer" _ d0)) eqn:H2; simpl|].
    - apply traced_ret. intros d [-> _]. split; by eapply is_ok_verify.
    - eapply traced_weaken; [apply traced_fetch_binaries|done|]. by intros [[]|e] d ?.
    - eapply traced_weaken; [apply traced_fetch_binaries|done|]. by intros [[]|e] d ?. }
  intros []. apply traced_bin_get. intros d1.
  apply (traced_bind _ _ _ _ (fun r d => match r with Ok _ => all_pinned d | Err _ => True end)); [| |done].
  { destruct (is_ok (verify _ KERNEL_FILENAME _ d1)) eqn:H3.
    - apply traced_ret. intros d [-> [? ?]]. split_and!; [done|done|]. by eapply is_ok_verify.
    - apply (traced_bind _ _ _ _ (fun _ => P)).
      + eapply traced_weaken; [apply (traced_download _ _ P)| |by intros]; [|by intros d [_ ?]].
        intros d bytes [? ?]. split; by apply pinned_put.
      + intros []. eapply traced_weaken; [apply (traced_verified _ _ _ P)|done|]. intros [[]|e] d [[? ?] ?]; [|done]. by split_and!.
      + done. }
  intros []. apply traced_ret. done.
Qed.
End triples.

(** A fetch that succeeds, whatever was in the directory and whatever arrived,
    has exactly the pinned bytes under the three names; and one that finds
    them there changes nothing and downloads nothing. *)
Theorem fetched_release_is_pinned (dest_dir : string) (o : FetchOutcome) (d : BinDir) :
  (forall t d' rel, fetch dest_dir o d = (t, d', Ok rel) -> all_pinned d') /\
  ((forall path, fe_sha256sum o path = None) -> all_pinned d -> exists rel, fetch dest_dir o d = ([], d, Ok rel)).
Proof.
  split.
  - intros t d' rel E. pose proof (fetch_pinned dest_dir o d I) as H. rewrite E in H. apply H.
  - intros Hf (H1 & H2 & H3). unfold fetch, mbind, trace_bind, bin_get. simpl.
    rewrite (verify_pinned _ _ _ d (Hf _) H1), (verify_pinned _ _ _ d (Hf _) H2). simpl.
    rewrite (verify_pinned _ _ _ d (Hf _) H3). by eexists.
Qed.
End release.

(** ** Where a kill leaves a binary that can't run

    A fetch keeps a file "already present with the right hash"; one killed
    between writing a binary and making it executable leaves such a file, and
    no later fetch, which looks at its bytes alone, makes it executable. *)
Definition toy_sha256 (bytes : string) : string :=
  if bool_decide (bytes = "tgz") then FIRECRACKER_TGZ_SHA256
  else if bool_decide (bytes = "fc") then FIRECRACKER_BIN_SHA256
  else if bool_decide (bytes = "jail") then JAILER_BIN_SHA256
  else if bool_decide (bytes = "linux") then KERNEL_SHA256 else "".
Definition toy_member (tgz name : string) : result string string :=
  if str_contains_str "jailer" name then Ok "jail" else Ok "fc".
Definition toy_fetch : FetchOutcome := mkFetchOutcome (fun _ => None) (mkDownload "t" (Ok "tgz"))
  (mkExtractOutcome None None None None) (mkExtractOutcome None None None None) None (mkDownload "" (Ok "linux")).
Definition toy_states : list BinDir := (fetch toy_sha256 toy_member "/r" toy_fetch ∅).1.1.
Definition killed_fetch : BinDir := default ∅ (toy_states !! 6%nat).
Theorem killed_fetch_leaves_jailer_unrunnable :
  killed_fetch ∈ toy_states /\
  is_ok (fetch toy_sha256 toy_member "/r" toy_fetch killed_fetch).2 = true /\
  (fetch toy_sha256 toy_member "/r" toy_fetch killed_fetch).1.2 !! "jailer" = Some (mkBinFile "jail" false) /\
  (fetch toy_sha256 toy_member "/r" toy_fetch ∅).1.2 !! "jailer" = Some (mkBinFile "jail" true).
Proof.
  split_and!; [|vm_compute; reflexivity..].
  assert (Hlen : (6 <? length toy_states)%nat = true) by (vm_compute; reflexivity). apply Nat.ltb_lt in Hlen.
  unfold killed_fetch. destruct (lookup_lt_is_Some_2 toy_states 6 Hlen) as [d Hd]. rewrite Hd. by eapply list_elem_of_lookup_2.
Qed.
