(* ===== verification/Install.v ===== *)
(** * Installing and uninstalling a Node ([crates/cirro-node/src/install.rs])

    What [cirro node install] sets up and [cirro node uninstall] takes down,
    as the states the Node goes through. The tools they run (groupadd, ufw,
    firewalld's, systemctl) answer by an argument, and do what their manuals
    say: [command_effect]. *)

From S2P Require Import Prelude RustStr Proto Subnet Store Vm Trace Egress Release.

(** ** The Node *)

Record EdgeConfig := mkEdgeConfig { ec_http : option string; ec_https : option string; ec_acme_email : option string }.
Record InstallConfig := mkInstallConfig {
  ic_state_dir : string;
  ic_socket : string;
  ic_group : string;
  ic_subnet : Subnet;
  ic_unit_name : string;
  ic_release_override : option ReleaseBinaries;
  ic_edge : EdgeConfig;
}.
(** [node.json]. *)
Record NodeFile := mkNodeFile {
  nf_socket : string;
  nf_group : string;
  nf_subnet : string;
  nf_unit_name : string;
  nf_release : ReleaseBinaries;
  nf_edge : EdgeConfig;
}.
(** The host firewalls' rules, by the subnet each is for. *)
Record Firewalls := mkFirewalls { fi_ufw : gset string; fi_runtime : gset string; fi_permanent : gset string }.
(** [nh_config] is the Node config, [Some None] when it can't be read. *)
Record NodeHost := mkNodeHost {
  nh_groups : gset string;
  nh_dir : bool;
  nh_config : option (option NodeFile);
  nh_db : option Db;
  nh_release : BinDir;
  nh_units : gmap string string;
  nh_enabled : gset string;
  nh_active : gset string;
  nh_firewalls : Firewalls;
  nh_table : option Table;
  nh_forward : Forwarding;
  nh_host : Host;
}.
Definition set_nh_groups x h := mkNodeHost x (nh_dir h) (nh_config h) (nh_db h) (nh_release h) (nh_units h) (nh_enabled h)
  (nh_active h) (nh_firewalls h) (nh_table h) (nh_forward h) (nh_host h).
Definition set_nh_dir x h := mkNodeHost (nh_groups h) x (nh_config h) (nh_db h) (nh_release h) (nh_units h) (nh_enabled h)
  (nh_active h) (nh_firewalls h) (nh_table h) (nh_forward h) (nh_host h).
Definition set_nh_config x h := mkNodeHost (nh_groups h) (nh_dir h) x (nh_db h) (nh_release h) (nh_units h) (nh_enabled h)
  (nh_active h) (nh_firewalls h) (nh_table h) (nh_forward h) (nh_host h).
Definition set_nh_db x h := mkNodeHost (nh_groups h) (nh_dir h) (nh_config h) x (nh_release h) (nh_units h) (nh_enabled h)
  (nh_active h) (nh_firewalls h) (nh_table h) (nh_forward h) (nh_host h).
Definition set_nh_release x h := mkNodeHost (nh_groups h) (nh_dir h) (nh_config h) (nh_db h) x (nh_units h) (nh_enabled h)
  (nh_active h) (nh_firewalls h) (nh_table h) (nh_forward h) (nh_host h).
Definition set_nh_units x h := mkNodeHost (nh_groups h) (nh_dir h) (nh_config h) (nh_db h) (nh_release h) x (nh_enabled h)
  (nh_active h) (nh_firewalls h) (nh_table h) (nh_forward h) (nh_host h).
Definition set_nh_services e a h := mkNodeHost (nh_groups h) (nh_dir h) (nh_config h) (nh_db h) (nh_release h) (nh_units h) e
  a (nh_firewalls h) (nh_table h) (nh_forward h) (nh_host h).
Definition set_nh_firewalls x h := mkNodeHost (nh_groups h) (nh_dir h) (nh_config h) (nh_db h) (nh_release h) (nh_units h)
  (nh_enabled h) (nh_active h) x (nh_table h) (nh_forward h) (nh_host h).
Definition set_nh_table x h := mkNodeHost (nh_groups h) (nh_dir h) (nh_config h) (nh_db h) (nh_release h) (nh_units h)
  (nh_enabled h) (nh_active h) (nh_firewalls h) x (nh_forward h) (nh_host h).
Definition set_nh_forward x h := mkNodeHost (nh_groups h) (nh_dir h) (nh_config h) (nh_db h) (nh_release h) (nh_units h)
  (nh_enabled h) (nh_active h) (nh_firewalls h) (nh_table h) x (nh_host h).
Definition set_nh_host x h := mkNodeHost (nh_groups h) (nh_dir h) (nh_config h) (nh_db h) (nh_release h) (nh_units h)
  (nh_enabled h) (nh_active h) (nh_firewalls h) (nh_table h) (nh_forward h) x.

Abbreviation nodeM := (traceM NodeHost NodeHost).
Definition node_get : nodeM NodeHost := fun h => ([], h, Ok h).
Definition node_step (g : NodeHost -> NodeHost) : nodeM unit := fun h => ([g h], g h, Ok tt).
(** ** The commands it runs *)

Definition source_rule (arg : string) (s : gset string) : gset string :=
  match strip_prefix "--add-source=" arg, strip_prefix "--remove-source=" arg with
  | Some subnet, _ => {[subnet]} ∪ s
  | None, Some subnet => s ∖ {[subnet]}
  | None, None => s
  end.
Fixpoint strip_words (prefix args : list string) : option (list string) :=
  match prefix, args with
  | [], _ => Some args
  | w :: prefix, arg :: args => if bool_decide (arg = w) then strip_words prefix args else None
  | _ :: _, [] => None
  end.
Definition ufw_effect (args : list string) (rules : gset string) : gset string :=
  match strip_words ["route"; "allow"; "in"; "on"; "cirro-+"; "from"] args,
        strip_words ["route"; "delete"; "allow"; "in"; "on"; "cirro-+"; "from"] args with
  | Some (subnet :: _), _ => {[subnet]} ∪ rules
  | _, Some (subnet :: _) => rules ∖ {[subnet]}
  | _, _ => rules
  end.
Definition firewall_effect (program : string) (args : list string) (f : Firewalls) : Firewalls :=
  if bool_decide (program = "ufw") then mkFirewalls (ufw_effect args (fi_ufw f)) (fi_runtime f) (fi_permanent f)
  else if bool_decide (program = "firewall-cmd") then
    match strip_words ["--zone=trusted"] args, strip_words ["--permanent"; "--zone=trusted"] args with
    | Some [source], _ => mkFirewalls (fi_ufw f) (source_rule source (fi_runtime f)) (fi_permanent f)
    | _, Some [source] => mkFirewalls (fi_ufw f) (fi_runtime f) (source_rule source (fi_permanent f))
    | _, _ => f
    end
  else if bool_decide (program = "firewall-offline-cmd") then
    match strip_words ["--zone=trusted"] args with
    | Some [source] => mkFirewalls (fi_ufw f) (fi_runtime f) (source_rule source (fi_permanent f))
    | _ => f
    end
  else f.
Definition systemctl_effect (args : list string) (h : NodeHost) : NodeHost :=
  match strip_words ["enable"; "--now"] args, strip_words ["stop"] args, strip_words ["disable"] args with
  | Some [service], _, _ => set_nh_services ({[service]} ∪ nh_enabled h) ({[service]} ∪ nh_active h) h
  | _, Some [service], _ => set_nh_services (nh_enabled h) (nh_active h ∖ {[service]}) h
  | _, _, Some [service] => set_nh_services (nh_enabled h ∖ {[service]}) (nh_active h) h
  | _, _, _ => h
  end.
Definition command_effect (program : string) (args : list string) (h : NodeHost) : NodeHost :=
  if bool_decide (program = "groupadd") then set_nh_groups (list_to_set args ∪ nh_groups h) h
  else if bool_decide (program = "groupdel") then set_nh_groups (nh_groups h ∖ list_to_set args) h
  else if bool_decide (program = "systemctl") then systemctl_effect args h
  else set_nh_firewalls (firewall_effect program args (nh_firewalls h)) h.

Section install.
(** What each command answers, which tools are there, and the words of a
    subnet that does not parse. *)
Context (answers : string -> list string -> fault) (succeeds : string -> string -> bool).
Context (subnet_error_text : SubnetError -> string).

(** [run], and a command whose failure is ignored. *)
Definition run (program : string) (args : list string) : nodeM unit :=
  _ ← lift (fault_result (answers program args)); node_step (command_effect program args).
Definition ignored {A} (m : nodeM A) : nodeM unit := fun h => let '(t, h, _) := m h in (t, h, Ok tt).

(** [EdgeConfig::agent_args]. *)
Definition agent_args (edge : EdgeConfig) : string :=
  match ec_http edge with Some http => " --http " +:+ http | None => "" end
  +:+ match ec_https edge with Some https => " --https " +:+ https | None => "" end
  +:+ match ec_acme_email edge with Some email => " --acme-email " +:+ email | None => "" end.

(** [check_prereqs]: [/dev/kvm] can be opened, and what [stat] says of
    [/sys/fs/cgroup]. *)
Definition check_prereqs (kvm : bool) (cgroup_fs_type : option string) : result string unit :=
  _ ← fail_if (negb kvm) "/dev/kvm is missing or not read/write for this user: Firecracker needs KVM";
  fail_if (negb (bool_decide (cgroup_fs_type = Some "cgroup2fs")))
    "/sys/fs/cgroup is not a unified cgroup v2 hierarchy: jailer needs --cgroup-version=2, which needs the v2 hierarchy".

(** [set_group_existence]; [f] is looking the group up. *)
Definition set_group_existence (f : fault) (name : string) (want_exists : bool) (verb : string) : nodeM unit :=
  _ ← lift (fault_result f);
  h ← node_get;
  if Bool.eqb (bool_decide (name ∈ nh_groups h)) want_exists then mret tt else run verb [name].
Definition ensure_group (f : fault) (name : string) : nodeM unit := set_group_existence f name true "groupadd".
Definition remove_group (f : fault) (name : string) : nodeM unit := set_group_existence f name false "groupdel".

(** [ufw_route_rule] and [host_firewall_commands]. *)
Definition UFW_COMMENT : string := "cirro Node VMs".
Definition ufw_route_rule (subnet : string) (allow : bool) : list string :=
  ["route"] ++ (if allow then [] else ["delete"]) ++ ["allow"; "in"; "on"; "cirro-+"; "from"; subnet]
    ++ ["comment"; UFW_COMMENT].
Definition host_firewall_commands (subnet : string) (allow : bool) : list (string * list string) :=
  let source := "--" +:+ (if allow then "add" else "remove") +:+ "-source=" +:+ subnet in
  (if succeeds "ufw" "version" then [("ufw", ufw_route_rule subnet allow)] else [])
  ++ (if succeeds "firewall-cmd" "--state" then
        [("firewall-cmd", ["--zone=trusted"; source]); ("firewall-cmd", ["--permanent"; "--zone=trusted"; source])]
      else if succeeds "firewall-offline-cmd" "--version" then [("firewall-offline-cmd", ["--zone=trusted"; source])]
      else []).
Fixpoint run_each (commands : list (string * list string)) : nodeM unit :=
  match commands with
  | [] => mret tt
  | (program, args) :: rest => _ ← run program args; run_each rest
  end.
Definition allow_through_host_firewall (subnet : string) : nodeM unit := run_each (host_firewall_commands subnet true).
Fixpoint ignore_each (commands : list (string * list string)) : nodeM unit :=
  match commands with
  | [] => mret tt
  | (program, args) :: rest => _ ← ignored (run program args); ignore_each rest
  end.
Definition remove_from_host_firewall (subnet : string) : nodeM unit := ignore_each (host_firewall_commands subnet false).

(** [write_node_config] and [read_node_config]. *)
Definition write_node_config (f_create f_write : fault) (config : NodeFile) : nodeM unit :=
  _ ← lift (fault_result f_create);
  _ ← node_step (set_nh_config (Some None));
  _ ← lift (fault_result f_write);
  node_step (set_nh_config (Some (Some config))).
Definition read_node_config (f : fault) (h : NodeHost) : result string NodeFile :=
  match f, nh_config h with
  | Some e, _ => Err e
  | None, None => Err "No such file or directory (os error 2)"
  | None, Some None => Err "EOF while parsing a value at line 1 column 0"
  | None, Some (Some config) => Ok config
  end.

(** [unit_path], [install_unit] and [remove_unit]. *)
Definition unit_path (unit_name : string) : string := "/etc/systemd/system/" +:+ unit_name +:+ ".service".
Definition unit_text (cirro_bin state_dir : string) (config : NodeFile) : string :=
  foldr (fun line rest => line +:+ nl +:+ rest) EmptyString
    ["[Unit]";
     "Description=Cirrocumulus Node agent";
     "After=network-online.target";
     "Wants=network-online.target";
     "";
     "[Service]";
     "ExecStart=" +:+ cirro_bin +:+ " node agent --socket " +:+ nf_socket config +:+ " --socket-group " +:+ nf_group config
       +:+ " --subnet " +:+ nf_subnet config +:+ " --state-dir " +:+ state_dir
       +:+ " --firecracker " +:+ rb_firecracker (nf_release config) +:+ " --jailer " +:+ rb_jailer (nf_release config)
       +:+ " --kernel " +:+ rb_kernel (nf_release config) +:+ agent_args (nf_edge config);
     "Restart=on-failure";
     "LimitNOFILE=65536";
     "";
     "[Install]";
     "WantedBy=multi-user.target"].
Definition install_unit (current_exe : result string string) (f_write : fault) (config : NodeFile) (state_dir : string)
    : nodeM unit :=
  cirro_bin ← lift current_exe;
  _ ← lift (fault_result f_write);
  _ ← node_step (fun h => set_nh_units (<[unit_path (nf_unit_name config) := unit_text cirro_bin state_dir config]> (nh_units h)) h);
  _ ← run "systemctl" ["daemon-reload"];
  run "systemctl" ["enable"; "--now"; nf_unit_name config +:+ ".service"].
Definition remove_unit (f_remove : fault) (unit_name : string) : nodeM unit :=
  let service := unit_name +:+ ".service" in
  _ ← ignored (run "systemctl" ["stop"; service]);
  _ ← ignored (run "systemctl" ["disable"; service]);
  h ← node_get;
  _ ← match nh_units h !! unit_path unit_name with
      | Some _ =>
          _ ← lift (fault_result f_remove);
          node_step (fun h => set_nh_units (delete (unit_path unit_name) (nh_units h)) h)
      | None => mret tt
      end;
  run "systemctl" ["daemon-reload"].

(** ** [install] *)

Record InstallOutcome := mkInstallOutcome {
  io_kvm : bool;
  io_cgroup : option string;
  io_mkdir : fault;
  io_mkdir_release : fault;
  io_fetch : FetchOutcome;
  io_group : fault;
  io_create_config : fault;
  io_write_config : fault;
  io_exe : result string string;
  io_write_unit : fault;
}.
Section with_release.
Context (sha256 : string -> string) (member : string -> string -> result string string).
Definition install (o : InstallOutcome) (cfg : InstallConfig) : nodeM unit :=
  _ ← lift (check_prereqs (io_kvm o) (io_cgroup o));
  _ ← lift (fault_result (io_mkdir o));
  _ ← node_step (set_nh_dir true);
  release ← match ic_release_override cfg with
            | Some r => mret r
            | None =>
                _ ← lift (fault_result (io_mkdir_release o));
                zoom nh_release set_nh_release (fetch sha256 member (ic_state_dir cfg +:+ "/release") (io_fetch o))
            end;
  _ ← ensure_group (io_group o) (ic_group cfg);
  let node_config := mkNodeFile (ic_socket cfg) (ic_group cfg) (subnet_display (ic_subnet cfg)) (ic_unit_name cfg)
                       release (ic_edge cfg) in
  _ ← write_node_config (io_create_config o) (io_write_config o) node_config;
  _ ← allow_through_host_firewall (nf_subnet node_config);
  install_unit (io_exe o) (io_write_unit o) node_config (ic_state_dir cfg).
End with_release.

(** ** [uninstall] *)

Record UninstallOutcome := mkUninstallOutcome {
  un_read : fault;
  un_open : fault * fault * fault;
  un_load : fault;
  un_remove_unit : fault;
  un_open_again : fault * fault * fault;
  un_load_again : fault;
  un_undo : UndoOutcome;
  un_group : fault;
  un_policy : NftAnswer;
  un_forward : ForwardOutcome;
  un_remove_dir : fault;
}.
(** [records]. *)
Definition records (f : fault * fault * fault) (f_load : fault) (subnet : string) : nodeM (list VmRecord) :=
  h ← node_get;
  match nh_db h with
  | None => mret []
  | Some db =>
      let '(db, r) := store_open f.1.1 f.1.2 f.2 subnet db in
      _ ← node_step (set_nh_db (Some db));
      _ ← lift (map_err open_error r);
      lift (store_load f_load db)
  end.
(** [refuse_if_vms_running]. *)
Definition still_running (h : Host) (r : VmRecord) : bool :=
  match rec_process r with Some p => is_running h p | None => false end.
Definition refuse_if_vms_running (o : UninstallOutcome) (subnet : string) : nodeM unit :=
  all ← records (un_open o) (un_load o) subnet;
  h ← node_get;
  let running := (fun r => vi_name (rec_info r)) <$> List.filter (still_running (nh_host h)) all in
  lift (fail_if (negb (bool_decide (running = []))) ("refusing to uninstall: " +:+ dec (N.of_nat (length running))
    +:+ " VM(s) still running (" +:+ str_join ", " running +:+ "); stop them first or pass --force")).
(** [clean_up_vms]. *)
Fixpoint clean_up_each (u : UndoOutcome) (node : NodeConfig) (rs : list VmRecord) : nodeM unit :=
  match rs with
  | [] => mret tt
  | r :: rs =>
      _ ← match vi_vm_address (rec_info r) with
          | Some vm_address => node_step (fun h => set_nh_host (clean_up u node vm_address (nh_host h)) h)
          | None => mret tt
          end;
      clean_up_each u node rs
  end.
Definition vms_node (state_dir : string) (config : NodeFile) (subnet : Subnet) : NodeConfig :=
  mkNodeConfig (rb_firecracker (nf_release config)) (rb_jailer (nf_release config)) (rb_kernel (nf_release config))
    (jail_base state_dir) (node_address subnet) 0.
Definition clean_up_vms (o : UninstallOutcome) (state_dir : string) (config : NodeFile) : nodeM unit :=
  subnet ← lift (map_err subnet_error_text (subnet_from_str (nf_subnet config)));
  rs ← records (un_open_again o) (un_load_again o) (nf_subnet config);
  clean_up_each (un_undo o) (vms_node state_dir config subnet) rs.
(** [fs::remove_dir_all]: everything of the state dir. *)
Definition remove_state_dir (state_dir : string) (h : NodeHost) : NodeHost :=
  mkNodeHost (nh_groups h) false None None ∅ (nh_units h) (nh_enabled h) (nh_active h) (nh_firewalls h) (nh_table h)
    (set_record None (nh_forward h))
    (mkHost (ho_netns (nh_host h)) (ho_links (nh_host h)) (remove_tree state_dir (ho_dirs (nh_host h)))
       (ho_cgroups (nh_host h)) (ho_procs (nh_host h))
       (filter (fun l => under state_dir l.1 = false) (ho_logs (nh_host h))) (ho_io (nh_host h))).
Definition remove_policy (a : NftAnswer) : nodeM unit := fun h =>
  let '(t, r) := remove_node_policy a (nh_table h) in ([set_nh_table t h], set_nh_table t h, r).
Definition uninstall (o : UninstallOutcome) (state_dir : string) (force : bool) : nodeM unit :=
  h ← node_get;
  config ← lift (map_err (fun e => state_dir +:+ ": " +:+ e +:+ " (nothing installed here?)") (read_node_config (un_read o) h));
  _ ← (if force then mret tt else refuse_if_vms_running o (nf_subnet config));
  _ ← remove_unit (un_remove_unit o) (nf_unit_name config);
  _ ← clean_up_vms o state_dir config;
  _ ← ignored (remove_group (un_group o) (nf_group config));
  _ ← remove_from_host_firewall (nf_subnet config);
  _ ← ignored (remove_policy (un_policy o));
  _ ← zoom nh_forward set_nh_forward (restore_ip_forward (un_forward o));
  _ ← lift (fault_result (un_remove_dir o));
  node_step (remove_state_dir state_dir).
End install.
