(* ===== verification/InstallLaws.v ===== *)
(** * Installing and uninstalling a Node: guarantees *)

From S2P Require Import Prelude RustStr Proto Subnet Store Vm VmLaws VmEnd Machine Edge Agent AgentSys AgentHost AgentBoot.
From S2P Require Import Trace Egress Release Install.

(** ** What a command doesn't touch *)

Lemma systemctl_effect_services args h :
  exists e a, systemctl_effect args h = set_nh_services e a h.
Proof.
  assert (H0 : exists e a, h = set_nh_services e a h) by (destruct h; by do 2 eexists).
  unfold systemctl_effect.
  destruct (strip_words ["enable"; "--now"] args) as [[|? []]|]; try by do 2 eexists.
  all: destruct (strip_words ["stop"] args) as [[|? []]|]; try by do 2 eexists.
  all: destruct (strip_words ["disable"] args) as [[|? []]|]; by first [done|do 2 eexists].
Qed.
Lemma command_effect_same program args h :
  nh_table (command_effect program args h) = nh_table h /\ nh_db (command_effect program args h) = nh_db h /\
  nh_host (command_effect program args h) = nh_host h.
Proof.
  unfold command_effect. destruct (bool_decide (program = "groupadd")); [done|].
  destruct (bool_decide (program = "groupdel")); [done|]. destruct (bool_decide (program = "systemctl")); [|done].
  by destruct (systemctl_effect_services args h) as (e & a & ->).
Qed.

(** ** VMs are gone before the policy is *)

Section order.
Context (answers : string -> list string -> fault) (succeeds : string -> string -> bool).
Context (subnet_error_text : SubnetError -> string).

(** An operation that keeps a fact about the table, the database and the
    host's VMs, which every state it shows has. *)
Section keeps.
Context (I : NodeHost -> Prop) (Q : option Table -> option Db -> Host -> Prop).
Definition fact (h : NodeHost) : Prop := Q (nh_table h) (nh_db h) (nh_host h).
Context (HI : forall h, fact h -> I h).
Definition keeps {A} (m : nodeM A) : Prop := traced id I fact m (fun _ => fact).

Lemma keeps_ret {A} (a : A) : keeps (mret a).
Proof. by apply traced_ret. Qed.
Lemma keeps_lift {A} (r : result string A) : keeps (lift r).
Proof. by apply traced_lift. Qed.
Lemma keeps_bind {A B} (m : nodeM A) (k : A -> nodeM B) : keeps m -> (forall a, keeps (k a)) -> keeps (m ≫= k).
Proof. intros Hm Hk. by apply (traced_bind _ _ _ _ (fun _ => fact)). Qed.
Lemma keeps_get {B} (k : NodeHost -> nodeM B) : (forall h, keeps (k h)) -> keeps (node_get ≫= k).
Proof. intros Hk. apply keeps_bind; [|done]. intros h Hh. split; [constructor|done]. Qed.
Lemma keeps_step g : (forall h, fact h -> fact (g h)) -> keeps (node_step g).
Proof. intros Hg h Hh. split; [constructor; [by apply HI, Hg|constructor]|by apply Hg]. Qed.
Lemma keeps_run program args : keeps (run answers program args).
Proof.
  apply keeps_bind; [apply keeps_lift|]. intros _. apply keeps_step. intros h. unfold fact.
  by destruct (command_effect_same program args h) as (-> & -> & ->).
Qed.
Lemma keeps_ignored {A} (m : nodeM A) : keeps m -> keeps (ignored m).
Proof. intros Hm h Hh. specialize (Hm h Hh). unfold ignored. by destruct (m h) as [[t h'] r]. Qed.
Lemma keeps_ignore_each commands : keeps (ignore_each answers commands).
Proof.
  induction commands as [|[program args] rest IH]; [apply keeps_ret|]. apply keeps_bind; [apply keeps_ignored, keeps_run|by intros _].
Qed.
Lemma keeps_remove_unit f unit_name : keeps (remove_unit answers f unit_name).
Proof.
  unfold remove_unit. apply keeps_bind; [apply keeps_ignored, keeps_run|intros _].
  apply keeps_bind; [apply keeps_ignored, keeps_run|intros _]. apply keeps_get. intros h.
  apply keeps_bind; [|intros _; apply keeps_run]. destruct (nh_units h !! _); [|apply keeps_ret].
  apply keeps_bind; [apply keeps_lift|intros _]. by apply keeps_step.
Qed.
Lemma keeps_remove_group f name : keeps (remove_group answers f name).
Proof.
  unfold remove_group, set_group_existence. apply keeps_bind; [apply keeps_lift|intros _]. apply keeps_get. intros h.
  destruct (Bool.eqb _ _); [apply keeps_ret|apply keeps_run].
Qed.
Lemma keeps_zoom_forward {A} (m : fwM A) : keeps (zoom nh_forward set_nh_forward m).
Proof.
  intros h Hh. unfold zoom. destruct (m (nh_forward h)) as [[t s] r]. split; [|done].
  apply Forall_fmap, Forall_true. intros s'. apply HI. done.
Qed.
End keeps.

(** The VM records a state dir has, which opening its database doesn't
    change. *)
Definition loaded (db : option Db) (rs : list VmRecord) : Prop :=
  match db with Some db => collect_rows (entries_of (db_vms db)) = Some rs | None => rs = [] end.
Definition unchanged (t0 : option Table) (h0 : Host) (rs : list VmRecord) (t : option Table) (db : option Db) (h : Host) : Prop :=
  t = t0 /\ h = h0 /\ loaded db rs.
Definition gone (node : NodeConfig) (rs : list VmRecord) (h : Host) : Prop :=
  forall r x, r ∈ rs -> vi_vm_address (rec_info r) = Some x -> id_free node x h.
(** A state of an uninstall: the policy is there, or no VM is. *)
Definition confined (t0 : option Table) (node : NodeConfig) (rs : list VmRecord) (h : NodeHost) : Prop :=
  nh_table h = t0 \/ gone node rs (nh_host h).

Lemma traced_records I t0 h0 rs f f_load subnet :
  (forall h, fact (unchanged t0 h0 rs) h -> I h) ->
  traced id I (fact (unchanged t0 h0 rs)) (records f f_load subnet)
    (fun r h => fact (unchanged t0 h0 rs) h /\ forall all, r = Ok all -> all = rs).
Proof.
  intros HI h (Ht & Hh & Hl). unfold id in *. unfold records, mbind, trace_bind, node_get, node_step, lift; simpl.
  unfold loaded in Hl. destruct (nh_db h) as [db|] eqn:Hdb; simpl.
  2:{ split; [constructor|]. unfold fact, unchanged, loaded. rewrite Hdb. split; [done|]. intros all [= <-]. done. }
  pose proof (store_open_vms f.1.1 f.1.2 f.2 subnet db) as Hv. destruct (store_open _ _ _ _ db) as [db' r]. simpl in Hv |- *.
  assert (Hf : fact (unchanged t0 h0 rs) (set_nh_db (Some db') h)).
  { unfold fact, unchanged, loaded; simpl. rewrite Hv. done. }
  destruct r as [[]|e]; simpl; (split; [by repeat constructor; apply HI|]); (split; [done|]); [|done].
  intros all. unfold store_load. destruct f_load; [done|]. rewrite Hv, Hl. by intros [= <-].
Qed.
Lemma gone_mono node rs h h' : calm node h h' -> gone node rs h -> gone node rs h'.
Proof. intros Hc Hg r x Hr Hx. eapply calm_free; [exact Hc|]. by eapply Hg. Qed.
Lemma traced_clean_up_each t0 node all done_ rs busy :
  busy <= CGROUP_POLL_ATTEMPTS -> all = done_ ++ rs ->
  traced id (confined t0 node all) (fun h => nh_table h = t0 /\ gone node done_ (nh_host h)) (clean_up_each (undo_ok busy) node rs)
    (fun r h => nh_table h = t0 /\ (r = Ok tt -> gone node all (nh_host h))).
Proof.
  intros Hb. revert done_. induction rs as [|r rs IH]; intros done_ ->.
  { apply traced_ret. intros h [? ?]. rewrite app_nil_r. done. }
  simpl. assert (Hsnoc : done_ ++ r :: rs = (done_ ++ [r]) ++ rs) by by rewrite <-app_assoc.
  apply (traced_bind _ _ _ _ (fun _ h => nh_table h = t0 /\ gone node (done_ ++ [r]) (nh_host h))).
  - destruct (vi_vm_address (rec_info r)) as [x|] eqn:Hx.
    + intros h [Ht Hg]. unfold node_step, id in *; simpl. assert (Ht' : nh_table (set_nh_host (clean_up (undo_ok busy) node x (nh_host h)) h) = t0) by done.
      split; [constructor; [by left|constructor]|]. split; [done|]. intros r' y [Hr'|Hr']%elem_of_app Hy.
      * eapply calm_free; [apply calm_clean_up|]. by eapply Hg.
      * apply list_elem_of_singleton in Hr' as ->. assert (y = x) as -> by congruence. by apply clean_up_frees.
    + apply traced_ret. intros h [Ht Hg]. split; [done|]. intros r' y [Hr'|Hr']%elem_of_app Hy; [by eapply Hg|].
      apply list_elem_of_singleton in Hr' as ->. congruence.
  - intros []. by apply (IH (done_ ++ [r])), Hsnoc.
  - intros e h [? ?]. done.
Qed.
Lemma id_free_remove_state_dir node x state_dir h :
  id_free node x (nh_host h) -> id_free node x (nh_host (remove_state_dir state_dir h)).
Proof.
  intros [Hn Hl Hd Hc]. split; simpl; [done|done| |done]. apply map_filter_id. intros k d Hk. simpl.
  apply map_lookup_filter_Some in Hk as [Hk _]. rewrite <-Hd in Hk. by apply map_lookup_filter_Some in Hk as [_ ?].
Qed.

Lemma traced_uninstall o state_dir force h0 rs config subnet busy :
  nh_config h0 = Some (Some config) -> subnet_from_str (nf_subnet config) = Ok subnet -> loaded (nh_db h0) rs ->
  un_undo o = undo_ok busy -> busy <= CGROUP_POLL_ATTEMPTS ->
  let node := vms_node state_dir config subnet in
  traced id (confined (nh_table h0) node rs) (fun h => h = h0) (uninstall answers succeeds subnet_error_text o state_dir force)
    (fun r h => confined (nh_table h0) node rs h /\ (r = Ok tt -> gone node rs (nh_host h))).
Proof.
  intros Hcfg Hsub Hl Hu Hb node. set (I := confined (nh_table h0) node rs).
  set (Q := unchanged (nh_table h0) (nh_host h0) rs). assert (HQ : forall h, fact Q h -> I h) by (intros h (? & _); by left).
  set (G := fun (_ : option Table) (_ : option Db) h => gone node rs h).
  assert (HG : forall h, fact G h -> I h) by (intros h ?; by right).
  set (R := fun (r : result string unit) h => I h /\ (r = Ok tt -> gone node rs (nh_host h))).
  assert (Hend : forall m : nodeM unit, keeps I G m -> traced id I (fact G) m R).
  { intros m Hm. eapply traced_weaken; [exact Hm|done|]. intros r h ?. split; [by apply HG|done]. }
  unfold uninstall. apply (traced_bind _ _ _ _ (fun r h => h = h0 /\ r = Ok h0)); [| |by intros e h [_ ?]].
  { intros h Hh. split; [constructor|]. unfold id in *. by subst. }
  intros h1. apply traced_pure. intros [= ->].
  apply (traced_bind _ _ _ _ (fun r h => h = h0 /\ forall c, r = Ok c -> c = config)).
  { apply traced_lift. intros h ->. split; [done|]. intros c. unfold read_node_config. rewrite Hcfg.
    destruct (un_read o); [done|]. by intros [= <-]. }
  2:{ intros e h [-> _]. split; [by left|done]. }
  intros config'. apply (traced_weaken _ _ _ (fun h => fact Q h /\ config' = config) _ _ R);
    [|intros h [-> H]; split; [done|by apply H]|done].
  apply traced_pure. intros ->.
  apply (traced_bind _ _ _ _ (fun _ => fact Q)).
  { destruct force; [by apply traced_ret|]. unfold refuse_if_vms_running. apply (traced_bind _ _ _ _ (fun _ => fact Q)).
    - eapply traced_weaken; [apply (traced_records I)|done|]; [done|]. by intros r h [? _].
    - intros all. apply keeps_get. intros h. apply keeps_lift.
    - done. }
  2:{ intros e h ?. split; [by apply HQ|done]. }
  intros _. apply (traced_bind _ _ _ _ (fun _ => fact Q)); [by apply keeps_remove_unit| |intros e h ?; split; [by apply HQ|done]].
  intros _. apply (traced_bind _ _ _ _ (fun r h => I h /\ (r = Ok tt -> gone node rs (nh_host h)))).
  { unfold clean_up_vms. rewrite Hsub, Hu. simpl.
    apply (traced_bind _ _ _ _ (fun r h => fact Q h /\ r = Ok subnet)); [apply traced_lift; done| |by intros e h [? ?]].
    intros s. apply traced_pure. intros [= ->].
    apply (traced_bind _ _ _ _ (fun r h => fact Q h /\ forall all, r = Ok all -> all = rs)).
    - by apply (traced_records I).
    - intros all. apply (traced_weaken _ _ _ (fun h => (nh_table h = nh_table h0 /\ gone node [] (nh_host h)) /\ all = rs)
        _ _ (fun r h => nh_table h = nh_table h0 /\ (r = Ok tt -> gone node rs (nh_host h)))).
      + apply traced_pure. intros ->. by apply (traced_clean_up_each _ node rs []).
      + intros h [(Ht & _) Ha]. split; [|by apply Ha]. split; [done|]. intros r x Hr. by apply not_elem_of_nil in Hr.
      + intros r h [? ?]. split; [by left|done].
    - intros e h [? _]. split; [by apply HQ|done]. }
  2:{ intros e h [? _]. done. }
  intros []. apply (traced_weaken _ _ _ (fact G) _ _ R); [|by intros h [_ H]; apply H|done]. apply Hend.
  apply keeps_bind; [by apply keeps_ignored, keeps_remove_group|intros _].
  apply keeps_bind; [by apply keeps_ignore_each|intros _].
  apply keeps_bind; [|intros _].
  { apply keeps_ignored. intros h Hg. unfold remove_policy. destruct (remove_node_policy _ _) as [t r].
    split; [constructor; [by apply HG|constructor]|done]. }
  apply keeps_bind; [by apply keeps_zoom_forward|intros _].
  apply keeps_bind; [apply keeps_lift|intros _]. apply keeps_step; [done|]. intros h Hg r x Hr Hx.
  apply id_free_remove_state_dir. by eapply Hg.
Qed.

(** Refusing changes nothing but the database's columns. *)
Definition only_db (h0 h : NodeHost) : Prop := exists db, h = set_nh_db db h0.
Lemma only_db_refl h : only_db h h.
Proof. exists (nh_db h). by destruct h. Qed.
Lemma traced_refusal o state_dir h0 rs config :
  nh_config h0 = Some (Some config) -> loaded (nh_db h0) rs -> existsb (still_running (nh_host h0)) rs = true ->
  traced id (only_db h0) (fun h => h = h0) (uninstall answers succeeds subnet_error_text o state_dir false)
    (fun r h => only_db h0 h /\ r <> Ok tt).
Proof.
  intros Hcfg Hl Hrun. unfold uninstall.
  apply (traced_bind _ _ _ _ (fun r h => h = h0 /\ r = Ok h0)); [| |by intros e h [_ ?]].
  { intros h Hh. split; [constructor|]. unfold id in *. by subst. }
  intros h1. apply traced_pure. intros [= ->]. apply (traced_bind _ _ _ _ (fun _ h => h = h0)).
  { by apply traced_lift. }
  2:{ intros e h ->. split; [apply only_db_refl|done]. }
  intros config'. apply (traced_bind _ _ _ _ (fun r h => only_db h0 h /\ r <> Ok tt)); [|by intros [] h [_ ?]|by intros e h [? _]].
  unfold refuse_if_vms_running. apply (traced_bind _ _ _ _ (fun r h => only_db h0 h /\ forall all, r = Ok all -> all = rs)).
  { intros h Hh. change (h = h0) in Hh. subst h.
    unfold records, mbind, trace_bind, node_get, node_step, lift, id; simpl. unfold loaded in Hl.
    destruct (nh_db h0) as [db|] eqn:Hdb; simpl.
    2:{ split; [constructor|]. split; [apply only_db_refl|]. intros all [= <-]. done. }
    pose proof (store_open_vms (un_open o).1.1 (un_open o).1.2 (un_open o).2 (nf_subnet config') db) as Hv.
    destruct (store_open _ _ _ _ db) as [db' r]. simpl in Hv |- *.
    assert (Ho : only_db h0 (set_nh_db (Some db') h0)) by by eexists.
    destruct r as [[]|e]; simpl; (split; [by repeat constructor|]); (split; [done|]); [|done].
    intros all. unfold store_load. destruct (un_load o); [done|]. rewrite Hv, Hl. by intros [= <-]. }
  2:{ intros e h [? _]. done. }
  intros all. apply (traced_weaken _ _ _ (fun h => only_db h0 h /\ all = rs) _ _ (fun r h => only_db h0 h /\ r <> Ok tt));
    [|intros h [? H]; split; [done|by apply H]|done].
  apply traced_pure. intros ->. apply (traced_bind _ _ _ _ (fun r h => only_db h0 h /\ forall h2, r = Ok h2 -> nh_host h2 = nh_host h0));
    [| |by intros e h [? _]].
  { intros h Hh. split; [constructor|]. split; [done|]. intros h2 [= <-]. unfold id in Hh. by destruct Hh as [db ->]. }
  intros h2. apply traced_lift. intros h [? H2]. split; [done|]. rewrite (H2 h2 eq_refl).
  rewrite fail_if_ok, negb_false_iff, bool_decide_eq_true. intros Hnil%fmap_nil_inv.
  apply existsb_exists in Hrun as (r & Hr & Hp). assert (In r (List.filter (still_running (nh_host h0)) rs)) as Hin by by apply filter_In.
  by rewrite Hnil in Hin.
Qed.
End order.


Definition ex_config : NodeFile := mkNodeFile "/run/cirro.sock" "cirro" "10.77.0.0/16" "cirro"
  (mkReleaseBinaries "/fc" "/jailer" "/vmlinux") (mkEdgeConfig None None None).
Definition ex_vm_info : VmInfo := mkVmInfo "web" (Some (ipv4_new 10 77 0 2)) 512 1 1000 None None.
Definition ex_records : Db :=
  (insert_running None ex_vm_info "/log/1" (mkProcessId 77 123)
    (store_open None None None "10.77.0.0/16" (mkDb None None ∅ ∅ ∅)).1).1.
Definition ex_node_host : NodeHost := mkNodeHost {["cirro"]} true (Some (Some ex_config)) (Some ex_records) ∅ ∅ ∅ ∅
  (mkFirewalls ∅ ∅ ∅) (Some no_table) (mkForwarding "1" (Some "0"))
  (mkHost {["cirro-0002" := []]} {["cirro-0002"]} ∅ {[cgroup_of "cirro-0002" := {[77%N]}]} {[77%N := 123%N]} ∅ false).
Definition ex_uninstall : UninstallOutcome :=
  mkUninstallOutcome None (None, None, None) None None (None, None, None) None (undo_ok 0) None NftOk no_forward_faults None.
Definition no_answers (program : string) (args : list string) : fault := None.

(** ** What a run that succeeds does *)

Definition does {A} (m : nodeM A) (R : NodeHost -> A -> NodeHost -> Prop) : Prop :=
  forall h, let '(_, h', r) := m h in match r with Ok a => R h a h' | Err _ => True end.
Lemma does_bind {A B} (m : nodeM A) R (k : A -> nodeM B) (S : A -> NodeHost -> B -> NodeHost -> Prop) :
  does m R -> (forall a, does (k a) (S a)) -> does (m ≫= k) (fun h b h' => exists a h1, R h a h1 /\ S a h1 b h').
Proof.
  intros Hm Hk h. specialize (Hm h). unfold mbind, trace_bind. destruct (m h) as [[t h1] [a|e]]; [|done].
  specialize (Hk a h1). destruct (k a h1) as [[t' h2] [b|e]]; [|done]. eauto.
Qed.
Lemma does_ret {A} (a : A) : does (mret a) (fun h b h' => b = a /\ h' = h).
Proof. by intros h. Qed.
Lemma does_lift {A} (r : result string A) : does (lift r) (fun h a h' => r = Ok a /\ h' = h).
Proof. intros h. unfold lift. by destruct r. Qed.
Lemma does_get : does node_get (fun h a h' => a = h /\ h' = h).
Proof. by intros h. Qed.
Lemma does_step g : does (node_step g) (fun h _ h' => h' = g h).
Proof. by intros h. Qed.
Lemma does_weaken {A} (m : nodeM A) (R R' : NodeHost -> A -> NodeHost -> Prop) :
  does m R -> (forall h a h', R h a h' -> R' h a h') -> does m R'.
Proof. intros Hm H h. specialize (Hm h). destruct (m h) as [[t h'] [a|e]]; auto. Qed.
Lemma does_run answers program args : does (run answers program args) (fun h _ h' => h' = command_effect program args h).
Proof.
  eapply does_weaken; [apply does_bind; [apply does_lift|intros; apply does_step]|]. simpl. by intros h a h' (? & ? & [_ ->] & ->).
Qed.
Lemma does_run_each answers commands :
  does (run_each answers commands) (fun h _ h' => h' = foldl (fun h c => command_effect c.1 c.2 h) h commands).
Proof.
  induction commands as [|[program args] rest IH]; [by intros h|].
  eapply does_weaken; [apply does_bind; [apply does_run|intros; apply IH]|]. simpl. by intros h a h' (? & ? & -> & ->).
Qed.

(** Commands that don't fail. *)
Definition all_work (answers : string -> list string -> fault) : Prop := forall program args, answers program args = None.
Lemma run_works answers program args h :
  all_work answers -> run answers program args h = ([command_effect program args h], command_effect program args h, Ok tt).
Proof. intros Ha. unfold run, mbind, trace_bind, lift. by rewrite Ha. Qed.
Lemma does_ignored_run answers program args :
  all_work answers -> does (ignored (run answers program args)) (fun h _ h' => h' = command_effect program args h).
Proof. intros Ha h. unfold ignored. by rewrite run_works. Qed.
Lemma does_ignore_each answers commands :
  all_work answers ->
  does (ignore_each answers commands) (fun h _ h' => h' = foldl (fun h c => command_effect c.1 c.2 h) h commands).
Proof.
  intros Ha. induction commands as [|[program args] rest IH]; [by intros h|].
  eapply does_weaken; [apply does_bind; [by apply does_ignored_run|intros; apply IH]|]. simpl. by intros h a h' (? & ? & -> & ->).
Qed.

(** The firewall commands change the firewalls alone, and removing a rule
    undoes adding it. *)
Section firewalls.
Context (succeeds : string -> string -> bool) (subnet : string).
Definition firewall_rules (allow : bool) (f : Firewalls) : Firewalls :=
  foldl (fun f c => firewall_effect c.1 c.2 f) f (host_firewall_commands succeeds subnet allow).
Lemma firewall_commands_effect allow h :
  foldl (fun h c => command_effect c.1 c.2 h) h (host_firewall_commands succeeds subnet allow)
    = set_nh_firewalls (firewall_rules allow (nh_firewalls h)) h.
Proof.
  unfold firewall_rules, host_firewall_commands.
  destruct (succeeds "ufw" "version"), (succeeds "firewall-cmd" "--state"), (succeeds "firewall-offline-cmd" "--version"), h; reflexivity.
Qed.
Definition no_rules (f : Firewalls) : Prop := (subnet ∉ fi_ufw f) /\ (subnet ∉ fi_runtime f) /\ (subnet ∉ fi_permanent f).
Lemma ufw_rule_effect (allow : bool) (f : Firewalls) : firewall_effect "ufw" (ufw_route_rule subnet allow) f =
  mkFirewalls (if allow then {[subnet]} ∪ fi_ufw f else fi_ufw f ∖ {[subnet]}) (fi_runtime f) (fi_permanent f).
Proof. by destruct allow. Qed.
Lemma source_rule_effect (allow : bool) (s : gset string) :
  source_rule ("--" +:+ (if allow then "add" else "remove") +:+ "-source=" +:+ subnet) s =
    if allow then {[subnet]} ∪ s else s ∖ {[subnet]}.
Proof. by destruct allow. Qed.
Lemma runtime_rule_effect source f : firewall_effect "firewall-cmd" ["--zone=trusted"; source] f =
  mkFirewalls (fi_ufw f) (source_rule source (fi_runtime f)) (fi_permanent f).
Proof. reflexivity. Qed.
Lemma permanent_rule_effect source f : firewall_effect "firewall-cmd" ["--permanent"; "--zone=trusted"; source] f =
  mkFirewalls (fi_ufw f) (fi_runtime f) (source_rule source (fi_permanent f)).
Proof. reflexivity. Qed.
Lemma offline_rule_effect source f : firewall_effect "firewall-offline-cmd" ["--zone=trusted"; source] f =
  mkFirewalls (fi_ufw f) (fi_runtime f) (source_rule source (fi_permanent f)).
Proof. reflexivity. Qed.
Lemma firewall_rules_undone f : no_rules f -> firewall_rules false (firewall_rules true f) = f.
Proof.
  intros (H1 & H2 & H3). assert (Hs : forall s : gset string, (subnet ∉ s) -> ({[subnet]} ∪ s) ∖ {[subnet]} = s) by set_solver.
  destruct f as [ufw runtime permanent]. simpl in H1, H2, H3. unfold firewall_rules, host_firewall_commands. cbv zeta.
  pose proof (source_rule_effect true) as Ha. pose proof (source_rule_effect false) as Hr. cbn [negb] in Ha, Hr.
  destruct (succeeds "ufw" "version"), (succeeds "firewall-cmd" "--state"), (succeeds "firewall-offline-cmd" "--version");
    cbn [app foldl fst snd];
    rewrite ?offline_rule_effect, ?permanent_rule_effect, ?runtime_rule_effect, ?ufw_rule_effect;
    cbn [fi_ufw fi_runtime fi_permanent]; rewrite ?offline_rule_effect, ?permanent_rule_effect, ?runtime_rule_effect;
    cbn [fi_ufw fi_runtime fi_permanent]; rewrite ?Ha, ?Hr, ?Hs by done; done.
Qed.
End firewalls.

(** ** Uninstalling undoes installing *)

(** What an install that succeeded did. *)
Definition node_file (cfg : InstallConfig) (release : ReleaseBinaries) : NodeFile :=
  mkNodeFile (ic_socket cfg) (ic_group cfg) (subnet_display (ic_subnet cfg)) (ic_unit_name cfg) release (ic_edge cfg).
Record installed (succeeds : string -> string -> bool) (exe : result string string) (cfg : InstallConfig) (h h' : NodeHost)
    : Prop := {
  in_groups : nh_groups h' = {[ic_group cfg]} ∪ nh_groups h;
  in_files : exists release cirro_bin, exe = Ok cirro_bin /\
    (forall r, ic_release_override cfg = Some r -> release = r) /\
    nh_config h' = Some (Some (node_file cfg release)) /\
    nh_units h' = <[unit_path (ic_unit_name cfg) := unit_text cirro_bin (ic_state_dir cfg) (node_file cfg release)]> (nh_units h);
  in_enabled : nh_enabled h' = {[ic_unit_name cfg +:+ ".service"]} ∪ nh_enabled h;
  in_active : nh_active h' = {[ic_unit_name cfg +:+ ".service"]} ∪ nh_active h;
  in_firewalls : nh_firewalls h' = firewall_rules succeeds (subnet_display (ic_subnet cfg)) true (nh_firewalls h);
  in_rest : (nh_db h', nh_table h', nh_forward h', nh_host h') = (nh_db h, nh_table h, nh_forward h, nh_host h);
}.
Lemma does_set_group answers f name verb (want : bool) :
  verb = (if want then "groupadd" else "groupdel") ->
  does (set_group_existence answers f name want verb)
    (fun h _ h' => h' = set_nh_groups (if want then {[name]} ∪ nh_groups h else nh_groups h ∖ {[name]}) h).
Proof.
  intros ->. unfold set_group_existence.
  eapply does_weaken; [apply does_bind; [apply does_lift|intros; apply does_bind; [apply does_get|]]|].
  { intros h0. instantiate (1 := fun h0 h _ h' => h' = if Bool.eqb (bool_decide (name ∈ nh_groups h0)) want then h
      else command_effect (if want then "groupadd" else "groupdel") [name] h). simpl.
    destruct (Bool.eqb _ _); [by intros h|apply does_run]. }
  intros h u h' (? & ? & [_ ->] & h0 & ? & [-> ->] & ->).
  assert (Hid : forall g, g = nh_groups h -> h = set_nh_groups g h) by (intros g ->; by destruct h).
  destruct (bool_decide_reflect (name ∈ nh_groups h)), want; simpl.
  - apply Hid. set_solver.
  - unfold command_effect. simpl. f_equal. set_solver.
  - unfold command_effect. simpl. f_equal. set_solver.
  - apply Hid. set_solver.
Qed.
Lemma does_write_node_config f1 f2 config :
  does (write_node_config f1 f2 config) (fun h _ h' => h' = set_nh_config (Some (Some config)) h).
Proof.
  intros h. unfold write_node_config, mbind, trace_bind, lift, node_step. destruct f1; [done|]. simpl. by destruct f2.
Qed.
Lemma does_install_unit answers exe f config state_dir :
  does (install_unit answers exe f config state_dir) (fun h _ h' => exists cirro_bin, exe = Ok cirro_bin /\
    h' = set_nh_services ({[nf_unit_name config +:+ ".service"]} ∪ nh_enabled h) ({[nf_unit_name config +:+ ".service"]} ∪ nh_active h)
           (set_nh_units (<[unit_path (nf_unit_name config) := unit_text cirro_bin state_dir config]> (nh_units h)) h)).
Proof.
  unfold install_unit. eapply does_weaken.
  { apply does_bind; [apply does_lift|intros; apply does_bind; [apply does_lift|intros]].
    apply does_bind; [apply does_step|intros; apply does_bind; [apply does_run|intros; apply does_run]]. }
  intros h u h' (bin & ? & [-> ->] & ? & ? & [_ ->] & ? & ? & -> & ? & ? & -> & ->). by exists bin.
Qed.
Lemma does_zoom_release {A} (m : binM A) :
  does (zoom nh_release set_nh_release m) (fun h _ h' => exists d, h' = set_nh_release d h).
Proof. intros h. unfold zoom. destruct (m (nh_release h)) as [[t d] [a|e]]; [by eexists|done]. Qed.
Lemma does_install answers succeeds sha256 member o cfg :
  does (install answers succeeds sha256 member o cfg) (fun h _ h' => installed succeeds (io_exe o) cfg h h').
Proof.
  unfold install. eapply does_weaken.
  { apply does_bind; [apply does_lift|intros; apply does_bind; [apply does_lift|intros]].
    apply does_bind; [apply does_step|intros; apply does_bind; [|intros]].
    { instantiate (1 := fun h rel h' => (exists d, h' = set_nh_release d h) /\ forall r, ic_release_override cfg = Some r -> rel = r).
      destruct (ic_release_override cfg).
      - intros h. split; [exists (nh_release h); by destruct h|by intros r' [= <-]].
      - eapply does_weaken; [apply does_bind; [apply does_lift|intros; apply does_zoom_release]|].
        intros h rel h' (? & ? & [_ ->] & d & ->). split; [by exists d|done]. }
    apply does_bind; [by apply does_set_group|intros; apply does_bind; [apply does_write_node_config|intros]].
    apply does_bind; [apply does_run_each|intros; apply does_install_unit]. }
  intros h u h' (? & ? & [_ ->] & ? & ? & [_ ->] & ? & ? & -> & release & ? & [(d & ->) Hrel] & ? & ? & -> & ? & ? & -> & ? & ? & -> & bin & Hbin & ->).
  rewrite firewall_commands_effect. split; simpl; try done. by exists release, bin.
Qed.

(** What an uninstall that met no fault did; [v] is what [ip_forward] was. *)
Record uninstalled (succeeds : string -> string -> bool) (config : NodeFile) (v : string) (h h' : NodeHost) : Prop := {
  un_groups : nh_groups h' = nh_groups h ∖ {[nf_group config]};
  un_units : nh_units h' = delete (unit_path (nf_unit_name config)) (nh_units h);
  un_enabled : nh_enabled h' = nh_enabled h ∖ {[nf_unit_name config +:+ ".service"]};
  un_active : nh_active h' = nh_active h ∖ {[nf_unit_name config +:+ ".service"]};
  un_firewalls : nh_firewalls h' = firewall_rules succeeds (nf_subnet config) false (nh_firewalls h);
  un_rest : (nh_dir h', nh_config h', nh_db h', nh_table h', nh_forward h') = (false, None, None, None, mkForwarding v None);
}.
Lemma does_ignored {A} (m : nodeM A) R :
  does m R -> (forall h, is_ok (m h).2 = true) -> does (ignored m) (fun h _ h' => exists a, R h a h').
Proof. intros Hm Hok h. specialize (Hm h). specialize (Hok h). unfold ignored. destruct (m h) as [[t h'] [a|e]]; [by exists a|done]. Qed.
Lemma stop_effect service h :
  command_effect "systemctl" ["stop"; service] h = set_nh_services (nh_enabled h) (nh_active h ∖ {[service]}) h.
Proof. reflexivity. Qed.
Lemma disable_effect service h :
  command_effect "systemctl" ["disable"; service] h = set_nh_services (nh_enabled h ∖ {[service]}) (nh_active h) h.
Proof. reflexivity. Qed.
Lemma reload_effect h : command_effect "systemctl" ["daemon-reload"] h = h.
Proof. reflexivity. Qed.
Lemma does_remove_unit answers f unit_name :
  all_work answers ->
  does (remove_unit answers f unit_name) (fun h _ h' => h' = set_nh_units (delete (unit_path unit_name) (nh_units h))
    (set_nh_services (nh_enabled h ∖ {[unit_name +:+ ".service"]}) (nh_active h ∖ {[unit_name +:+ ".service"]}) h)).
Proof.
  intros Ha h. unfold remove_unit, ignored, mbind, trace_bind, node_get. rewrite !run_works by done.
  rewrite stop_effect, disable_effect. simpl. destruct (nh_units h !! unit_path unit_name) as [text|] eqn:Hu.
  - destruct f; [done|]. unfold lift; simpl. rewrite run_works by done. by rewrite reload_effect.
  - simpl. rewrite run_works, reload_effect by done. rewrite delete_id by done. by destruct h.
Qed.
Definition only_vms (h h' : NodeHost) : Prop := exists db vms, h' = set_nh_host vms (set_nh_db db h).
Lemma only_vms_refl h : only_vms h h.
Proof. exists (nh_db h), (nh_host h). by destruct h. Qed.
Lemma only_vms_trans h1 h2 h3 : only_vms h1 h2 -> only_vms h2 h3 -> only_vms h1 h3.
Proof. intros (d & v & ->) (d' & v' & ->). by exists d', v'. Qed.
Lemma does_records f f_load subnet : does (records f f_load subnet) (fun h _ h' => only_vms h h').
Proof.
  intros h. unfold records, mbind, trace_bind, node_get, node_step, lift; simpl.
  destruct (nh_db h) as [db|]; [|apply only_vms_refl]. destruct (store_open _ _ _ _ db) as [db' [[]|e]]; simpl; [|done].
  destruct (store_load f_load db'); [|done]. exists (Some db'), (nh_host h). by destruct h.
Qed.
Lemma does_clean_up_each u node rs : does (clean_up_each u node rs) (fun h _ h' => only_vms h h').
Proof.
  induction rs as [|r rs IH]; [intros h; apply only_vms_refl|]. simpl.
  eapply does_weaken; [apply does_bind; [|intros; apply IH]|].
  - instantiate (1 := fun h _ h' => only_vms h h'). destruct (vi_vm_address (rec_info r)); [|intros h; apply only_vms_refl].
    intros h. unfold node_step. exists (nh_db h). eexists. by destruct h.
  - intros h a h' (? & h1 & H1 & H2). by eapply only_vms_trans.
Qed.
Lemma does_refuse o subnet : does (refuse_if_vms_running o subnet) (fun h _ h' => only_vms h h').
Proof.
  unfold refuse_if_vms_running. eapply does_weaken.
  { apply does_bind; [apply does_records|intros; apply does_bind; [apply does_get|intros; apply does_lift]]. }
  by intros h u h' (? & ? & H & ? & ? & [-> ->] & _ & ->).
Qed.
Lemma does_clean_up_vms text o state_dir config : does (clean_up_vms text o state_dir config) (fun h _ h' => only_vms h h').
Proof.
  unfold clean_up_vms. eapply does_weaken.
  { apply does_bind; [apply does_lift|intros; apply does_bind; [apply does_records|intros; apply does_clean_up_each]]. }
  intros h u h' (? & ? & [_ ->] & ? & ? & H1 & H2). by eapply only_vms_trans.
Qed.
Lemma does_restore v o :
  is_switch v -> does (zoom nh_forward set_nh_forward (restore_ip_forward o))
    (fun h _ h' => recorded v (nh_forward h) -> h' = set_nh_forward (mkForwarding v None) h).
Proof.
  intros Hv h. unfold zoom. destruct (restore_ip_forward o (nh_forward h)) as [[t s] [[]|e]] eqn:E; [|done].
  intros Hr. f_equal. by apply (restore_recorded v o (nh_forward h) t s).
Qed.
Lemma does_ignored_group answers name :
  all_work answers ->
  does (ignored (remove_group answers None name)) (fun h _ h' => h' = set_nh_groups (nh_groups h ∖ {[name]}) h).
Proof.
  intros Ha. eapply does_weaken; [apply does_ignored; [by apply does_set_group|]|].
  - intros h. unfold remove_group, set_group_existence, mbind, trace_bind, lift, node_get; simpl.
    destruct (Bool.eqb _ _); [done|]. by rewrite run_works.
  - by intros h u h' (? & ->).
Qed.
Lemma does_uninstall answers succeeds text u state_dir force config v :
  all_work answers -> un_group u = None -> un_policy u = NftOk -> is_switch v ->
  does (uninstall answers succeeds text u state_dir force) (fun h _ h' =>
    nh_config h = Some (Some config) -> recorded v (nh_forward h) -> uninstalled succeeds config v h h').
Proof.
  intros Ha Hg Hp Hv. unfold uninstall. eapply does_weaken.
  { apply does_bind; [apply does_get|intros h0; apply does_bind; [apply does_lift|intros config']].
    apply does_bind; [|intros; apply does_bind; [by apply does_remove_unit|intros]].
    { instantiate (1 := fun h _ h' => only_vms h h'). destruct force; [intros h; apply only_vms_refl|apply does_refuse]. }
    apply does_bind; [apply does_clean_up_vms|intros; rewrite Hg].
    apply does_bind; [by apply does_ignored_group|intros].
    apply does_bind; [by apply does_ignore_each|intros].
    apply does_bind; [|intros; apply does_bind; [by apply (does_restore v)|intros]].
    { instantiate (1 := fun h _ h' => h' = set_nh_table None h). intros h. unfold ignored, remove_policy, remove_node_policy.
      by rewrite Hp. }
    apply does_bind; [apply does_lift|intros; apply does_step]. }
  intros h [] h' (h0 & ? & [-> ->] & config' & ? & [Hc ->] & ? & ? & (d1 & v1 & ->) & ? & ? & -> & ? & ? & (d2 & v2 & ->)
    & ? & ? & -> & ? & ? & -> & ? & ? & -> & ? & ? & Hf & ? & ? & [_ ->] & ->) Hcfg Hrec.
  assert (config' = config) as ->.
  { revert Hc. unfold read_node_config. rewrite Hcfg. destruct (un_read u); [done|]. by intros [= <-]. }
  rewrite firewall_commands_effect in *. rewrite Hf by exact Hrec. by split.
Qed.

(** ** An uninstall that meets no fault succeeds *)

Lemma succ_does {A} (m : nodeM A) R h a h' : does m R -> succ m h a h' -> R h a h'.
Proof. intros Hd [t E]. specialize (Hd h). by rewrite E in Hd. Qed.

Definition clean_uninstall (u : UndoOutcome) : UninstallOutcome :=
  mkUninstallOutcome None (None, None, None) None None (None, None, None) None u None NftOk no_forward_faults None.
(** A database an agent of the Node made, or none. *)
Definition db_fits (subnet : string) (db : option Db) : Prop :=
  match db with
  | None => True
  | Some db => (db_node db = None \/ db_node db = Some subnet) /\ is_Some (collect_rows (entries_of (db_vms db)))
  end.
Lemma store_open_fits subnet db :
  db_fits subnet (Some db) ->
  exists db', store_open None None None subnet db = (db', Ok tt) /\ db_vms db' = db_vms db /\ db_fits subnet (Some db').
Proof.
  intros [Hn Hl]. pose proof (store_open_vms None None None subnet db) as Hv. revert Hv. unfold store_open.
  assert (Hnode : db_node (add_missing_columns (create_tables db)) = db_node db).
  { unfold add_missing_columns, create_tables. destruct (db_columns db) eqn:E; simpl; rewrite ?E.
    - by destruct (missing_columns l).
    - by destruct (missing_columns VMS_COLUMNS). }
  rewrite Hnode. destruct Hn as [Hn|Hn]; rewrite Hn.
  - simpl. intros Hv. eexists. split; [done|]. split; [done|]. simpl. split; [by right|]. simpl in Hv. by rewrite Hv.
  - rewrite decide_True by done. simpl. intros Hv. eexists. split; [done|]. split; [done|]. rewrite Hv. split; [|done].
    right. congruence.
Qed.
Lemma records_succ subnet h :
  db_fits subnet (nh_db h) ->
  exists db rs, succ (records (None, None, None) None subnet) h rs (set_nh_db db h) /\ db_fits subnet db /\ loaded (nh_db h) rs.
Proof.
  intros Hf. unfold succ, records, mbind, trace_bind, node_get, node_step, lift; cbn [fst snd]. destruct (nh_db h) as [db|] eqn:Hdb.
  2:{ exists None, []. split; [|done]. eexists. rewrite <-Hdb. by destruct h. }
  destruct (store_open_fits subnet db Hf) as (db' & -> & Hv & Hf'). destruct Hf as [_ [rs Hrs]].
  exists (Some db'), rs. split; [|done]. unfold store_load. simpl. rewrite Hv, Hrs. by eexists.
Qed.
Lemma clean_up_each_succ u node rs h : exists vms, succ (clean_up_each u node rs) h tt (set_nh_host vms h).
Proof.
  revert h. induction rs as [|r rs IH]; intros h; simpl.
  { exists (nh_host h). eexists. by destruct h. }
  destruct (vi_vm_address (rec_info r)) as [x|].
  - destruct (IH (set_nh_host (clean_up u node x (nh_host h)) h)) as (vms & Hs). exists vms.
    eapply succ_bind; [by eexists|exact Hs].
  - destruct (IH h) as (vms & Hs). exists vms. eapply succ_bind; [by eexists|exact Hs].
Qed.
Lemma ignored_succ {A} (m : nodeM A) h : exists h', succ (ignored m) h tt h'.
Proof. unfold succ, ignored. destruct (m h) as [[t h'] r]. eauto. Qed.
Lemma restore_succ h : exists h', succ (zoom nh_forward set_nh_forward (restore_ip_forward no_forward_faults)) h tt h'.
Proof.
  unfold succ, zoom, restore_ip_forward, mbind, trace_bind, fw_get, lift; simpl. destruct (fw_record (nh_forward h)); simpl; eauto.
Qed.
Lemma uninstall_succ answers succeeds text u state_dir force config subnet h :
  all_work answers -> nh_config h = Some (Some config) -> subnet_from_str (nf_subnet config) = Ok subnet ->
  db_fits (nf_subnet config) (nh_db h) ->
  force = true \/ (forall rs, loaded (nh_db h) rs -> existsb (still_running (nh_host h)) rs = false) ->
  exists h', succ (uninstall answers succeeds text (clean_uninstall u) state_dir force) h tt h'.
Proof.
  intros Ha Hcfg Hsub Hdb Hforce.
  assert (H1 : exists db, succ (if force then mret tt else refuse_if_vms_running (clean_uninstall u) (nf_subnet config)) h tt (set_nh_db db h)
    /\ db_fits (nf_subnet config) db).
  { destruct force; [exists (nh_db h); split; [|done]; eexists; by destruct h|]. destruct Hforce as [?|Hrun]; [done|].
    destruct (records_succ (nf_subnet config) h Hdb) as (db & rs & Hs & Hf & Hl). exists db. split; [|done].
    eapply succ_bind; [exact Hs|]. eapply succ_bind; [by eexists|]. simpl. unfold succ, lift.
    specialize (Hrun rs Hl). assert (List.filter (still_running (nh_host h)) rs = []) as ->; [|by eexists].
    destruct (List.filter _ rs) as [|r l] eqn:E; [done|]. assert (Hin : In r (r :: l)) by by left. rewrite <-E in Hin.
    apply filter_In in Hin as [Hin Hr]. assert (existsb (still_running (nh_host h)) rs = true); [|congruence].
    apply existsb_exists. eauto. }
  destruct H1 as (db & H1 & Hf).
  destruct (succ_any (remove_unit answers None (nf_unit_name config)) (set_nh_db db h)) as ([] & h2 & H2).
  { unfold remove_unit, ignored, mbind, trace_bind, node_get. rewrite !run_works by done.
    destruct (nh_units _ !! _); simpl; by rewrite run_works. }
  pose proof (succ_does _ _ _ _ _ (does_remove_unit answers None (nf_unit_name config) Ha) H2) as E2. simpl in E2.
  assert (Hf2 : db_fits (nf_subnet config) (nh_db h2)) by by rewrite E2.
  destruct (records_succ _ h2 Hf2) as (db3 & rs & H3 & _ & _).
  destruct (clean_up_each_succ u (vms_node state_dir config subnet) rs (set_nh_db db3 h2)) as (vms & H4).
  destruct (ignored_succ (remove_group answers None (nf_group config)) (set_nh_host vms (set_nh_db db3 h2))) as [h5 H5].
  assert (H6 : forall commands h, exists h', succ (ignore_each answers commands) h tt h').
  { induction commands as [|[program args] rest IH]; intros h'; simpl; [by do 2 eexists|].
    destruct (ignored_succ (run answers program args) h') as [h1 Hs]. destruct (IH h1) as [h'' Hs']. exists h''.
    by eapply succ_bind. }
  destruct (H6 (host_firewall_commands succeeds (nf_subnet config) false) h5) as [h6 H6'].
  destruct (ignored_succ (remove_policy NftOk) h6) as [h7 H7]. destruct (restore_succ h7) as [h8 H8].
  exists (remove_state_dir state_dir h8). unfold uninstall.
  eapply succ_bind; [by eexists|]. eapply succ_bind; [unfold read_node_config; rewrite Hcfg; by eexists|].
  eapply succ_bind; [exact H1|]. eapply succ_bind; [exact H2|]. eapply succ_bind.
  { unfold clean_up_vms. rewrite Hsub. eapply succ_bind; [by eexists|]. eapply succ_bind; [exact H3|]. exact H4. }
  eapply succ_bind; [exact H5|]. eapply succ_bind; [exact H6'|]. eapply succ_bind; [exact H7|].
  eapply succ_bind; [exact H8|]. eapply succ_bind; by eexists.
Qed.

(** A Node nothing of which is installed, and what an agent changes while it
    runs: its database, its VMs, the egress table and [ip_forward], which it
    recorded. *)
Record fresh_node (cfg : InstallConfig) (v : string) (h : NodeHost) : Prop := {
  fn_group : ic_group cfg ∉ nh_groups h;
  fn_unit : nh_units h !! unit_path (ic_unit_name cfg) = None;
  fn_enabled : (ic_unit_name cfg +:+ ".service") ∉ nh_enabled h;
  fn_active : (ic_unit_name cfg +:+ ".service") ∉ nh_active h;
  fn_rules : no_rules (subnet_display (ic_subnet cfg)) (nh_firewalls h);
  fn_rest : (nh_dir h, nh_config h, nh_db h, nh_table h, nh_forward h) = (false, None, None, None, mkForwarding v None);
}.
Record agent_ran (subnet v : string) (h h' : NodeHost) : Prop := {
  ar_same : (nh_groups h', nh_config h', nh_units h', nh_enabled h', nh_active h', nh_firewalls h')
    = (nh_groups h, nh_config h, nh_units h, nh_enabled h, nh_active h, nh_firewalls h);
  ar_forward : recorded v (nh_forward h');
  ar_db : db_fits subnet (nh_db h');
}.
(** Everything but the VMs' own objects on the host and the downloads. *)
Definition node_setup (h : NodeHost) :=
  (nh_groups h, nh_units h, nh_enabled h, nh_active h, nh_firewalls h,
   (nh_dir h, nh_config h, nh_db h, nh_table h, nh_forward h)).

(** C37: Uninstalling undoes installing, where both go well. On a Node that had
    none of it, not even the group (one that was there is deleted,
    [uninstall_removes_older_group]), whose [ip_forward] was 0 or 1; after an
    install that succeeded, on whichever host firewalls it has; whatever the
    agent then did to its database, its VMs and the egress table, with what
    [ip_forward] was on record in whole if it was changed
    ([Egress.ip_forward_record_cut_short] is where it isn't); and with every
    command working and no other step failing: an uninstall, forced or with no
    VM running, succeeds, and leaves the groups, the units and services, the
    host firewalls' rules, the egress table and [ip_forward] as they were
    before the install, and no state dir. What it does to the VMs' own objects
    on the host is [uninstall_leaves_no_vm_free]. *)
Theorem uninstall_undoes_install answers succeeds text sha256 member (o : InstallOutcome) (cfg : InstallConfig) (u : UndoOutcome)
    (force : bool) (v : string) (h0 h1 h2 : NodeHost) t1 :
  is_switch v -> subnet_wf (ic_subnet cfg) -> fresh_node cfg v h0 -> all_work answers ->
  install answers succeeds sha256 member o cfg h0 = (t1, h1, Ok tt) ->
  agent_ran (subnet_display (ic_subnet cfg)) v h1 h2 ->
  force = true \/ (forall rs, loaded (nh_db h2) rs -> existsb (still_running (nh_host h2)) rs = false) ->
  exists states h3, uninstall answers succeeds text (clean_uninstall u) (ic_state_dir cfg) force h2 = (states, h3, Ok tt) /\
    node_setup h3 = node_setup h0.
Proof.
  intros Hv Hwf [Hg Hu He Ha Hr Hrest] Hwork Hinst [Hsame Hfw Hdb] Hforce.
  destruct (succ_does _ _ h0 tt h1 (does_install answers succeeds sha256 member o cfg) (ex_intro _ t1 Hinst))
    as [I1 (release & bin & _ & _ & I2 & I3) I4 I5 I6 I7].
  injection Hsame as S1 S2 S3 S4 S5 S6. set (config := node_file cfg release) in I2.
  assert (Hcfg : nh_config h2 = Some (Some config)) by congruence.
  destruct (uninstall_succ answers succeeds text u (ic_state_dir cfg) force config (ic_subnet cfg) h2) as [h3 Hs]; try done.
  { by apply subnet_from_str_display. }
  destruct (succ_does _ _ _ _ _ (does_uninstall answers succeeds text (clean_uninstall u) (ic_state_dir cfg) force config v
    Hwork eq_refl eq_refl Hv) Hs Hcfg Hfw) as [U1 U2 U3 U4 U5 U6].
  destruct Hs as [states Hs]. exists states, h3. split; [done|]. unfold node_setup. rewrite U1, U2, U3, U4, U5, U6, Hrest.
  rewrite S1, S3, S4, S5, S6, I1, I3, I4, I5, I6. simpl. rewrite firewall_rules_undone by done.
  rewrite delete_insert_id by done.
  assert (Hset : forall x (s : gset string), (x ∉ s) -> ({[x]} ∪ s) ∖ {[x]} = s) by set_solver.
  by rewrite !Hset.
Qed.

Definition ex_install_config : InstallConfig := mkInstallConfig "/s" "/run/cirro.sock" "cirro" (mkSubnet (ipv4_new 10 77 0 0) 16) "cirro"
  (Some (mkReleaseBinaries "/fc" "/jailer" "/vmlinux")) (mkEdgeConfig None None None).
Definition ex_install : InstallOutcome :=
  mkInstallOutcome true (Some "cgroup2fs") None None toy_fetch None None None (Ok "/usr/bin/cirro") None.
Definition ex_before (groups : gset string) : NodeHost := mkNodeHost groups false None None ∅ ∅ ∅ ∅ (mkFirewalls ∅ ∅ ∅) None
  (mkForwarding "0" None) (mkHost ∅ ∅ ∅ ∅ ∅ ∅ false).
Definition ex_installed (groups : gset string) : list NodeHost * NodeHost * result string unit :=
  install no_answers (fun _ _ => true) toy_sha256 toy_member ex_install ex_install_config (ex_before groups).
Lemma uninstall_undoes_install_witness :
  exists states h3,
    uninstall no_answers (fun _ _ => true) (fun _ => "") (clean_uninstall (undo_ok 0)) "/s" false (ex_installed {["sudo"]}).1.2
      = (states, h3, Ok tt) /\ node_setup h3 = node_setup (ex_before {["sudo"]}).
Proof.
  assert (Hr : (ex_installed {["sudo"]}).2 = Ok tt) by (vm_compute; reflexivity).
  assert (Hdb : nh_db (ex_installed {["sudo"]}).1.2 = None) by (vm_compute; reflexivity).
  assert (Hfw : nh_forward (ex_installed {["sudo"]}).1.2 = mkForwarding "0" None) by (vm_compute; reflexivity).
  unfold ex_installed in *. destruct (install _ _ _ _ _ _ _) as [[t1 h1] r] eqn:E. simpl in Hr, Hdb, Hfw |- *. subst r.
  apply (uninstall_undoes_install no_answers (fun _ _ => true) (fun _ => "") toy_sha256 toy_member ex_install ex_install_config
    (undo_ok 0) false "0" (ex_before {["sudo"]}) h1 h1 t1).
  - by left.
  - split; [simpl; lia|by vm_compute|by vm_compute].
  - split; try done; simpl; try set_solver.
  - done.
  - exact E.
  - split; [done|by rewrite Hfw|by rewrite Hdb].
  - right. intros rs. rewrite Hdb. by intros ->.
Defined.

(** ** Where uninstalling does something else than it says

    It removes "everything install created", and with it a group of that name
    that was there before: [ensure_group] finds it and creates none,
    [remove_group] deletes it. *)
Theorem uninstall_removes_older_group :
  exists h3, (uninstall no_answers (fun _ _ => true) (fun _ => "") (clean_uninstall (undo_ok 0)) "/s" false
      (ex_installed {["cirro"; "sudo"]}).1.2).1.2 = h3 /\
    ("cirro" ∈ nh_groups (ex_before {["cirro"; "sudo"]})) /\ ("cirro" ∉ nh_groups h3).
Proof.
  eexists. split; [reflexivity|]. split; [simpl; set_solver|].
  apply (bool_decide_eq_false_1 _). vm_compute. reflexivity.
Qed.

(** A forced uninstall that can't clean a VM up goes on, and drops the egress
    policy with the VM still running. *)
Definition stuck_undo : UndoOutcome := mkUndoOutcome (fun _ => Some "busy") 0 (Some "permission denied").
Definition ex_stuck : UninstallOutcome :=
  mkUninstallOutcome None (None, None, None) None None (None, None, None) None stuck_undo None NftOk no_forward_faults None.
Theorem uninstall_frees_a_vm_it_could_not_clean_up :
  let '(_, h', r) := uninstall no_answers (fun _ _ => false) (fun _ => "") ex_stuck "/s" true ex_node_host in
  r = Ok tt /\ nh_table ex_node_host <> None /\ nh_table h' = None /\
  ho_procs (nh_host h') !! 77%N = Some 123%N /\ ho_netns (nh_host h') !! "cirro-0002" = Some [].
Proof. vm_compute. split_and!; done. Qed.

(** Its clean-up is for "Ended VMs too: one whose VMM died can still have its
    namespace, veth or cgroup", but the record of an ended VM has no VM
    address, and it skips those. *)
Definition ex_ended_host : NodeHost := set_nh_db (Some (mark_ended None "web" (mkEnded 2000 Crashed) ex_records).1)
  (set_nh_host (mkHost {["cirro-0002" := []]} {["cirro-0002"]} ∅ ∅ ∅ ∅ false) ex_node_host).
Theorem uninstall_skips_ended_vms :
  (uninstall no_answers (fun _ _ => false) (fun _ => "") ex_uninstall "/s" true ex_ended_host).2 = Ok tt /\
  ho_netns (nh_host (uninstall no_answers (fun _ _ => false) (fun _ => "") ex_uninstall "/s" true ex_ended_host).1.2)
    !! host_id (ipv4_new 10 77 0 2) = Some [].
Proof. split; vm_compute; reflexivity. Qed.
