(* ===== verification/Main.v ===== *)
(** * The program's entry ([main] of [crates/cirro/src/main.rs])

    The commands and their flags, which component each is handed to, and how
    a run ends. Splitting a command line is [clap]'s, and reading a unit
    systemd's: both are parameters. With them, the agent an installed unit
    starts is the one [install] was asked for. *)

From S2P Require Import Prelude RustStr Proto Subnet Store Validate Vm Machine Edge Agent Dashboard Cache Cli.
From S2P Require Import AgentRun Release Install InstallLaws.

(** ** Commands *)

Inductive ServerCommand := ServerInit.
Inductive DbCommand := DbRestore (app to : string).
(** Addresses to listen on are their text. *)
Inductive NodeCommand :=
| NodeInstall (state_dir group : string) (subnet : Subnet) (unit_name : string)
    (firecracker jailer kernel : option string) (http https acme_email : option string)
| NodeUninstall (state_dir : string) (force : bool)
| NodeJoin (token : string)
| NodeCaCommand
| NodeAgent (state_dir socket_group : string) (subnet : Subnet) (firecracker jailer kernel : string)
    (http https acme_email : option string) (acme_directory : string) (acme_root : option string).
Inductive Command :=
| CNode (c : NodeCommand)
| CServer (c : ServerCommand)
| CRun (args : RunArgs)
| CImage (c : ImageCommand)
| CMachine (c : MachineCommand)
| CPs (all : bool)
| CLogs (follow : bool) (name : string)
| CSsh (name : string)
| CStop (force : bool) (timeout : N) (name : string)
| CRm (name : string)
| CPark (name : string)
| CWake (name : string)
| CTop (once : bool)
| CBench (args : BenchArgs)
| CDb (c : DbCommand)
| COpenRootfs (uid gid : N) (path : string).

(** [command_path]: the names [clap] matched, joined. *)
Definition command_path (names : list string) : string := str_join " " ("cirro" :: names).
Definition command_names (c : Command) : list string :=
  match c with
  | CNode (NodeInstall _ _ _ _ _ _ _ _ _ _) => ["node"; "install"]
  | CNode (NodeUninstall _ _) => ["node"; "uninstall"]
  | CNode (NodeJoin _) => ["node"; "join"]
  | CNode NodeCaCommand => ["node"; "ca"]
  | CNode (NodeAgent _ _ _ _ _ _ _ _ _ _ _) => ["node"; "agent"]
  | CServer ServerInit => ["server"; "init"]
  | CRun _ => ["run"]
  | CImage (ImgPull _) => ["image"; "pull"]
  | CImage ImgLs => ["image"; "ls"]
  | CImage (ImgRm _) => ["image"; "rm"]
  | CMachine (MAdd _ _ _) => ["machine"; "add"]
  | CMachine MLs => ["machine"; "ls"]
  | CMachine (MRm _) => ["machine"; "rm"]
  | CMachine MKey => ["machine"; "key"]
  | CPs _ => ["ps"]
  | CLogs _ _ => ["logs"]
  | CSsh _ => ["ssh"]
  | CStop _ _ _ => ["stop"]
  | CRm _ => ["rm"]
  | CPark _ => ["park"]
  | CWake _ => ["wake"]
  | CTop _ => ["top"]
  | CBench _ => ["bench"]
  | CDb (DbRestore _ _) => ["db"; "restore"]
  | COpenRootfs _ _ _ => ["__open-rootfs"]
  end.

(** What [main] hands a command to: the helper that runs before there is a
    runtime, the agent, an installation, a client of the agent's socket, the
    image cache, or nothing yet. *)
Inductive Handed :=
| ToOpenRootfs (uid gid : N) (path : string)
| ToAgent (config : AgentRun.Config)
| ToInstall (config : InstallConfig)
| ToUninstall (state_dir : string) (force : bool)
| ToClient (socket : string) (c : Command)
| ToCache (c : ImageCommand)
| ToNothing (message : string).
Definition ACME_DIRECTORY : string := "https://acme-v02.api.letsencrypt.org/directory".
Definition hand (socket : string) (c : Command) : Handed :=
  match c with
  | COpenRootfs uid gid path => ToOpenRootfs uid gid path
  | CNode (NodeAgent state_dir socket_group subnet firecracker jailer kernel http https acme_email acme_directory acme_root) =>
      ToAgent (AgentRun.mkConfig state_dir socket socket_group subnet firecracker jailer kernel http https
        ((fun email => mkAcmeConfig acme_directory email acme_root) <$> acme_email))
  | CNode (NodeInstall state_dir group subnet unit_name firecracker jailer kernel http https acme_email) =>
      ToInstall (mkInstallConfig state_dir socket group subnet unit_name
        match firecracker, jailer, kernel with
        | Some firecracker, Some jailer, Some kernel => Some (mkReleaseBinaries firecracker jailer kernel)
        | _, _, _ => None
        end (mkEdgeConfig http https acme_email))
  | CNode (NodeUninstall state_dir force) => ToUninstall state_dir force
  | CImage c => ToCache c
  | CNode NodeCaCommand | CRun _ | CMachine _ | CPs _ | CLogs _ _ | CStop _ _ _ | CRm _ | CPark _ | CWake _ | CTop _
  | CBench _ => ToClient socket c
  | CNode (NodeJoin _) | CServer _ | CSsh _ | CDb _ =>
      ToNothing (command_path (command_names c) +:+ ": not yet implemented")
  end.
(** How a run's result is told. *)
Definition failed_as (handed : Handed) (e : string) : string :=
  match handed with
  | ToAgent _ => "node agent: " +:+ e
  | ToInstall _ => "node install: " +:+ e
  | ToUninstall _ _ => "node uninstall: " +:+ e
  | _ => e
  end.
Definition exit_code (handed : Handed) (r : result string unit) : N * list Out :=
  match handed, r with
  | ToNothing message, _ => (1%N, [Stderr ("cirro: " +:+ message +:+ nl)])
  | _, Ok _ => (0%N, [])
  | _, Err e => (1%N, [Stderr ("cirro: " +:+ failed_as handed e +:+ nl)])
  end.

(** ** The agent's flags *)

Abbreviation Opts := (list (string * string)).
Definition opt (opts : Opts) (k : string) : option string := snd <$> find_first (fun kv => bool_decide (kv.1 = k)) opts.
(** [node agent]'s declared flags: which are required, what the others are
    when left out, and which need which. *)
Definition AGENT_FLAGS : list string :=
  ["socket"; "state-dir"; "socket-group"; "subnet"; "firecracker"; "jailer"; "kernel"; "http"; "https"; "acme-email";
   "acme-directory"; "acme-root"].
Definition agent_flags (opts : Opts) : option Command :=
  state_dir ← opt opts "state-dir";
  firecracker ← opt opts "firecracker";
  jailer ← opt opts "jailer";
  kernel ← opt opts "kernel";
  subnet ← ok (subnet_from_str (default "10.77.0.0/24" (opt opts "subnet")));
  let requires k ks := negb (bool_decide (is_Some (opt opts k))) || forallb (fun k => bool_decide (is_Some (opt opts k))) ks in
  if requires "acme-email" ["https"; "http"] && requires "acme-directory" ["acme-email"] && requires "acme-root" ["acme-email"]
  then
    Some (CNode (NodeAgent state_dir (default "cirro" (opt opts "socket-group")) subnet firecracker jailer kernel
      (opt opts "http") (opt opts "https") (opt opts "acme-email") (default ACME_DIRECTORY (opt opts "acme-directory"))
      (opt opts "acme-root")))
  else None.

(** ** What a unit starts *)

(** The line a unit's [ExecStart=] is. *)
Definition exec_start (text : string) : option string :=
  head (omap (strip_prefix "ExecStart=") (str_split newline text)).
Section started.
Context (systemd_words : string -> list string).
Context (clap : list string -> option (list string * Opts)).
Definition started_by (text : string) : option Handed :=
  line ← exec_start text;
  match systemd_words line with
  | [] => None
  | _ :: args =>
      '(names, opts) ← clap args;
      if bool_decide (names = ["node"; "agent"]) then
        c ← agent_flags opts; Some (hand (default DEFAULT_SOCKET (opt opts "socket")) c)
      else None
  end.
End started.

(** ** Guarantees *)

(** A word with nothing in it that systemd or a shell would read: no space,
    quote, backslash, [%], [$] or [;]. *)
Definition plain_char (c : ascii) : bool :=
  let n := N_of_ascii c in
  (33 <=? n)%N && (n <? 127)%N && negb (bool_decide (n ∈ [34; 36; 37; 39; 59; 92]%N)).
Definition plain (w : string) : Prop := w <> "" /\ str_all plain_char w = true.
#[global] Instance plain_dec w : Decision (plain w) := _.
Definition value_like (w : string) : Prop := plain w /\ starts_with "-" w = false.

(** The words of the unit's command line. *)
Definition edge_opts (edge : EdgeConfig) : Opts :=
  option_list ((fun a => ("http", a)) <$> ec_http edge) ++ option_list ((fun a => ("https", a)) <$> ec_https edge)
  ++ option_list ((fun a => ("acme-email", a)) <$> ec_acme_email edge).
Definition unit_opts (state_dir : string) (config : NodeFile) : Opts :=
  [("socket", nf_socket config); ("socket-group", nf_group config); ("subnet", nf_subnet config); ("state-dir", state_dir);
   ("firecracker", rb_firecracker (nf_release config)); ("jailer", rb_jailer (nf_release config));
   ("kernel", rb_kernel (nf_release config))] ++ edge_opts (nf_edge config).
Definition opt_words (opts : Opts) : list string := flat_map (fun kv => ["--" +:+ kv.1; kv.2]) opts.
Definition unit_words (cirro_bin state_dir : string) (config : NodeFile) : list string :=
  [cirro_bin; "node"; "agent"] ++ opt_words (unit_opts state_dir config).

Lemma split_lines lines :
  Forall (fun l => str_contains newline l = false) lines ->
  str_split newline (foldr (fun line rest => line +:+ nl +:+ rest) EmptyString lines) = lines ++ [""].
Proof.
  induction 1 as [|l lines Hl _ IH]; [done|]. simpl. change (nl +:+ ?x) with (String newline x).
  rewrite str_split_app by done. by rewrite IH.
Qed.
Lemma str_join_plain (words : list string) : Forall plain words -> str_contains newline (str_join " " words) = false.
Proof.
  intros Hw. apply (str_all_not_contains (fun c => plain_char c || bool_decide (c = " "%char))); [|reflexivity].
  assert (Himp : forall w, str_all plain_char w = true -> str_all (fun c => plain_char c || bool_decide (c = " "%char)) w = true).
  { intros w. apply str_all_impl. intros c ->. done. }
  induction Hw as [|w words [_ Hp] Hws IH]; [done|]. destruct words as [|w' words]; [by apply Himp|].
  change (str_join " " (w :: w' :: words)) with (w +:+ " " +:+ str_join " " (w' :: words)).
  rewrite !str_all_app, IH, (Himp _ Hp). reflexivity.
Qed.
Lemma str_join_app1 w l : l <> [] -> str_join " " (w :: l) = w +:+ " " +:+ str_join " " l.
Proof. by destruct l. Qed.
Lemma str_join_opts w opts : str_join " " (w :: opt_words opts) = w +:+ foldr (fun kv rest => " --" +:+ kv.1 +:+ " " +:+ kv.2 +:+ rest) "" opts.
Proof.
  revert w. induction opts as [|[k v] opts IH]; intros w; [by rewrite str_app_nil_r|].
  change (opt_words ((k, v) :: opts)) with (("--" +:+ k) :: v :: opt_words opts).
  rewrite str_join_app1 by done. rewrite str_join_app1 by done. rewrite IH. simpl foldr. cbn [fst snd].
  change (" --" +:+ ?x) with (" " +:+ "--" +:+ x). by rewrite !str_app_assoc.
Qed.
(** The unit's command line is those words. *)
Lemma exec_line_words cirro_bin state_dir config :
  cirro_bin +:+ " node agent --socket " +:+ nf_socket config +:+ " --socket-group " +:+ nf_group config
       +:+ " --subnet " +:+ nf_subnet config +:+ " --state-dir " +:+ state_dir
       +:+ " --firecracker " +:+ rb_firecracker (nf_release config) +:+ " --jailer " +:+ rb_jailer (nf_release config)
       +:+ " --kernel " +:+ rb_kernel (nf_release config) +:+ agent_args (nf_edge config)
  = str_join " " (unit_words cirro_bin state_dir config).
Proof.
  unfold unit_words. cbn [app]. rewrite str_join_app1 by done. rewrite str_join_app1 by done. rewrite str_join_opts.
  unfold unit_opts, edge_opts, agent_args. cbn [foldr app fst snd].
  destruct (ec_http _), (ec_https _), (ec_acme_email _);
    cbv [option_list fmap option_fmap option_map from_option option_rect]; cbn [app foldr fst snd];
    rewrite ?str_app_nil_r, ?str_app_assoc; reflexivity.
Qed.
Lemma unit_exec_start cirro_bin state_dir config :
  Forall plain (unit_words cirro_bin state_dir config) ->
  exec_start (unit_text cirro_bin state_dir config) = Some (str_join " " (unit_words cirro_bin state_dir config)).
Proof.
  intros Hp. unfold exec_start, unit_text. rewrite exec_line_words. rewrite split_lines.
  - cbn [app omap list_omap].
    change (strip_prefix "ExecStart=" ("ExecStart=" +:+ ?x)) with (Some x). reflexivity.
  - repeat (constructor; [reflexivity|]). constructor; [|repeat (constructor; [reflexivity|]); constructor].
    rewrite str_contains_app, (str_join_plain _ Hp). reflexivity.
Qed.

Lemma digits_plain n : str_all plain_char (dec n) = true.
Proof.
  apply (str_all_impl is_digit); [|apply dec_all_digits]. intros c. unfold is_digit, plain_char.
  destruct c as [[] [] [] [] [] [] [] []]; vm_compute; congruence.
Qed.
Lemma dec_not_dash n s : starts_with "-" (dec n +:+ s) = false.
Proof.
  pose proof (dec_all_digits n) as Hd. pose proof (dec_nonempty n) as Hn.
  destruct (dec n) as [|c d]; [done|]. simpl in Hd. apply andb_prop in Hd as [Hc _].
  unfold starts_with. simpl. destruct (decide _) as [<-|]; [done|reflexivity].
Qed.
Lemma subnet_value s : value_like (subnet_display s).
Proof.
  unfold value_like, plain, subnet_display, ipv4_display. destruct (octets (network s)) as [[[a b] c] d].
  rewrite !str_app_assoc. split; [|apply dec_not_dash]. split.
  - pose proof (dec_nonempty a). by destruct (dec a).
  - by rewrite !str_all_app, !digits_plain.
Qed.
Lemma opt_words_plain opts :
  Forall (fun kv => kv.1 ∈ AGENT_FLAGS /\ value_like kv.2) opts -> Forall plain (opt_words opts).
Proof.
  induction 1 as [|[k v] opts [Hk [Hv _]] _ IH]; [constructor|]. cbn. constructor; [|by constructor].
  assert (Hall : Forall (fun k => str_all plain_char k = true) AGENT_FLAGS) by (repeat constructor).
  split; [done|]. simpl. by eapply Forall_forall in Hall.
Qed.

(** The agent [install] was asked for. *)
Definition agent_of (cfg : InstallConfig) (release : ReleaseBinaries) : AgentRun.Config :=
  AgentRun.mkConfig (ic_state_dir cfg) (ic_socket cfg) (ic_group cfg) (ic_subnet cfg)
    (rb_firecracker release) (rb_jailer release) (rb_kernel release)
    (ec_http (ic_edge cfg)) (ec_https (ic_edge cfg))
    ((fun email => mkAcmeConfig ACME_DIRECTORY email None) <$> ec_acme_email (ic_edge cfg)).
(** Nothing in an installation's settings needs quoting, and ACME has the
    edges it needs, as [clap] requires of [node install] too. *)
Record quotable (cfg : InstallConfig) (release : ReleaseBinaries) (cirro_bin : string) : Prop := {
  qt_bin : plain cirro_bin /\ starts_with "/" cirro_bin = true;
  qt_values : Forall value_like ([ic_state_dir cfg; ic_socket cfg; ic_group cfg; rb_firecracker release; rb_jailer release;
    rb_kernel release] ++ option_list (ec_http (ic_edge cfg)) ++ option_list (ec_https (ic_edge cfg))
    ++ option_list (ec_acme_email (ic_edge cfg)));
  qt_acme : is_Some (ec_acme_email (ic_edge cfg)) -> is_Some (ec_http (ic_edge cfg)) /\ is_Some (ec_https (ic_edge cfg));
}.
Lemma unit_opts_values cfg release cirro_bin :
  quotable cfg release cirro_bin ->
  Forall (fun kv => kv.1 ∈ AGENT_FLAGS /\ value_like kv.2) (unit_opts (ic_state_dir cfg) (node_file cfg release)) /\
  NoDup (unit_opts (ic_state_dir cfg) (node_file cfg release)).*1.
Proof.
  intros [_ Hv _]. unfold unit_opts, edge_opts, node_file. cbn [nf_socket nf_group nf_subnet nf_release nf_edge].
  rewrite !Forall_app in Hv. destruct Hv as (Hv & H1 & H2 & H3). split.
  - repeat (apply Forall_cons in Hv as [? Hv]). rewrite !Forall_app. split_and!.
    + pose proof (subnet_value (ic_subnet cfg)).
      repeat (apply Forall_cons; split; [split; [apply (bool_decide_unpack _); exact I|assumption]|]). constructor.
    + revert H1. destruct (ec_http _); [|constructor]. intros [? _]%Forall_cons. apply Forall_singleton. split; [apply (bool_decide_unpack _); exact I|done].
    + revert H2. destruct (ec_https _); [|constructor]. intros [? _]%Forall_cons. apply Forall_singleton. split; [apply (bool_decide_unpack _); exact I|done].
    + revert H3. destruct (ec_acme_email _); [|constructor]. intros [? _]%Forall_cons. apply Forall_singleton. split; [apply (bool_decide_unpack _); exact I|done].
  - destruct (ec_http _), (ec_https _), (ec_acme_email _); apply (bool_decide_unpack _); exact I.
Qed.

(** What systemd documents: a command line of plain words, the first a path,
    is those words. *)
Definition splits_words (systemd_words : string -> list string) : Prop :=
  forall w words, Forall plain (w :: words) -> starts_with "/" w = true -> systemd_words (str_join " " (w :: words)) = w :: words.
(** What [clap] documents: subcommands, then flags each with its value, are
    matched as such. *)
Definition matches_flags (clap : list string -> option (list string * Opts)) : Prop :=
  forall opts, Forall (fun kv => kv.1 ∈ AGENT_FLAGS /\ value_like kv.2) opts -> NoDup opts.*1 ->
    clap (["node"; "agent"] ++ opt_words opts) = Some (["node"; "agent"], opts).

Lemma unit_flags cfg release :
  subnet_wf (ic_subnet cfg) ->
  (is_Some (ec_acme_email (ic_edge cfg)) -> is_Some (ec_http (ic_edge cfg)) /\ is_Some (ec_https (ic_edge cfg))) ->
  let opts := unit_opts (ic_state_dir cfg) (node_file cfg release) in
  (c ← agent_flags opts; Some (hand (default DEFAULT_SOCKET (opt opts "socket")) c)) = Some (ToAgent (agent_of cfg release)).
Proof.
  intros Hwf Ha opts.
  assert (Ho : (opt opts "state-dir", opt opts "firecracker", opt opts "jailer", opt opts "kernel", opt opts "subnet",
      opt opts "socket-group", opt opts "socket", opt opts "http", opt opts "https", opt opts "acme-email",
      (opt opts "acme-directory", opt opts "acme-root")) =
    (Some (ic_state_dir cfg), Some (rb_firecracker release), Some (rb_jailer release), Some (rb_kernel release),
     Some (subnet_display (ic_subnet cfg)), Some (ic_group cfg), Some (ic_socket cfg), ec_http (ic_edge cfg),
     ec_https (ic_edge cfg), ec_acme_email (ic_edge cfg), (None, None))).
  { subst opts. unfold unit_opts, edge_opts, node_file. cbn [nf_socket nf_group nf_subnet nf_release nf_edge].
    destruct (ec_http (ic_edge cfg)), (ec_https (ic_edge cfg)), (ec_acme_email (ic_edge cfg)); reflexivity. }
  clearbody opts. injection Ho as H1 H2 H3 H4 H5 H6 H7 H8 H9 H10 H11 H12. unfold agent_flags.
  rewrite H1, H2, H3, H4, H5, H6, H7, H8, H9, H10, H11, H12. cbn [mbind option_bind default from_option id].
  rewrite (subnet_from_str_display _ Hwf). unfold agent_of. cbn [ok mbind option_bind].
  destruct (ec_acme_email (ic_edge cfg)) as [m|]; [|reflexivity].
  destruct (Ha (mk_is_Some _ _ eq_refl)) as [[a Ea] [b Eb]]. cbn [forallb]. rewrite H8, H9, Ea, Eb. reflexivity.
Qed.

(** C38: The unit an installation leaves starts the agent it was asked for,
    for settings that need no quoting: every value a word without spaces,
    quotes, backslashes, [%], [$] or [;] that doesn't start with a dash, the
    binary's path absolute, and an ACME account only with both edges (for a
    state dir with a space, see [spaced_state_dir_starts_nothing]). After an
    install that succeeded, the unit it wrote, split as systemd documents and
    matched as [clap] does, is then [cirro node agent] with the state dir,
    socket, group, subnet, edges and ACME account of the installation and the
    release it resolved, the one given if one was. *)
Theorem installed_unit_starts_the_agent (systemd_words : string -> list string)
    (clap : list string -> option (list string * Opts)) answers succeeds sha256 member (o : InstallOutcome)
    (cfg : InstallConfig) t (h h' : NodeHost) :
  splits_words systemd_words -> matches_flags clap -> subnet_wf (ic_subnet cfg) ->
  install answers succeeds sha256 member o cfg h = (t, h', Ok tt) ->
  exists release cirro_bin text, io_exe o = Ok cirro_bin /\
    nh_config h' = Some (Some (node_file cfg release)) /\
    nh_units h' !! unit_path (ic_unit_name cfg) = Some text /\
    (forall r, ic_release_override cfg = Some r -> release = r) /\
    (quotable cfg release cirro_bin -> started_by systemd_words clap text = Some (ToAgent (agent_of cfg release))).
Proof.
  intros Hsys Hclap Hwf Hinst.
  destruct (succ_does _ _ h tt h' (does_install answers succeeds sha256 member o cfg) (ex_intro _ t Hinst))
    as [_ (release & bin & Hbin & Hrel & Hc & Hu) _ _ _ _].
  exists release, bin, (unit_text bin (ic_state_dir cfg) (node_file cfg release)).
  split_and!; try done; [rewrite Hu; apply lookup_insert_eq|]. intros Q.
  destruct (unit_opts_values cfg release bin Q) as [Hv Hn]. destruct Q as [[Hb Hs] _ Ha].
  assert (Hp : Forall plain (unit_words bin (ic_state_dir cfg) (node_file cfg release))).
  { unfold unit_words. constructor; [done|]. do 2 (constructor; [done|]). by apply opt_words_plain. }
  unfold started_by. rewrite (unit_exec_start _ _ _ Hp). cbn [mbind option_bind].
  unfold unit_words in *. cbn [app] in Hp |- *. rewrite (Hsys _ _ Hp Hs).
  pose proof (Hclap _ Hv Hn) as Hcl. cbn [app] in Hcl. rewrite Hcl. cbn [mbind option_bind].
  rewrite bool_decide_true by done. by apply unit_flags.
Qed.

(** A systemd and a [clap] that split at spaces and take flags in pairs. *)
Definition space_words (line : string) : list string := str_split " " line.
Fixpoint pairs (words : list string) : option Opts :=
  match words with
  | [] => Some []
  | k :: v :: words => k ← strip_prefix "--" k; rest ← pairs words; Some ((k, v) :: rest)
  | _ => None
  end.
Definition pair_flags (args : list string) : option (list string * Opts) :=
  match args with
  | a :: b :: args => opts ← pairs args; Some ([a; b], opts)
  | _ => None
  end.
Lemma plain_no_space w : plain w -> str_contains " " w = false.
Proof. intros [_ Hp]. by apply (str_all_not_contains plain_char). Qed.
Lemma space_words_split : splits_words space_words.
Proof.
  intros w words Hp _. unfold space_words. revert w Hp. induction words as [|w' words IH]; intros w [Hw Hws]%Forall_cons.
  - simpl. apply str_split_single. by apply plain_no_space.
  - rewrite str_join_app1 by done. change (" " +:+ ?x) with (String " " x). rewrite str_split_app by by apply plain_no_space.
    by rewrite IH.
Qed.
Lemma pair_flags_match : matches_flags pair_flags.
Proof.
  intros opts _ _. unfold pair_flags. cbn [app]. assert (E : pairs (opt_words opts) = Some opts).
  { induction opts as [|[k v] opts IH]; [done|]. cbn [opt_words flat_map app fst snd]. cbn [pairs].
    rewrite strip_prefix_app. cbn [mbind option_bind]. change (flat_map _ opts) with (opt_words opts). by rewrite IH. }
  by rewrite E.
Qed.

Definition ex_installation (state_dir : string) : InstallConfig :=
  mkInstallConfig state_dir "/run/cirro/agent.sock" "cirro" (mkSubnet (ipv4_new 10 77 0 0) 24) "cirro"
    (Some (mkReleaseBinaries "/opt/fc" "/opt/jailer" "/opt/vmlinux"))
    (mkEdgeConfig (Some "0.0.0.0:80") (Some "0.0.0.0:443") (Some "ops@example.com")).
Definition ex_unit (state_dir : string) : list NodeHost * NodeHost * result string unit :=
  install no_answers (fun _ _ => false) toy_sha256 toy_member ex_install (ex_installation state_dir) (ex_before ∅).

Lemma installed_unit_starts_the_agent_witness :
  exists text, nh_units (ex_unit "/var/lib/cirro").1.2 !! unit_path "cirro" = Some text /\
    started_by space_words pair_flags text =
      Some (ToAgent (agent_of (ex_installation "/var/lib/cirro") (mkReleaseBinaries "/opt/fc" "/opt/jailer" "/opt/vmlinux"))).
Proof.
  assert (Hr : (ex_unit "/var/lib/cirro").2 = Ok tt) by (vm_compute; reflexivity).
  destruct (ex_unit "/var/lib/cirro") as [[t h'] r] eqn:E. cbn [fst snd] in Hr |- *. subst r.
  destruct (installed_unit_starts_the_agent space_words pair_flags no_answers (fun _ _ => false) toy_sha256 toy_member
    ex_install (ex_installation "/var/lib/cirro") t (ex_before ∅) h'
    space_words_split pair_flags_match) as (release & bin & text & Hb & _ & Hu & Hrel & Hs).
  - split; [simpl; lia|by vm_compute|by vm_compute].
  - exact E.
  - rewrite (Hrel _ eq_refl) in Hs. injection Hb as <-. exists text. split; [exact Hu|]. apply Hs. split.
    + split; [split; [done|reflexivity]|reflexivity].
    + repeat (constructor; [split; [split; [done|reflexivity]|reflexivity]|]). constructor.
    + intros _. split; by eexists.
Defined.

(** The unit's values are not quoted: an install into a directory with a
    space in its name succeeds, and its unit starts no agent. *)
Theorem spaced_state_dir_starts_nothing :
  let run := ex_unit "/srv/my cirro" in
  let text := nh_units run.1.2 !! unit_path "cirro" in
  run.2 = Ok tt /\ is_Some text /\ text ≫= started_by space_words pair_flags = None.
Proof.
  split; [vm_compute; reflexivity|]. split; [|vm_compute; reflexivity]. apply (bool_decide_unpack _). vm_compute. exact I.
Qed.
